(** * Drawflow: the graph store of the editor, embedded in Rocq

    A shallow embedding of [src/src/drawflow.js]: the store
    [this.drawflow.drawflow] (module name -> node id -> node record), the
    operations that mutate it, and the part of the view those operations
    read back (the connection and node elements under [precanvas]).

    Conventions of the embedding.
    - A JavaScript object used as a map is an association list in property
      enumeration order ([obj]).  Strings are taken as sequences of ASCII
      characters.
    - A connection entry and a node record are records of their fields:
      their properties are taken in the order in which the editor writes
      them, so that entries with equal fields have equal JSON text.
    - Node ids handed to the API are strings, as the JSDoc of every method
      says ([@param {string} id]).
    - A method is a function from the editor state to a [result]: it either
      returns, or throws with the state as it was at the [throw].
    - [dispatch] appends to the list [dispatched], which is what a listener
      registered for every event observes; listeners themselves are host
      code and are taken not to call back into the editor.
    - The editor has its default options: [reroute] is off, so that no
      connection element has [.point] children, and [useuuid] is off.
    - Node ids and port labels are taken not to be names that
      [Object.prototype] defines ([constructor], [toString], ...), and to
      be such that the selectors and class names the code builds of them
      are valid.  The tests [this.drawflow.drawflow[name]] of the module
      operations and [this.events[event]] of the event bus do find the
      inherited names ([inherited]); the active module [this.module] is an
      ordinary name ([changeModule] leaves the model with any other).
    - The counter [nodeId] is a natural number, taken to stay below 2^53,
      where [this.nodeId++] on a double is exact.
    - The body of a node (its [html] and what the payload writes into it)
      is not part of the view below; a call that depends on it is
      [OutsideModel].
    - Of the path geometry ([updateConnectionNodes], [createCurvature]) the
      embedding keeps which elements are visited and what is thrown; the
      [d] attribute of a path is not part of the view. *)

From Stdlib Require Import String Ascii List Bool Arith NArith ZArith Lia.
From Stdlib Require Import DecimalString DecimalN Floats.
Import ListNotations.
Open Scope string_scope.
Open Scope list_scope.

Set Implicit Arguments.
Set Warnings "-register-all".

(* ================================================================== *)
(** ** JavaScript strings and numerals *)

(** [s.slice(n)] for a non-negative [n]. *)
Fixpoint slice (n : nat) (s : string) : string :=
  match n, s with
  | O, _ => s
  | S n', String _ r => slice n' r
  | S _, EmptyString => EmptyString
  end.

Definition is_digit (c : ascii) : bool :=
  (48 <=? nat_of_ascii c)%nat && (nat_of_ascii c <=? 57)%nat.

(** The white space [parseInt] skips (its ASCII part). *)
Definition is_white_space (c : ascii) : bool :=
  let n := nat_of_ascii c in
  ((9 <=? n)%nat && (n <=? 13)%nat) || (n =? 32)%nat.

Fixpoint skip_white_space (s : string) : string :=
  match s with
  | String c r => if is_white_space c then skip_white_space r else s
  | EmptyString => s
  end.

Definition hex_value (c : ascii) : option Z :=
  let n := nat_of_ascii c in
  if is_digit c then Some (Z.of_nat (n - 48))
  else if ((97 <=? n)%nat && (n <=? 102)%nat) then Some (Z.of_nat (n - 87))
  else if ((65 <=? n)%nat && (n <=? 70)%nat) then Some (Z.of_nat (n - 55))
  else None.

(** The longest prefix of digits of the radix, as a number; [None] when the
    prefix is empty. *)
Fixpoint digits_prefix (radix : Z) (acc : option Z) (s : string) : option Z :=
  match s with
  | String c r =>
      match hex_value c with
      | Some d =>
          if (d <? radix)%Z
          then digits_prefix radix
                 (Some (match acc with Some a => a * radix + d | None => d end)%Z) r
          else acc
      | None => acc
      end
  | EmptyString => acc
  end.

(** [parseInt(s)] with no radix argument; [None] is [NaN].  Numbers are
    exact integers here (a double is exact up to 2^53). *)
Definition parseInt (s : string) : option Z :=
  let s := skip_white_space s in
  let '(sign, s) :=
    match s with
    | String "-" r => ((-1)%Z, r)
    | String "+" r => (1%Z, r)
    | _ => (1%Z, s)
    end in
  let '(radix, s) :=
    match s with
    | String "0" (String "x" r) => (16%Z, r)
    | String "0" (String "X" r) => (16%Z, r)
    | _ => (10%Z, s)
    end in
  match digits_prefix radix None s with
  | Some v => Some (sign * v)%Z
  | None => None
  end.

(** [a < b] on two results of [parseInt]: false as soon as one is [NaN]. *)
Definition js_lt (a b : option Z) : bool :=
  match a, b with
  | Some x, Some y => (x <? y)%Z
  | _, _ => false
  end.

(** [a >= b], likewise. *)
Definition js_ge (a b : option Z) : bool :=
  match a, b with
  | Some x, Some y => (y <=? x)%Z
  | _, _ => false
  end.

(** A number written out by string concatenation (['input_' + n]). *)
Definition string_of_N (n : N) : string := NilZero.string_of_uint (N.to_uint n).
Definition string_of_Z (z : Z) : string := NilZero.string_of_int (Z.to_int z).

(** The value of a string that is a plain decimal numeral, which is how
    the coercion in [s - 1] reads it; the coercion of any other string is
    outside the embedding. *)
Definition decimal (s : string) : option N :=
  match s with
  | EmptyString => None
  | _ => if forallb is_digit (list_ascii_of_string s)
         then option_map N.of_uint (NilZero.uint_of_string s)
         else None
  end.

(* ================================================================== *)
(** ** Objects as ordered maps *)

Definition obj (A : Type) : Type := list (string * A).

Fixpoint obj_get {A} (k : string) (o : obj A) : option A :=
  match o with
  | [] => None
  | (k', v) :: r => if k' =? k then Some v else obj_get k r
  end.

(** [Object.keys(o)] and the values in the same order. *)
Definition obj_keys {A} (o : obj A) : list string := map fst o.
Definition obj_values {A} (o : obj A) : list A := map snd o.

(** A key that is an array index ("0", "1", ... with no leading zero, below
    2^32 - 1): such keys are enumerated first, in ascending order. *)
Definition array_index (k : string) : option N :=
  match decimal k with
  | Some n => if (string_of_N n =? k) && (n <? 4294967295)%N then Some n else None
  | None => None
  end.

Fixpoint obj_replace {A} (k : string) (v : A) (o : obj A) : obj A :=
  match o with
  | [] => []
  | (k', v') :: r => if k' =? k then (k', v) :: r else (k', v') :: obj_replace k v r
  end.

Fixpoint obj_insert_index {A} (i : N) (k : string) (v : A) (o : obj A) : obj A :=
  match o with
  | [] => [(k, v)]
  | (k', v') :: r =>
      match array_index k' with
      | Some j => if (j <? i)%N then (k', v') :: obj_insert_index i k v r
                  else (k, v) :: o
      | None => (k, v) :: o
      end
  end.

(** [o[k] = v]: an existing property keeps its place; a new one is placed
    by the enumeration order (array indices ascending, then the other keys
    in order of creation). *)
Definition obj_set {A} (k : string) (v : A) (o : obj A) : obj A :=
  match obj_get k o with
  | Some _ => obj_replace k v o
  | None =>
      match array_index k with
      | Some i => obj_insert_index i k v o
      | None => o ++ [(k, v)]
      end
  end.

(** [delete o[k]]. *)
Fixpoint obj_delete {A} (k : string) (o : obj A) : obj A :=
  match o with
  | [] => []
  | (k', v) :: r => if k' =? k then r else (k', v) :: obj_delete k r
  end.

(** A property name computed from a value that may be [undefined]. *)
Definition key_of (k : option string) : string :=
  match k with
  | Some s => s
  | None => "undefined"
  end.

(** [a === b] where [b] may be [undefined] and [a] is a string. *)
Definition same_key (a : string) (b : option string) : bool :=
  match b with
  | Some s => a =? s
  | None => false
  end.

Definition option_string_eqb (a b : option string) : bool :=
  match a, b with
  | Some x, Some y => x =? y
  | None, None => true
  | _, _ => false
  end.

(** The names every object inherits from [Object.prototype]: [o[k]] finds
    a value for them in an object that has no such property of its own. *)
Definition inherited (k : string) : bool :=
  existsb (String.eqb k)
    ["constructor"; "__defineGetter__"; "__defineSetter__"; "hasOwnProperty";
     "__lookupGetter__"; "__lookupSetter__"; "isPrototypeOf"; "propertyIsEnumerable";
     "toString"; "valueOf"; "__proto__"; "toLocaleString"].

(** [s.replace(pattern, "")] for a string [pattern] that is not empty: the
    first occurrence goes. *)
Fixpoint replace_first (pattern s : string) : string :=
  match s with
  | EmptyString => s
  | String c r =>
      if String.prefix pattern s then slice (String.length pattern) s
      else String c (replace_first pattern r)
  end.

(** [s.split(" ")] *)
Fixpoint split_spaces (cur s : string) : list string :=
  match s with
  | EmptyString => [cur]
  | String c r =>
      if Ascii.eqb c " " then cur :: split_spaces "" r
      else split_spaces (cur ++ String c "") r
  end.

(* ================================================================== *)
(** ** Values the editor stores without reading them *)

Inductive jsval : Type :=
| JUndefined
| JNull
| JBool (b : bool)
| JNum (f : float)
| JStr (s : string)
| JArr (l : list jsval)
| JObj (l : list (string * jsval)).

(** [JSON.parse(JSON.stringify(v))] for a value in an array or property
    position: [undefined] in an array and non-finite numbers become [null],
    a property whose value is [undefined] is dropped, [-0] is written "0". *)
Fixpoint json_clone (v : jsval) : jsval :=
  match v with
  | JUndefined => JNull
  | JNull => JNull
  | JBool b => JBool b
  | JNum f => if PrimFloat.is_finite f
              then (if PrimFloat.is_zero f && PrimFloat.get_sign f
                    then JNum PrimFloat.zero else JNum f)
              else JNull
  | JStr s => JStr s
  | JArr l => JArr (map json_clone l)
  | JObj l =>
      JObj ((fix props (l : list (string * jsval)) : list (string * jsval) :=
               match l with
               | [] => []
               | (k, JUndefined) :: r => props r
               | (k, x) :: r => (k, json_clone x) :: props r
               end) l)
  end.

(** The same for the value of a named field of a record: a field that is
    [undefined] is dropped by [stringify] and reads [undefined] again. *)
Definition json_clone_field (v : jsval) : jsval :=
  match v with
  | JUndefined => JUndefined
  | _ => json_clone v
  end.

(** Values that [JSON] text represents exactly. *)
Fixpoint json_exact (v : jsval) : bool :=
  match v with
  | JUndefined => false
  | JNull | JBool _ | JStr _ => true
  | JNum f => PrimFloat.is_finite f && negb (PrimFloat.is_zero f && PrimFloat.get_sign f)
  | JArr l => forallb json_exact l
  | JObj l =>
      (fix props (l : list (string * jsval)) : bool :=
         match l with
         | [] => true
         | (_, x) :: r => json_exact x && props r
         end) l
  end.

Definition json_exact_field (v : jsval) : bool :=
  match v with
  | JUndefined => true
  | _ => json_exact v
  end.

Fixpoint jsval_eqb (a b : jsval) : bool :=
  match a, b with
  | JUndefined, JUndefined => true
  | JNull, JNull => true
  | JBool x, JBool y => Bool.eqb x y
  | JNum x, JNum y => PrimFloat.eqb x y
  | JStr x, JStr y => x =? y
  | JArr x, JArr y =>
      (fix all2 (x y : list jsval) : bool :=
         match x, y with
         | [], [] => true
         | u :: x', v :: y' => jsval_eqb u v && all2 x' y'
         | _, _ => false
         end) x y
  | JObj x, JObj y =>
      (fix all2 (x y : list (string * jsval)) : bool :=
         match x, y with
         | [], [] => true
         | (j, u) :: x', (k, v) :: y' => (j =? k) && jsval_eqb u v && all2 x' y'
         | _, _ => false
         end) x y
  | _, _ => false
  end.

(* ================================================================== *)
(** ** The store *)

(** A reroute waypoint [{pos_x, pos_y}]. *)
Record point : Type := { pos_x : jsval; pos_y : jsval }.

(** An entry of an output port, [{node, output, points?}]: the peer node
    and the label of the peer's input port. *)
Record out_conn : Type :=
  { oc_node : string; oc_output : string; oc_points : option (list point) }.

(** An entry of an input port, [{node, input, points?}]: the peer node and
    the label of the peer's output port. *)
Record in_conn : Type :=
  { ic_node : string; ic_input : string; ic_points : option (list point) }.

(** The [id] field of a node record: the counter ([useuuid] off) or a
    string. *)
Inductive node_id : Type :=
| IdNum (n : N)
| IdStr (s : string).

Definition id_string (i : node_id) : string :=
  match i with
  | IdNum n => string_of_N n
  | IdStr s => s
  end.

(** A node record.  [n_inputs] and [n_outputs] map a port label to the
    [connections] array of the port. *)
Record node : Type :=
  { n_id : node_id;
    n_name : jsval;
    n_data : jsval;
    n_class : jsval;
    n_html : jsval;
    n_typenode : jsval;
    n_inputs : obj (list in_conn);
    n_outputs : obj (list out_conn);
    n_pos_x : jsval;
    n_pos_y : jsval }.

(** [this.drawflow.drawflow]: module name -> ([data]:) node id -> node. *)
Definition store : Type := obj (obj node).

Definition with_inputs (n : node) (i : obj (list in_conn)) : node :=
  {| n_id := n_id n; n_name := n_name n; n_data := n_data n; n_class := n_class n;
     n_html := n_html n; n_typenode := n_typenode n;
     n_inputs := i; n_outputs := n_outputs n;
     n_pos_x := n_pos_x n; n_pos_y := n_pos_y n |}.

Definition with_outputs (n : node) (o : obj (list out_conn)) : node :=
  {| n_id := n_id n; n_name := n_name n; n_data := n_data n; n_class := n_class n;
     n_html := n_html n; n_typenode := n_typenode n;
     n_inputs := n_inputs n; n_outputs := o;
     n_pos_x := n_pos_x n; n_pos_y := n_pos_y n |}.

(** *** [JSON.parse(JSON.stringify(...))] on the store *)

Definition clone_point (p : point) : point :=
  {| pos_x := json_clone_field (pos_x p); pos_y := json_clone_field (pos_y p) |}.

Definition clone_out_conn (c : out_conn) : out_conn :=
  {| oc_node := oc_node c; oc_output := oc_output c;
     oc_points := option_map (map clone_point) (oc_points c) |}.

Definition clone_in_conn (c : in_conn) : in_conn :=
  {| ic_node := ic_node c; ic_input := ic_input c;
     ic_points := option_map (map clone_point) (ic_points c) |}.

Definition clone_obj {A} (f : A -> A) (o : obj A) : obj A :=
  map (fun kv => (fst kv, f (snd kv))) o.

Definition clone_node (n : node) : node :=
  {| n_id := n_id n;
     n_name := json_clone_field (n_name n);
     n_data := json_clone_field (n_data n);
     n_class := json_clone_field (n_class n);
     n_html := json_clone_field (n_html n);
     n_typenode := json_clone_field (n_typenode n);
     n_inputs := clone_obj (map clone_in_conn) (n_inputs n);
     n_outputs := clone_obj (map clone_out_conn) (n_outputs n);
     n_pos_x := json_clone_field (n_pos_x n);
     n_pos_y := json_clone_field (n_pos_y n) |}.

Definition clone_store (df : store) : store := clone_obj (clone_obj clone_node) df.

(** *** Stores that JSON text represents exactly *)

Definition exact_point (p : point) : bool :=
  json_exact_field (pos_x p) && json_exact_field (pos_y p).

Definition exact_points (p : option (list point)) : bool :=
  match p with
  | Some l => forallb exact_point l
  | None => true
  end.

Definition exact_node (n : node) : bool :=
  json_exact_field (n_name n) && json_exact_field (n_data n)
  && json_exact_field (n_class n) && json_exact_field (n_html n)
  && json_exact_field (n_typenode n)
  && forallb (fun kv => forallb (fun c => exact_points (ic_points c)) (snd kv)) (n_inputs n)
  && forallb (fun kv => forallb (fun c => exact_points (oc_points c)) (snd kv)) (n_outputs n)
  && json_exact_field (n_pos_x n) && json_exact_field (n_pos_y n).

Definition exact_store (df : store) : bool :=
  forallb (fun m => forallb (fun kv => exact_node (snd kv)) (snd m)) df.

(** *** Reading and writing along a path of the store

    A read through a missing module, node or port is a read of a property
    of [undefined]: it throws a [TypeError]; [None] stands for that. *)

Definition node_at (df : store) (m id : string) : option node :=
  match obj_get m df with
  | Some data => obj_get id data
  | None => None
  end.

Definition output_connections (df : store) (m id output_class : string)
  : option (list out_conn) :=
  match node_at df m id with
  | Some n => obj_get output_class (n_outputs n)
  | None => None
  end.

Definition input_connections (df : store) (m id input_class : string)
  : option (list in_conn) :=
  match node_at df m id with
  | Some n => obj_get input_class (n_inputs n)
  | None => None
  end.

Definition set_node (df : store) (m id : string) (n : node) : store :=
  match obj_get m df with
  | Some data => obj_set m (obj_set id n data) df
  | None => df
  end.

Definition set_output_connections (df : store) (m id output_class : string)
  (l : list out_conn) : store :=
  match node_at df m id with
  | Some n => set_node df m id (with_outputs n (obj_set output_class l (n_outputs n)))
  | None => df
  end.

Definition set_input_connections (df : store) (m id input_class : string)
  (l : list in_conn) : store :=
  match node_at df m id with
  | Some n => set_node df m id (with_inputs n (obj_set input_class l (n_inputs n)))
  | None => df
  end.

(** [getModuleFromNodeId]: the two nested [Object.keys(...).map] loops
    assign [nameModule] at every match, so the last module that holds the
    id wins; [None] is [undefined]. *)
Definition getModuleFromNodeId (df : store) (id : string) : option string :=
  fold_left
    (fun nameModule (m : string * obj node) =>
       fold_left
         (fun nameModule (kv : string * node) =>
            if fst kv =? id then Some (fst m) else nameModule)
         (snd m) nameModule)
    df None.

(** [array.findIndex(p)]; [None] is [-1]. *)
Fixpoint findIndex {A} (p : A -> bool) (l : list A) : option nat :=
  match l with
  | [] => None
  | x :: r => if p x then Some O else option_map S (findIndex p r)
  end.

Fixpoint remove_nth {A} (i : nat) (l : list A) : list A :=
  match l, i with
  | [], _ => []
  | _ :: r, O => r
  | x :: r, S j => x :: remove_nth j r
  end.

(** [array.splice(i, 1)] with [i] a result of [findIndex]: index [-1]
    counts from the end, so it removes the last element. *)
Definition splice1 {A} (i : option nat) (l : list A) : list A :=
  match i with
  | Some n => remove_nth n l
  | None => removelast l
  end.

(* ================================================================== *)
(** ** The view, as far as the store operations read it *)

(** A [classList]: the tokens in order, none twice. *)
Definition classList : Type := list string.

Definition has_class (c : string) (l : classList) : bool := existsb (String.eqb c) l.

Definition classList_add (c : string) (l : classList) : classList :=
  if has_class c l then l else l ++ [c].

Definition classList_remove (c : string) (l : classList) : classList :=
  filter (fun x => negb (x =? c)) l.

(** A selector [.c1.c2...]: every class is on the element. *)
Definition matches (selector : list string) (l : classList) : bool :=
  forallb (fun c => has_class c l) selector.

(** A node element [div#<id>.drawflow-node] with the class lists of its
    [.inputs > .input] and [.outputs > .output] children. *)
Record node_ele : Type :=
  { ele_id : string;
    ele_inputs : list classList;
    ele_outputs : list classList }.

(** The class list of the [svg.connection] element drawn for a connection:
    [connection], [node_in_node-<in>], [node_out_node-<out>], the output
    label, the input label, added in this order. *)
Definition connection_classes (id_input id_output output_class input_class : string)
  : classList :=
  classList_add input_class
    (classList_add output_class
       (classList_add ("node_out_node-" ++ id_output)
          (classList_add ("node_in_node-" ++ id_input)
             (classList_add "connection" [])))).

(** [listclass[i]]; [None] is [undefined]. *)
Definition item (i : nat) (l : classList) : option string := nth_error l i.

(* ================================================================== *)
(** ** Events *)

Inductive event : Type :=
| nodeCreated (id : N)
| nodeRemoved (id : string)
| connectionCreated (output_id input_id output_class input_class : string)
| connectionRemoved (output_id input_id output_class input_class : string)
| moduleCreated (name : string)
| moduleChanged (name : string)
| moduleRemoved (name : string)
| zoomed (level : float)
| exported (data : store)
| imported.

(* ================================================================== *)
(** ** The editor *)

Record editor : Type :=
  { drawflow : store;                 (* this.drawflow.drawflow *)
    module : string;                  (* this.module *)
    nodeId : N;                       (* this.nodeId *)
    node_eles : list node_ele;        (* the node elements under precanvas *)
    connection_eles : list classList; (* the svg.connection elements under precanvas *)
    zoom : float;
    zoom_max : float;
    zoom_min : float;
    zoom_value : float;
    zoom_last_value : float;
    canvas_x : float;
    canvas_y : float;
    dispatched : list event }.

(** The state a [new Drawflow(container)] is in after [start()]. *)
Definition new_editor : editor :=
  {| drawflow := [("Home", [])];
     module := "Home";
     nodeId := 1;
     node_eles := [];
     connection_eles := [];
     zoom := 1;
     zoom_max := 0x1.999999999999ap+0;   (* 1.6 *)
     zoom_min := 0.5;
     zoom_value := 0x1.999999999999ap-4; (* 0.1 *)
     zoom_last_value := 1;
     canvas_x := 0;
     canvas_y := 0;
     dispatched := [] |}.

Definition with_drawflow (s : editor) (df : store) : editor :=
  {| drawflow := df; module := module s; nodeId := nodeId s;
     node_eles := node_eles s; connection_eles := connection_eles s;
     zoom := zoom s; zoom_max := zoom_max s; zoom_min := zoom_min s;
     zoom_value := zoom_value s; zoom_last_value := zoom_last_value s;
     canvas_x := canvas_x s; canvas_y := canvas_y s;
     dispatched := dispatched s |}.

Definition with_module (s : editor) (m : string) : editor :=
  {| drawflow := drawflow s; module := m; nodeId := nodeId s;
     node_eles := node_eles s; connection_eles := connection_eles s;
     zoom := zoom s; zoom_max := zoom_max s; zoom_min := zoom_min s;
     zoom_value := zoom_value s; zoom_last_value := zoom_last_value s;
     canvas_x := canvas_x s; canvas_y := canvas_y s;
     dispatched := dispatched s |}.

Definition with_nodeId (s : editor) (n : N) : editor :=
  {| drawflow := drawflow s; module := module s; nodeId := n;
     node_eles := node_eles s; connection_eles := connection_eles s;
     zoom := zoom s; zoom_max := zoom_max s; zoom_min := zoom_min s;
     zoom_value := zoom_value s; zoom_last_value := zoom_last_value s;
     canvas_x := canvas_x s; canvas_y := canvas_y s;
     dispatched := dispatched s |}.

Definition with_node_eles (s : editor) (l : list node_ele) : editor :=
  {| drawflow := drawflow s; module := module s; nodeId := nodeId s;
     node_eles := l; connection_eles := connection_eles s;
     zoom := zoom s; zoom_max := zoom_max s; zoom_min := zoom_min s;
     zoom_value := zoom_value s; zoom_last_value := zoom_last_value s;
     canvas_x := canvas_x s; canvas_y := canvas_y s;
     dispatched := dispatched s |}.

Definition with_connection_eles (s : editor) (l : list classList) : editor :=
  {| drawflow := drawflow s; module := module s; nodeId := nodeId s;
     node_eles := node_eles s; connection_eles := l;
     zoom := zoom s; zoom_max := zoom_max s; zoom_min := zoom_min s;
     zoom_value := zoom_value s; zoom_last_value := zoom_last_value s;
     canvas_x := canvas_x s; canvas_y := canvas_y s;
     dispatched := dispatched s |}.

Definition with_zoom (s : editor) (z zl cx cy : float) : editor :=
  {| drawflow := drawflow s; module := module s; nodeId := nodeId s;
     node_eles := node_eles s; connection_eles := connection_eles s;
     zoom := z; zoom_max := zoom_max s; zoom_min := zoom_min s;
     zoom_value := zoom_value s; zoom_last_value := zl;
     canvas_x := cx; canvas_y := cy;
     dispatched := dispatched s |}.

Definition with_dispatched (s : editor) (l : list event) : editor :=
  {| drawflow := drawflow s; module := module s; nodeId := nodeId s;
     node_eles := node_eles s; connection_eles := connection_eles s;
     zoom := zoom s; zoom_max := zoom_max s; zoom_min := zoom_min s;
     zoom_value := zoom_value s; zoom_last_value := zoom_last_value s;
     canvas_x := canvas_x s; canvas_y := canvas_y s;
     dispatched := l |}.

(* ================================================================== *)
(** ** Methods: state, exceptions *)

Inductive error : Type :=
| TypeError                  (* a property of undefined or null was read *)
| ReferenceError             (* a name that is not declared was read *)
| SyntaxError                (* JSON.parse(undefined) *)
| DOMException               (* classList.add of an empty token, or one with white space *)
| Error (message : string).  (* throw new Error(message) *)

(** What a call does: it returns [a] in state [s], or it throws [e] in
    state [s].  [OutsideModel] marks a call that leaves the fragment of
    JavaScript embedded here (the coercion of a port label that is no plain
    numeral, the body of a node, a module name that is found by
    inheritance). *)
Inductive result (A : Type) : Type :=
| Normal (s : editor) (a : A)
| Throw (s : editor) (e : error)
| OutsideModel.

Arguments Normal {A} s a.
Arguments Throw {A} s e.
Arguments OutsideModel {A}.

Definition M (A : Type) : Type := editor -> result A.

Definition ret {A} (a : A) : M A := fun s => Normal s a.

Definition bind {A B} (m : M A) (k : A -> M B) : M B :=
  fun s =>
    match m s with
    | Normal s' a => k a s'
    | Throw s' e => Throw s' e
    | OutsideModel => OutsideModel
    end.

Definition throw {A} (e : error) : M A := fun s => Throw s e.
Definition outside_model {A} : M A := fun _ => OutsideModel.
Definition gets {A} (f : editor -> A) : M A := fun s => Normal s (f s).
Definition modify (f : editor -> editor) : M unit := fun s => Normal (f s) tt.

Declare Scope method_scope.
Delimit Scope method_scope with method.
Notation "x <- m ;; k" := (bind m (fun x => k))
  (at level 61, m at next level, right associativity) : method_scope.
Notation "m ;; k" := (bind m (fun _ => k))
  (at level 61, right associativity) : method_scope.
Open Scope method_scope.

(** A read that throws a [TypeError] when it goes through [undefined]. *)
Definition defined {A} (o : option A) : M A :=
  match o with
  | Some a => ret a
  | None => throw TypeError
  end.

(** [array.forEach(f)]. *)
Fixpoint forEach {A} (l : list A) (f : A -> M unit) : M unit :=
  match l with
  | [] => ret tt
  | x :: r => f x ;; forEach r f
  end.

Definition when (b : bool) (m : M unit) : M unit := if b then m else ret tt.

(** [this.dispatch(event, details)]. *)
Definition dispatch (e : event) : M unit :=
  modify (fun s => with_dispatched s (dispatched s ++ [e])).

Definition set_drawflow (df : store) : M unit := modify (fun s => with_drawflow s df).

(* ================================================================== *)
(** ** Reading a node *)

(** [getNodeFromId(id)]: a [JSON] copy of the record.  With no module for
    the id, [this.drawflow.drawflow[undefined]] is read; if a module of
    that name exists and has no such node, [JSON.parse(undefined)] throws. *)
Definition getNodeFromId (id : string) : M node :=
  df <- gets drawflow ;;
  let moduleName := getModuleFromNodeId df id in
  data <- defined (obj_get (key_of moduleName) df) ;;
  match obj_get id data with
  | Some n => ret (clone_node n)
  | None => throw SyntaxError
  end.

(* ================================================================== *)
(** ** Connections *)

(** [...outputs[output_class].connections.push(c)] *)
Definition push_output (m id output_class : string) (c : out_conn) : M unit :=
  df <- gets drawflow ;;
  l <- defined (output_connections df m id output_class) ;;
  set_drawflow (set_output_connections df m id output_class (l ++ [c])).

(** [...inputs[input_class].connections.push(c)] *)
Definition push_input (m id input_class : string) (c : in_conn) : M unit :=
  df <- gets drawflow ;;
  l <- defined (input_connections df m id input_class) ;;
  set_drawflow (set_input_connections df m id input_class (l ++ [c])).

(** [this.precanvas.appendChild(connection)] *)
Definition append_connection_ele (classes : classList) : M unit :=
  modify (fun s => with_connection_eles s (connection_eles s ++ [classes])).

(** [this.container.querySelector(selector).remove()] on the connection
    elements: the first match goes; no match is a call on [null]. *)
Definition remove_connection_ele (selector : list string) : M unit :=
  eles <- gets connection_eles ;;
  i <- defined (findIndex (matches selector) eles) ;;
  modify (fun s => with_connection_eles s (remove_nth i eles)).

(** [querySelectorAll(selector)] on the connection elements: the matches,
    each with its position among the elements. *)
Definition querySelectorAll (selector : list string) (eles : list classList)
  : list (nat * classList) :=
  filter (fun e => matches selector (snd e)) (combine (seq 0 (length eles)) eles).

(** The classes of the three [div]s every node element holds around its
    ports and its body. *)
Definition node_wrappers : list string := ["inputs"; "outputs"; "drawflow_content_node"].

(** One turn of the first loop of [updateConnectionNodes], on an element
    [e] with no [.point] child: the node element named by the second class
    is looked up, then in it the first element of the fifth class, whose
    position is read; then the undeclared [precanvasWitdhZoom] is read.  An
    element of that class that is no port and no wrapper could only be in
    the body of the node. *)
Definition update_connection (nodes : list node_ele) (e : nat * classList) : M unit :=
  let listclass := snd e in
  lc1 <- defined (item 1 listclass) ;;
  elemtsearchId <-
    defined (find (fun n => ele_id n =? replace_first "node_in_" lc1) nodes) ;;
  let port := key_of (item 4 listclass) in
  if existsb (has_class port) (ele_inputs elemtsearchId ++ ele_outputs elemtsearchId)
     || existsb (String.eqb port) node_wrappers
  then throw ReferenceError
  else outside_model.

(** [updateConnectionNodes(id)], [id] of the form [node-X]: the loop over
    the elements of class [node_out_<id>]; the loop over those of class
    [node_in_<id>] has an empty body. *)
Definition updateConnectionNodes (id : string) : M unit :=
  eles <- gets connection_eles ;;
  nodes <- gets node_eles ;;
  forEach (querySelectorAll [("node_out_" ++ id)%string] eles) (update_connection nodes).

Definition addConnection (id_output id_input output_class input_class : string)
  : M unit :=
  df <- gets drawflow ;;
  let nodeOneModule := getModuleFromNodeId df id_output in
  let nodeTwoModule := getModuleFromNodeId df id_input in
  when (option_string_eqb nodeOneModule nodeTwoModule)
    (dataNode <- getNodeFromId id_output ;;
     connections <- defined (obj_get output_class (n_outputs dataNode)) ;;
     let exist :=
       existsb (fun connectionSearch =>
                  (oc_node connectionSearch =? id_input)
                  && (oc_output connectionSearch =? input_class))
               connections in
     when (negb exist)
       (push_output (key_of nodeOneModule) id_output output_class
          {| oc_node := id_input; oc_output := input_class; oc_points := None |} ;;
        push_input (key_of nodeOneModule) id_input input_class
          {| ic_node := id_output; ic_input := output_class; ic_points := None |} ;;
        active <- gets (fun s => same_key (module s) nodeOneModule) ;;
        when active
          (append_connection_ele
             (connection_classes id_input id_output output_class input_class) ;;
           updateConnectionNodes ("node-" ++ id_output) ;;
           updateConnectionNodes ("node-" ++ id_input)) ;;
        dispatch (connectionCreated id_output id_input output_class input_class))).

Definition removeSingleConnection
  (id_output id_input output_class input_class : string) : M bool :=
  df <- gets drawflow ;;
  let nodeOneModule := getModuleFromNodeId df id_output in
  let nodeTwoModule := getModuleFromNodeId df id_input in
  if option_string_eqb nodeOneModule nodeTwoModule then
    let m := key_of nodeOneModule in
    let is_out := fun item => (oc_node item =? id_input) && (oc_output item =? input_class) in
    let is_in := fun item => (ic_node item =? id_output) && (ic_input item =? output_class) in
    connections <- defined (output_connections df m id_output output_class) ;;
    match findIndex is_out connections with
    | Some _ =>
        active <- gets (fun s => same_key (module s) nodeOneModule) ;;
        when active
          (remove_connection_ele
             ["connection"; ("node_in_node-" ++ id_input)%string;
              ("node_out_node-" ++ id_output)%string; output_class; input_class]) ;;
        df <- gets drawflow ;;
        outs <- defined (output_connections df m id_output output_class) ;;
        set_drawflow
          (set_output_connections df m id_output output_class
             (splice1 (findIndex is_out outs) outs)) ;;
        df <- gets drawflow ;;
        ins <- defined (input_connections df m id_input input_class) ;;
        set_drawflow
          (set_input_connections df m id_input input_class
             (splice1 (findIndex is_in ins) ins)) ;;
        dispatch (connectionRemoved id_output id_input output_class input_class) ;;
        ret true
    | None => ret false
    end
  else ret false.

(** One turn of a loop of [removeConnectionNodeId] on the element [e]: the
    two entries named by its classes are spliced out of the active module
    (the input side first in the loop over outgoing elements, the output
    side first in the other), then the element is removed.  The first three
    classes of an element are always there ([connection_classes]). *)
Definition detach (input_first : bool) (e : nat * classList) : M unit :=
  let listclass := snd e in
  lc1 <- defined (item 1 listclass) ;;
  lc2 <- defined (item 2 listclass) ;;
  let id_input := slice 13 lc1 in
  let id_output := slice 14 lc2 in
  let is_in := fun it => (ic_node it =? id_output) && same_key (ic_input it) (item 3 listclass) in
  let is_out := fun it => (oc_node it =? id_input) && same_key (oc_output it) (item 4 listclass) in
  let splice_in :=
    (df <- gets drawflow ;;
     m <- gets module ;;
     ins <- defined (input_connections df m id_input (key_of (item 4 listclass))) ;;
     set_drawflow
       (set_input_connections df m id_input (key_of (item 4 listclass))
          (splice1 (findIndex is_in ins) ins))) in
  let splice_out :=
    (df <- gets drawflow ;;
     m <- gets module ;;
     outs <- defined (output_connections df m id_output (key_of (item 3 listclass))) ;;
     set_drawflow
       (set_output_connections df m id_output (key_of (item 3 listclass))
          (splice1 (findIndex is_out outs) outs))) in
  (if input_first then splice_in ;; splice_out else splice_out ;; splice_in) ;;
  modify (fun s => with_connection_eles s (remove_nth (fst e) (connection_eles s))) ;;
  dispatch (connectionRemoved id_output id_input
              (key_of (item 3 listclass)) (key_of (item 4 listclass))).

(** [removeConnectionNodeId(id)], [id] of the form [node-X]: it works from
    the connection elements of the view and on the active module only. *)
Definition removeConnectionNodeId (id : string) : M unit :=
  let idSearchIn := ("node_in_" ++ id)%string in
  let idSearchOut := ("node_out_" ++ id)%string in
  eles <- gets connection_eles ;;
  forEach (rev (querySelectorAll [idSearchOut] eles)) (detach true) ;;
  eles <- gets connection_eles ;;
  forEach (rev (querySelectorAll [idSearchIn] eles)) (detach false).

(** [this.container.querySelector('#' + id).remove()] *)
Definition remove_node_ele (id : string) : M unit :=
  eles <- gets node_eles ;;
  i <- defined (findIndex (fun e => ele_id e =? id) eles) ;;
  modify (fun s => with_node_eles s (remove_nth i eles)).

(** [removeNodeId(id)], [id] of the form [node-X]. *)
Definition removeNodeId (id : string) : M unit :=
  removeConnectionNodeId id ;;
  df <- gets drawflow ;;
  let moduleName := getModuleFromNodeId df (slice 5 id) in
  active <- gets (fun s => same_key (module s) moduleName) ;;
  when active (remove_node_ele id) ;;
  data <- defined (obj_get (key_of moduleName) df) ;;
  set_drawflow (obj_set (key_of moduleName) (obj_delete (slice 5 id) data) df) ;;
  dispatch (nodeRemoved (slice 5 id)).

(* ================================================================== *)
(** ** Removing a port *)

(** How a loop over elements of the view ended. *)
Inductive loop_end : Type :=
| Completed
| Raised (e : error)
| LeftModel.

Definition replace_nth {A} (i : nat) (x : A) (l : list A) : list A :=
  firstn i l ++ match skipn i l with [] => [] | _ :: r => x :: r end.

(** The [Set] of the texts [JSON.stringify(e)], in order of first
    occurrence, each parsed back. *)
Definition dedup {A} (same_text : A -> A -> bool) (clone : A -> A) (l : list A) : list A :=
  fold_left
    (fun seen e => if existsb (same_text (clone e)) seen then seen else seen ++ [clone e])
    l [].

Definition point_eqb (p q : point) : bool :=
  jsval_eqb (pos_x p) (pos_x q) && jsval_eqb (pos_y p) (pos_y q).

Fixpoint points_eqb (p q : list point) : bool :=
  match p, q with
  | [], [] => true
  | x :: p', y :: q' => point_eqb x y && points_eqb p' q'
  | _, _ => false
  end.

Definition option_points_eqb (p q : option (list point)) : bool :=
  match p, q with
  | Some x, Some y => points_eqb x y
  | None, None => true
  | _, _ => false
  end.

(** Equality of two parsed-back entries, that is, of their JSON texts. *)
Definition in_conn_eqb (a b : in_conn) : bool :=
  (ic_node a =? ic_node b) && (ic_input a =? ic_input b)
  && option_points_eqb (ic_points a) (ic_points b).

Definition out_conn_eqb (a b : out_conn) : bool :=
  (oc_node a =? oc_node b) && (oc_output a =? oc_output b)
  && option_points_eqb (oc_points a) (oc_points b).

(** [querySelector('#node-' + id + ' .inputs .input.' + input_class).remove()]
    (and the same under [.outputs]): the first port element of that class
    under a node element of that id goes. *)
Fixpoint remove_port_ele (inputs : bool) (ele : string) (selector : list string)
  (l : list node_ele) : option (list node_ele) :=
  match l with
  | [] => None
  | e :: r =>
      let ports := if inputs then ele_inputs e else ele_outputs e in
      match (if ele_id e =? ele then findIndex (matches selector) ports else None) with
      | Some i =>
          Some ((if inputs
                 then {| ele_id := ele_id e; ele_inputs := remove_nth i ports;
                         ele_outputs := ele_outputs e |}
                 else {| ele_id := ele_id e; ele_inputs := ele_inputs e;
                         ele_outputs := remove_nth i ports |}) :: r)
      | None => option_map (cons e) (remove_port_ele inputs ele selector r)
      end
  end.

(** The loop that renames the port elements above the removed one:
    [prefix] is ["input_"] or ["output_"], [removed] the number part of
    the removed label. *)
Fixpoint rename_port_classes (prefix : string) (removed : string) (l : list classList)
  : list classList * loop_end :=
  match l with
  | [] => ([], Completed)
  | c :: r =>
      if has_class (if prefix =? "input_" then "input" else "output") c then
        match item 1 c with
        | None => (l, Raised TypeError)
        | Some label =>
            let id_class := slice (String.length prefix) label in
            if js_lt (parseInt removed) (parseInt id_class) then
              match decimal id_class with
              | None => (l, LeftModel)
              | Some n =>
                  let c' := classList_add (prefix ++ string_of_Z (Z.of_N n - 1))
                              (classList_remove (prefix ++ id_class) c) in
                  let (r', e) := rename_port_classes prefix removed r in
                  (c' :: r', e)
              end
            else
              let (r', e) := rename_port_classes prefix removed r in (c :: r', e)
        end
      else
        let (r', e) := rename_port_classes prefix removed r in (c :: r', e)
  end.

Fixpoint rename_port_eles (inputs : bool) (ele : string) (removed : string)
  (l : list node_ele) : list node_ele * loop_end :=
  match l with
  | [] => ([], Completed)
  | e :: r =>
      if ele_id e =? ele then
        let (ports, ended) :=
          rename_port_classes (if inputs then "input_" else "output_") removed
            (if inputs then ele_inputs e else ele_outputs e) in
        let e' := if inputs
                  then {| ele_id := ele_id e; ele_inputs := ports;
                          ele_outputs := ele_outputs e |}
                  else {| ele_id := ele_id e; ele_inputs := ele_inputs e;
                          ele_outputs := ports |} in
        match ended with
        | Completed => let (r', e2) := rename_port_eles inputs ele removed r in (e' :: r', e2)
        | _ => (e' :: r, ended)
        end
      else
        let (r', e2) := rename_port_eles inputs ele removed r in (e :: r', e2)
  end.

Definition end_loop (e : loop_end) : M unit :=
  match e with
  | Completed => ret tt
  | Raised err => throw err
  | LeftModel => outside_model
  end.

(** [ele = querySelector(selector)], then [remove] and [add] on its class
    list, in the order given. *)
Definition reclass_connection_ele (selector : list string) (removes adds : list string)
  : M unit :=
  eles <- gets connection_eles ;;
  i <- defined (findIndex (matches selector) eles) ;;
  c <- defined (nth_error eles i) ;;
  let c' := fold_left (fun c a => classList_add a c) adds
              (fold_left (fun c a => classList_remove a c) removes c) in
  modify (fun s => with_connection_eles s (replace_nth i c' eles)).

(** The last loop of [removeNodeInput], for one entry [itemx] of
    [nodeUpdates]: every entry [itemz] (at [index]) of the peer's output
    port that names [id] and an input above the removed one is rewritten
    one label down, in the view and in the store. *)
Definition renumber_output_entry (m : string) (active : bool) (id input_class_id : string)
  (itemx : in_conn) (iz : nat * out_conn) : M unit :=
  let index := fst iz in
  let itemz := snd iz in
  when (oc_node itemz =? id)
    (let output_id := slice 6 (oc_output itemz) in
     when (js_lt (parseInt input_class_id) (parseInt output_id))
       (match decimal output_id with
        | None => outside_model
        | Some n =>
            let renamed := ("input_" ++ string_of_Z (Z.of_N n - 1))%string in
            when active
              (reclass_connection_ele
                 ["connection"; ("node_in_node-" ++ id)%string;
                  ("node_out_node-" ++ ic_node itemx)%string; ic_input itemx;
                  ("input_" ++ output_id)%string]
                 [("input_" ++ output_id)%string] [renamed]) ;;
            df <- gets drawflow ;;
            l <- defined (output_connections df m (ic_node itemx) (ic_input itemx)) ;;
            set_drawflow
              (set_output_connections df m (ic_node itemx) (ic_input itemx)
                 (replace_nth index
                    {| oc_node := oc_node itemz; oc_output := renamed;
                       oc_points := oc_points itemz |} l))
        end)).

Definition renumber_peer_output (m : string) (active : bool) (id input_class_id : string)
  (itemx : in_conn) : M unit :=
  df <- gets drawflow ;;
  connections <- defined (output_connections df m (ic_node itemx) (ic_input itemx)) ;;
  forEach (combine (seq 0 (length connections)) connections)
    (renumber_output_entry m active id input_class_id itemx).

(** The loop [connections.forEach((item, index) => ...inputs['input_' +
    (index + 1)] = item)] on an emptied object. *)
Definition relabel {A} (prefix : string) (connections : list A) : obj A :=
  fold_left
    (fun o ix => obj_set (prefix ++ string_of_N (N.of_nat (fst ix) + 1)) (snd ix) o)
    (combine (seq 0 (length connections)) connections) [].

(** [removeNodeInput(id, input_class)] up to its last statement: what it
    does to the store and to the elements. *)
Definition remove_input_port (id input_class : string) : M unit :=
  df <- gets drawflow ;;
  let moduleName := getModuleFromNodeId df id in
  let m := key_of moduleName in
  infoNode <- getNodeFromId id ;;
  active <- gets (fun s => same_key (module s) moduleName) ;;
  when active
    (eles <- gets node_eles ;;
     eles' <- defined (remove_port_ele true ("node-" ++ id) ["input"; input_class] eles) ;;
     modify (fun s => with_node_eles s eles')) ;;
  removed <- defined (obj_get input_class (n_inputs infoNode)) ;;
  forEach removed
    (fun c => removeSingleConnection (ic_node c) id (ic_input c) input_class ;; ret tt) ;;
  df <- gets drawflow ;;
  n <- defined (node_at df m id) ;;
  set_drawflow (set_node df m id (with_inputs n (obj_delete input_class (n_inputs n)))) ;;
  df <- gets drawflow ;;
  n <- defined (node_at df m id) ;;
  let connections := obj_values (n_inputs n) in
  let input_class_id := slice 6 input_class in
  set_drawflow (set_node df m id (with_inputs n (relabel "input_" connections))) ;;
  let nodeUpdates := dedup in_conn_eqb clone_in_conn (concat connections) in
  when active
    (eles <- gets node_eles ;;
     let (eles', ended) := rename_port_eles true ("node-" ++ id) input_class_id eles in
     modify (fun s => with_node_eles s eles') ;;
     end_loop ended) ;;
  forEach nodeUpdates (renumber_peer_output m active id input_class_id).

Definition removeNodeInput (id input_class : string) : M unit :=
  remove_input_port id input_class ;;
  updateConnectionNodes ("node-" ++ id).

(** The last loop of [removeNodeOutput], for one entry [itemx] of
    [nodeUpdates], likewise. *)
Definition renumber_input_entry (m : string) (active : bool) (id output_class_id : string)
  (itemx : out_conn) (iz : nat * in_conn) : M unit :=
  let index := fst iz in
  let itemz := snd iz in
  when (ic_node itemz =? id)
    (let input_id := slice 7 (ic_input itemz) in
     when (js_lt (parseInt output_class_id) (parseInt input_id))
       (match decimal input_id with
        | None => outside_model
        | Some n =>
            let renamed := ("output_" ++ string_of_Z (Z.of_N n - 1))%string in
            when active
              (reclass_connection_ele
                 ["connection"; ("node_in_node-" ++ oc_node itemx)%string;
                  ("node_out_node-" ++ id)%string;
                  ("output_" ++ input_id)%string; oc_output itemx]
                 [("output_" ++ input_id)%string; oc_output itemx]
                 [renamed; oc_output itemx]) ;;
            df <- gets drawflow ;;
            l <- defined (input_connections df m (oc_node itemx) (oc_output itemx)) ;;
            set_drawflow
              (set_input_connections df m (oc_node itemx) (oc_output itemx)
                 (replace_nth index
                    {| ic_node := ic_node itemz; ic_input := renamed;
                       ic_points := ic_points itemz |} l))
        end)).

Definition renumber_peer_input (m : string) (active : bool) (id output_class_id : string)
  (itemx : out_conn) : M unit :=
  df <- gets drawflow ;;
  connections <- defined (input_connections df m (oc_node itemx) (oc_output itemx)) ;;
  forEach (combine (seq 0 (length connections)) connections)
    (renumber_input_entry m active id output_class_id itemx).

(** [removeNodeOutput(id, output_class)] up to its last statement. *)
Definition remove_output_port (id output_class : string) : M unit :=
  df <- gets drawflow ;;
  let moduleName := getModuleFromNodeId df id in
  let m := key_of moduleName in
  infoNode <- getNodeFromId id ;;
  active <- gets (fun s => same_key (module s) moduleName) ;;
  when active
    (eles <- gets node_eles ;;
     eles' <- defined (remove_port_ele false ("node-" ++ id) ["output"; output_class] eles) ;;
     modify (fun s => with_node_eles s eles')) ;;
  removed <- defined (obj_get output_class (n_outputs infoNode)) ;;
  forEach removed
    (fun c => removeSingleConnection id (oc_node c) output_class (oc_output c) ;; ret tt) ;;
  df <- gets drawflow ;;
  n <- defined (node_at df m id) ;;
  set_drawflow (set_node df m id (with_outputs n (obj_delete output_class (n_outputs n)))) ;;
  df <- gets drawflow ;;
  n <- defined (node_at df m id) ;;
  let connections := obj_values (n_outputs n) in
  let output_class_id := slice 7 output_class in
  set_drawflow (set_node df m id (with_outputs n (relabel "output_" connections))) ;;
  let nodeUpdates :=
    dedup out_conn_eqb (fun c => c)
      (map (fun c => {| oc_node := oc_node c; oc_output := oc_output c; oc_points := None |})
         (concat connections)) in
  when active
    (eles <- gets node_eles ;;
     let (eles', ended) := rename_port_eles false ("node-" ++ id) output_class_id eles in
     modify (fun s => with_node_eles s eles') ;;
     end_loop ended) ;;
  forEach nodeUpdates (renumber_peer_input m active id output_class_id).

Definition removeNodeOutput (id output_class : string) : M unit :=
  remove_output_port id output_class ;;
  updateConnectionNodes ("node-" ++ id).

(* ================================================================== *)
(** ** Adding a node *)

(** The loop [json_inputs["input_" + (x + 1)] = { connections: [] }]. *)
Definition empty_ports {A} (prefix : string) (n : nat) : obj (list A) :=
  fold_left (fun o x => obj_set (prefix ++ string_of_N (N.of_nat x + 1)) [] o) (seq 0 n) [].

(** The port elements made next to them: classes [input] and [input_k]. *)
Definition port_eles (kind prefix : string) (n : nat) : list classList :=
  map (fun x => classList_add (prefix ++ string_of_N (N.of_nat x + 1)) (classList_add kind []))
      (seq 0 n).

(** White space as [classList.add] refuses it in a token. *)
Definition is_token_space (c : ascii) : bool :=
  existsb (Nat.eqb (nat_of_ascii c)) [9; 10; 12; 13; 32]%nat.

(** [if (c != '') node.classList.add(...c.split(' '))].  The classes of a
    node element are not part of the view; what is kept is whether the
    statement throws.  The comparison of an array or an object with [''] is
    outside the model. *)
Definition add_classes (c : jsval) : M unit :=
  match c with
  | JStr s =>
      if s =? "" then ret tt
      else if forallb (fun t => negb (t =? "")
                                && negb (existsb is_token_space (list_ascii_of_string t)))
                      (split_spaces "" s)
           then ret tt
           else throw DOMException
  | JUndefined | JNull => throw TypeError
  | JBool b => if b then throw TypeError else ret tt
  | JNum f => if PrimFloat.is_zero f then ret tt else throw TypeError
  | JArr _ | JObj _ => outside_model
  end.

(** The content of a node: with [typenode === false] the [html] is
    written as it is; every other value goes through [noderegister]. *)
Definition render_content (typenode : jsval) : M unit :=
  match typenode with
  | JBool false => ret tt
  | _ => outside_model
  end.

(** A key of the payload of which [querySelectorAll('[df-' + key + ']')]
    is a valid selector whatever else the key may be: letters, digits, [-]
    and [_]. *)
Definition plain_key (k : string) : bool :=
  forallb
    (fun c =>
       let n := nat_of_ascii c in
       ((48 <=? n)%nat && (n <=? 57)%nat) || ((65 <=? n)%nat && (n <=? 90)%nat)
       || ((97 <=? n)%nat && (n <=? 122)%nat) || (n =? 45)%nat || (n =? 95)%nat)
    (list_ascii_of_string k).

(** All keys of the payload, at every depth, are plain. *)
Fixpoint plain_keys (v : jsval) : bool :=
  match v with
  | JArr l => forallb plain_keys l
  | JObj l =>
      (fix props (l : list (string * jsval)) : bool :=
         match l with
         | [] => true
         | (k, x) :: r => plain_key k && plain_keys x && props r
         end) l
  | _ => true
  end.

(** [Object.entries(data).forEach(...)]: it throws on [null] and
    [undefined]; else it looks up, in the body, the elements named after
    the keys, which is all it does when the keys are plain. *)
Definition render_data (data : jsval) : M unit :=
  match data with
  | JUndefined | JNull => throw TypeError
  | _ => if plain_keys data then ret tt else outside_model
  end.

(** [addNode(...)] with [useuuid] off (its default): the id is the counter. *)
Definition addNode (name : jsval) (num_in num_out : nat) (ele_pos_x ele_pos_y : jsval)
  (classoverride data html typenode : jsval) : M N :=
  newNodeId <- gets nodeId ;;
  add_classes classoverride ;;
  render_content typenode ;;
  render_data data ;;
  modify (fun s =>
            with_node_eles s
              (node_eles s ++
                 [{| ele_id := "node-" ++ string_of_N newNodeId;
                     ele_inputs := port_eles "input" "input_" num_in;
                     ele_outputs := port_eles "output" "output_" num_out |}])) ;;
  let json :=
    {| n_id := IdNum newNodeId; n_name := name; n_data := data;
       n_class := classoverride; n_html := html; n_typenode := typenode;
       n_inputs := empty_ports "input_" num_in;
       n_outputs := empty_ports "output_" num_out;
       n_pos_x := ele_pos_x; n_pos_y := ele_pos_y |} in
  df <- gets drawflow ;;
  m <- gets module ;;
  nodes <- defined (obj_get m df) ;;
  set_drawflow (obj_set m (obj_set (string_of_N newNodeId) json nodes) df) ;;
  dispatch (nodeCreated newNodeId) ;;
  modify (fun s => with_nodeId s (nodeId s + 1)) ;;
  ret newNodeId.

(* ================================================================== *)
(** ** Loading, import and export *)

(** The elements [addNodeImport(dataNode, precanvas)] makes: one
    connection element per entry of each input port, and the node element
    (its output elements are numbered by position). *)
Definition import_connection_eles (dataNode : node) : list classList :=
  flat_map
    (fun input =>
       map (fun c => connection_classes (id_string (n_id dataNode)) (ic_node c)
                       (ic_input c) (fst input))
           (snd input))
    (n_inputs dataNode).

Definition import_node_ele (dataNode : node) : node_ele :=
  {| ele_id := "node-" ++ id_string (n_id dataNode);
     ele_inputs := map (fun input => classList_add (fst input) (classList_add "input" []))
                       (n_inputs dataNode);
     ele_outputs := port_eles "output" "output_" (length (n_outputs dataNode)) |}.

(** The counter [load()] computes: one more than the largest id that
    [parseInt] reads, over all modules. *)
Definition next_node_id (df : store) : Z :=
  fold_left
    (fun number (m : string * obj node) =>
       fold_left
         (fun number (kv : string * node) =>
            if js_ge (parseInt (fst kv)) (Some number)
            then match parseInt (fst kv) with Some i => (i + 1)%Z | None => number end
            else number)
         (snd m) number)
    df 1%Z.

(** Every id reads as a number below 2^53 in size, or as none: the numbers
    of [load()] are then the exact ones. *)
Definition exact_ids (df : store) : bool :=
  forallb
    (fun m : string * obj node =>
       forallb
         (fun kv : string * node =>
            match parseInt (fst kv) with
            | Some i => (Z.abs i <? 9007199254740992)%Z
            | None => true
            end)
         (snd m))
    df.

(** [addNodeImport(dataNode, precanvas)]: the connection elements go into
    the view as the inputs are gone through; the node element goes in
    last. *)
Definition addNodeImport (dataNode : node) : M unit :=
  add_classes (n_class dataNode) ;;
  modify (fun s => with_connection_eles s
                     (connection_eles s ++ import_connection_eles dataNode)) ;;
  render_content (n_typenode dataNode) ;;
  render_data (n_data dataNode) ;;
  modify (fun s => with_node_eles s (node_eles s ++ [import_node_ele dataNode])).

(** [load()] with [reroute] off.  The counter is set last. *)
Definition load : M unit :=
  df <- gets drawflow ;;
  m <- gets module ;;
  nodes <- defined (obj_get m df) ;;
  forEach (obj_values nodes) addNodeImport ;;
  forEach (obj_keys nodes) (fun key => updateConnectionNodes ("node-" ++ key)) ;;
  if exact_ids df
  then modify (fun s => with_nodeId s (Z.to_N (next_node_id df)))
  else outside_model.

(** [this.precanvas.innerHTML = ""] *)
Definition clear_view : M unit :=
  modify (fun s => with_connection_eles (with_node_eles s []) []).

Definition clear : M unit :=
  clear_view ;;
  set_drawflow [("Home", [])].

(** [export()]: the event carries the copy that is returned. *)
Definition export : M store :=
  df <- gets drawflow ;;
  let dataExport := clone_store df in
  dispatch (exported dataExport) ;;
  ret dataExport.

(** [import(data, notifi)], [data] being [{ drawflow: ... }]. *)
Definition import (data : store) (notifi : bool) : M unit :=
  clear ;;
  set_drawflow (clone_store data) ;;
  load ;;
  when notifi (dispatch imported).

(* ================================================================== *)
(** ** Modules *)

(** [this.drawflow.drawflow[name]] as a condition: true of a module of
    the store and of a name that is inherited. *)
Definition addModule (name : string) : M unit :=
  df <- gets drawflow ;;
  match obj_get name df with
  | Some _ => throw (Error ("Module '" ++ name ++ "' already exists."))
  | None =>
      if inherited name
      then throw (Error ("Module '" ++ name ++ "' already exists."))
      else (set_drawflow (obj_set name [] df) ;;
            dispatch (moduleCreated name))
  end.

(** [changeModule(name)].  A name that is inherited passes the test; what
    the editor does with it as its module is outside the model. *)
Definition changeModule (name : string) : M unit :=
  df <- gets drawflow ;;
  match obj_get name df with
  | None =>
      if inherited name then outside_model
      else throw (Error ("Module '" ++ name ++ "' does not exist."))
  | Some _ =>
      dispatch (moduleChanged name) ;;
      modify (fun s => with_module s name) ;;
      clear_view ;;
      modify (fun s => with_zoom s 1 1 0 0) ;;
      df <- gets drawflow ;;
      import df false
  end.

(** [removeModule(name)].  An inherited name passes the test as well;
    there is nothing to delete then. *)
Definition removeModule (name : string) : M unit :=
  df <- gets drawflow ;;
  if match obj_get name df with Some _ => true | None => inherited name end
  then (m <- gets module ;;
        when (m =? name) (changeModule "Home") ;;
        df <- gets drawflow ;;
        set_drawflow (obj_delete name df) ;;
        dispatch (moduleRemoved name))
  else throw (Error ("Module '" ++ name ++ "' does not exist.")).

(* ================================================================== *)
(** ** Zoom *)

Definition zoom_refresh : M unit :=
  z <- gets zoom ;;
  dispatch (zoomed z) ;;
  modify (fun s =>
            with_zoom s (zoom s) (zoom s)
              (canvas_x s / zoom_last_value s * zoom s)
              (canvas_y s / zoom_last_value s * zoom s)).

Definition zoom_in : M unit :=
  s <- gets (fun s => s) ;;
  when (zoom s <? zoom_max s)%float
    (modify (fun s => with_zoom s (zoom s + zoom_value s) (zoom_last_value s)
                        (canvas_x s) (canvas_y s)) ;;
     zoom_refresh).

Definition zoom_out : M unit :=
  s <- gets (fun s => s) ;;
  when (zoom_min s <? zoom s)%float
    (modify (fun s => with_zoom s (zoom s - zoom_value s) (zoom_last_value s)
                        (canvas_x s) (canvas_y s)) ;;
     zoom_refresh).

(** A call repeated [n] times. *)
Fixpoint times (n : nat) (m : M unit) : M unit :=
  match n with
  | O => ret tt
  | S k => m ;; times k m
  end.

(* ================================================================== *)
(** ** Notions used to state the properties *)

(** The ids of a store, module by module. *)
Definition store_keys (df : store) : list (string * list string) :=
  map (fun m => (fst m, obj_keys (snd m))) df.

(** How many entries of an output port name the input port [(b, Q)], and
    how many entries of an input port name the output port [(a, P)]. *)
Definition count_out (b Q : string) (l : list out_conn) : nat :=
  length (filter (fun c => (oc_node c =? b) && (oc_output c =? Q)) l).

Definition count_in (a P : string) (l : list in_conn) : nat :=
  length (filter (fun c => (ic_node c =? a) && (ic_input c =? P)) l).

(** Output port [P] of node [a] holds an entry for input port [Q] of node
    [b] (in module [m]); input port [Q] of [b] holds one for [(a, P)]. *)
Definition has_out (df : store) (m a P b Q : string) : Prop :=
  exists l c, output_connections df m a P = Some l /\ In c l
              /\ oc_node c = b /\ oc_output c = Q.

Definition has_in (df : store) (m b Q a P : string) : Prop :=
  exists l c, input_connections df m b Q = Some l /\ In c l
              /\ ic_node c = a /\ ic_input c = P.

(** The mirror invariant of the store. *)
Definition Mirror (df : store) : Prop :=
  forall m a P b Q, has_out df m a P b Q <-> has_in df m b Q a P.

(** The same, as a check that runs. *)
Definition mirrored_module (data : obj node) : bool :=
  forallb
    (fun kv =>
       forallb
         (fun port =>
            forallb
              (fun c =>
                 match obj_get (oc_node c) data with
                 | Some nb =>
                     match obj_get (oc_output c) (n_inputs nb) with
                     | Some ins =>
                         existsb (fun i => (ic_node i =? fst kv) && (ic_input i =? fst port)) ins
                     | None => false
                     end
                 | None => false
                 end)
              (snd port))
         (n_outputs (snd kv))
       && forallb
            (fun port =>
               forallb
                 (fun c =>
                    match obj_get (ic_node c) data with
                    | Some na =>
                        match obj_get (ic_input c) (n_outputs na) with
                        | Some outs =>
                            existsb (fun o => (oc_node o =? fst kv) && (oc_output o =? fst port))
                                    outs
                        | None => false
                        end
                    | None => false
                    end)
                 (snd port))
            (n_inputs (snd kv)))
    data.

Definition mirrored (df : store) : bool := forallb (fun m => mirrored_module (snd m)) df.

(** How many entries for [(b, Q)] output port [P] of node [a] holds, and
    how many for [(a, P)] input port [Q] of [b]; a port that is not there
    holds none. *)
Definition out_count (df : store) (m a P b Q : string) : nat :=
  match output_connections df m a P with
  | Some l => count_out b Q l
  | None => 0
  end.

Definition in_count (df : store) (m b Q a P : string) : nat :=
  match input_connections df m b Q with
  | Some l => count_in a P l
  | None => 0
  end.

(** The mirror invariant with multiplicity: as many entries on one side of
    a connection as on the other. *)
Definition Balanced (df : store) : Prop :=
  forall m a P b Q, out_count df m a P b Q = in_count df m b Q a P.

(** The invariant as a check that runs: every entry of every port has as
    many copies as the other side has mirror entries. *)
Definition balanced_module (df : store) (m : string) (data : obj node) : bool :=
  forallb
    (fun kv =>
       forallb
         (fun port =>
            forallb
              (fun c => (count_out (oc_node c) (oc_output c) (snd port)
                         =? in_count df m (oc_node c) (oc_output c) (fst kv) (fst port))%nat)
              (snd port))
         (n_outputs (snd kv))
       && forallb
            (fun port =>
               forallb
                 (fun c => (count_in (ic_node c) (ic_input c) (snd port)
                            =? out_count df m (ic_node c) (ic_input c) (fst kv) (fst port))%nat)
                 (snd port))
            (n_inputs (snd kv)))
    data.

Definition balanced (df : store) : bool :=
  forallb (fun m => balanced_module df (fst m) (snd m)) df.

(** An entry somewhere in the store (any module, any node, any port) names
    the node [id]. *)
Definition names_node (id : string) (df : store) : bool :=
  existsb
    (fun m =>
       existsb
         (fun kv =>
            existsb (fun port => existsb (fun c => oc_node c =? id) (snd port))
                    (n_outputs (snd kv))
            || existsb (fun port => existsb (fun c => ic_node c =? id) (snd port))
                       (n_inputs (snd kv)))
         (snd m))
    df.

(** The state a call ends in, whether it returns or throws. *)
Definition final_state {A} (r : result A) : option editor :=
  match r with
  | Normal s _ => Some s
  | Throw s _ => Some s
  | OutsideModel => None
  end.

(** A node with [num_in] inputs and [num_out] outputs and nothing else of
    note, as the examples add it. *)
Definition add_plain_node (num_in num_out : nat) : M N :=
  addNode (JStr "node") num_in num_out (JNum 0) (JNum 0) (JStr "") (JObj []) (JStr "")
    (JBool false).

(** Partial correctness of a call started in [s]: if it returns, the
    result and the state it returns in satisfy [Q]. *)
Definition wp {A} (c : M A) (Q : A -> editor -> Prop) (s : editor) : Prop :=
  forall s' a, c s = Normal s' a -> Q a s'.



(** What the last loop of [removeNodeInput] does to one entry of a peer's
    output port: an entry for node [id] and an input above the removed one
    goes one label down. *)
Definition renumber_out (id removed : string) (e : out_conn) : out_conn :=
  if (oc_node e =? id) && js_lt (parseInt removed) (parseInt (slice 6 (oc_output e)))
  then match decimal (slice 6 (oc_output e)) with
       | Some n => {| oc_node := oc_node e;
                      oc_output := "input_" ++ string_of_Z (Z.of_N n - 1);
                      oc_points := oc_points e |}
       | None => e
       end
  else e.

(** Likewise for [removeNodeOutput] and an entry of a peer's input port. *)
Definition renumber_in (id removed : string) (e : in_conn) : in_conn :=
  if (ic_node e =? id) && js_lt (parseInt removed) (parseInt (slice 7 (ic_input e)))
  then match decimal (slice 7 (ic_input e)) with
       | Some n => {| ic_node := ic_node e;
                      ic_input := "output_" ++ string_of_Z (Z.of_N n - 1);
                      ic_points := ic_points e |}
       | None => e
       end
  else e.

(** ** States used as examples *)

Definition state_after {A} (r : result A) : editor :=
  match final_state r with
  | Some s => s
  | None => new_editor
  end.

(** [try { c } catch (e) { }]: the host goes on in the state the call
    left, whether it returned or threw. *)
Definition attempt {A} (c : M A) : M unit :=
  fun s =>
    match c s with
    | Normal s' _ => Normal s' tt
    | Throw s' _ => Normal s' tt
    | OutsideModel => OutsideModel
    end.

(** Three nodes with the ports of the example below: node 1 has inputs
    1..3, node 2 has outputs 1..3, node 3 one port a side. *)
Definition renumbering_nodes : M unit :=
  add_plain_node 3 1 ;; add_plain_node 1 3 ;; add_plain_node 1 1 ;; ret tt.

(** Seven connections between them.  In the active module [addConnection]
    stores and draws a connection and then throws; the host catches that. *)
Definition renumbering_connections : M unit :=
  attempt (addConnection "2" "1" "output_1" "input_3") ;;
  attempt (addConnection "2" "1" "output_2" "input_2") ;;
  attempt (addConnection "3" "1" "output_1" "input_3") ;;
  attempt (addConnection "3" "1" "output_1" "input_1") ;;
  attempt (addConnection "2" "3" "output_3" "input_1") ;;
  attempt (addConnection "2" "3" "output_2" "input_1") ;;
  attempt (addConnection "2" "1" "output_3" "input_1").

Definition renumbering_script : M unit :=
  renumbering_nodes ;; renumbering_connections.

Definition renumbering_example : editor :=
  Eval vm_compute in state_after (renumbering_script new_editor).

(** The same graph in module "Other", with "Home" active when the
    connections are made: no call throws. *)
Definition renumbering_inactive_example : editor :=
  Eval vm_compute in
    state_after ((addModule "Other" ;; changeModule "Other" ;; renumbering_nodes ;;
                  changeModule "Home" ;;
                  addConnection "2" "1" "output_1" "input_3" ;;
                  addConnection "2" "1" "output_2" "input_2" ;;
                  addConnection "3" "1" "output_1" "input_3" ;;
                  addConnection "3" "1" "output_1" "input_1" ;;
                  addConnection "2" "3" "output_3" "input_1" ;;
                  addConnection "2" "3" "output_2" "input_1" ;;
                  addConnection "2" "1" "output_3" "input_1") new_editor).



(** Module "Other" gets three nodes; the editor goes back to "Home", so
    that "Other" is not the active module; then node 1 is wired to node 2
    and node 3 to node 1. *)
Definition inactive_module_script : M unit :=
  addModule "Other" ;; changeModule "Other" ;;
  add_plain_node 1 1 ;; add_plain_node 1 1 ;; add_plain_node 1 1 ;;
  changeModule "Home" ;;
  addConnection "1" "2" "output_1" "input_1" ;;
  addConnection "3" "1" "output_1" "input_1".

Definition inactive_module_example : editor :=
  Eval vm_compute in state_after (inactive_module_script new_editor).

(** One node with one port a side, in the active module. *)
Definition single_node_example : editor :=
  Eval vm_compute in state_after ((add_plain_node 1 1 ;; ret tt) new_editor).

(** Two nodes, connected, in the active module. *)
Definition connected_pair_script : M unit :=
  add_plain_node 1 1 ;; add_plain_node 1 1 ;;
  attempt (addConnection "1" "2" "output_1" "input_1").

Definition connected_pair_example : editor :=
  Eval vm_compute in state_after (connected_pair_script new_editor).

(** A node whose payload holds a number that is not one: [{ratio: NaN}]. *)
Definition nan_payload_script : M unit :=
  addNode (JStr "node") 0 0 (JNum 0) (JNum 0) (JStr "")
    (JObj [("ratio", JNum PrimFloat.nan)]) (JStr "") (JBool false) ;; ret tt.

Definition nan_payload_example : editor :=
  Eval vm_compute in state_after (nan_payload_script new_editor).

(** Two nodes, not connected, in the active module. *)
Definition two_nodes_example : editor :=
  Eval vm_compute in state_after ((add_plain_node 1 1 ;; add_plain_node 1 1 ;; ret tt) new_editor).

(** Two nodes in module "Other", which is not the active one. *)
Definition other_pair_example : editor :=
  Eval vm_compute in
    state_after ((addModule "Other" ;; changeModule "Other" ;;
                  add_plain_node 1 1 ;; add_plain_node 1 1 ;;
                  changeModule "Home") new_editor).

(** A store as [import] takes it: in module "Other", the input of node 2
    holds an entry for the output of node 1, which holds none. *)
Definition unmirrored_data : store :=
  [("Home", []);
   ("Other",
    [("1", {| n_id := IdNum 1; n_name := JStr "node"; n_data := JObj [];
              n_class := JStr ""; n_html := JStr ""; n_typenode := JBool false;
              n_inputs := [("input_1", [])];
              n_outputs := [("output_1", [])];
              n_pos_x := JNum 0; n_pos_y := JNum 0 |});
     ("2", {| n_id := IdNum 2; n_name := JStr "node"; n_data := JObj [];
              n_class := JStr ""; n_html := JStr ""; n_typenode := JBool false;
              n_inputs := [("input_1", [{| ic_node := "1"; ic_input := "output_1";
                                           ic_points := None |}])];
              n_outputs := [("output_1", [])];
              n_pos_x := JNum 0; n_pos_y := JNum 0 |})])].

Definition unmirrored_example : editor :=
  Eval vm_compute in state_after (import unmirrored_data false new_editor).

(** A call leaves a part [f] of the state as it is, however it ends. *)
Definition keeps {X A} (f : editor -> X) (c : M A) : Prop :=
  forall s s', final_state (c s) = Some s' -> f s' = f s.

(** A call finishes: it returns, or it throws the [ReferenceError] of
    [updateConnectionNodes], the one statement that throws it. *)
Definition finishes {A} (c : M A) (s s' : editor) : Prop :=
  (exists a, c s = Normal s' a) \/ c s = Throw s' ReferenceError.

(** A call that never throws a [ReferenceError]. *)
Definition no_reference_error {A} (c : M A) : Prop :=
  forall s s', c s <> Throw s' ReferenceError.



(** Partial correctness with the two ways to finish: if the call returns,
    the result and the state satisfy [Q]; if it throws a [ReferenceError],
    the state it throws in satisfies [E]. *)
Definition wpx {A} (c : M A) (Q : A -> editor -> Prop) (E : editor -> Prop) (s : editor)
  : Prop :=
  (forall s' a, c s = Normal s' a -> Q a s')
  /\ (forall s', c s = Throw s' ReferenceError -> E s').

(** One node with one port a side, in module "Other", which is not the
    active one. *)
Definition other_single_example : editor :=
  Eval vm_compute in
    state_after ((addModule "Other" ;; changeModule "Other" ;; add_plain_node 1 1 ;;
                  changeModule "Home") new_editor).

(* ================================================================== *)
(** ** Objects with identity

    The store above is a tree of values, which is all the operations on the
    graph need.  What [getNodeFromId] promises is about identity:
    [JSON.parse(JSON.stringify(x))] builds new objects, so that a write
    through the result cannot reach [x].  This part models that: a heap of
    objects, references into it, the store as the object graph under
    [this.drawflow], and a mutation as an update of the heap. *)

Module Heap.

Definition ref : Type := nat.

Inductive value : Type :=
| VUndefined
| VNull
| VBool (b : bool)
| VNum (f : float)
| VStr (s : string)
| VRef (r : ref).

(** A plain object or an array. *)
Inductive object : Type :=
| ORecord (props : obj value)
| OArray (elems : list value).

(** The object at address [r] is the [r]-th of the heap; a new object gets
    the next address. *)
Definition heap : Type := list object.

Definition values_of (o : object) : list value :=
  match o with
  | ORecord props => map snd props
  | OArray elems => elems
  end.

(** A reference into the heap, or no reference. *)
Definition valid (h : heap) (v : value) : Prop :=
  match v with
  | VRef r => r < length h
  | _ => True
  end.

(** No object of the heap points outside it. *)
Definition closed (h : heap) : Prop :=
  forall o, In o h -> forall v, In v (values_of o) -> valid h v.

(** No reference to an object below address [n]. *)
Definition fresh (n : nat) (v : value) : Prop :=
  match v with
  | VRef r => n <= r
  | _ => True
  end.

(** What evaluating an expression does.  [Unmodelled] marks what is left
    out: properties that come from a prototype, and a reference to no
    object, which no program produces. *)
Inductive outcome (A : Type) : Type :=
| Returns (a : A)
| Throws (e : error)
| Unmodelled.

Arguments Returns {A} a.
Arguments Throws {A} e.
Arguments Unmodelled {A}.

Definition and_then {A B} (c : outcome A) (k : A -> outcome B) : outcome B :=
  match c with
  | Returns a => k a
  | Throws e => Throws e
  | Unmodelled => Unmodelled
  end.

Declare Scope heap_scope.
Delimit Scope heap_scope with heap.
Notation "x <- c ;; k" := (and_then c (fun x => k))
  (at level 61, c at next level, right associativity) : heap_scope.
Local Open Scope heap_scope.

Fixpoint map_each {A B} (f : A -> outcome B) (l : list A) : outcome (list B) :=
  match l with
  | [] => Returns []
  | x :: r => y <- f x ;; ys <- map_each f r ;; Returns (y :: ys)
  end.

Fixpoint fold_each {A B} (f : B -> A -> outcome B) (l : list A) (b : B) : outcome B :=
  match l with
  | [] => Returns b
  | x :: r => b' <- f b x ;; fold_each f r b'
  end.

(** [v[k]], own properties only.  Reading a property of [undefined] or
    [null] throws. *)
Definition get (h : heap) (v : value) (k : string) : outcome value :=
  match v with
  | VUndefined | VNull => Throws TypeError
  | VRef r =>
      match nth_error h r with
      | Some (ORecord props) =>
          Returns (match obj_get k props with Some x => x | None => VUndefined end)
      | Some (OArray elems) =>
          match array_index k with
          | Some i => Returns (nth (N.to_nat i) elems VUndefined)
          | None => Unmodelled
          end
      | None => Unmodelled
      end
  | VBool _ | VNum _ | VStr _ => Unmodelled
  end.

Definition indices (n : nat) : list string :=
  map (fun i => string_of_N (N.of_nat i)) (seq 0 n).

(** [Object.keys(v)]. *)
Definition keys (h : heap) (v : value) : outcome (list string) :=
  match v with
  | VUndefined | VNull => Throws TypeError
  | VBool _ | VNum _ => Returns []
  | VStr s => Returns (indices (String.length s))
  | VRef r =>
      match nth_error h r with
      | Some (ORecord props) => Returns (obj_keys props)
      | Some (OArray elems) => Returns (indices (length elems))
      | None => Unmodelled
      end
  end.

(** The tree [JSON.stringify] writes out for [v], before what the text
    loses (that is [json_clone]).  [stack] holds the objects being written:
    meeting one of them again is a cycle, a [TypeError].  [fuel] bounds the
    depth; [stringify] below gives enough of it. *)
Fixpoint read (fuel : nat) (stack : list ref) (h : heap) (v : value) : outcome jsval :=
  match v with
  | VUndefined => Returns JUndefined
  | VNull => Returns JNull
  | VBool b => Returns (JBool b)
  | VNum f => Returns (JNum f)
  | VStr s => Returns (JStr s)
  | VRef r =>
      if existsb (Nat.eqb r) stack then Throws TypeError
      else
        match fuel with
        | O => Unmodelled
        | S fuel' =>
            match nth_error h r with
            | Some (ORecord props) =>
                xs <- map_each (read fuel' (r :: stack) h) (map snd props) ;;
                Returns (JObj (combine (map fst props) xs))
            | Some (OArray elems) =>
                xs <- map_each (read fuel' (r :: stack) h) elems ;;
                Returns (JArr xs)
            | None => Unmodelled
            end
        end
  end.

Definition stringify (h : heap) (v : value) : outcome jsval :=
  read (S (length h)) [] h v.

Section AllocEach.
Context {A : Type} (alloc : A -> heap -> heap * value).

Fixpoint alloc_each (l : list A) (h : heap) : heap * list value :=
  match l with
  | [] => (h, [])
  | x :: r =>
      let '(h1, v) := alloc x h in
      let '(h2, vs) := alloc_each r h1 in
      (h2, v :: vs)
  end.

End AllocEach.

(** The objects [JSON.parse] builds for a tree: every one of them new. *)
Fixpoint alloc (t : jsval) (h : heap) : heap * value :=
  match t with
  | JUndefined => (h, VUndefined)
  | JNull => (h, VNull)
  | JBool b => (h, VBool b)
  | JNum f => (h, VNum f)
  | JStr s => (h, VStr s)
  | JArr l =>
      let '(h', vs) := alloc_each alloc l h in
      (h' ++ [OArray vs], VRef (length h'))
  | JObj l =>
      let '(h', vs) := alloc_each (fun kv => alloc (snd kv)) l h in
      (h' ++ [ORecord (combine (map fst l) vs)], VRef (length h'))
  end.

(** [getModuleFromNodeId(id)], with [this.drawflow] given. *)
Definition getModuleFromNodeId (h : heap) (this_drawflow : value) (id : string)
  : outcome (option string) :=
  editor <- get h this_drawflow "drawflow" ;;
  modules <- keys h editor ;;
  fold_each
    (fun nameModule moduleName =>
       module_ <- get h editor moduleName ;;
       data <- get h module_ "data" ;;
       nodes <- keys h data ;;
       Returns (fold_left
                  (fun nameModule node => if node =? id then Some moduleName else nameModule)
                  nodes nameModule))
    modules None.

(** [this.drawflow.drawflow[moduleName].data[id]] for the module that
    [getModuleFromNodeId(id)] gives. *)
Definition node_record (h : heap) (this_drawflow : value) (id : string) : outcome value :=
  moduleName <- getModuleFromNodeId h this_drawflow id ;;
  editor <- get h this_drawflow "drawflow" ;;
  module_ <- get h editor (key_of moduleName) ;;
  data <- get h module_ "data" ;;
  get h data id.

(** [getNodeFromId(id)]: the heap with the copy in it, and the copy.
    [JSON.stringify(undefined)] is [undefined], which [JSON.parse] does not
    take. *)
Definition getNodeFromId (h : heap) (this_drawflow : value) (id : string)
  : outcome (heap * value) :=
  node <- node_record h this_drawflow id ;;
  match node with
  | VUndefined => Throws SyntaxError
  | _ => t <- stringify h node ;; Returns (alloc (json_clone t) h)
  end.

(** An assignment to, or a deletion of, a property of the object at [r], a
    [push] on it: the object has new content. *)
Fixpoint write (r : ref) (o : object) (h : heap) : heap :=
  match h, r with
  | [], _ => []
  | _ :: rest, O => o :: rest
  | x :: rest, S r' => x :: write r' o rest
  end.

Definition mutate (writes : list (ref * object)) (h : heap) : heap :=
  fold_left (fun h w => write (fst w) (snd w) h) writes h.

(** *** The store as objects *)

Definition number_of_N (n : N) : float := PrimFloat.of_uint63 (Uint63.of_Z (Z.of_N n)).

Definition point_json (p : point) : jsval :=
  JObj [("pos_x", pos_x p); ("pos_y", pos_y p)].

Definition points_json (p : option (list point)) : list (string * jsval) :=
  match p with
  | Some l => [("points", JArr (map point_json l))]
  | None => []
  end.

Definition out_conn_json (c : out_conn) : jsval :=
  JObj ([("node", JStr (oc_node c)); ("output", JStr (oc_output c))] ++ points_json (oc_points c)).

Definition in_conn_json (c : in_conn) : jsval :=
  JObj ([("node", JStr (ic_node c)); ("input", JStr (ic_input c))] ++ points_json (ic_points c)).

Definition ports_json {A} (f : A -> jsval) (ports : obj (list A)) : jsval :=
  JObj (map (fun kv => (fst kv, JObj [("connections", JArr (map f (snd kv)))])) ports).

Definition node_json (n : node) : jsval :=
  JObj [("id", match n_id n with IdNum k => JNum (number_of_N k) | IdStr s => JStr s end);
        ("name", n_name n);
        ("data", n_data n);
        ("class", n_class n);
        ("html", n_html n);
        ("typenode", n_typenode n);
        ("inputs", ports_json in_conn_json (n_inputs n));
        ("outputs", ports_json out_conn_json (n_outputs n));
        ("pos_x", n_pos_x n);
        ("pos_y", n_pos_y n)].

(** [this.drawflow], that is [{ drawflow: { Home: { data: {...} }, ... } }]. *)
Definition store_json (df : store) : jsval :=
  JObj [("drawflow",
         JObj (map (fun m =>
                      (fst m, JObj [("data", JObj (map (fun kv => (fst kv, node_json (snd kv)))
                                                      (snd m)))]))
                   df))].

End Heap.

(** [this.drawflow] of two of the examples, as objects: the heap and the
    reference to the root object. *)
Definition connected_pair_heap : Heap.heap * Heap.value :=
  Eval vm_compute in Heap.alloc (Heap.store_json (drawflow connected_pair_example)) [].

Definition nan_payload_heap : Heap.heap * Heap.value :=
  Eval vm_compute in Heap.alloc (Heap.store_json (drawflow nan_payload_example)) [].

(* ================================================================== *)
(** ** The event bus

    [on], [removeListener] and [dispatch] work on [this.events] alone.
    Above, [dispatch] is the log of what was dispatched; here is the
    registry itself.  A listener is host code: it is taken to return, and
    not to register or remove listeners while it runs.  For an event name
    that every object inherits ([toString] and the like), [this.events[event]]
    is the inherited value, which has no [listeners]: reading a property of
    that [undefined] throws.  The message [on] writes with [console.error]
    is left out. *)

Module Events.

(** A function object of the host: equal numbers are the same function,
    which is how [indexOf] compares. *)
Definition listener : Type := nat.

(** What the host passes as the callback, and as the event name of [on]. *)
Inductive callback : Type :=
| Function (f : listener)
| NotFunction.

Inductive event_name : Type :=
| Name (s : string)
| NotString.

(** [this.events]: event name -> ([listeners]:) the functions to call. *)
Definition registry : Type := obj (list listener).

(** What a method gives back: [false], nothing, or a [TypeError]. *)
Inductive returned : Type :=
| False_
| Undefined
| ThrowsTypeError.

Definition on (event : event_name) (cb : callback) (events : registry)
  : registry * returned :=
  match cb with
  | NotFunction => (events, False_)
  | Function f =>
      match event with
      | NotString => (events, False_)
      | Name e =>
          let events1 :=
            match obj_get e events with
            | None => if inherited e then events else obj_set e [] events
            | Some _ => events
            end in
          match obj_get e events1 with
          | Some listeners => (obj_set e (listeners ++ [f]) events1, Undefined)
          | None => (events1, ThrowsTypeError)
          end
      end
  end.

(** [listeners.indexOf(callback)]; [None] is [-1]. *)
Definition indexOf (cb : callback) (listeners : list listener) : option nat :=
  match cb with
  | Function f => findIndex (Nat.eqb f) listeners
  | NotFunction => None
  end.

Definition removeListener (event : string) (cb : callback) (events : registry)
  : registry * returned :=
  match obj_get event events with
  | None => if inherited event then (events, ThrowsTypeError) else (events, False_)
  | Some listeners =>
      match indexOf cb listeners with
      | Some listenerIndex => (obj_set event (remove_nth listenerIndex listeners) events, Undefined)
      | None => (events, Undefined)
      end
  end.

(** [dispatch(event, details)]: the calls it makes, in order. *)
Definition dispatch {A} (event : string) (details : A) (events : registry)
  : list (listener * A) * returned :=
  match obj_get event events with
  | None => if inherited event then ([], ThrowsTypeError) else ([], False_)
  | Some listeners => (map (fun l => (l, details)) listeners, Undefined)
  end.

(** The listeners of an event; none when the event has no entry. *)
Definition listeners_of (event : string) (events : registry) : list listener :=
  match obj_get event events with
  | Some l => l
  | None => []
  end.

End Events.

(* ================================================================== *)
(** ** Identifiers: [getUuid]

    [Math.random] is the host's; [draw i] stands for the [i]-th value of
    [Math.floor(Math.random() * 0x10)], a number below 16. *)

Definition hexDigits : string := "0123456789abcdef".

(** [s.substr(k, 1)] *)
Definition substr1 (k : nat) (s : string) : string := String.substring k 1 s.

(** The number that [x & 0x3] first makes of [x], for a string of at most
    one character: the digit it is, and 0 for any other (the bits of
    [NaN]). *)
Definition number_of_char (x : string) : N :=
  match decimal x with
  | Some n => n
  | None => 0
  end.

Definition getUuid (draw : nat -> nat) : string :=
  let s := map (fun i => substr1 (draw i) hexDigits) (seq 0 36) in
  let s := replace_nth 14 "4" s in
  let s :=
    replace_nth 19
      (substr1 (N.to_nat (N.lor (N.land (number_of_char (nth 19 s "")) 3) 8)) hexDigits) s in
  let s := replace_nth 8 "-" (replace_nth 13 "-" (replace_nth 18 "-" (replace_nth 23 "-" s))) in
  String.concat "" s.

(** The label of the [i]-th port of a kind, ['input_' + i]. *)
Definition port_label (prefix : string) (i : nat) : string :=
  prefix ++ string_of_N (N.of_nat i).

(** [renumbering_example] after node 1 lost its first input, and after
    node 2 lost its first output. *)
Definition input_1_removed : editor :=
  Eval vm_compute in state_after (removeNodeInput "1" "input_1" renumbering_example).

Definition output_1_removed : editor :=
  Eval vm_compute in state_after (removeNodeOutput "2" "output_1" renumbering_example).

(* ================================================================== *)
(** ** Adding a port *)






(* ================================================================== *)
(** ** Removing the selected connection *)

(** [removeConnection()].  [this.connection_selected] is a path of the
    view; it is given as the position, among the connection elements, of
    the [svg.connection] element that holds the path, and the new value of
    the field is returned.  A selection that is no element of the view is
    outside the model. *)
Definition removeConnection (connection_selected : option nat) : M (option nat) :=
  match connection_selected with
  | None => ret None
  | Some i =>
      eles <- gets connection_eles ;;
      match nth_error eles i with
      | None => outside_model
      | Some listclass =>
          modify (fun s => with_connection_eles s (remove_nth i eles)) ;;
          lc2 <- defined (item 2 listclass) ;;
          lc1 <- defined (item 1 listclass) ;;
          let id_input := slice 13 lc1 in
          let id_output := slice 14 lc2 in
          let is_out :=
            fun it => (oc_node it =? id_input) && same_key (oc_output it) (item 4 listclass) in
          let is_in :=
            fun it => (ic_node it =? id_output) && same_key (ic_input it) (item 3 listclass) in
          df <- gets drawflow ;;
          m <- gets module ;;
          outs <- defined (output_connections df m id_output (key_of (item 3 listclass))) ;;
          set_drawflow
            (set_output_connections df m id_output (key_of (item 3 listclass))
               (splice1 (findIndex is_out outs) outs)) ;;
          df <- gets drawflow ;;
          ins <- defined (input_connections df m id_input (key_of (item 4 listclass))) ;;
          set_drawflow
            (set_input_connections df m id_input (key_of (item 4 listclass))
               (splice1 (findIndex is_in ins) ins)) ;;
          dispatch (connectionRemoved id_output id_input
                      (key_of (item 3 listclass)) (key_of (item 4 listclass))) ;;
          ret None
      end
  end.

(* ================================================================== *)
(** ** The payload of a node *)

Definition with_data (n : node) (data : jsval) : node :=
  {| n_id := n_id n; n_name := n_name n; n_data := data; n_class := n_class n;
     n_html := n_html n; n_typenode := n_typenode n;
     n_inputs := n_inputs n; n_outputs := n_outputs n;
     n_pos_x := n_pos_x n; n_pos_y := n_pos_y n |}.

(** Whether [Object.entries(data)] has an entry; [None] where it throws
    (on [null] and [undefined]).  A string has one entry a character. *)
Definition has_entries (data : jsval) : option bool :=
  match data with
  | JUndefined | JNull => None
  | JBool _ | JNum _ => Some false
  | JStr s => Some (negb (s =? ""))
  | JArr l => Some (negb (Nat.eqb (length l) 0))
  | JObj l => Some (negb (Nat.eqb (length l) 0))
  end.

(** [updateNodeDataFromId(id, data)].  The store is written first.  In the
    active module the entries of [data] are then written into the element
    of the node: with no entry there is nothing to write; with entries the
    call goes through the content of the element, which is outside the
    model. *)
Definition updateNodeDataFromId (id : string) (data : jsval) : M unit :=
  df <- gets drawflow ;;
  let moduleName := getModuleFromNodeId df id in
  n <- defined (node_at df (key_of moduleName) id) ;;
  set_drawflow (set_node df (key_of moduleName) id (with_data n data)) ;;
  active <- gets (fun s => same_key (module s) moduleName) ;;
  when active
    (match has_entries data with
     | None => throw TypeError
     | Some false => ret tt
     | Some true => outside_model
     end).

(* ================================================================== *)
(** ** Clearing the active module *)

(** [clearModuleSelected()] *)
Definition clearModuleSelected : M unit :=
  clear_view ;;
  df <- gets drawflow ;;
  m <- gets module ;;
  set_drawflow (obj_set m [] df).

(** An editor in a module of its own making: "Other" is the active
    module. *)
Definition other_module_example : editor :=
  Eval vm_compute in
    state_after ((addModule "Other" ;; changeModule "Other" ;; add_plain_node 1 1 ;; ret tt)
                   new_editor).

(* ================================================================== *)
(** ** Ids that are numbers

    With [useuuid] off, [addNode] returns the counter: a number.  Here
    [getModuleFromNodeId] and [getNodeFromId] take the id as it comes, a
    number or a string.  The keys of the store are strings, and [node === id]
    holds for no number; [data[id]] reads the property of the name the id
    is written as. *)

Module AnyId.

Definition getModuleFromNodeId (df : store) (id : node_id) : option string :=
  match id with
  | IdStr s => getModuleFromNodeId df s
  | IdNum _ => None
  end.

Definition getNodeFromId (id : node_id) : M node :=
  df <- gets drawflow ;;
  let moduleName := getModuleFromNodeId df id in
  data <- defined (obj_get (key_of moduleName) df) ;;
  match obj_get (id_string id) data with
  | Some n => ret (clone_node n)
  | None => throw SyntaxError
  end.

End AnyId.

(* ================================================================== *)
(** ** The view and the store together *)

(** The class list of the element drawn for the connection from output
    [P] of node [a] to input [Q] of node [b]. *)
Definition connection_ele (a P b Q : string) : classList :=
  ["connection"; ("node_in_node-" ++ b)%string; ("node_out_node-" ++ a)%string; P; Q].

Definition same_classes (x y : classList) : bool :=
  if list_eq_dec string_dec x y then true else false.

(** How many elements of the view are drawn for that connection. *)
Definition elem_count (a P b Q : string) (eles : list classList) : nat :=
  length (filter (same_classes (connection_ele a P b Q)) eles).

Definition output_label (P : string) : Prop := exists k, P = ("output_" ++ k)%string.
Definition input_label (Q : string) : Prop := exists k, Q = ("input_" ++ k)%string.

(** The view shows the active module: every connection element is the
    element of a connection between an output and an input, and there are
    as many elements for a connection as the store has entries for it. *)
Definition Drawn (s : editor) : Prop :=
  (forall c, In c (connection_eles s) ->
             exists a P b Q, c = connection_ele a P b Q /\ output_label P /\ input_label Q)
  /\ forall a P b Q,
       elem_count a P b Q (connection_eles s) = out_count (drawflow s) (module s) a P b Q.

(** What one connection less means for the counts of a store. *)
Definition one_less (m a P b Q : string) (m' x P' y Q' : string) : nat :=
  if (m' =? m) && (x =? a) && (P' =? P) && (y =? b) && (Q' =? Q) then 1 else 0.

Definition unplugged (df : store) (m a P b Q : string) (df' : store) : Prop :=
  store_keys df' = store_keys df
  /\ (forall m' x P' y Q',
         out_count df' m' x P' y Q' + one_less m a P b Q m' x P' y Q'
         = out_count df m' x P' y Q')
  /\ (forall m' x P' y Q',
         in_count df' m' y Q' x P' + one_less m a P b Q m' x P' y Q'
         = in_count df m' y Q' x P').

(** [Drawn] as a check that runs. *)
Definition drawn (s : editor) : bool :=
  let eles := connection_eles s in
  let df := drawflow s in
  let m := module s in
  forallb
    (fun c =>
       match c with
       | [c0; c1; c2; P; Q] =>
           (c0 =? "connection") && String.prefix "node_in_node-" c1
           && String.prefix "node_out_node-" c2
           && String.prefix "output_" P && String.prefix "input_" Q
           && (elem_count (slice 14 c2) P (slice 13 c1) Q eles
               =? out_count df m (slice 14 c2) P (slice 13 c1) Q)%nat
       | _ => false
       end) eles
  && match obj_get m df with
     | None => true
     | Some data =>
         forallb
           (fun kv =>
              forallb
                (fun port =>
                   forallb
                     (fun c =>
                        (elem_count (fst kv) (fst port) (oc_node c) (oc_output c) eles
                         =? out_count df m (fst kv) (fst port) (oc_node c) (oc_output c))%nat)
                     (snd port))
                (n_outputs (snd kv)))
           data
     end.

(** The nodes of a module as the editor itself makes them: the key of a
    node is its [id], no id and no input label comes twice, the labels of
    the inputs are input labels and their entries name output labels. *)
Definition well_labelled (nodes : obj node) : Prop :=
  NoDup (obj_keys nodes)
  /\ forall k n,
       In (k, n) nodes ->
       id_string (n_id n) = k
       /\ NoDup (obj_keys (n_inputs n))
       /\ forall Q l,
            In (Q, l) (n_inputs n) ->
            input_label Q /\ forall c, In c l -> output_label (ic_input c).

Fixpoint no_duplicate (l : list string) : bool :=
  match l with
  | [] => true
  | x :: r => negb (existsb (String.eqb x) r) && no_duplicate r
  end.

(** The same as a check that runs. *)
Definition well_labelled_check (nodes : obj node) : bool :=
  no_duplicate (obj_keys nodes)
  && forallb
       (fun kn =>
          (id_string (n_id (snd kn)) =? fst kn)
          && no_duplicate (obj_keys (n_inputs (snd kn)))
          && forallb
               (fun Ql =>
                  String.prefix "input_" (fst Ql)
                  && forallb (fun c => String.prefix "output_" (ic_input c)) (snd Ql))
               (n_inputs (snd kn)))
       nodes.

(** Two modules, each with two connected nodes; "Home" is the active one. *)
Definition two_modules_example : editor :=
  Eval vm_compute in
    state_after
      ((add_plain_node 1 1 ;; add_plain_node 1 1 ;;
        attempt (addConnection "1" "2" "output_1" "input_1") ;;
        addModule "Other" ;; changeModule "Other" ;;
        add_plain_node 1 1 ;; add_plain_node 1 1 ;;
        attempt (addConnection "3" "4" "output_1" "input_1") ;;
        attempt (changeModule "Home")) new_editor).

(** The number of a port after the port [q] is removed: the ports above
    [q] go one down. *)
Definition unshift (q j : nat) : nat := if Nat.ltb q j then j - 1 else j.

(** And back: the old number of the port that is number [j] afterwards. *)
Definition shift (q j : nat) : nat := if Nat.ltb j q then j else S j.

(** The output port that an entry of an input port names. *)
Definition port_of (c : in_conn) : string * string := (ic_node c, ic_input c).



(* ================================================================== *)
(** * Properties *)

Unset Implicit Arguments.

(** ** Objects *)

Section ObjFacts.
Variable A : Type.
Implicit Types (o : obj A) (k : string) (v : A).

Lemma obj_get_replace_same k v o :
  obj_get k o <> None -> obj_get k (obj_replace k v o) = Some v.
Proof.
  induction o as [|[k' v'] r IH]; simpl; [congruence|].
  destruct (k' =? k) eqn:E; simpl; rewrite E; auto.
Qed.

Lemma obj_get_replace_other k k' v o :
  k' <> k -> obj_get k' (obj_replace k v o) = obj_get k' o.
Proof.
  intros Hk. induction o as [|[j w] r IH]; simpl; [reflexivity|].
  destruct (j =? k) eqn:E; simpl.
  - apply String.eqb_eq in E; subst j.
    destruct (k =? k') eqn:E'; [apply String.eqb_eq in E'; congruence | reflexivity].
  - destruct (j =? k'); auto.
Qed.

Lemma obj_keys_replace k v o : obj_keys (obj_replace k v o) = obj_keys o.
Proof.
  induction o as [|[j w] r IH]; simpl; [reflexivity|].
  destruct (j =? k); simpl; [reflexivity | f_equal; exact IH].
Qed.

Lemma obj_set_present k v o :
  obj_get k o <> None -> obj_set k v o = obj_replace k v o.
Proof. unfold obj_set. destruct (obj_get k o); congruence. Qed.

Lemma obj_get_set_same k v o :
  obj_get k o <> None -> obj_get k (obj_set k v o) = Some v.
Proof. intros H. rewrite obj_set_present by exact H. apply obj_get_replace_same, H. Qed.

Lemma obj_get_set_other k k' v o :
  obj_get k o <> None -> k' <> k -> obj_get k' (obj_set k v o) = obj_get k' o.
Proof. intros H Hk. rewrite obj_set_present by exact H. apply obj_get_replace_other, Hk. Qed.

Lemma obj_keys_set k v o :
  obj_get k o <> None -> obj_keys (obj_set k v o) = obj_keys o.
Proof. intros H. rewrite obj_set_present by exact H. apply obj_keys_replace. Qed.

Lemma obj_replace_same_value k v o :
  obj_get k o = Some v -> obj_replace k v o = o.
Proof.
  induction o as [|[j w] r IH]; simpl; [reflexivity|].
  destruct (j =? k) eqn:E.
  - intros H; injection H as ->. reflexivity.
  - intros H. f_equal. apply IH, H.
Qed.

Lemma obj_delete_absent k o : obj_get k o = None -> obj_delete k o = o.
Proof.
  induction o as [|[j w] r IH]; simpl; [reflexivity|].
  destruct (j =? k); [discriminate|]. intros H. f_equal. apply IH, H.
Qed.

Lemma obj_get_In k v o : obj_get k o = Some v -> In (k, v) o.
Proof.
  induction o as [|[j w] r IH]; simpl; [discriminate|].
  destruct (j =? k) eqn:E.
  - apply String.eqb_eq in E; subst j. intros H; injection H as ->. now left.
  - intros H. right. apply IH, H.
Qed.

End ObjFacts.

(** ** The store *)

Lemma getModuleFromNodeId_keys df df' id :
  store_keys df = store_keys df' ->
  getModuleFromNodeId df id = getModuleFromNodeId df' id.
Proof.
  unfold getModuleFromNodeId. generalize (@None string) as acc.
  revert df'. induction df as [|[m data] r IH]; intros [|[m' data'] r'] acc H;
    simpl in H; try discriminate; [reflexivity|].
  injection H as Hm Hk Hr. subst m'. simpl.
  assert (E : forall acc,
             fold_left (fun nm (kv : string * node) =>
                          if fst kv =? id then Some m else nm) data acc
             = fold_left (fun nm (kv : string * node) =>
                            if fst kv =? id then Some m else nm) data' acc).
  { clear - Hk. revert data' Hk.
    induction data as [|[k n] d IHd]; intros [|[k' n'] d'] Hk acc;
      simpl in Hk; try discriminate; [reflexivity|].
    injection Hk as -> Hd. simpl. apply IHd, Hd. }
  rewrite E. apply IH, Hr.
Qed.

Lemma store_keys_replace (df : store) m data data' :
  obj_get m df = Some data -> obj_keys data' = obj_keys data ->
  store_keys (obj_replace m data' df) = store_keys df.
Proof.
  induction df as [|[j d] r IH]; simpl; [reflexivity|].
  destruct (j =? m) eqn:E; simpl.
  - intros H Hk. injection H as ->. now rewrite Hk.
  - intros H Hk. f_equal. apply IH; assumption.
Qed.

Section SetNode.
Variables (df : store) (m id : string) (n n' : node).
Hypothesis Hn : node_at df m id = Some n.

Lemma node_at_data : exists data, obj_get m df = Some data /\ obj_get id data = Some n.
Proof.
  unfold node_at in Hn. destruct (obj_get m df) as [data|]; [|discriminate].
  exists data. auto.
Qed.

Lemma node_at_set_node_same : node_at (set_node df m id n') m id = Some n'.
Proof.
  destruct node_at_data as (data & Hd & Hi).
  unfold set_node, node_at. rewrite Hd.
  rewrite obj_get_set_same by congruence.
  apply obj_get_set_same. congruence.
Qed.

Lemma node_at_set_node_other m' id' :
  m' <> m \/ id' <> id ->
  node_at (set_node df m id n') m' id' = node_at df m' id'.
Proof.
  intros Hne. destruct node_at_data as (data & Hd & Hi).
  unfold set_node, node_at. rewrite Hd.
  destruct (String.eqb_spec m' m) as [->|Hm].
  - rewrite obj_get_set_same by congruence. rewrite Hd.
    destruct Hne as [Hne|Hne]; [congruence|].
    apply obj_get_set_other; congruence.
  - rewrite obj_get_set_other by congruence. reflexivity.
Qed.

Lemma store_keys_set_node : store_keys (set_node df m id n') = store_keys df.
Proof.
  destruct node_at_data as (data & Hd & Hi).
  unfold set_node. rewrite Hd. rewrite obj_set_present by congruence.
  apply store_keys_replace with (data := data); [exact Hd|].
  apply obj_keys_set. congruence.
Qed.

End SetNode.

(** What writing the connections of one port changes, and what it leaves. *)
Section SetConnections.
Variables (df : store) (m id P : string).

Lemma output_connections_node l :
  output_connections df m id P = Some l ->
  exists n, node_at df m id = Some n /\ obj_get P (n_outputs n) = Some l.
Proof.
  unfold output_connections. destruct (node_at df m id) as [n|]; [|discriminate].
  intros H. exists n. auto.
Qed.

Lemma input_connections_node l :
  input_connections df m id P = Some l ->
  exists n, node_at df m id = Some n /\ obj_get P (n_inputs n) = Some l.
Proof.
  unfold input_connections. destruct (node_at df m id) as [n|]; [|discriminate].
  intros H. exists n. auto.
Qed.

Section Output.
Variables (l l' : list out_conn).
Hypothesis Hl : output_connections df m id P = Some l.

Lemma output_set_output_same :
  output_connections (set_output_connections df m id P l') m id P = Some l'.
Proof.
  destruct (output_connections_node _ Hl) as (n & Hn & HP).
  unfold set_output_connections, output_connections. rewrite Hn.
  rewrite (@node_at_set_node_same df m id n _ Hn). simpl.
  apply obj_get_set_same. congruence.
Qed.

Lemma output_set_output_other m' id' P' :
  m' <> m \/ id' <> id \/ P' <> P ->
  output_connections (set_output_connections df m id P l') m' id' P'
  = output_connections df m' id' P'.
Proof.
  intros Hne. destruct (output_connections_node _ Hl) as (n & Hn & HP).
  unfold set_output_connections, output_connections. rewrite Hn.
  destruct (String.eqb_spec m' m) as [->|Hm];
    [destruct (String.eqb_spec id' id) as [->|Hi]|].
  - rewrite (@node_at_set_node_same df m id n _ Hn), Hn. simpl.
    apply obj_get_set_other; [congruence|]. intuition congruence.
  - rewrite (@node_at_set_node_other df m id n _ Hn) by auto. reflexivity.
  - rewrite (@node_at_set_node_other df m id n _ Hn) by auto. reflexivity.
Qed.

Lemma inputs_set_output m' id' :
  option_map n_inputs (node_at (set_output_connections df m id P l') m' id')
  = option_map n_inputs (node_at df m' id').
Proof.
  destruct (output_connections_node _ Hl) as (n & Hn & HP).
  unfold set_output_connections. rewrite Hn.
  destruct (String.eqb_spec m' m) as [->|Hm];
    [destruct (String.eqb_spec id' id) as [->|Hi]|].
  - rewrite (@node_at_set_node_same df m id n _ Hn), Hn. reflexivity.
  - rewrite (@node_at_set_node_other df m id n _ Hn) by auto. reflexivity.
  - rewrite (@node_at_set_node_other df m id n _ Hn) by auto. reflexivity.
Qed.

Lemma input_set_output m' id' Q :
  input_connections (set_output_connections df m id P l') m' id' Q
  = input_connections df m' id' Q.
Proof.
  unfold input_connections. generalize (inputs_set_output m' id').
  destruct (node_at (set_output_connections df m id P l') m' id'),
    (node_at df m' id'); simpl; congruence.
Qed.

Lemma store_keys_set_output :
  store_keys (set_output_connections df m id P l') = store_keys df.
Proof.
  destruct (output_connections_node _ Hl) as (n & Hn & HP).
  unfold set_output_connections. rewrite Hn. apply (@store_keys_set_node df m id n _ Hn).
Qed.

End Output.

Section Input.
Variables (l l' : list in_conn).
Hypothesis Hl : input_connections df m id P = Some l.

Lemma input_set_input_same :
  input_connections (set_input_connections df m id P l') m id P = Some l'.
Proof.
  destruct (input_connections_node _ Hl) as (n & Hn & HP).
  unfold set_input_connections, input_connections. rewrite Hn.
  rewrite (@node_at_set_node_same df m id n _ Hn). simpl.
  apply obj_get_set_same. congruence.
Qed.

Lemma input_set_input_other m' id' P' :
  m' <> m \/ id' <> id \/ P' <> P ->
  input_connections (set_input_connections df m id P l') m' id' P'
  = input_connections df m' id' P'.
Proof.
  intros Hne. destruct (input_connections_node _ Hl) as (n & Hn & HP).
  unfold set_input_connections, input_connections. rewrite Hn.
  destruct (String.eqb_spec m' m) as [->|Hm];
    [destruct (String.eqb_spec id' id) as [->|Hi]|].
  - rewrite (@node_at_set_node_same df m id n _ Hn), Hn. simpl.
    apply obj_get_set_other; [congruence|]. intuition congruence.
  - rewrite (@node_at_set_node_other df m id n _ Hn) by auto. reflexivity.
  - rewrite (@node_at_set_node_other df m id n _ Hn) by auto. reflexivity.
Qed.

Lemma outputs_set_input m' id' :
  option_map n_outputs (node_at (set_input_connections df m id P l') m' id')
  = option_map n_outputs (node_at df m' id').
Proof.
  destruct (input_connections_node _ Hl) as (n & Hn & HP).
  unfold set_input_connections. rewrite Hn.
  destruct (String.eqb_spec m' m) as [->|Hm];
    [destruct (String.eqb_spec id' id) as [->|Hi]|].
  - rewrite (@node_at_set_node_same df m id n _ Hn), Hn. reflexivity.
  - rewrite (@node_at_set_node_other df m id n _ Hn) by auto. reflexivity.
  - rewrite (@node_at_set_node_other df m id n _ Hn) by auto. reflexivity.
Qed.

Lemma output_set_input m' id' Q :
  output_connections (set_input_connections df m id P l') m' id' Q
  = output_connections df m' id' Q.
Proof.
  unfold output_connections. generalize (outputs_set_input m' id').
  destruct (node_at (set_input_connections df m id P l') m' id'),
    (node_at df m' id'); simpl; congruence.
Qed.

Lemma inputs_set_input_same n :
  node_at df m id = Some n ->
  option_map n_inputs (node_at (set_input_connections df m id P l') m id)
  = Some (obj_set P l' (n_inputs n)).
Proof.
  intros Hn. unfold set_input_connections. rewrite Hn.
  rewrite (@node_at_set_node_same df m id n _ Hn). reflexivity.
Qed.

Lemma inputs_set_input_other m' id' :
  m' <> m \/ id' <> id ->
  option_map n_inputs (node_at (set_input_connections df m id P l') m' id')
  = option_map n_inputs (node_at df m' id').
Proof.
  intros Hne. destruct (input_connections_node _ Hl) as (n & Hn & HP).
  unfold set_input_connections. rewrite Hn.
  rewrite (@node_at_set_node_other df m id n _ Hn) by auto. reflexivity.
Qed.

Lemma store_keys_set_input :
  store_keys (set_input_connections df m id P l') = store_keys df.
Proof.
  destruct (input_connections_node _ Hl) as (n & Hn & HP).
  unfold set_input_connections. rewrite Hn. apply (@store_keys_set_node df m id n _ Hn).
Qed.

End Input.
End SetConnections.

(** ** Connecting *)

Lemma obj_get_clone_obj A (f : A -> A) k (o : obj A) :
  obj_get k (clone_obj f o) = option_map f (obj_get k o).
Proof.
  induction o as [|[j w] r IH]; simpl; [reflexivity|].
  destruct (j =? k); [reflexivity | exact IH].
Qed.

Lemma getNodeFromId_found s id m n :
  getModuleFromNodeId (drawflow s) id = Some m ->
  node_at (drawflow s) m id = Some n ->
  getNodeFromId id s = Normal s (clone_node n).
Proof.
  intros Hm Hn. unfold getNodeFromId, bind, gets. rewrite Hm. simpl.
  unfold node_at in Hn. destruct (obj_get m (drawflow s)) as [data|]; [|discriminate].
  simpl. rewrite Hn. reflexivity.
Qed.

Lemma existsb_clone_out b Q l :
  existsb (fun c => (oc_node c =? b) && (oc_output c =? Q)) (map clone_out_conn l)
  = existsb (fun c => (oc_node c =? b) && (oc_output c =? Q)) l.
Proof. induction l as [|c r IH]; simpl; [reflexivity|]. now rewrite IH. Qed.

Lemma count_out_existsb b Q l :
  existsb (fun c => (oc_node c =? b) && (oc_output c =? Q)) l = negb (count_out b Q l =? 0)%nat.
Proof.
  unfold count_out. induction l as [|c r IH]; simpl; [reflexivity|].
  destruct ((oc_node c =? b) && (oc_output c =? Q)); simpl; auto.
Qed.

Lemma addConnection_present s m a b P Q outs :
  getModuleFromNodeId (drawflow s) a = Some m ->
  getModuleFromNodeId (drawflow s) b = Some m ->
  output_connections (drawflow s) m a P = Some outs ->
  existsb (fun c => (oc_node c =? b) && (oc_output c =? Q)) outs = true ->
  addConnection a b P Q s = Normal s tt.
Proof.
  intros Ha Hb Ho He.
  destruct (output_connections_node _ _ _ _ _ Ho) as (n & Hn & HP).
  unfold addConnection, bind, gets, when. rewrite Ha, Hb. simpl.
  rewrite String.eqb_refl.
  rewrite (getNodeFromId_found _ _ _ _ Ha Hn).
  simpl. rewrite obj_get_clone_obj, HP. simpl.
  rewrite existsb_clone_out, He. reflexivity.
Qed.

(** ** [updateConnectionNodes] *)

(** One turn of its loop never completes. *)
Lemma update_connection_outcome nodes e s :
  (exists err, update_connection nodes e s = Throw s err)
  \/ update_connection nodes e s = OutsideModel.
Proof.
  unfold update_connection, bind, defined, throw, outside_model, ret.
  destruct (item 1 (snd e)) as [lc1|]; [|left; eexists; reflexivity].
  destruct (find _ nodes) as [n|]; [|left; eexists; reflexivity].
  destruct (_ || _); [left; eexists; reflexivity | right; reflexivity].
Qed.

(** The call returns when no element has the class [node_out_<id>], in the
    state it started in; with such an element it does not return. *)
Lemma updateConnectionNodes_outcome id s :
  match querySelectorAll [("node_out_" ++ id)%string] (connection_eles s) with
  | [] => updateConnectionNodes id s = Normal s tt
  | _ :: _ =>
      (exists err, updateConnectionNodes id s = Throw s err)
      \/ updateConnectionNodes id s = OutsideModel
  end.
Proof.
  unfold updateConnectionNodes, bind, gets.
  destruct (querySelectorAll _ (connection_eles s)) as [|e r]; [reflexivity|].
  cbn [forEach]. unfold bind.
  destruct (update_connection_outcome (node_eles s) e s) as [(err & ->)| ->];
    [left; eexists; reflexivity | right; reflexivity].
Qed.

Lemma updateConnectionNodes_Normal id s s' a :
  updateConnectionNodes id s = Normal s' a ->
  s' = s /\ querySelectorAll [("node_out_" ++ id)%string] (connection_eles s) = [].
Proof.
  intros H. pose proof (updateConnectionNodes_outcome id s) as O.
  destruct (querySelectorAll _ (connection_eles s)) as [|e r].
  - rewrite O in H. injection H as <- _. auto.
  - destruct O as [(err & O)|O]; rewrite O in H; discriminate.
Qed.

Lemma updateConnectionNodes_Throw id s s' err :
  updateConnectionNodes id s = Throw s' err -> s' = s.
Proof.
  intros H. pose proof (updateConnectionNodes_outcome id s) as O.
  destruct (querySelectorAll _ (connection_eles s)) as [|e r].
  - rewrite O in H. discriminate.
  - destruct O as [(err' & O)|O]; rewrite O in H; [now injection H | discriminate].
Qed.


Lemma has_class_add c d l : has_class c (classList_add d l) = has_class c l || (d =? c).
Proof.
  unfold classList_add. destruct (has_class d l) eqn:E.
  - destruct (String.eqb_spec d c) as [->|_]; [now rewrite E | now rewrite orb_false_r].
  - unfold has_class. rewrite existsb_app. cbn [existsb]. rewrite orb_false_r.
    now rewrite (String.eqb_sym c d).
Qed.

(** The element [addConnection] draws has the class of the output node. *)
Lemma matches_node_out b a P Q :
  matches [("node_out_node-" ++ a)%string] (connection_classes b a P Q) = true.
Proof.
  unfold matches, connection_classes. cbn [forallb]. rewrite andb_true_r.
  rewrite !has_class_add, String.eqb_refl. now rewrite orb_true_r.
Qed.

Lemma In_combine_last {A} (c : A) l : forall k,
  In (k + length l, c) (combine (seq k (length (l ++ [c]))) (l ++ [c])).
Proof.
  induction l as [|x l IH]; intros k; cbn [length app seq combine].
  - left. f_equal. lia.
  - right. replace (k + S (length l)) with (S k + length l) by lia. apply IH.
Qed.

Lemma querySelectorAll_last selector eles c :
  matches selector c = true -> querySelectorAll selector (eles ++ [c]) <> [].
Proof.
  intros Hm E. unfold querySelectorAll in E.
  assert (Hin : In (0 + length eles, c)
                  (filter (fun e => matches selector (snd e))
                     (combine (seq 0 (length (eles ++ [c]))) (eles ++ [c])))).
  { apply filter_In. split; [apply In_combine_last | exact Hm]. }
  rewrite E in Hin. destruct Hin.
Qed.

(** With the element of a connection from [a] in the view,
    [updateConnectionNodes('node-' + a)] does not return. *)
Lemma updateConnectionNodes_drawn a b P Q s eles :
  connection_eles s = eles ++ [connection_classes b a P Q] ->
  (exists err, updateConnectionNodes ("node-" ++ a) s = Throw s err)
  \/ updateConnectionNodes ("node-" ++ a) s = OutsideModel.
Proof.
  intros E. pose proof (updateConnectionNodes_outcome ("node-" ++ a) s) as O.
  destruct (querySelectorAll _ (connection_eles s)) as [|e r] eqn:Eq; [|exact O].
  exfalso. rewrite E in Eq. revert Eq. apply querySelectorAll_last.
  apply (matches_node_out b a P Q).
Qed.

(** [addConnection] of a connection that is not there yet: the two entries
    are stored; in another module than the active one the event follows; in
    the active module the element is drawn, and the call ends in
    [updateConnectionNodes] on the output node, which finds that element. *)
Lemma addConnection_absent s m a b P Q outs ins :
  getModuleFromNodeId (drawflow s) a = Some m ->
  getModuleFromNodeId (drawflow s) b = Some m ->
  output_connections (drawflow s) m a P = Some outs ->
  input_connections (drawflow s) m b Q = Some ins ->
  existsb (fun c => (oc_node c =? b) && (oc_output c =? Q)) outs = false ->
  let df1 :=
    set_input_connections
      (set_output_connections (drawflow s) m a P
         (outs ++ [{| oc_node := b; oc_output := Q; oc_points := None |}]))
      m b Q (ins ++ [{| ic_node := a; ic_input := P; ic_points := None |}]) in
  let drawn :=
    with_connection_eles (with_drawflow s df1)
      (connection_eles s ++ [connection_classes b a P Q]) in
  if module s =? m
  then (exists err, addConnection a b P Q s = Throw drawn err)
       \/ addConnection a b P Q s = OutsideModel
  else addConnection a b P Q s
       = Normal (with_dispatched (with_drawflow s df1)
                   (dispatched s ++ [connectionCreated a b P Q])) tt.
Proof.
  intros Ha Hb Ho Hi He df1 drawn.
  destruct (output_connections_node _ _ _ _ _ Ho) as (n & Hn & HP).
  unfold addConnection.
  set (U := updateConnectionNodes ("node-" ++ a)).
  set (U' := updateConnectionNodes ("node-" ++ b)).
  unfold bind, gets, when. rewrite Ha, Hb. simpl.
  rewrite String.eqb_refl.
  rewrite (getNodeFromId_found _ _ _ _ Ha Hn).
  simpl. rewrite obj_get_clone_obj, HP. simpl.
  rewrite existsb_clone_out, He. simpl.
  unfold push_output, bind, gets, defined. rewrite Ho. simpl.
  unfold push_input, bind, gets, defined. simpl.
  rewrite (input_set_output _ _ _ _ _ _ Ho), Hi. simpl.
  destruct (module s =? m); [|reflexivity].
  change (with_connection_eles _ _) with drawn. subst U.
  destruct (updateConnectionNodes_drawn a b P Q drawn (connection_eles s) eq_refl)
    as [(err & ->)| ->]; [left; eexists; reflexivity | right; reflexivity].
Qed.

Lemma count_in_app a P l c :
  count_in a P (l ++ [c]) = count_in a P l + (if (ic_node c =? a) && (ic_input c =? P) then 1 else 0).
Proof.
  unfold count_in. rewrite filter_app, length_app. simpl.
  destruct ((ic_node c =? a) && (ic_input c =? P)); reflexivity.
Qed.

Lemma count_out_app b Q l c :
  count_out b Q (l ++ [c]) = count_out b Q l + (if (oc_node c =? b) && (oc_output c =? Q) then 1 else 0).
Proof.
  unfold count_out. rewrite filter_app, length_app. simpl.
  destruct ((oc_node c =? b) && (oc_output c =? Q)); reflexivity.
Qed.

(** C3 (amended).  Connecting twice with the same arguments: for two
    nodes of one module and a port on each, in a store where the two ports
    agree on how often the pair is connected, and that is at most once:
    whichever way the first [addConnection] ends, the second one returns in
    the very same state (nothing stored, nothing drawn, no event), and each
    of the two ports then holds exactly one entry for the other. *)
Theorem addConnection_twice :
  forall s m a b P Q outs ins,
    getModuleFromNodeId (drawflow s) a = Some m ->
    getModuleFromNodeId (drawflow s) b = Some m ->
    output_connections (drawflow s) m a P = Some outs ->
    input_connections (drawflow s) m b Q = Some ins ->
    count_out b Q outs = count_in a P ins ->
    count_out b Q outs <= 1 ->
    forall s1,
      final_state (addConnection a b P Q s) = Some s1 ->
      addConnection a b P Q s1 = Normal s1 tt
      /\ exists outs1 ins1,
           output_connections (drawflow s1) m a P = Some outs1
           /\ input_connections (drawflow s1) m b Q = Some ins1
           /\ count_out b Q outs1 = 1
           /\ count_in a P ins1 = 1.
Proof.
  intros s m a b P Q outs ins Ha Hb Ho Hi Hc Hle s1 Hend.
  destruct (existsb (fun c => (oc_node c =? b) && (oc_output c =? Q)) outs) eqn:He.
  - (* already connected: both calls leave the state as it is *)
    pose proof (addConnection_present s m a b P Q outs Ha Hb Ho He) as H1.
    rewrite H1 in Hend. injection Hend as <-. split; [exact H1|].
    exists outs, ins. rewrite count_out_existsb in He.
    split; [exact Ho|]. split; [exact Hi|].
    destruct (count_out b Q outs) as [|[|k]]; simpl in He; try discriminate; lia.
  - (* not connected yet: the first call appends both entries, the second finds them *)
    pose proof (addConnection_absent s m a b P Q outs ins Ha Hb Ho Hi He) as H1.
    cbv zeta in H1.
    set (o := {| oc_node := b; oc_output := Q; oc_points := None |}) in *.
    set (i := {| ic_node := a; ic_input := P; ic_points := None |}) in *.
    set (df1 := set_output_connections (drawflow s) m a P (outs ++ [o])) in *.
    assert (Hdf : drawflow s1 = set_input_connections df1 m b Q (ins ++ [i])).
    { destruct (module s =? m).
      - destruct H1 as [(err & H1)|H1]; rewrite H1 in Hend; [|discriminate].
        injection Hend as <-. reflexivity.
      - rewrite H1 in Hend. injection Hend as <-. reflexivity. }
    clear H1 Hend.
    assert (Ho1 : output_connections df1 m a P = Some (outs ++ [o]))
      by (apply output_set_output_same with (l := outs); exact Ho).
    assert (Hi1 : input_connections df1 m b Q = Some ins)
      by (unfold df1; rewrite (input_set_output _ _ _ _ _ _ Ho); exact Hi).
    assert (Ho2 : output_connections (drawflow s1) m a P = Some (outs ++ [o]))
      by (rewrite Hdf, (output_set_input _ _ _ _ _ _ Hi1); exact Ho1).
    assert (Hi2 : input_connections (drawflow s1) m b Q = Some (ins ++ [i]))
      by (rewrite Hdf; apply input_set_input_same with (l := ins); exact Hi1).
    assert (Hk : store_keys (drawflow s1) = store_keys (drawflow s)).
    { rewrite Hdf, (store_keys_set_input _ _ _ _ _ _ Hi1).
      apply (store_keys_set_output _ _ _ _ _ _ Ho). }
    rewrite count_out_existsb in He.
    assert (H0 : count_out b Q outs = 0)
      by (destruct (count_out b Q outs); [reflexivity | discriminate]).
    split.
    + apply addConnection_present with (m := m) (outs := outs ++ [o]); auto.
      * rewrite (getModuleFromNodeId_keys _ _ a Hk). exact Ha.
      * rewrite (getModuleFromNodeId_keys _ _ b Hk). exact Hb.
      * rewrite existsb_app. simpl. rewrite !String.eqb_refl. apply orb_true_r.
    + exists (outs ++ [o]), (ins ++ [i]). split; [exact Ho2|]. split; [exact Hi2|]. split.
      * rewrite count_out_app, H0. simpl. now rewrite !String.eqb_refl.
      * rewrite count_in_app, <- Hc, H0. simpl. now rewrite !String.eqb_refl.
Qed.

(** The claim as it was stated fails where the two ports do not agree: in
    [unmirrored_example] the input port holds an entry that the output port
    lacks; two calls leave two entries on the input port. *)
Lemma addConnection_twice_unmirrored :
  exists s1 s2 ins,
    addConnection "1" "2" "output_1" "input_1" unmirrored_example = Normal s1 tt
    /\ addConnection "1" "2" "output_1" "input_1" s1 = Normal s2 tt
    /\ input_connections (drawflow s2) "Other" "2" "input_1" = Some ins
    /\ count_in "1" "output_1" ins = 2.
Proof.
  eexists. eexists. eexists. split; [vm_compute; reflexivity|].
  split; [vm_compute; reflexivity|]. split; vm_compute; reflexivity.
Qed.

(** ** Copies through JSON *)

Lemma json_clone_exact : forall v, json_exact v = true -> json_clone v = v.
Proof.
  fix IH 1. intros [ | | b | f | s | l | l]; simpl; intros H;
    try reflexivity; try discriminate.
  - apply andb_prop in H as [Hf Hz]. rewrite Hf.
    apply negb_true_iff in Hz. now rewrite Hz.
  - f_equal. induction l as [|x r IHl]; simpl in *; [reflexivity|].
    apply andb_prop in H as [Hx Hr]. f_equal; [apply IH, Hx | apply IHl, Hr].
  - f_equal. induction l as [|[k x] r IHl]; simpl in *; [reflexivity|].
    apply andb_prop in H as [Hx Hr].
    rewrite (IHl Hr). rewrite (IH x Hx).
    destruct x; try reflexivity. discriminate Hx.
Qed.

Lemma json_clone_field_exact v : json_exact_field v = true -> json_clone_field v = v.
Proof. destruct v; intros H; try reflexivity; exact (json_clone_exact _ H). Qed.

Lemma map_id_on {A} (f : A -> A) (p : A -> bool) l :
  (forall x, p x = true -> f x = x) -> forallb p l = true -> map f l = l.
Proof.
  intros Hf. induction l as [|x r IH]; simpl; [reflexivity|].
  intros H. apply andb_prop in H as [Hx Hr]. now rewrite (Hf _ Hx), (IH Hr).
Qed.

Lemma clone_point_exact p : exact_point p = true -> clone_point p = p.
Proof.
  destruct p as [x y]. unfold exact_point, clone_point. simpl. intros H.
  apply andb_prop in H as [Hx Hy].
  now rewrite (json_clone_field_exact _ Hx), (json_clone_field_exact _ Hy).
Qed.

Lemma clone_points_exact p :
  exact_points p = true -> option_map (map clone_point) p = p.
Proof.
  destruct p as [l|]; simpl; [|reflexivity]. intros H.
  now rewrite (map_id_on clone_point exact_point l clone_point_exact H).
Qed.

Lemma clone_in_conn_exact c : exact_points (ic_points c) = true -> clone_in_conn c = c.
Proof. destruct c. unfold clone_in_conn. simpl. intros H. now rewrite clone_points_exact. Qed.

Lemma clone_out_conn_exact c : exact_points (oc_points c) = true -> clone_out_conn c = c.
Proof. destruct c. unfold clone_out_conn. simpl. intros H. now rewrite clone_points_exact. Qed.

Lemma clone_obj_id_on {A} (f : A -> A) (p : A -> bool) (o : obj A) :
  (forall x, p x = true -> f x = x) ->
  forallb (fun kv => p (snd kv)) o = true -> clone_obj f o = o.
Proof.
  intros Hf. unfold clone_obj. induction o as [|[k x] r IH]; simpl; [reflexivity|].
  intros H. apply andb_prop in H as [Hx Hr]. now rewrite (Hf _ Hx), (IH Hr).
Qed.

Lemma clone_node_exact n : exact_node n = true -> clone_node n = n.
Proof.
  destruct n as [i nm d c h t ins outs x y]. unfold exact_node, clone_node. simpl. intros H.
  repeat (apply andb_prop in H as [H ?]).
  rewrite !json_clone_field_exact by assumption.
  rewrite (clone_obj_id_on (map clone_in_conn)
             (forallb (fun c => exact_points (ic_points c))) ins);
    [| intros l; apply map_id_on, clone_in_conn_exact | assumption].
  rewrite (clone_obj_id_on (map clone_out_conn)
             (forallb (fun c => exact_points (oc_points c))) outs);
    [| intros l; apply map_id_on, clone_out_conn_exact | assumption].
  reflexivity.
Qed.

Lemma clone_store_exact df : exact_store df = true -> clone_store df = df.
Proof.
  intros H. unfold clone_store.
  apply (clone_obj_id_on (clone_obj clone_node)
           (forallb (fun kv => exact_node (snd kv)))); [|exact H].
  intros data. apply clone_obj_id_on, clone_node_exact.
Qed.

(** ** What a call leaves alone *)

Section Keeps.
Context {X : Type} (f : editor -> X).

Lemma keeps_ret {A} (a : A) : keeps f (ret a).
Proof. intros s s' [= <-]. reflexivity. Qed.

Lemma keeps_gets {A} (g : editor -> A) : keeps f (gets g).
Proof. intros s s' [= <-]. reflexivity. Qed.

Lemma keeps_throw {A} e : keeps f (@throw A e).
Proof. intros s s' [= <-]. reflexivity. Qed.

Lemma keeps_outside_model {A} : keeps f (@outside_model A).
Proof. intros s s' [=]. Qed.

Lemma keeps_defined {A} (o : option A) : keeps f (defined o).
Proof. destruct o; [apply keeps_ret | apply keeps_throw]. Qed.

Lemma keeps_modify g : (forall s, f (g s) = f s) -> keeps f (modify g).
Proof. intros H s s' [= <-]. apply H. Qed.

Lemma keeps_bind {A B} (c : M A) (k : A -> M B) :
  keeps f c -> (forall a, keeps f (k a)) -> keeps f (bind c k).
Proof.
  intros Hc Hk s s' H. unfold bind in H.
  destruct (c s) as [s1 a|s1 e|] eqn:E.
  - rewrite (Hk a s1 s' H). apply Hc. now rewrite E.
  - cbn in H. injection H as <-. apply Hc. now rewrite E.
  - discriminate.
Qed.

Lemma keeps_when b c : keeps f c -> keeps f (when b c).
Proof. intros H. destruct b; [exact H | apply keeps_ret]. Qed.

Lemma keeps_forEach {A} (l : list A) (g : A -> M unit) :
  (forall x, keeps f (g x)) -> keeps f (forEach l g).
Proof.
  intros H. induction l as [|x r IH]; [apply keeps_ret|].
  cbn [forEach]. apply keeps_bind; [apply H | intros _; exact IH].
Qed.

Lemma keeps_add_classes c : keeps f (add_classes c).
Proof.
  destruct c as [ | | b | x | s | l | l]; cbn [add_classes];
    try apply keeps_throw; try apply keeps_outside_model.
  - destruct b; [apply keeps_throw | apply keeps_ret].
  - destruct (PrimFloat.is_zero x); [apply keeps_ret | apply keeps_throw].
  - destruct (s =? ""); [apply keeps_ret|].
    destruct (forallb _ _); [apply keeps_ret | apply keeps_throw].
Qed.

Lemma keeps_render_content t : keeps f (render_content t).
Proof.
  destruct t as [ | | b | x | s | l | l]; cbn [render_content];
    try apply keeps_outside_model.
  destruct b; [apply keeps_outside_model | apply keeps_ret].
Qed.

Lemma keeps_render_data d : keeps f (render_data d).
Proof.
  destruct d as [ | | b | x | s | l | l]; cbn [render_data];
    try apply keeps_throw;
    match goal with |- keeps f (if ?c then _ else _) =>
      destruct c; [apply keeps_ret | apply keeps_outside_model]
    end.
Qed.

(** However [updateConnectionNodes] ends, the state is the one it started
    in. *)
Lemma keeps_updateConnectionNodes id : keeps f (updateConnectionNodes id).
Proof.
  intros s s' H. destruct (updateConnectionNodes id s) as [s1 a|s1 e|] eqn:E;
    cbn in H; [|injection H as <-|discriminate].
  - injection H as <-. now destruct (updateConnectionNodes_Normal _ _ _ _ E) as (-> & _).
  - now rewrite (updateConnectionNodes_Throw _ _ _ _ E).
Qed.

Hypothesis Hconn : forall s l, f (with_connection_eles s l) = f s.
Hypothesis Hnode : forall s l, f (with_node_eles s l) = f s.

Lemma keeps_addNodeImport dataNode : keeps f (addNodeImport dataNode).
Proof.
  unfold addNodeImport.
  apply keeps_bind; [apply keeps_add_classes | intros _].
  apply keeps_bind; [apply keeps_modify; intros s; apply Hconn | intros _].
  apply keeps_bind; [apply keeps_render_content | intros _].
  apply keeps_bind; [apply keeps_render_data | intros _].
  apply keeps_modify. intros s. apply Hnode.
Qed.

Hypothesis Hid : forall s n, f (with_nodeId s n) = f s.

Lemma keeps_load : keeps f load.
Proof.
  unfold load.
  apply keeps_bind; [apply keeps_gets | intros df].
  apply keeps_bind; [apply keeps_gets | intros m].
  apply keeps_bind; [apply keeps_defined | intros nodes].
  apply keeps_bind; [apply keeps_forEach; intros x; apply keeps_addNodeImport | intros _].
  apply keeps_bind;
    [apply keeps_forEach; intros x; apply keeps_updateConnectionNodes | intros _].
  destruct (exact_ids df); [|apply keeps_outside_model].
  apply keeps_modify. intros s. apply Hid.
Qed.

End Keeps.

(** ** Import and export *)

Lemma import_unfold data notifi s :
  import data notifi s
  = (load ;; when notifi (dispatch imported))
      (with_drawflow
         (with_drawflow (with_connection_eles (with_node_eles s []) []) [("Home", [])])
         (clone_store data)).
Proof. reflexivity. Qed.

(** However [import] ends, the store is the copy of the data. *)
Lemma import_store data notifi s s' :
  final_state (import data notifi s) = Some s' ->
  drawflow s' = clone_store data /\ module s' = module s.
Proof.
  rewrite import_unfold. intros H.
  assert (K : forall X (f : editor -> X),
             (forall s l, f (with_connection_eles s l) = f s) ->
             (forall s l, f (with_node_eles s l) = f s) ->
             (forall s n, f (with_nodeId s n) = f s) ->
             (forall s l, f (with_dispatched s l) = f s) ->
             keeps f (load ;; when notifi (dispatch imported))).
  { intros X f H1 H2 H3 H4. apply keeps_bind; [now apply keeps_load | intros _].
    apply keeps_when. unfold dispatch. apply keeps_modify. intros s0. apply H4. }
  split.
  - rewrite (K _ drawflow (fun _ _ => eq_refl) (fun _ _ => eq_refl) (fun _ _ => eq_refl)
               (fun _ _ => eq_refl) _ _ H). reflexivity.
  - rewrite (K _ module (fun _ _ => eq_refl) (fun _ _ => eq_refl) (fun _ _ => eq_refl)
               (fun _ _ => eq_refl) _ _ H). reflexivity.
Qed.

(** C7, as amended.  For every state whose store JSON text represents
    exactly (no [undefined] in an array or as the value of a payload
    property, no [NaN], infinity or [-0]), [export()] returns a copy equal to
    the store and leaves the store as it is, and however [import] of that
    copy ends (by returning, or by what [load] throws), the store it leaves
    is equal to the one exported. *)
Theorem import_export_exact :
  forall s notifi,
    exact_store (drawflow s) = true ->
    exists s1,
      export s = Normal s1 (drawflow s)
      /\ drawflow s1 = drawflow s
      /\ forall s2, final_state (import (drawflow s) notifi s1) = Some s2 ->
                    drawflow s2 = drawflow s.
Proof.
  intros s notifi Hx.
  exists (with_dispatched s (dispatched s ++ [exported (drawflow s)])).
  split.
  { unfold export, bind, gets, dispatch, modify, ret. now rewrite (clone_store_exact _ Hx). }
  split; [reflexivity|].
  intros s2 H. destruct (import_store _ _ _ _ H) as (Hd & _).
  rewrite Hd. apply clone_store_exact, Hx.
Qed.

(** ** Removing a node that is not there *)

Lemma find_in_module_None id m (data : obj node) (acc : option string) :
  fold_left (fun (nm : option string) (kv : string * node) =>
               if fst kv =? id then Some m else nm) data acc = None ->
  acc = None /\ obj_get id data = None.
Proof.
  revert acc. induction data as [|[k n] r IH]; simpl; intros acc H; [auto|].
  apply IH in H as [H1 H2]. destruct (k =? id); [discriminate|]. auto.
Qed.

Lemma find_in_modules_None id (df : store) (acc : option string) :
  fold_left
    (fun (nameModule : option string) (m : string * obj node) =>
       fold_left (fun (nm : option string) (kv : string * node) =>
                    if fst kv =? id then Some (fst m) else nm) (snd m) nameModule)
    df acc = None ->
  acc = None /\ forall m data, In (m, data) df -> obj_get id data = None.
Proof.
  revert acc. induction df as [|[m0 d0] r IH]; simpl; intros acc H.
  - split; [exact H | intros ? ? []].
  - apply IH in H as [H1 H2]. apply find_in_module_None in H1 as [H1 H3].
    split; [exact H1|]. intros m data [Heq|Hin]; [|eauto].
    injection Heq as <- <-. exact H3.
Qed.

Lemma getModuleFromNodeId_None df id :
  getModuleFromNodeId df id = None ->
  forall m data, In (m, data) df -> obj_get id data = None.
Proof. intros H. apply (find_in_modules_None id df None H). Qed.

Lemma querySelectorAll_none selector eles :
  (forall c, In c eles -> matches selector c = false) ->
  querySelectorAll selector eles = [].
Proof.
  intros H. unfold querySelectorAll.
  generalize (seq 0 (length eles)) as ix. induction eles as [|c r IH]; intros ix.
  - destruct ix; reflexivity.
  - destruct ix as [|i ix]; [reflexivity|]. simpl.
    rewrite (H c (or_introl eq_refl)). apply IH. intros c' Hc'. apply H. now right.
Qed.

Lemma with_drawflow_same s : with_drawflow s (drawflow s) = s.
Proof. destruct s; reflexivity. Qed.

(** C6, as amended.  For an id that no module holds (and that no
    connection element of the view carries), [removeNodeId] leaves the store
    as it is, but it does not return: reading [data] of the module
    [undefined] throws a [TypeError], in the state the call started in, with
    no event.  Only when a module is itself named "undefined" does the call
    return, and then it reports a removal although it removed nothing. *)
Theorem removeNodeId_unknown :
  forall s id,
    getModuleFromNodeId (drawflow s) (slice 5 id) = None ->
    (forall c, In c (connection_eles s) ->
               has_class ("node_out_" ++ id) c = false
               /\ has_class ("node_in_" ++ id) c = false) ->
    removeNodeId id s
    = match obj_get "undefined" (drawflow s) with
      | None => Throw s TypeError
      | Some _ => Normal (with_dispatched s (dispatched s ++ [nodeRemoved (slice 5 id)])) tt
      end.
Proof.
  intros s id Hm Hv.
  cbv beta iota zeta delta [removeNodeId removeConnectionNodeId bind gets].
  rewrite (querySelectorAll_none [("node_out_" ++ id)%string] (connection_eles s)).
  2:{ intros c Hc. unfold matches. cbn [forallb]. destruct (Hv c Hc) as [-> _]. reflexivity. }
  cbn [rev forEach]. cbv beta iota delta [ret].
  rewrite (querySelectorAll_none [("node_in_" ++ id)%string] (connection_eles s)).
  2:{ intros c Hc. unfold matches. cbn [forallb]. destruct (Hv c Hc) as [_ ->]. reflexivity. }
  cbn [rev forEach]. cbv beta iota delta [ret].
  rewrite Hm. cbn [same_key key_of when]. cbv beta iota delta [ret defined].
  destruct (obj_get "undefined" (drawflow s)) as [data|] eqn:Hu; [|reflexivity].
  cbv beta iota delta [ret set_drawflow dispatch modify].
  rewrite (obj_delete_absent _ _ _ (getModuleFromNodeId_None _ _ Hm _ _ (obj_get_In _ _ _ _ Hu))).
  rewrite obj_set_present by congruence.
  rewrite (obj_replace_same_value _ _ _ _ Hu), with_drawflow_same. reflexivity.
Qed.

(** ** Removing a port

    *** What a call leaves behind, if it returns *)

Section Wp.
Context {A B : Type}.

Lemma wp_ret (a : A) Q s : Q a s -> wp (ret a) Q s.
Proof. intros H s' a' E. injection E as <- <-. exact H. Qed.

Lemma wp_bind (c : M A) (k : A -> M B) Q s :
  wp c (fun a s' => wp (k a) Q s') s -> wp (bind c k) Q s.
Proof.
  intros H s' b E. unfold bind in E.
  destruct (c s) as [s1 a| |] eqn:Ec; try discriminate.
  exact (H s1 a Ec s' b E).
Qed.

Lemma wp_gets (f : editor -> A) Q s : Q (f s) s -> wp (gets f) Q s.
Proof. intros H s' a' E. injection E as <- <-. exact H. Qed.

Lemma wp_defined (o : option A) Q s :
  (forall a, o = Some a -> Q a s) -> wp (defined o) Q s.
Proof.
  intros H s' a' E. destruct o as [a|]; [|discriminate].
  injection E as <- <-. now apply H.
Qed.

Lemma wp_throw e (Q : A -> editor -> Prop) s : wp (throw e) Q s.
Proof. intros s' a' E. discriminate. Qed.

Lemma wp_outside_model (Q : A -> editor -> Prop) s : wp outside_model Q s.
Proof. intros s' a' E. discriminate. Qed.

Lemma wp_mono (c : M A) (Q Q' : A -> editor -> Prop) s :
  wp c Q s -> (forall a s', Q a s' -> Q' a s') -> wp c Q' s.
Proof. intros H HQ s' a E. apply HQ, (H s' a E). Qed.

End Wp.

Lemma wp_modify f Q s : Q tt (f s) -> wp (modify f) Q s.
Proof. intros H s' a' E. injection E as <- <-. exact H. Qed.

Lemma wp_when (b : bool) c Q s :
  (b = true -> wp c Q s) -> (b = false -> Q tt s) -> wp (when b c) Q s.
Proof.
  intros Ht Hf. destruct b; simpl; [now apply Ht | apply wp_ret; now apply Hf].
Qed.

Lemma wp_forEach {A} (I : editor -> Prop) (l : list A) (f : A -> M unit) s :
  I s ->
  (forall x s0, In x l -> I s0 -> wp (f x) (fun _ => I) s0) ->
  wp (forEach l f) (fun _ => I) s.
Proof.
  revert s. induction l as [|x r IH]; intros s Hs Hf; simpl.
  - apply wp_ret, Hs.
  - apply wp_bind. eapply wp_mono; [apply (Hf x s); [now left | exact Hs]|].
    intros u s' Hs'. apply IH; [exact Hs'|]. intros y s0 Hy. apply Hf. now right.
Qed.


Lemma option_string_eqb_Some x m : option_string_eqb x (Some m) = true -> x = Some m.
Proof. destruct x as [y|]; simpl; [|discriminate]. intros H. apply String.eqb_eq in H. now subst. Qed.

Lemma In_remove_nth {A} (x : A) i l (p : A -> bool) :
  findIndex p l = Some i -> p x = false -> In x l -> In x (remove_nth i l).
Proof.
  revert i. induction l as [|y r IH]; intros i; simpl; [discriminate|].
  destruct (p y) eqn:Ey.
  - intros H; injection H as <-. intros Hx [->|Hin]; [congruence | exact Hin].
  - destruct (findIndex p r) as [j|]; simpl; [|discriminate].
    intros H; injection H as <-. intros Hx [->|Hin]; simpl; [now left | right; eauto].
Qed.

Lemma wp_remove_connection_ele selector (Q : unit -> editor -> Prop) s :
  (forall s', drawflow s' = drawflow s -> Q tt s') ->
  wp (remove_connection_ele selector) Q s.
Proof.
  intros H. unfold remove_connection_ele.
  apply wp_bind, wp_gets, wp_bind, wp_defined. intros i _.
  apply wp_modify, H. reflexivity.
Qed.

(** *** The loop of [removeNodeInput] that disconnects the removed port *)

Section DisconnectInput.
Variables (df0 : store) (m id Q : string) (inputs0 : obj (list in_conn)).
Hypothesis Hmod : getModuleFromNodeId df0 id = Some m.

(** What the loop keeps: the ids of the store, the input ports of the node
    other than [Q], and every output entry that does not name [(id, Q)]. *)
Definition disconnect_inv (df : store) : Prop :=
  store_keys df = store_keys df0
  /\ (exists n, node_at df m id = Some n
                /\ obj_keys (n_inputs n) = obj_keys inputs0
                /\ forall Q', Q' <> Q -> obj_get Q' (n_inputs n) = obj_get Q' inputs0)
  /\ (forall b P l0 e,
         output_connections df0 m b P = Some l0 -> In e l0 ->
         (oc_node e =? id) && (oc_output e =? Q) = false ->
         exists l, output_connections df m b P = Some l /\ In e l).

Lemma removeSingleConnection_keeps a P s :
  disconnect_inv (drawflow s) ->
  wp (removeSingleConnection a id P Q) (fun _ s' => disconnect_inv (drawflow s')) s.
Proof.
  intros Hinv. unfold removeSingleConnection.
  apply wp_bind, wp_gets. cbv zeta.
  assert (Hid : getModuleFromNodeId (drawflow s) id = Some m).
  { destruct Hinv as (Hk & _). rewrite (getModuleFromNodeId_keys _ _ id Hk). exact Hmod. }
  rewrite Hid.
  destruct (option_string_eqb (getModuleFromNodeId (drawflow s) a) (Some m)) eqn:E;
    [|apply wp_ret, Hinv].
  apply option_string_eqb_Some in E. rewrite E. cbn [key_of].
  apply wp_bind, wp_defined. intros connections Hc.
  destruct (findIndex _ connections) as [i|] eqn:Ef; [|apply wp_ret, Hinv].
  apply wp_bind, wp_gets, wp_bind.
  assert (Hrest : forall s1, drawflow s1 = drawflow s ->
    wp (df <- gets drawflow;;
        outs <- defined (output_connections df m a P);;
        set_drawflow
          (set_output_connections df m a P
             (splice1 (findIndex (fun item => (oc_node item =? id) && (oc_output item =? Q)) outs) outs));;
        df1 <- gets drawflow;;
        ins <- defined (input_connections df1 m id Q);;
        set_drawflow
          (set_input_connections df1 m id Q
             (splice1 (findIndex (fun item => (ic_node item =? a) && (ic_input item =? P)) ins) ins));;
        dispatch (connectionRemoved a id P Q);; ret true)
       (fun _ s' => disconnect_inv (drawflow s')) s1).
  { intros s1 Hs1.
    apply wp_bind, wp_gets. rewrite Hs1.
    apply wp_bind, wp_defined. intros outs Ho.
    rewrite Hc in Ho. injection Ho as <-. rewrite Ef. cbn [splice1].
    apply wp_bind. unfold set_drawflow at 1. apply wp_modify.
    apply wp_bind, wp_gets. cbn [drawflow with_drawflow].
    apply wp_bind, wp_defined. intros ins Hi.
    apply wp_bind. unfold set_drawflow at 1. apply wp_modify.
    apply wp_bind. unfold dispatch. apply wp_modify. apply wp_ret.
    cbn [drawflow with_drawflow with_dispatched].
    set (df1 := set_output_connections (drawflow s) m a P (remove_nth i connections)) in *.
    destruct Hinv as (Hk & (n & Hn & Hkeys & Hget) & Hout).
    split; [|split].
    - rewrite (store_keys_set_input _ _ _ _ _ _ Hi). unfold df1.
      rewrite (store_keys_set_output _ _ _ _ _ _ Hc). exact Hk.
    - pose proof (inputs_set_output _ m a P _ (remove_nth i connections) Hc m id) as H1.
      fold df1 in H1. rewrite Hn in H1. simpl in H1.
      destruct (node_at df1 m id) as [n1|] eqn:Hn1; [|discriminate].
      simpl in H1. injection H1 as H1.
      pose proof (inputs_set_input_same df1 m id Q (splice1 (findIndex (fun item => (ic_node item =? a) && (ic_input item =? P)) ins) ins) n1 Hn1) as H2.
      destruct (node_at (set_input_connections df1 m id Q _) m id) as [n2|]; [|discriminate].
      simpl in H2. injection H2 as H2.
      destruct (input_connections_node _ _ _ _ _ Hi) as (n1' & Hn1' & HQ).
      rewrite Hn1 in Hn1'. injection Hn1' as <-.
      exists n2. split; [reflexivity|]. rewrite H2, H1 in *. split.
      + rewrite obj_keys_set by congruence. exact Hkeys.
      + intros Q' HQ'. rewrite obj_get_set_other by congruence. apply Hget, HQ'.
    - intros b P' l0 e Hl0 He Hne.
      destruct (Hout b P' l0 e Hl0 He Hne) as (l & Hl & Hin).
      rewrite (output_set_input _ _ _ _ _ _ Hi).
      destruct (String.eqb_spec b a) as [->|Hb]; [destruct (String.eqb_spec P' P) as [->|HP]|].
      + exists (remove_nth i connections). split.
        * unfold df1. apply (output_set_output_same _ _ _ _ _ _ Hc).
        * rewrite Hc in Hl. injection Hl as <-.
          apply (In_remove_nth e i connections _ Ef Hne Hin).
      + exists l. split; [|exact Hin]. unfold df1.
        rewrite (output_set_output_other _ _ _ _ _ _ Hc); auto.
      + exists l. split; [|exact Hin]. unfold df1.
        rewrite (output_set_output_other _ _ _ _ _ _ Hc); auto. }
  apply wp_when.
  - intros _. apply wp_remove_connection_ele. intros s' Hs'. apply Hrest, Hs'.
  - intros _. apply Hrest. reflexivity.
Qed.

End DisconnectInput.

(** *** The loop of [removeNodeInput] that renumbers the peers *)

Lemma replace_nth_app {A} (l1 : list A) e x r :
  replace_nth (length l1) x (l1 ++ e :: r) = l1 ++ x :: r.
Proof.
  unfold replace_nth. rewrite firstn_app, firstn_all, Nat.sub_diag. simpl.
  rewrite app_nil_r. rewrite skipn_app, skipn_all, Nat.sub_diag. reflexivity.
Qed.

Lemma wp_reclass_connection_ele selector removes adds (Q : unit -> editor -> Prop) s :
  (forall s', drawflow s' = drawflow s -> Q tt s') ->
  wp (reclass_connection_ele selector removes adds) Q s.
Proof.
  intros H. unfold reclass_connection_ele.
  apply wp_bind, wp_gets, wp_bind, wp_defined. intros i _.
  apply wp_bind, wp_defined. intros c _.
  apply wp_modify, H. reflexivity.
Qed.

Section RenumberPeerOutput.
Variables (m : string) (active : bool) (id removed : string) (itemx : in_conn).
Variable (df : store).

(** The store after the loop, seen from the store [df] before it. *)
Definition peer_output_renumbered (l : list out_conn) (df' : store) : Prop :=
  output_connections df' m (ic_node itemx) (ic_input itemx) = Some l
  /\ (forall m' b P, m' <> m \/ b <> ic_node itemx \/ P <> ic_input itemx ->
                     output_connections df' m' b P = output_connections df m' b P)
  /\ (forall m' b, option_map n_inputs (node_at df' m' b)
                   = option_map n_inputs (node_at df m' b))
  /\ store_keys df' = store_keys df.

Lemma renumber_entries_spec (r : list out_conn) : forall (l1 : list out_conn) s,
  peer_output_renumbered (map (renumber_out id removed) l1 ++ r) (drawflow s) ->
  wp (forEach (combine (seq (length l1) (length r)) r)
        (renumber_output_entry m active id removed itemx))
     (fun _ s' =>
        peer_output_renumbered (map (renumber_out id removed) (l1 ++ r)) (drawflow s')) s.
Proof.
  induction r as [|e r IH]; intros l1 s Hs.
  - simpl. apply wp_ret. now rewrite app_nil_r in *.
  - cbn [length seq combine forEach].
    assert (Hnext : forall s1,
              peer_output_renumbered (map (renumber_out id removed) (l1 ++ [e]) ++ r)
                (drawflow s1) ->
              wp (forEach (combine (seq (S (length l1)) (length r)) r)
                    (renumber_output_entry m active id removed itemx))
                 (fun _ s' =>
                    peer_output_renumbered (map (renumber_out id removed) (l1 ++ e :: r))
                      (drawflow s')) s1).
    { intros s1 H1. specialize (IH (l1 ++ [e]) s1 H1).
      rewrite length_app, Nat.add_1_r in IH.
      replace ((l1 ++ [e]) ++ r) with (l1 ++ e :: r) in IH by (now rewrite <- app_assoc).
      exact IH. }
    assert (Hsame : renumber_out id removed e = e ->
              peer_output_renumbered (map (renumber_out id removed) (l1 ++ [e]) ++ r)
                (drawflow s)).
    { intros He. rewrite map_app. simpl. rewrite He, <- app_assoc. exact Hs. }
    apply wp_bind. unfold renumber_output_entry. cbn [fst snd]. cbv zeta.
    unfold renumber_out in Hsame.
    apply wp_when; intros Hid; rewrite Hid in Hsame; cbn [andb] in Hsame;
      [|apply Hnext, Hsame; reflexivity].
    apply wp_when; intros Hlt; rewrite Hlt in Hsame; [|apply Hnext, Hsame; reflexivity].
    destruct (decimal (slice 6 (oc_output e))) as [n|] eqn:Hd; [|apply wp_outside_model].
    assert (Hf : renumber_out id removed e
                 = {| oc_node := oc_node e;
                      oc_output := "input_" ++ string_of_Z (Z.of_N n - 1);
                      oc_points := oc_points e |})
      by (unfold renumber_out; now rewrite Hid, Hlt, Hd).
    apply wp_bind.
    assert (Hrest : forall s1, drawflow s1 = drawflow s ->
              wp (df <- gets drawflow ;;
                  l <- defined (output_connections df m (ic_node itemx) (ic_input itemx)) ;;
                  set_drawflow
                    (set_output_connections df m (ic_node itemx) (ic_input itemx)
                       (replace_nth (length l1)
                          {| oc_node := oc_node e;
                             oc_output := "input_" ++ string_of_Z (Z.of_N n - 1);
                             oc_points := oc_points e |} l)))
                 (fun _ s2 =>
                    wp (forEach (combine (seq (S (length l1)) (length r)) r)
                          (renumber_output_entry m active id removed itemx))
                      (fun _ s' =>
                         peer_output_renumbered
                           (map (renumber_out id removed) (l1 ++ e :: r)) (drawflow s')) s2)
                 s1).
    { intros s1 Hs1. apply wp_bind, wp_gets. rewrite Hs1.
      destruct Hs as (Hl & Hother & Hin & Hk).
      apply wp_bind, wp_defined. intros l Hl'. rewrite Hl in Hl'. injection Hl' as <-.
      unfold set_drawflow. apply wp_modify. apply Hnext.
      cbn [drawflow with_drawflow].
      rewrite <- (length_map (renumber_out id removed) l1), replace_nth_app.
      rewrite map_app. simpl. rewrite Hf, <- app_assoc. simpl.
      split; [apply (output_set_output_same _ _ _ _ _ _ Hl)|]. split; [|split].
      - intros m' b P Hne. rewrite (output_set_output_other _ _ _ _ _ _ Hl) by exact Hne.
        apply Hother, Hne.
      - intros m' b. rewrite (inputs_set_output _ _ _ _ _ _ Hl). apply Hin.
      - rewrite (store_keys_set_output _ _ _ _ _ _ Hl). exact Hk. }
    apply wp_when; intros _.
    + apply wp_reclass_connection_ele. intros s' Hs'. apply Hrest, Hs'.
    + apply Hrest. reflexivity.
Qed.

End RenumberPeerOutput.

Lemma renumber_peer_output_spec m active id removed itemx s :
  wp (renumber_peer_output m active id removed itemx)
     (fun _ s' =>
        exists l,
          output_connections (drawflow s) m (ic_node itemx) (ic_input itemx) = Some l
          /\ peer_output_renumbered m itemx (drawflow s)
               (map (renumber_out id removed) l) (drawflow s')) s.
Proof.
  unfold renumber_peer_output. apply wp_bind, wp_gets, wp_bind, wp_defined.
  intros l Hl.
  eapply wp_mono.
  - apply (renumber_entries_spec m active id removed itemx (drawflow s) l [] s).
    simpl. split; [exact Hl|]. auto.
  - intros u s' H. exists l. split; [exact Hl | exact H].
Qed.


Lemma wp_of_eq {A} (c : M A) Q s s1 a : c s = Normal s1 a -> Q a s1 -> wp c Q s.
Proof. intros E H s' a' Hc. rewrite E in Hc. injection Hc as <- <-. exact H. Qed.

Lemma wp_conj {A} (c : M A) (Q1 Q2 : A -> editor -> Prop) s :
  wp c Q1 s -> wp c Q2 s -> wp c (fun a s' => Q1 a s' /\ Q2 a s') s.
Proof. intros H1 H2 s' a E. split; [exact (H1 s' a E) | exact (H2 s' a E)]. Qed.

Lemma dedup_seen {A} (same_text : A -> A -> bool) (clone : A -> A) l : forall seen u,
  In u seen ->
  In u (fold_left
          (fun seen e => if existsb (same_text (clone e)) seen then seen else seen ++ [clone e])
          l seen).
Proof.
  induction l as [|x r IH]; intros seen u Hu; simpl; [exact Hu|].
  apply IH. destruct (existsb _ seen); [exact Hu | apply in_or_app; now left].
Qed.

Lemma dedup_in_conn_covers_from l c : forall seen,
  In c l ->
  exists u, In u (fold_left
                    (fun seen e => if existsb (in_conn_eqb (clone_in_conn e)) seen
                                   then seen else seen ++ [clone_in_conn e])
                    l seen)
            /\ ic_node u = ic_node c /\ ic_input u = ic_input c.
Proof.
  induction l as [|x r IH]; intros seen Hc; [contradiction|]. simpl.
  destruct Hc as [->|Hc]; [|apply IH, Hc].
  destruct (existsb (in_conn_eqb (clone_in_conn c)) seen) eqn:E.
  - apply existsb_exists in E as (u & Hu & Heq).
    exists u. split; [apply dedup_seen, Hu|].
    unfold in_conn_eqb in Heq. apply andb_prop in Heq as [Heq _].
    apply andb_prop in Heq as [H1 H2].
    apply String.eqb_eq in H1, H2. simpl in H1, H2. auto.
  - exists (clone_in_conn c). split; [|auto].
    apply dedup_seen, in_or_app. right. now left.
Qed.

Lemma dedup_in_conn_covers l c :
  In c l ->
  exists u, In u (dedup in_conn_eqb clone_in_conn l)
            /\ ic_node u = ic_node c /\ ic_input u = ic_input c.
Proof. apply dedup_in_conn_covers_from. Qed.

(** *** The peers after the last loop of [removeNodeInput] *)

Section PeersLoop.
Variables (m : string) (active : bool) (id removed : string).

Let f := renumber_out id removed.

(** An entry that the renumbering leaves alone stays in its port. *)
Lemma peers_loop_keeps (b P : string) (e : out_conn) (U : list in_conn) : forall s,
  f e = e ->
  (exists l, output_connections (drawflow s) m b P = Some l /\ In e l) ->
  wp (forEach U (renumber_peer_output m active id removed))
     (fun _ s' => exists l, output_connections (drawflow s') m b P = Some l /\ In e l) s.
Proof.
  intros s Hf Hs. apply wp_forEach; [exact Hs|].
  intros x s0 _ (l & Hl & Hin).
  eapply wp_mono; [apply renumber_peer_output_spec|].
  intros u s' (lx & Hlx & Hnew & Hother & _).
  destruct (String.eqb_spec b (ic_node x)) as [Hb|Hb];
    [destruct (String.eqb_spec P (ic_input x)) as [HP|HP]|].
  - subst b P. rewrite Hl in Hlx. injection Hlx as <-.
    exists (map (renumber_out id removed) l). split; [exact Hnew|].
    rewrite <- Hf. apply in_map, Hin.
  - exists l. split; [|exact Hin]. rewrite Hother; auto.
  - exists l. split; [|exact Hin]. rewrite Hother; auto.
Qed.


(** The loop writes output ports only. *)
Lemma peers_loop_inputs (U : list in_conn) (X : option (obj (list in_conn))) m' b : forall s,
  option_map n_inputs (node_at (drawflow s) m' b) = X ->
  wp (forEach U (renumber_peer_output m active id removed))
     (fun _ s' => option_map n_inputs (node_at (drawflow s') m' b) = X) s.
Proof.
  intros s Hs. apply wp_forEach; [exact Hs|].
  intros x s0 _ H0.
  eapply wp_mono; [apply renumber_peer_output_spec|].
  intros u s' (lx & Hlx & Hnew & Hother & Hin & _). rewrite Hin. exact H0.
Qed.

End PeersLoop.

(** *** Removing [input_2] of three inputs *)







Lemma outputs_set_node_inputs df m id n X m' b :
  node_at df m id = Some n ->
  option_map n_outputs (node_at (set_node df m id (with_inputs n X)) m' b)
  = option_map n_outputs (node_at df m' b).
Proof.
  intros Hn.
  destruct (String.eqb_spec m' m) as [->|Hm]; [destruct (String.eqb_spec b id) as [->|Hb]|].
  - rewrite (node_at_set_node_same _ _ _ _ _ Hn), Hn. reflexivity.
  - rewrite (node_at_set_node_other _ _ _ _ _ Hn) by auto. reflexivity.
  - rewrite (node_at_set_node_other _ _ _ _ _ Hn) by auto. reflexivity.
Qed.

Lemma output_set_node_inputs df m id n X m' b P :
  node_at df m id = Some n ->
  output_connections (set_node df m id (with_inputs n X)) m' b P
  = output_connections df m' b P.
Proof.
  intros Hn. unfold output_connections.
  generalize (outputs_set_node_inputs df m id n X m' b Hn).
  destruct (node_at (set_node df m id (with_inputs n X)) m' b), (node_at df m' b);
    simpl; congruence.
Qed.

(** ** Where a [ReferenceError] can come from *)

Lemma nre_ret {A} (a : A) : no_reference_error (ret a).
Proof. intros s s' [=]. Qed.

Lemma nre_gets {A} (f : editor -> A) : no_reference_error (gets f).
Proof. intros s s' [=]. Qed.

Lemma nre_modify f : no_reference_error (modify f).
Proof. intros s s' [=]. Qed.

Lemma nre_outside_model {A} : no_reference_error (@outside_model A).
Proof. intros s s' [=]. Qed.

Lemma nre_throw {A} e : e <> ReferenceError -> no_reference_error (@throw A e).
Proof. intros H s s' [= _ E]. exact (H E). Qed.

Lemma nre_defined {A} (o : option A) : no_reference_error (defined o).
Proof. destruct o; [apply nre_ret | apply nre_throw; discriminate]. Qed.

Lemma nre_bind {A B} (c : M A) (k : A -> M B) :
  no_reference_error c -> (forall a, no_reference_error (k a)) ->
  no_reference_error (bind c k).
Proof.
  intros Hc Hk s s' H. unfold bind in H.
  destruct (c s) as [s1 a|s1 e|] eqn:E; [exact (Hk a s1 s' H)| |discriminate].
  injection H as -> ->. exact (Hc s s' E).
Qed.

Lemma nre_when b c : no_reference_error c -> no_reference_error (when b c).
Proof. intros H. destruct b; [exact H | apply nre_ret]. Qed.

Lemma nre_forEach {A} (l : list A) (f : A -> M unit) :
  (forall x, no_reference_error (f x)) -> no_reference_error (forEach l f).
Proof.
  intros H. induction l as [|x r IH]; [apply nre_ret|].
  cbn [forEach]. apply nre_bind; [apply H | intros _; exact IH].
Qed.

(** The steps of a method, one after the other; where the method branches
    on a value, the value is taken apart. *)
Ltac nre_step :=
  first
    [ apply nre_ret | apply nre_gets | apply nre_modify | apply nre_defined
    | apply nre_outside_model
    | apply nre_throw; discriminate
    | apply nre_when
    | apply nre_forEach; intro
    | apply nre_bind; [|intro]
    | match goal with
      | |- no_reference_error (match ?x with _ => _ end) => destruct x
      end
    | progress cbv zeta
    | progress unfold set_drawflow, dispatch ].

Ltac nre := repeat nre_step.

Lemma nre_getNodeFromId id : no_reference_error (getNodeFromId id).
Proof. unfold getNodeFromId. nre. Qed.

Lemma nre_removeSingleConnection a b P Q : no_reference_error (removeSingleConnection a b P Q).
Proof. unfold removeSingleConnection, remove_connection_ele. nre. Qed.

Lemma nre_renumber_peer_output m active id removed itemx :
  no_reference_error (renumber_peer_output m active id removed itemx).
Proof.
  unfold renumber_peer_output, renumber_output_entry, reclass_connection_ele. nre.
Qed.

Lemma nre_renumber_peer_input m active id removed itemx :
  no_reference_error (renumber_peer_input m active id removed itemx).
Proof.
  unfold renumber_peer_input, renumber_input_entry, reclass_connection_ele. nre.
Qed.

Lemma rename_port_classes_end prefix removed l :
  snd (rename_port_classes prefix removed l) <> Raised ReferenceError.
Proof.
  induction l as [|c r IH]; cbn [rename_port_classes]; [discriminate|].
  destruct (has_class _ c).
  - destruct (item 1 c); [|discriminate].
    destruct (js_lt _ _).
    + destruct (decimal _); [|discriminate].
      destruct (rename_port_classes prefix removed r). exact IH.
    + destruct (rename_port_classes prefix removed r). exact IH.
  - destruct (rename_port_classes prefix removed r). exact IH.
Qed.

Lemma rename_port_eles_end inputs ele removed l :
  snd (rename_port_eles inputs ele removed l) <> Raised ReferenceError.
Proof.
  induction l as [|e r IH]; cbn [rename_port_eles]; [discriminate|].
  destruct (ele_id e =? ele).
  - pose proof (rename_port_classes_end (if inputs then "input_" else "output_") removed
                  (if inputs then ele_inputs e else ele_outputs e)) as H.
    destruct (rename_port_classes _ removed _) as [ports ended]. cbn [snd] in H.
    destruct ended; [|exact H|discriminate].
    destruct (rename_port_eles inputs ele removed r). exact IH.
  - destruct (rename_port_eles inputs ele removed r). exact IH.
Qed.

Lemma nre_rename_port_eles inputs ele removed :
  no_reference_error
    (eles <- gets node_eles ;;
     let (eles', ended) := rename_port_eles inputs ele removed eles in
     modify (fun s => with_node_eles s eles') ;;
     end_loop ended).
Proof.
  apply nre_bind; [apply nre_gets | intros eles].
  pose proof (rename_port_eles_end inputs ele removed eles) as H.
  destruct (rename_port_eles inputs ele removed eles) as [eles' ended]. cbn [snd] in H.
  apply nre_bind; [apply nre_modify | intros _].
  destruct ended; cbn [end_loop];
    [apply nre_ret | apply nre_throw; congruence | apply nre_outside_model].
Qed.

Lemma nre_remove_input_port id input_class : no_reference_error (remove_input_port id input_class).
Proof.
  unfold remove_input_port.
  repeat first [ apply nre_getNodeFromId | apply nre_removeSingleConnection
               | apply nre_renumber_peer_output | apply nre_rename_port_eles | nre_step ].
Qed.

Lemma nre_remove_output_port id output_class :
  no_reference_error (remove_output_port id output_class).
Proof.
  unfold remove_output_port.
  repeat first [ apply nre_getNodeFromId | apply nre_removeSingleConnection
               | apply nre_renumber_peer_input | apply nre_rename_port_eles | nre_step ].
Qed.

(** ** The last statement of [removeNodeInput] and [removeNodeOutput] *)

Lemma wp_updateConnectionNodes id (Q : unit -> editor -> Prop) s :
  Q tt s -> wp (updateConnectionNodes id) Q s.
Proof.
  intros H s' [] E. now destruct (updateConnectionNodes_Normal _ _ _ _ E) as (-> & _).
Qed.

(** A call that ends with [updateConnectionNodes] finishes in the state
    its other statements return in. *)
Lemma finishes_then_update (c : M unit) id s s' :
  no_reference_error c ->
  finishes (c ;; updateConnectionNodes id) s s' -> c s = Normal s' tt.
Proof.
  intros Hc H. unfold finishes, bind in H.
  destruct (c s) as [s1 []|s1 e|] eqn:E.
  - destruct H as [(a & H)|H].
    + now destruct (updateConnectionNodes_Normal _ _ _ _ H) as (-> & _).
    + now rewrite (updateConnectionNodes_Throw _ _ _ _ H).
  - destruct H as [(a & H)|H]; [discriminate|].
    injection H as -> ->. destruct (Hc s s' E).
  - destruct H as [(a & H)|H]; discriminate.
Qed.

Lemma removeNodeInput_finishes id input_class s s' :
  finishes (removeNodeInput id input_class) s s' ->
  remove_input_port id input_class s = Normal s' tt.
Proof. apply finishes_then_update, nre_remove_input_port. Qed.

Lemma removeNodeOutput_finishes id output_class s s' :
  finishes (removeNodeOutput id output_class) s s' ->
  remove_output_port id output_class s = Normal s' tt.
Proof. apply finishes_then_update, nre_remove_output_port. Qed.

Lemma returns_finishes {A} (c : M A) s s' a : c s = Normal s' a -> finishes c s s'.
Proof. intros H. left. now exists a. Qed.

Lemma removeNodeInput_Normal id input_class s s' :
  removeNodeInput id input_class s = Normal s' tt ->
  remove_input_port id input_class s = Normal s' tt.
Proof. intros H. exact (removeNodeInput_finishes _ _ _ _ (returns_finishes _ _ _ _ H)). Qed.

Lemma removeNodeOutput_Normal id output_class s s' :
  removeNodeOutput id output_class s = Normal s' tt ->
  remove_output_port id output_class s = Normal s' tt.
Proof. intros H. exact (removeNodeOutput_finishes _ _ _ _ (returns_finishes _ _ _ _ H)). Qed.


(** *** The same for [removeNodeOutput] *)

Lemma outputs_set_output_same df m id P l' n :
  node_at df m id = Some n ->
  option_map n_outputs (node_at (set_output_connections df m id P l') m id)
  = Some (obj_set P l' (n_outputs n)).
Proof.
  intros Hn. unfold set_output_connections. rewrite Hn.
  rewrite (node_at_set_node_same _ _ _ _ _ Hn). reflexivity.
Qed.

Lemma inputs_set_node_outputs df m id n X m' b :
  node_at df m id = Some n ->
  option_map n_inputs (node_at (set_node df m id (with_outputs n X)) m' b)
  = option_map n_inputs (node_at df m' b).
Proof.
  intros Hn.
  destruct (String.eqb_spec m' m) as [->|Hm]; [destruct (String.eqb_spec b id) as [->|Hb]|].
  - rewrite (node_at_set_node_same _ _ _ _ _ Hn), Hn. reflexivity.
  - rewrite (node_at_set_node_other _ _ _ _ _ Hn) by auto. reflexivity.
  - rewrite (node_at_set_node_other _ _ _ _ _ Hn) by auto. reflexivity.
Qed.

Lemma input_set_node_outputs df m id n X m' b P :
  node_at df m id = Some n ->
  input_connections (set_node df m id (with_outputs n X)) m' b P
  = input_connections df m' b P.
Proof.
  intros Hn. unfold input_connections.
  generalize (inputs_set_node_outputs df m id n X m' b Hn).
  destruct (node_at (set_node df m id (with_outputs n X)) m' b), (node_at df m' b);
    simpl; congruence.
Qed.

Lemma count_in_findIndex a P l :
  0 < count_in a P l ->
  exists j, findIndex (fun c => (ic_node c =? a) && (ic_input c =? P)) l = Some j
            /\ S (count_in a P (remove_nth j l)) = count_in a P l.
Proof.
  unfold count_in. induction l as [|x r IH]; simpl; [lia|].
  destruct ((ic_node x =? a) && (ic_input x =? P)) eqn:E; simpl.
  - intros _. exists 0. auto.
  - intros H. destruct (IH H) as (j & Hj & Hc). exists (S j). rewrite Hj. simpl. rewrite E. auto.
Qed.

Lemma count_out_clone b Q l : count_out b Q (map clone_out_conn l) = count_out b Q l.
Proof.
  unfold count_out. induction l as [|x r IH]; simpl; [reflexivity|].
  destruct ((oc_node x =? b) && (oc_output x =? Q)); simpl; now rewrite IH.
Qed.

Lemma wp_forEach_remaining {A} (I : list A -> editor -> Prop) (f : A -> M unit) (l : list A) :
  (forall x r s0, I (x :: r) s0 -> wp (f x) (fun _ => I r) s0) ->
  forall s, I l s -> wp (forEach l f) (fun _ => I []) s.
Proof.
  intros Hf. induction l as [|x r IH]; intros s Hs; simpl.
  - apply wp_ret, Hs.
  - apply wp_bind. eapply wp_mono; [apply Hf, Hs|]. intros u s' Hs'. apply IH, Hs'.
Qed.

Section DisconnectOutput.
Variables (df0 : store) (m id P : string) (outputs0 : obj (list out_conn)).
Hypothesis Hmod : getModuleFromNodeId df0 id = Some m.

(** What the loop keeps while the entries [rem] of the removed port are
    still to be disconnected: the ids of the store, the output ports of the
    node other than [P], every input entry that does not name [(id, P)],
    and, for each peer port, at least as many entries for [(id, P)] as
    [rem] still names that port. *)
Definition disconnect_out_inv (rem : list out_conn) (df : store) : Prop :=
  store_keys df = store_keys df0
  /\ (exists n, node_at df m id = Some n
                /\ obj_keys (n_outputs n) = obj_keys outputs0
                /\ forall P', P' <> P -> obj_get P' (n_outputs n) = obj_get P' outputs0)
  /\ (forall b Q l0 e,
         input_connections df0 m b Q = Some l0 -> In e l0 ->
         (ic_node e =? id) && (ic_input e =? P) = false ->
         exists l, input_connections df m b Q = Some l /\ In e l)
  /\ (forall b Q, 0 < count_out b Q rem ->
         exists ins, input_connections df m b Q = Some ins
                     /\ count_out b Q rem <= count_in id P ins).

Lemma removeSingleConnection_keeps_out c rem s :
  disconnect_out_inv (c :: rem) (drawflow s) ->
  wp (removeSingleConnection id (oc_node c) P (oc_output c))
     (fun _ s' => disconnect_out_inv rem (drawflow s')) s.
Proof.
  intros Hinv.
  assert (Hweak : disconnect_out_inv rem (drawflow s)).
  { destruct Hinv as (Hk & Hnode & Hin & Hcount). repeat split; auto.
    intros b Q Hpos. destruct (Hcount b Q) as (ins & Hins & Hle).
    - unfold count_out in *. simpl. destruct (_ && _); simpl; lia.
    - exists ins. split; [exact Hins|]. unfold count_out in *. simpl in Hle.
      destruct (_ && _); simpl in Hle; lia. }
  unfold removeSingleConnection.
  apply wp_bind, wp_gets. cbv zeta.
  assert (Hid : getModuleFromNodeId (drawflow s) id = Some m).
  { destruct Hinv as (Hk & _). rewrite (getModuleFromNodeId_keys _ _ id Hk). exact Hmod. }
  rewrite Hid.
  destruct (option_string_eqb (Some m) (getModuleFromNodeId (drawflow s) (oc_node c))) eqn:E;
    [|apply wp_ret, Hweak].
  cbn [key_of].
  apply wp_bind, wp_defined. intros connections Hc.
  destruct (findIndex _ connections) as [i|] eqn:Ef; [|apply wp_ret, Hweak].
  apply wp_bind, wp_gets, wp_bind.
  assert (Hrest : forall s1, drawflow s1 = drawflow s ->
    wp (df <- gets drawflow;;
        outs <- defined (output_connections df m id P);;
        set_drawflow
          (set_output_connections df m id P
             (splice1 (findIndex (fun item => (oc_node item =? oc_node c)
                                              && (oc_output item =? oc_output c)) outs) outs));;
        df1 <- gets drawflow;;
        ins <- defined (input_connections df1 m (oc_node c) (oc_output c));;
        set_drawflow
          (set_input_connections df1 m (oc_node c) (oc_output c)
             (splice1 (findIndex (fun item => (ic_node item =? id) && (ic_input item =? P)) ins) ins));;
        dispatch (connectionRemoved id (oc_node c) P (oc_output c));; ret true)
       (fun _ s' => disconnect_out_inv rem (drawflow s')) s1).
  { intros s1 Hs1.
    apply wp_bind, wp_gets. rewrite Hs1.
    apply wp_bind, wp_defined. intros outs Ho.
    rewrite Hc in Ho. injection Ho as <-. rewrite Ef. cbn [splice1].
    apply wp_bind. unfold set_drawflow at 1. apply wp_modify.
    apply wp_bind, wp_gets. cbn [drawflow with_drawflow].
    apply wp_bind, wp_defined. intros ins Hi.
    apply wp_bind. unfold set_drawflow at 1. apply wp_modify.
    apply wp_bind. unfold dispatch. apply wp_modify. apply wp_ret.
    cbn [drawflow with_drawflow with_dispatched].
    set (df1 := set_output_connections (drawflow s) m id P (remove_nth i connections)) in *.
    destruct Hinv as (Hk & (n & Hn & Hkeys & Hget) & Hin & Hcount).
    (* the mirror entry is there, so [splice] removes it and nothing else *)
    assert (Hi0 : input_connections (drawflow s) m (oc_node c) (oc_output c) = Some ins).
    { rewrite <- Hi. unfold df1. symmetry. apply (input_set_output _ _ _ _ _ _ Hc). }
    destruct (Hcount (oc_node c) (oc_output c)) as (ins' & Hins' & Hle).
    { unfold count_out. simpl. rewrite !String.eqb_refl. simpl. lia. }
    rewrite Hi0 in Hins'. injection Hins' as <-.
    destruct (count_in_findIndex id P ins) as (j & Hj & Hcj).
    { unfold count_out in Hle. simpl in Hle. rewrite !String.eqb_refl in Hle.
      simpl in Hle. lia. }
    rewrite Hj. cbn [splice1].
    split; [|split; [|split]].
    - rewrite (store_keys_set_input _ _ _ _ _ _ Hi). unfold df1.
      rewrite (store_keys_set_output _ _ _ _ _ _ Hc). exact Hk.
    - pose proof (outputs_set_output_same (drawflow s) m id P (remove_nth i connections) n Hn)
        as H1. fold df1 in H1.
      pose proof (outputs_set_input df1 m (oc_node c) (oc_output c) ins (remove_nth j ins) Hi m id)
        as H2. rewrite H1 in H2.
      destruct (node_at (set_input_connections df1 m (oc_node c) (oc_output c) _) m id)
        as [n2|]; [|discriminate H2].
      simpl in H2. injection H2 as H2.
      destruct (output_connections_node _ _ _ _ _ Hc) as (n' & Hn' & HP).
      rewrite Hn in Hn'. injection Hn' as <-.
      exists n2. split; [reflexivity|]. rewrite H2. split.
      + rewrite obj_keys_set by congruence. exact Hkeys.
      + intros P' HP'. rewrite obj_get_set_other by congruence. apply Hget, HP'.
    - intros b Q l0 e Hl0 He Hne.
      destruct (Hin b Q l0 e Hl0 He Hne) as (l & Hl & Hinl).
      assert (Hl1 : input_connections df1 m b Q = Some l)
        by (unfold df1; rewrite (input_set_output _ _ _ _ _ _ Hc); exact Hl).
      destruct (String.eqb_spec b (oc_node c)) as [Hb|Hb];
        [destruct (String.eqb_spec Q (oc_output c)) as [HQ|HQ]|].
      + subst b Q. rewrite Hi in Hl1. injection Hl1 as <-.
        exists (remove_nth j ins). split.
        * apply (input_set_input_same _ _ _ _ _ _ Hi).
        * apply (In_remove_nth e j ins _ Hj Hne Hinl).
      + exists l. split; [|exact Hinl].
        rewrite (input_set_input_other _ _ _ _ _ _ Hi); auto.
      + exists l. split; [|exact Hinl].
        rewrite (input_set_input_other _ _ _ _ _ _ Hi); auto.
    - intros b Q Hpos.
      destruct (Hcount b Q) as (insb & Hinsb & Hleb).
      { unfold count_out in *. simpl. destruct (_ && _); simpl; lia. }
      assert (Hl1 : input_connections df1 m b Q = Some insb)
        by (unfold df1; rewrite (input_set_output _ _ _ _ _ _ Hc); exact Hinsb).
      destruct (String.eqb_spec b (oc_node c)) as [Hb|Hb];
        [destruct (String.eqb_spec Q (oc_output c)) as [HQ|HQ]|].
      + subst b Q. rewrite Hi in Hl1. injection Hl1 as <-.
        exists (remove_nth j ins). split; [apply (input_set_input_same _ _ _ _ _ _ Hi)|].
        unfold count_out in Hleb. simpl in Hleb. rewrite !String.eqb_refl in Hleb.
        simpl in Hleb. unfold count_out. lia.
      + exists insb. split; [rewrite (input_set_input_other _ _ _ _ _ _ Hi); auto|].
        unfold count_out in *. simpl in Hleb.
        destruct (String.eqb_spec (oc_output c) Q) as [HQ'|HQ']; [congruence|].
        rewrite andb_false_r in Hleb. exact Hleb.
      + exists insb. split; [rewrite (input_set_input_other _ _ _ _ _ _ Hi); auto|].
        unfold count_out in *. simpl in Hleb.
        destruct (String.eqb_spec (oc_node c) b) as [Hb'|Hb']; [congruence|].
        simpl in Hleb. exact Hleb. }
  apply wp_when.
  - intros _. apply wp_remove_connection_ele. intros s' Hs'. apply Hrest, Hs'.
  - intros _. apply Hrest. reflexivity.
Qed.

End DisconnectOutput.

Section RenumberPeerInput.
Variables (m : string) (active : bool) (id removed : string) (itemx : out_conn).
Variable (df : store).

(** The store after the loop, seen from the store [df] before it. *)
Definition peer_input_renumbered (l : list in_conn) (df' : store) : Prop :=
  input_connections df' m (oc_node itemx) (oc_output itemx) = Some l
  /\ (forall m' b Q, m' <> m \/ b <> oc_node itemx \/ Q <> oc_output itemx ->
                     input_connections df' m' b Q = input_connections df m' b Q)
  /\ (forall m' b, option_map n_outputs (node_at df' m' b)
                   = option_map n_outputs (node_at df m' b))
  /\ store_keys df' = store_keys df.

Lemma renumber_input_entries_spec (r : list in_conn) : forall (l1 : list in_conn) s,
  peer_input_renumbered (map (renumber_in id removed) l1 ++ r) (drawflow s) ->
  wp (forEach (combine (seq (length l1) (length r)) r)
        (renumber_input_entry m active id removed itemx))
     (fun _ s' =>
        peer_input_renumbered (map (renumber_in id removed) (l1 ++ r)) (drawflow s')) s.
Proof.
  induction r as [|e r IH]; intros l1 s Hs.
  - simpl. apply wp_ret. now rewrite app_nil_r in *.
  - cbn [length seq combine forEach].
    assert (Hnext : forall s1,
              peer_input_renumbered (map (renumber_in id removed) (l1 ++ [e]) ++ r)
                (drawflow s1) ->
              wp (forEach (combine (seq (S (length l1)) (length r)) r)
                    (renumber_input_entry m active id removed itemx))
                 (fun _ s' =>
                    peer_input_renumbered (map (renumber_in id removed) (l1 ++ e :: r))
                      (drawflow s')) s1).
    { intros s1 H1. specialize (IH (l1 ++ [e]) s1 H1).
      rewrite length_app, Nat.add_1_r in IH.
      replace ((l1 ++ [e]) ++ r) with (l1 ++ e :: r) in IH by (now rewrite <- app_assoc).
      exact IH. }
    assert (Hsame : renumber_in id removed e = e ->
              peer_input_renumbered (map (renumber_in id removed) (l1 ++ [e]) ++ r)
                (drawflow s)).
    { intros He. rewrite map_app. simpl. rewrite He, <- app_assoc. exact Hs. }
    apply wp_bind. unfold renumber_input_entry. cbn [fst snd]. cbv zeta.
    unfold renumber_in in Hsame.
    apply wp_when; intros Hid; rewrite Hid in Hsame; cbn [andb] in Hsame;
      [|apply Hnext, Hsame; reflexivity].
    apply wp_when; intros Hlt; rewrite Hlt in Hsame; [|apply Hnext, Hsame; reflexivity].
    destruct (decimal (slice 7 (ic_input e))) as [n|] eqn:Hd; [|apply wp_outside_model].
    assert (Hf : renumber_in id removed e
                 = {| ic_node := ic_node e;
                      ic_input := "output_" ++ string_of_Z (Z.of_N n - 1);
                      ic_points := ic_points e |})
      by (unfold renumber_in; now rewrite Hid, Hlt, Hd).
    apply wp_bind.
    assert (Hrest : forall s1, drawflow s1 = drawflow s ->
              wp (df <- gets drawflow ;;
                  l <- defined (input_connections df m (oc_node itemx) (oc_output itemx)) ;;
                  set_drawflow
                    (set_input_connections df m (oc_node itemx) (oc_output itemx)
                       (replace_nth (length l1)
                          {| ic_node := ic_node e;
                             ic_input := "output_" ++ string_of_Z (Z.of_N n - 1);
                             ic_points := ic_points e |} l)))
                 (fun _ s2 =>
                    wp (forEach (combine (seq (S (length l1)) (length r)) r)
                          (renumber_input_entry m active id removed itemx))
                      (fun _ s' =>
                         peer_input_renumbered
                           (map (renumber_in id removed) (l1 ++ e :: r)) (drawflow s')) s2)
                 s1).
    { intros s1 Hs1. apply wp_bind, wp_gets. rewrite Hs1.
      destruct Hs as (Hl & Hother & Hin & Hk).
      apply wp_bind, wp_defined. intros l Hl'. rewrite Hl in Hl'. injection Hl' as <-.
      unfold set_drawflow. apply wp_modify. apply Hnext.
      cbn [drawflow with_drawflow].
      rewrite <- (length_map (renumber_in id removed) l1), replace_nth_app.
      rewrite map_app. simpl. rewrite Hf, <- app_assoc. simpl.
      split; [apply (input_set_input_same _ _ _ _ _ _ Hl)|]. split; [|split].
      - intros m' b Q Hne. rewrite (input_set_input_other _ _ _ _ _ _ Hl) by exact Hne.
        apply Hother, Hne.
      - intros m' b. rewrite (outputs_set_input _ _ _ _ _ _ Hl). apply Hin.
      - rewrite (store_keys_set_input _ _ _ _ _ _ Hl). exact Hk. }
    apply wp_when; intros _.
    + apply wp_reclass_connection_ele. intros s' Hs'. apply Hrest, Hs'.
    + apply Hrest. reflexivity.
Qed.

End RenumberPeerInput.

Lemma renumber_peer_input_spec m active id removed itemx s :
  wp (renumber_peer_input m active id removed itemx)
     (fun _ s' =>
        exists l,
          input_connections (drawflow s) m (oc_node itemx) (oc_output itemx) = Some l
          /\ peer_input_renumbered m itemx (drawflow s)
               (map (renumber_in id removed) l) (drawflow s')) s.
Proof.
  unfold renumber_peer_input. apply wp_bind, wp_gets, wp_bind, wp_defined.
  intros l Hl.
  eapply wp_mono.
  - apply (renumber_input_entries_spec m active id removed itemx (drawflow s) l [] s).
    simpl. split; [exact Hl|]. auto.
  - intros u s' H. exists l. split; [exact Hl | exact H].
Qed.



Section PeersInputLoop.
Variables (m : string) (active : bool) (id removed : string).

Let f := renumber_in id removed.

Lemma peers_in_loop_keeps (b Q : string) (e : in_conn) (U : list out_conn) : forall s,
  f e = e ->
  (exists l, input_connections (drawflow s) m b Q = Some l /\ In e l) ->
  wp (forEach U (renumber_peer_input m active id removed))
     (fun _ s' => exists l, input_connections (drawflow s') m b Q = Some l /\ In e l) s.
Proof.
  intros s Hf Hs. apply wp_forEach; [exact Hs|].
  intros x s0 _ (l & Hl & Hin).
  eapply wp_mono; [apply renumber_peer_input_spec|].
  intros u s' (lx & Hlx & Hnew & Hother & _).
  destruct (String.eqb_spec b (oc_node x)) as [Hb|Hb];
    [destruct (String.eqb_spec Q (oc_output x)) as [HQ|HQ]|].
  - subst b Q. rewrite Hl in Hlx. injection Hlx as <-.
    exists (map (renumber_in id removed) l). split; [exact Hnew|].
    rewrite <- Hf. apply in_map, Hin.
  - exists l. split; [|exact Hin]. rewrite Hother; auto.
  - exists l. split; [|exact Hin]. rewrite Hother; auto.
Qed.


Lemma peers_in_loop_outputs (U : list out_conn) (X : option (obj (list out_conn))) m' b :
  forall s,
  option_map n_outputs (node_at (drawflow s) m' b) = X ->
  wp (forEach U (renumber_peer_input m active id removed))
     (fun _ s' => option_map n_outputs (node_at (drawflow s') m' b) = X) s.
Proof.
  intros s Hs. apply wp_forEach; [exact Hs|].
  intros x s0 _ H0.
  eapply wp_mono; [apply renumber_peer_input_spec|].
  intros u s' (lx & Hlx & Hnew & Hother & Hout & _). rewrite Hout. exact H0.
Qed.

End PeersInputLoop.





(** *** Calls that return *)

Section Returns.
Context {A B : Type}.








End Returns.







Lemma In_remove_nth_In {A} (y : A) i l : In y (remove_nth i l) -> In y l.
Proof.
  revert i. induction l as [|x r IH]; intros i; [destruct i; intros []|].
  destruct i as [|i]; cbn [remove_nth]; [now right|].
  intros [<-|H]; [now left | right; exact (IH i H)].
Qed.


(** *** The peers of a node, while one of its input ports is removed *)

Section PeersWired.
Variables (df0 : store) (m id : string) (labels : list string).
Hypothesis Hmod : getModuleFromNodeId df0 id = Some m.






End PeersWired.






(** *** The same while an output port is removed *)

Section PeersWiredIn.
Variables (df0 : store) (m id : string) (labels : list string).
Hypothesis Hmod : getModuleFromNodeId df0 id = Some m.





Lemma option_string_eqb_Some_l x : option_string_eqb (Some m) x = true -> x = Some m.
Proof.
  destruct x as [y|]; simpl; [|discriminate]. intros H. apply String.eqb_eq in H. now subst.
Qed.


End PeersWiredIn.




(** *** The mirror invariant, checked *)

Lemma forallb_In {A} (p : A -> bool) l x : forallb p l = true -> In x l -> p x = true.
Proof. intros H Hx. rewrite forallb_forall in H. now apply H. Qed.

(** The check is sound. *)
Lemma mirrored_Mirror df : mirrored df = true -> Mirror df.
Proof.
  intros H m a P b Q. split.
  - intros (l & c & Hl & Hc & <- & <-).
    destruct (output_connections_node _ _ _ _ _ Hl) as (n & Hn & HP).
    destruct (node_at_data _ _ _ _ Hn) as (data & Hd & Ha).
    pose proof (forallb_In _ _ _ H (obj_get_In _ _ _ _ Hd)) as Hm. cbn [snd] in Hm.
    pose proof (forallb_In _ _ _ Hm (obj_get_In _ _ _ _ Ha)) as Hnode. cbn [snd fst] in Hnode.
    apply andb_prop in Hnode as [Hout _].
    pose proof (forallb_In _ _ _ Hout (obj_get_In _ _ _ _ HP)) as Hport. cbn [snd fst] in Hport.
    pose proof (forallb_In _ _ _ Hport Hc) as Hentry. cbn beta in Hentry.
    destruct (obj_get (oc_node c) data) as [nb|] eqn:Hb; [|discriminate].
    destruct (obj_get (oc_output c) (n_inputs nb)) as [ins|] eqn:Hi; [|discriminate].
    apply existsb_exists in Hentry as (i & Hin & Heq).
    apply andb_prop in Heq as [E1 E2]. apply String.eqb_eq in E1, E2.
    exists ins, i. unfold input_connections, node_at. rewrite Hd, Hb. auto.
  - intros (l & c & Hl & Hc & <- & <-).
    destruct (input_connections_node _ _ _ _ _ Hl) as (n & Hn & HP).
    destruct (node_at_data _ _ _ _ Hn) as (data & Hd & Ha).
    pose proof (forallb_In _ _ _ H (obj_get_In _ _ _ _ Hd)) as Hm. cbn [snd] in Hm.
    pose proof (forallb_In _ _ _ Hm (obj_get_In _ _ _ _ Ha)) as Hnode. cbn [snd fst] in Hnode.
    apply andb_prop in Hnode as [_ Hinp].
    pose proof (forallb_In _ _ _ Hinp (obj_get_In _ _ _ _ HP)) as Hport. cbn [snd fst] in Hport.
    pose proof (forallb_In _ _ _ Hport Hc) as Hentry. cbn beta in Hentry.
    destruct (obj_get (ic_node c) data) as [na|] eqn:Hb; [|discriminate].
    destruct (obj_get (ic_input c) (n_outputs na)) as [outs|] eqn:Ho; [|discriminate].
    apply existsb_exists in Hentry as (o & Hin & Heq).
    apply andb_prop in Heq as [E1 E2]. apply String.eqb_eq in E1, E2.
    exists outs, o. unfold output_connections, node_at. rewrite Hd, Hb. auto.
Qed.

(** *** What the mirror invariant gives *)








(** *** Port renumbering *)

Lemma renumbering_example_reached :
  renumbering_script new_editor = Normal renumbering_example tt.
Proof. vm_compute. reflexivity. Qed.

Lemma count_out_pos_In b Q l :
  0 < count_out b Q l -> exists c, In c l /\ oc_node c = b /\ oc_output c = Q.
Proof.
  unfold count_out. induction l as [|x r IH]; simpl; [lia|].
  destruct ((oc_node x =? b) && (oc_output x =? Q)) eqn:E.
  - intros _. apply andb_prop in E as [E1 E2]. apply String.eqb_eq in E1, E2.
    exists x. auto.
  - intros H. destruct (IH H) as (c & Hc & Hn). exists c. auto.
Qed.

(** The mirror condition of [port_renumbering], as a check that runs. *)
Lemma mirror_entries_check df m id P c2 :
  forallb
    (fun c => match input_connections df m (oc_node c) (oc_output c) with
              | Some ins => (count_out (oc_node c) (oc_output c) c2 <=? count_in id P ins)%nat
              | None => false
              end) c2 = true ->
  forall b Q, 0 < count_out b Q c2 ->
    exists ins, input_connections df m b Q = Some ins
                /\ count_out b Q c2 <= count_in id P ins.
Proof.
  intros H b Q Hpos. destruct (count_out_pos_In b Q c2 Hpos) as (c & Hc & <- & <-).
  rewrite forallb_forall in H. specialize (H c Hc).
  destruct (input_connections df m (oc_node c) (oc_output c)) as [ins|]; [|discriminate].
  exists ins. split; [reflexivity|]. now apply Nat.leb_le.
Qed.

(** That condition holds in every store that keeps the mirror invariant
    and holds no connection twice. *)
Lemma mirror_entries_of_Mirror df m id P c2 :
  Mirror df ->
  output_connections df m id P = Some c2 ->
  (forall b Q, count_out b Q c2 <= 1) ->
  forall b Q, 0 < count_out b Q c2 ->
    exists ins, input_connections df m b Q = Some ins
                /\ count_out b Q c2 <= count_in id P ins.
Proof.
  intros HM Hout Hdup b Q Hpos.
  destruct (count_out_pos_In b Q c2 Hpos) as (c & Hc & Hb & HQ).
  assert (Hin : has_in df m b Q id P).
  { apply HM. exists c2, c. auto. }
  destruct Hin as (ins & i & Hins & Hi & Hn & Hp).
  exists ins. split; [exact Hins|].
  assert (0 < count_in id P ins); [|specialize (Hdup b Q); lia].
  unfold count_in. clear Hins. induction ins as [|x r IH]; [destruct Hi|].
  cbn [filter]. destruct Hi as [->|Hi].
  - rewrite Hn, Hp, !String.eqb_refl. cbn. lia.
  - destruct ((ic_node x =? id) && (ic_input x =? P)); cbn [length]; [lia | apply IH, Hi].
Qed.

(** ** The view when a port of another module is removed *)



Section KeepsView.
Context {X : Type} (f : editor -> X).
Hypothesis Hdf : forall s df, f (with_drawflow s df) = f s.




End KeepsView.








(** ** The mirror invariant through [addConnection] and [removeSingleConnection] *)

Lemma count_out_In b Q l c :
  In c l -> oc_node c = b -> oc_output c = Q -> 0 < count_out b Q l.
Proof.
  intros Hc <- <-. unfold count_out. induction l as [|x r IH]; [destruct Hc|].
  cbn [filter]. destruct Hc as [->|Hc].
  - rewrite !String.eqb_refl. cbn. lia.
  - destruct (_ && _); cbn [length]; [lia | apply IH, Hc].
Qed.

Lemma count_in_In a P l c :
  In c l -> ic_node c = a -> ic_input c = P -> 0 < count_in a P l.
Proof.
  intros Hc <- <-. unfold count_in. induction l as [|x r IH]; [destruct Hc|].
  cbn [filter]. destruct Hc as [->|Hc].
  - rewrite !String.eqb_refl. cbn. lia.
  - destruct (_ && _); cbn [length]; [lia | apply IH, Hc].
Qed.

Lemma count_in_pos_In a P l :
  0 < count_in a P l -> exists c, In c l /\ ic_node c = a /\ ic_input c = P.
Proof.
  unfold count_in. induction l as [|x r IH]; simpl; [lia|].
  destruct ((ic_node x =? a) && (ic_input x =? P)) eqn:E.
  - intros _. apply andb_prop in E as [E1 E2]. apply String.eqb_eq in E1, E2.
    exists x. auto.
  - intros H. destruct (IH H) as (c & Hc & Hn). exists c. auto.
Qed.

Lemma has_out_count df m a P b Q : has_out df m a P b Q <-> 0 < out_count df m a P b Q.
Proof.
  unfold has_out, out_count. split.
  - intros (l & c & -> & Hc & Hb & HQ). exact (count_out_In _ _ _ _ Hc Hb HQ).
  - destruct (output_connections df m a P) as [l|]; [|lia].
    intros H. destruct (count_out_pos_In _ _ _ H) as (c & Hc & Hb & HQ).
    exists l, c. auto.
Qed.

Lemma has_in_count df m b Q a P : has_in df m b Q a P <-> 0 < in_count df m b Q a P.
Proof.
  unfold has_in, in_count. split.
  - intros (l & c & -> & Hc & Ha & HP). exact (count_in_In _ _ _ _ Hc Ha HP).
  - destruct (input_connections df m b Q) as [l|]; [|lia].
    intros H. destruct (count_in_pos_In _ _ _ H) as (c & Hc & Ha & HP).
    exists l, c. auto.
Qed.

Lemma Balanced_Mirror df : Balanced df -> Mirror df.
Proof.
  intros H m a P b Q. rewrite has_out_count, has_in_count, (H m a P b Q). reflexivity.
Qed.

(** The counts after a write to one port. *)
Lemma out_count_set_output df m a P l l' m' x P' y Q' :
  output_connections df m a P = Some l ->
  out_count (set_output_connections df m a P l') m' x P' y Q'
  = if (m' =? m) && (x =? a) && (P' =? P) then count_out y Q' l'
    else out_count df m' x P' y Q'.
Proof.
  intros Ho. unfold out_count.
  destruct (String.eqb_spec m' m) as [->|Hm]; cbn [andb];
    [destruct (String.eqb_spec x a) as [->|Ha]; cbn [andb];
     [destruct (String.eqb_spec P' P) as [->|HP]|]|].
  - now rewrite (output_set_output_same _ _ _ _ _ l' Ho).
  - now rewrite (output_set_output_other _ _ _ _ _ l' Ho) by auto.
  - now rewrite (output_set_output_other _ _ _ _ _ l' Ho) by auto.
  - now rewrite (output_set_output_other _ _ _ _ _ l' Ho) by auto.
Qed.

Lemma in_count_set_input df m b Q l l' m' y Q' x P' :
  input_connections df m b Q = Some l ->
  in_count (set_input_connections df m b Q l') m' y Q' x P'
  = if (m' =? m) && (y =? b) && (Q' =? Q) then count_in x P' l'
    else in_count df m' y Q' x P'.
Proof.
  intros Hi. unfold in_count.
  destruct (String.eqb_spec m' m) as [->|Hm]; cbn [andb];
    [destruct (String.eqb_spec y b) as [->|Hb]; cbn [andb];
     [destruct (String.eqb_spec Q' Q) as [->|HQ]|]|].
  - now rewrite (input_set_input_same _ _ _ _ _ l' Hi).
  - now rewrite (input_set_input_other _ _ _ _ _ l' Hi) by auto.
  - now rewrite (input_set_input_other _ _ _ _ _ l' Hi) by auto.
  - now rewrite (input_set_input_other _ _ _ _ _ l' Hi) by auto.
Qed.

Lemma out_count_set_input df m b Q l l' m' x P' y Q' :
  input_connections df m b Q = Some l ->
  out_count (set_input_connections df m b Q l') m' x P' y Q' = out_count df m' x P' y Q'.
Proof. intros Hi. unfold out_count. now rewrite (output_set_input _ _ _ _ _ l' Hi). Qed.

Lemma in_count_set_output df m a P l l' m' y Q' x P' :
  output_connections df m a P = Some l ->
  in_count (set_output_connections df m a P l') m' y Q' x P' = in_count df m' y Q' x P'.
Proof. intros Ho. unfold in_count. now rewrite (input_set_output _ _ _ _ _ l' Ho). Qed.

(** A pair of entries added, one on each side. *)
Lemma Balanced_push df m a P b Q l l' :
  Balanced df ->
  output_connections df m a P = Some l ->
  input_connections df m b Q = Some l' ->
  Balanced
    (set_input_connections
       (set_output_connections df m a P
          (l ++ [{| oc_node := b; oc_output := Q; oc_points := None |}]))
       m b Q (l' ++ [{| ic_node := a; ic_input := P; ic_points := None |}])).
Proof.
  intros HB Ho Hi m' x P' y Q'.
  set (df1 := set_output_connections df m a P _).
  assert (Hi1 : input_connections df1 m b Q = Some l').
  { unfold df1. now rewrite (input_set_output _ _ _ _ _ _ Ho). }
  rewrite (out_count_set_input _ _ _ _ _ _ _ _ _ _ _ Hi1).
  rewrite (in_count_set_input _ _ _ _ _ _ _ _ _ _ _ Hi1).
  unfold df1. rewrite (out_count_set_output _ _ _ _ _ _ _ _ _ _ _ Ho).
  rewrite (in_count_set_output _ _ _ _ _ _ _ _ _ _ _ Ho).
  rewrite count_out_app, count_in_app. cbn [oc_node oc_output ic_node ic_input].
  specialize (HB m' x P' y Q'). unfold out_count, in_count in *.
  destruct (String.eqb_spec m' m) as [->|Hm]; cbn [andb]; [|exact HB].
  repeat match goal with
         | |- context [String.eqb ?u ?v] =>
             destruct (String.eqb_spec u v); subst; cbn [andb]
         end;
    rewrite ?Ho, ?Hi in HB; try congruence; lia.
Qed.

Lemma count_out_remove_found b Q l : forall j,
  findIndex (fun item => (oc_node item =? b) && (oc_output item =? Q)) l = Some j ->
  forall y Q',
    count_out y Q' (remove_nth j l) + (if (b =? y) && (Q =? Q') then 1 else 0)
    = count_out y Q' l.
Proof.
  unfold count_out. induction l as [|x r IH]; intros j; cbn [findIndex]; [discriminate|].
  destruct ((oc_node x =? b) && (oc_output x =? Q)) eqn:E.
  - intros H; injection H as <-. intros y Q'. cbn [remove_nth filter].
    apply andb_prop in E as [E1 E2]. apply String.eqb_eq in E1, E2. rewrite E1, E2.
    destruct ((b =? y) && (Q =? Q')); cbn [length]; lia.
  - destruct (findIndex _ r) as [k|]; cbn [option_map]; [|discriminate].
    intros H; injection H as <-. intros y Q'. cbn [remove_nth filter].
    specialize (IH k eq_refl y Q').
    destruct ((oc_node x =? y) && (oc_output x =? Q')); cbn [length]; lia.
Qed.

Lemma count_in_remove_found a P l : forall j,
  findIndex (fun item => (ic_node item =? a) && (ic_input item =? P)) l = Some j ->
  forall x P',
    count_in x P' (remove_nth j l) + (if (a =? x) && (P =? P') then 1 else 0)
    = count_in x P' l.
Proof.
  unfold count_in. induction l as [|e r IH]; intros j; cbn [findIndex]; [discriminate|].
  destruct ((ic_node e =? a) && (ic_input e =? P)) eqn:E.
  - intros H; injection H as <-. intros x P'. cbn [remove_nth filter].
    apply andb_prop in E as [E1 E2]. apply String.eqb_eq in E1, E2. rewrite E1, E2.
    destruct ((a =? x) && (P =? P')); cbn [length]; lia.
  - destruct (findIndex _ r) as [k|]; cbn [option_map]; [|discriminate].
    intros H; injection H as <-. intros x P'. cbn [remove_nth filter].
    specialize (IH k eq_refl x P').
    destruct ((ic_node e =? x) && (ic_input e =? P')); cbn [length]; lia.
Qed.

(** A pair of entries removed, one on each side. *)
Lemma Balanced_splice df m a P b Q outs ins j :
  Balanced df ->
  output_connections df m a P = Some outs ->
  findIndex (fun item => (oc_node item =? b) && (oc_output item =? Q)) outs = Some j ->
  input_connections df m b Q = Some ins ->
  Balanced
    (set_input_connections
       (set_output_connections df m a P (remove_nth j outs))
       m b Q
       (splice1 (findIndex (fun item => (ic_node item =? a) && (ic_input item =? P)) ins) ins)).
Proof.
  intros HB Ho Hj Hi.
  pose proof (count_out_remove_found _ _ _ _ Hj) as Hout.
  assert (Hpos : 0 < count_in a P ins).
  { pose proof (HB m a P b Q) as H. unfold out_count, in_count in H. rewrite Ho, Hi in H.
    rewrite <- H. specialize (Hout b Q). rewrite !String.eqb_refl in Hout. cbn in Hout. lia. }
  destruct (count_in_findIndex _ _ _ Hpos) as (k & Hk & _).
  rewrite Hk. cbn [splice1].
  pose proof (count_in_remove_found _ _ _ _ Hk) as Hin.
  intros m' x P' y Q'.
  set (df1 := set_output_connections df m a P _).
  assert (Hi1 : input_connections df1 m b Q = Some ins).
  { unfold df1. now rewrite (input_set_output _ _ _ _ _ _ Ho). }
  rewrite (out_count_set_input _ _ _ _ _ _ _ _ _ _ _ Hi1).
  rewrite (in_count_set_input _ _ _ _ _ _ _ _ _ _ _ Hi1).
  unfold df1. rewrite (out_count_set_output _ _ _ _ _ _ _ _ _ _ _ Ho).
  rewrite (in_count_set_output _ _ _ _ _ _ _ _ _ _ _ Ho).
  specialize (HB m' x P' y Q'). specialize (Hout y Q'). specialize (Hin x P').
  unfold out_count, in_count in *.
  destruct (String.eqb_spec m' m) as [->|Hm]; cbn [andb]; [|exact HB].
  repeat match goal with
         | |- context [String.eqb ?u ?v] =>
             destruct (String.eqb_spec u v); subst; cbn [andb]
         end;
    rewrite ?Ho, ?Hi in HB;
    repeat match goal with
           | H : context [String.eqb ?u ?v] |- _ =>
               destruct (String.eqb_spec u v); subst; cbn [andb] in H
           end;
    try congruence; lia.
Qed.

(** ** Rules for a call that returns or throws a [ReferenceError] *)

Section Wpx.
Context {A B : Type}.

Lemma wpx_ret (a : A) Q E s : Q a s -> wpx (ret a) Q E s.
Proof. intros H. split; [intros s' a' [= <- <-]; exact H | intros s' [=]]. Qed.

Lemma wpx_bind (c : M A) (k : A -> M B) Q E s :
  wpx c (fun a s1 => wpx (k a) Q E s1) E s -> wpx (bind c k) Q E s.
Proof.
  intros (HQ & HE). unfold bind. split.
  - intros s' b H. destruct (c s) as [s1 a|s1 e|] eqn:Ec; try discriminate.
    exact (proj1 (HQ s1 a eq_refl) s' b H).
  - intros s' H. destruct (c s) as [s1 a|s1 e|] eqn:Ec; try discriminate.
    + exact (proj2 (HQ s1 a eq_refl) s' H).
    + injection H as -> ->. exact (HE s' eq_refl).
Qed.

Lemma wpx_of_wp (c : M A) Q E s : no_reference_error c -> wp c Q s -> wpx c Q E s.
Proof. intros Hn H. split; [exact H | intros s' Hc; destruct (Hn s s' Hc)]. Qed.

Lemma wpx_gets (f : editor -> A) Q E s : Q (f s) s -> wpx (gets f) Q E s.
Proof. intros H. apply wpx_of_wp; [apply nre_gets | apply wp_gets, H]. Qed.

Lemma wpx_defined (o : option A) Q E s :
  (forall a, o = Some a -> Q a s) -> wpx (defined o) Q E s.
Proof. intros H. apply wpx_of_wp; [apply nre_defined | apply wp_defined, H]. Qed.

Lemma wpx_mono (c : M A) (Q Q' : A -> editor -> Prop) (E E' : editor -> Prop) s :
  wpx c Q E s -> (forall a s', Q a s' -> Q' a s') -> (forall s', E s' -> E' s') ->
  wpx c Q' E' s.
Proof. intros (HQ & HE) H1 H2. split; [intros s' a H; eauto | intros s' H; eauto]. Qed.

Lemma wpx_finishes (c : M A) (P : editor -> Prop) s s' :
  wpx c (fun _ => P) P s -> finishes c s s' -> P s'.
Proof. intros (HQ & HE) [(a & H)|H]; eauto. Qed.

End Wpx.

Lemma wpx_modify f (Q : unit -> editor -> Prop) E s : Q tt (f s) -> wpx (modify f) Q E s.
Proof. intros H. apply wpx_of_wp; [apply nre_modify | apply wp_modify, H]. Qed.

Lemma wpx_when (b : bool) c (Q : unit -> editor -> Prop) E s :
  (b = true -> wpx c Q E s) -> (b = false -> Q tt s) -> wpx (when b c) Q E s.
Proof. destruct b; intros H1 H2; [apply H1 | apply wpx_ret, H2]; reflexivity. Qed.

Lemma wpx_updateConnectionNodes id (Q : unit -> editor -> Prop) (E : editor -> Prop) s :
  Q tt s -> E s -> wpx (updateConnectionNodes id) Q E s.
Proof.
  intros HQ HE. split.
  - intros s' [] H. now destruct (updateConnectionNodes_Normal _ _ _ _ H) as (-> & _).
  - intros s' H. now rewrite (updateConnectionNodes_Throw _ _ _ _ H).
Qed.

(** X1.  [addConnection] keeps the mirror invariant, counted with
    multiplicity: from a store in which the two sides of every connection
    hold equally many entries, every call that finishes (it returns, or, in
    the active module, [updateConnectionNodes] throws once the connection is
    stored and drawn) ends in such a store. *)
Theorem addConnection_keeps_balance :
  forall s s' a b P Q,
    Balanced (drawflow s) ->
    finishes (addConnection a b P Q) s s' ->
    Balanced (drawflow s').
Proof.
  intros s s' a b P Q HB Hrun.
  refine (wpx_finishes (addConnection a b P Q) (fun s1 => Balanced (drawflow s1)) s s' _ Hrun).
  clear s' Hrun.
  unfold addConnection. apply wpx_bind, wpx_gets. cbv zeta.
  apply wpx_when; [intros _ | auto].
  apply wpx_bind, wpx_of_wp; [apply nre_getNodeFromId|].
  unfold getNodeFromId. apply wp_bind, wp_gets, wp_bind, wp_defined.
  intros data _. destruct (obj_get a data) as [n|]; [apply wp_ret | apply wp_throw].
  apply wpx_bind, wpx_defined. intros connections _.
  apply wpx_when; [intros _ | auto].
  apply wpx_bind. unfold push_output. apply wpx_bind, wpx_gets, wpx_bind, wpx_defined.
  intros l Hl. unfold set_drawflow at 1. apply wpx_modify.
  apply wpx_bind. unfold push_input. apply wpx_bind, wpx_gets, wpx_bind, wpx_defined.
  cbn [drawflow with_drawflow]. intros l' Hl'. unfold set_drawflow at 1. apply wpx_modify.
  apply wpx_bind, wpx_gets.
  rewrite (input_set_output _ _ _ _ _ _ Hl) in Hl'.
  assert (Hend : forall s1,
             drawflow s1
             = set_input_connections
                 (set_output_connections (drawflow s)
                    (key_of (getModuleFromNodeId (drawflow s) a)) a P
                    (l ++ [{| oc_node := b; oc_output := Q; oc_points := None |}]))
                 (key_of (getModuleFromNodeId (drawflow s) a)) b Q
                 (l' ++ [{| ic_node := a; ic_input := P; ic_points := None |}]) ->
             Balanced (drawflow s1)).
  { intros s1 E. rewrite E. apply Balanced_push; auto. }
  assert (Hdis : forall s1, Balanced (drawflow s1) ->
                   wpx (dispatch (connectionCreated a b P Q))
                     (fun _ s2 => Balanced (drawflow s2))
                     (fun s2 => Balanced (drawflow s2)) s1).
  { intros s1 H1. unfold dispatch. apply wpx_modify. exact H1. }
  apply wpx_bind, wpx_when; intros _.
  - unfold append_connection_ele. apply wpx_bind, wpx_modify.
    apply wpx_bind, wpx_updateConnectionNodes; [|apply Hend; reflexivity].
    apply wpx_updateConnectionNodes; [|apply Hend; reflexivity].
    apply Hdis, Hend. reflexivity.
  - apply Hdis, Hend. reflexivity.
Qed.


Lemma balanced_Balanced df : balanced df = true -> Balanced df.
Proof.
  intros H.
  assert (Hout : forall m a P b Q l,
             output_connections df m a P = Some l -> 0 < count_out b Q l ->
             count_out b Q l = in_count df m b Q a P).
  { intros m a P b Q l Hl Hpos.
    destruct (count_out_pos_In _ _ _ Hpos) as (c & Hc & <- & <-).
    destruct (output_connections_node _ _ _ _ _ Hl) as (n & Hn & HP).
    destruct (node_at_data _ _ _ _ Hn) as (data & Hd & Ha).
    pose proof (forallb_In _ _ _ H (obj_get_In _ _ _ _ Hd)) as Hm. cbn [fst snd] in Hm.
    pose proof (forallb_In _ _ _ Hm (obj_get_In _ _ _ _ Ha)) as Hnode. cbn [fst snd] in Hnode.
    apply andb_prop in Hnode as [Ho _].
    pose proof (forallb_In _ _ _ Ho (obj_get_In _ _ _ _ HP)) as Hport. cbn [fst snd] in Hport.
    pose proof (forallb_In _ _ _ Hport Hc) as Hentry. cbn beta in Hentry.
    now apply Nat.eqb_eq in Hentry. }
  assert (Hin : forall m b Q a P l,
             input_connections df m b Q = Some l -> 0 < count_in a P l ->
             count_in a P l = out_count df m a P b Q).
  { intros m b Q a P l Hl Hpos.
    destruct (count_in_pos_In _ _ _ Hpos) as (c & Hc & <- & <-).
    destruct (input_connections_node _ _ _ _ _ Hl) as (n & Hn & HQ).
    destruct (node_at_data _ _ _ _ Hn) as (data & Hd & Hb).
    pose proof (forallb_In _ _ _ H (obj_get_In _ _ _ _ Hd)) as Hm. cbn [fst snd] in Hm.
    pose proof (forallb_In _ _ _ Hm (obj_get_In _ _ _ _ Hb)) as Hnode. cbn [fst snd] in Hnode.
    apply andb_prop in Hnode as [_ Hi].
    pose proof (forallb_In _ _ _ Hi (obj_get_In _ _ _ _ HQ)) as Hport. cbn [fst snd] in Hport.
    pose proof (forallb_In _ _ _ Hport Hc) as Hentry. cbn beta in Hentry.
    now apply Nat.eqb_eq in Hentry. }
  intros m a P b Q.
  destruct (Nat.eq_dec (out_count df m a P b Q) 0) as [E0|E0].
  - destruct (Nat.eq_dec (in_count df m b Q a P) 0) as [E1|E1]; [congruence|].
    exfalso. unfold in_count in E1.
    destruct (input_connections df m b Q) as [l|] eqn:Hl; [|congruence].
    rewrite (Hin m b Q a P l Hl) in E1 by lia. congruence.
  - unfold out_count in E0 |- *.
    destruct (output_connections df m a P) as [l|] eqn:Hl; [|congruence].
    apply (Hout m a P b Q l Hl). lia.
Qed.

Lemma addConnection_keeps_balance_witness :
  Balanced (drawflow connected_pair_example)
  /\ exists s',
       addConnection "1" "2" "output_1" "input_1" other_pair_example = Normal s' tt
       /\ Balanced (drawflow s').
Proof.
  split.
  - apply (addConnection_keeps_balance two_nodes_example connected_pair_example
             "1" "2" "output_1" "input_1").
    + apply balanced_Balanced. vm_compute. reflexivity.
    + right. vm_compute. reflexivity.
  - eexists. split; [vm_compute; reflexivity|].
    eapply (addConnection_keeps_balance other_pair_example _ "1" "2" "output_1" "input_1").
    + apply balanced_Balanced. vm_compute. reflexivity.
    + left. exists tt. vm_compute. reflexivity.
Defined.

(** ** Connecting across modules *)

Lemma option_string_eqb_eq x y : option_string_eqb x y = true <-> x = y.
Proof.
  destruct x as [a|], y as [b|]; cbn [option_string_eqb]; split; try congruence.
  - intros H. apply String.eqb_eq in H. congruence.
  - intros H. injection H as ->. apply String.eqb_refl.
Qed.

(** X3.  [addConnection] between nodes that [getModuleFromNodeId] places
    differently (two modules, or one of the ids unknown) does nothing. *)
Theorem addConnection_across_modules :
  forall s a b P Q,
    getModuleFromNodeId (drawflow s) a <> getModuleFromNodeId (drawflow s) b ->
    addConnection a b P Q s = Normal s tt.
Proof.
  intros s a b P Q Hne. unfold addConnection, bind, gets.
  destruct (option_string_eqb _ _) eqn:E; [|reflexivity].
  apply option_string_eqb_eq in E. contradiction.
Qed.

Lemma addConnection_across_modules_witness :
  addConnection "1" "9" "output_1" "input_1" connected_pair_example
  = Normal connected_pair_example tt.
Proof.
  apply addConnection_across_modules. vm_compute. discriminate.
Defined.

(** ** Module names *)

(** X4.  The module operations refuse a wrong name with an [Error], in the
    state they were called in: [addModule] a name that the store holds or
    that every object inherits ([toString] and the like), [changeModule] and
    [removeModule] a name that the store does not hold and that is not
    inherited. *)
Theorem module_errors :
  forall s name,
    (obj_get name (drawflow s) <> None \/ inherited name = true ->
     addModule name s = Throw s (Error ("Module '" ++ name ++ "' already exists.")))
    /\ (obj_get name (drawflow s) = None -> inherited name = false ->
        changeModule name s = Throw s (Error ("Module '" ++ name ++ "' does not exist."))
        /\ removeModule name s = Throw s (Error ("Module '" ++ name ++ "' does not exist."))).
Proof.
  intros s name. split.
  - intros H. unfold addModule, bind, gets.
    destruct (obj_get name (drawflow s)); [reflexivity|].
    destruct H as [H|H]; [congruence|]. now rewrite H.
  - intros H Hi. unfold changeModule, removeModule, bind, gets. rewrite H, Hi.
    split; reflexivity.
Qed.

(** ** Removing a node of a module that is not the active one *)

Lemma inactive_module_example_reached :
  inactive_module_script new_editor = Normal inactive_module_example tt.
Proof. vm_compute. reflexivity. Qed.

(** C1 (the code breaks it).  From a state reached through the API in which
    the mirror invariant holds, one [removeNodeId] on a node of a module that
    is not the active one returns normally and leaves the store with an entry
    on input port [input_1] of node 2 for [(1, output_1)] and no node 1 to
    mirror it: the invariant is lost. *)
Theorem removeNodeId_inactive_breaks_mirror :
  Mirror (drawflow inactive_module_example)
  /\ exists s',
       removeNodeId "node-1" inactive_module_example = Normal s' tt
       /\ has_in (drawflow s') "Other" "2" "input_1" "1" "output_1"
       /\ ~ has_out (drawflow s') "Other" "1" "output_1" "2" "input_1"
       /\ ~ Mirror (drawflow s').
Proof.
  split; [apply mirrored_Mirror; vm_compute; reflexivity|].
  eexists. split; [vm_compute; reflexivity|].
  assert (Hin : has_in
                  (drawflow (state_after (removeNodeId "node-1" inactive_module_example)))
                  "Other" "2" "input_1" "1" "output_1").
  { eexists. eexists. split; [vm_compute; reflexivity|]. split; [left; reflexivity|]. auto. }
  assert (Hout : ~ has_out
                     (drawflow (state_after (removeNodeId "node-1" inactive_module_example)))
                     "Other" "1" "output_1" "2" "input_1").
  { intros (l & c & Hl & _). vm_compute in Hl. discriminate Hl. }
  split; [exact Hin|]. split; [exact Hout|].
  intros HM. apply Hout, HM, Hin.
Qed.

(** C5 (the code misses it).  In the same state, [removeNodeId "node-1"]
    deletes the record of node 1 and returns, yet node 2 still holds an
    input entry naming node 1 and node 3 an output entry naming it: the
    connections of a node outside the active module are not removed. *)
Theorem removeNodeId_inactive_leaves_references :
  exists s',
    removeNodeId "node-1" inactive_module_example = Normal s' tt
    /\ node_at (drawflow s') "Other" "1" = None
    /\ input_connections (drawflow s') "Other" "2" "input_1"
       = Some [{| ic_node := "1"; ic_input := "output_1"; ic_points := None |}]
    /\ output_connections (drawflow s') "Other" "3" "output_1"
       = Some [{| oc_node := "1"; oc_output := "input_1"; oc_points := None |}]
    /\ names_node "1" (drawflow s') = true
    /\ dispatched s' = dispatched inactive_module_example ++ [nodeRemoved "1"].
Proof.
  eexists. split; [vm_compute; reflexivity|].
  split; [vm_compute; reflexivity|]. split; [vm_compute; reflexivity|].
  split; [vm_compute; reflexivity|]. split; vm_compute; reflexivity.
Qed.

(** In the active module the same call does cascade. *)
Lemma removeNodeId_active_cascades :
  exists s',
    removeNodeId "node-1" connected_pair_example = Normal s' tt
    /\ node_at (drawflow s') "Home" "1" = None
    /\ names_node "1" (drawflow s') = false
    /\ mirrored (drawflow s') = true.
Proof.
  eexists. split; [vm_compute; reflexivity|].
  split; [vm_compute; reflexivity|]. split; vm_compute; reflexivity.
Qed.

(** ** Connecting a node to itself *)

(** C2 (the code misses it).  [addConnection] with the same node on both
    ends is no no-op.  In a module that is not the active one it stores the
    pair of entries on the node itself and dispatches [connectionCreated].
    In the active module it stores the pair and draws the connection; then
    [updateConnectionNodes] throws, before the event. *)
Theorem addConnection_self_loop :
  (exists s',
      addConnection "1" "1" "output_1" "input_1" other_single_example = Normal s' tt
      /\ output_connections (drawflow s') "Other" "1" "output_1"
         = Some [{| oc_node := "1"; oc_output := "input_1"; oc_points := None |}]
      /\ input_connections (drawflow s') "Other" "1" "input_1"
         = Some [{| ic_node := "1"; ic_input := "output_1"; ic_points := None |}]
      /\ dispatched s'
         = dispatched other_single_example ++ [connectionCreated "1" "1" "output_1" "input_1"])
  /\ (exists s',
        addConnection "1" "1" "output_1" "input_1" single_node_example
        = Throw s' ReferenceError
        /\ output_connections (drawflow s') "Home" "1" "output_1"
           = Some [{| oc_node := "1"; oc_output := "input_1"; oc_points := None |}]
        /\ input_connections (drawflow s') "Home" "1" "input_1"
           = Some [{| ic_node := "1"; ic_input := "output_1"; ic_points := None |}]
        /\ connection_eles s'
           = [["connection"; "node_in_node-1"; "node_out_node-1"; "output_1"; "input_1"]]
        /\ dispatched s' = dispatched single_node_example).
Proof.
  split.
  - eexists. split; [vm_compute; reflexivity|].
    split; [vm_compute; reflexivity|]. split; vm_compute; reflexivity.
  - eexists. split; [vm_compute; reflexivity|].
    split; [vm_compute; reflexivity|]. split; [vm_compute; reflexivity|].
    split; vm_compute; reflexivity.
Qed.

(** ** The zoom limits *)

(** C8 (the code misses it).  From the default zoom 1 with step 0.1 and
    maximum 1.6, in double precision: six calls of [zoom_in] bring the zoom
    to 1.6000000000000005, above [zoom_max]; the seventh finds the zoom no
    longer below the maximum and does nothing.  The zoom ends above the
    maximum and is not 1.6.  Downwards the guard lets a whole step through:
    five calls of [zoom_out] reach 0.5000000000000001, still above
    [zoom_min], and the sixth goes on to 0.40000000000000013, below the
    minimum 0.5. *)
Theorem zoom_passes_limits :
  (exists s',
      times 7 zoom_in new_editor = Normal s' tt
      /\ zoom s' = 0x1.999999999999cp+0%float
      /\ (zoom_max s' <? zoom s')%float = true
      /\ (zoom s' =? zoom_max s')%float = false
      /\ exists s6, times 6 zoom_in new_editor = Normal s6 tt /\ zoom s6 = zoom s')
  /\ (exists s',
        times 6 zoom_out new_editor = Normal s' tt
        /\ zoom s' = 0x1.999999999999cp-2%float
        /\ (zoom s' <? zoom_min s')%float = true).
Proof.
  split.
  - eexists. split; [vm_compute; reflexivity|].
    split; [vm_compute; reflexivity|]. split; [vm_compute; reflexivity|].
    split; [vm_compute; reflexivity|].
    eexists. split; vm_compute; reflexivity.
  - eexists. split; [vm_compute; reflexivity|].
    split; vm_compute; reflexivity.
Qed.

(** ** Removing the module "Home" *)

(** C10 (the code misses it).  Removing the module "Home" while it is the
    active one: [changeModule("Home")] is a change to the module about to be
    deleted, so the call returns with [this.module] still "Home" and no such
    module in the store.  And once "Home" is gone, removing the active module
    throws (the switch to "Home" fails) and the module stays. *)
Theorem removeModule_home :
  (exists s',
      removeModule "Home" new_editor = Normal s' tt
      /\ module s' = "Home"
      /\ obj_get (module s') (drawflow s') = None)
  /\ (exists s1 s2,
        (addModule "Other" ;; changeModule "Other" ;; removeModule "Home") new_editor
        = Normal s1 tt
        /\ removeModule "Other" s1 = Throw s2 (Error "Module 'Home' does not exist.")
        /\ module s2 = "Other"
        /\ obj_get "Other" (drawflow s2) <> None).
Proof.
  split.
  - eexists. split; [vm_compute; reflexivity|]. split; vm_compute; reflexivity.
  - eexists. eexists. split; [vm_compute; reflexivity|].
    split; [vm_compute; reflexivity|]. split; [vm_compute; reflexivity|].
    vm_compute. discriminate.
Qed.

(** ** Snapshots: [getNodeFromId] on objects with identity *)

Section HeapFacts.
Import Heap.
Local Open Scope heap_scope.

Lemma jsval_induction (P : jsval -> Prop) :
  P JUndefined -> P JNull -> (forall b, P (JBool b)) -> (forall f, P (JNum f)) ->
  (forall s, P (JStr s)) ->
  (forall l, Forall P l -> P (JArr l)) ->
  (forall l, Forall P (map snd l) -> P (JObj l)) ->
  forall t, P t.
Proof.
  intros Hu Hn Hb Hf Hs Ha Ho. fix IH 1.
  intros [ | | b | f | s | l | l];
    [exact Hu | exact Hn | apply Hb | apply Hf | apply Hs | | ].
  - apply Ha. induction l as [|x r IHl]; [constructor|]. constructor; [apply IH | exact IHl].
  - apply Ho. induction l as [|[k x] r IHl]; [constructor|].
    constructor; [apply IH | exact IHl].
Qed.

(** Nesting of objects in a tree. *)
Fixpoint depth (t : jsval) : nat :=
  match t with
  | JArr l => S (list_max (map depth l))
  | JObj l => S (list_max (map (fun kv => depth (snd kv)) l))
  | _ => 0
  end.

Lemma map_each_ext {A B} (f g : A -> outcome B) l :
  (forall x, In x l -> f x = g x) -> map_each f l = map_each g l.
Proof.
  induction l as [|x r IH]; intros H; [reflexivity|]. cbn [map_each].
  rewrite (H x (or_introl eq_refl)), IH; [reflexivity|]. intros y Hy. apply H. now right.
Qed.

Lemma map_each_Returns {A B} (f g : A -> outcome B) l :
  (forall x y, In x l -> f x = Returns y -> g x = Returns y) ->
  forall ys, map_each f l = Returns ys -> map_each g l = Returns ys.
Proof.
  induction l as [|x r IH]; intros H ys; [auto|]. cbn [map_each].
  destruct (f x) as [y| |] eqn:Ef; try discriminate. cbn [and_then].
  destruct (map_each f r) as [zs| |] eqn:Er; try discriminate. cbn [and_then].
  intros E. rewrite (H x y (or_introl eq_refl) Ef). cbn [and_then].
  rewrite (IH (fun x' y' Hx => H x' y' (or_intror Hx)) zs eq_refl). exact E.
Qed.

Lemma map_each_Unmodelled {A B} (f : A -> outcome B) l :
  map_each f l = Unmodelled -> exists x, In x l /\ f x = Unmodelled.
Proof.
  induction l as [|x r IH]; [discriminate|]. cbn [map_each].
  destruct (f x) as [y| |] eqn:Ef; try discriminate.
  - cbn [and_then]. destruct (map_each f r) as [zs| |] eqn:Er; try discriminate.
    intros _. destruct (IH eq_refl) as (z & Hz & E). exists z. split; [now right | exact E].
  - intros _. exists x. split; [now left | exact Ef].
Qed.

Lemma read_ref fuel stack h r :
  read fuel stack h (VRef r)
  = if existsb (Nat.eqb r) stack then Throws TypeError
    else match fuel with
         | O => Unmodelled
         | S fuel' =>
             match nth_error h r with
             | Some (ORecord props) =>
                 xs <- map_each (read fuel' (r :: stack) h) (map snd props) ;;
                 Returns (JObj (combine (map fst props) xs))
             | Some (OArray elems) =>
                 xs <- map_each (read fuel' (r :: stack) h) elems ;;
                 Returns (JArr xs)
             | None => Unmodelled
             end
         end.
Proof. destruct fuel; reflexivity. Qed.

(** A read that succeeds is not disturbed by more objects. *)
Lemma read_extend h ext :
  forall fuel stack v t,
    read fuel stack h v = Returns t -> read fuel stack (h ++ ext) v = Returns t.
Proof.
  induction fuel as [|fuel IH]; intros stack v t; destruct v as [ | | b | f | s | r];
    try (cbn [read]; auto; fail); rewrite !read_ref;
    destruct (existsb (Nat.eqb r) stack); auto.
  destruct (nth_error h r) as [o|] eqn:En; [|discriminate].
  rewrite nth_error_app1 by (apply nth_error_Some; congruence). rewrite En.
  destruct o as [props|elems].
  - destruct (map_each (read fuel (r :: stack) h) (map snd props)) as [xs| |] eqn:Em;
      try discriminate.
    rewrite (map_each_Returns _ (read fuel (r :: stack) (h ++ ext)) _
                              (fun x y _ => IH (r :: stack) x y) xs Em). auto.
  - destruct (map_each (read fuel (r :: stack) h) elems) as [xs| |] eqn:Em;
      try discriminate.
    rewrite (map_each_Returns _ (read fuel (r :: stack) (h ++ ext)) _
                              (fun x y _ => IH (r :: stack) x y) xs Em). auto.
Qed.

(** Reads of a closed heap see only that heap. *)
Lemma read_same_below h h2 :
  closed h ->
  (forall a, a < length h -> nth_error h2 a = nth_error h a) ->
  forall fuel stack x, valid h x -> read fuel stack h2 x = read fuel stack h x.
Proof.
  intros Hc Hsame.
  induction fuel as [|fuel IH]; intros stack x Hx; destruct x as [ | | b | f | s | r];
    try reflexivity; rewrite !read_ref; destruct (existsb (Nat.eqb r) stack); auto.
  cbn [valid] in Hx. rewrite (Hsame r Hx).
  destruct (nth_error h r) as [o|] eqn:En; [|reflexivity].
  pose proof (Hc o (nth_error_In _ _ En)) as Ho.
  destruct o as [props|elems]; cbn [values_of] in Ho.
  - rewrite (map_each_ext (read fuel (r :: stack) h2) (read fuel (r :: stack) h) (map snd props));
      [reflexivity|]. intros v Hv. apply IH, Ho, Hv.
  - rewrite (map_each_ext (read fuel (r :: stack) h2) (read fuel (r :: stack) h) elems);
      [reflexivity|]. intros v Hv. apply IH, Ho, Hv.
Qed.

(** The fuel [stringify] gives never runs out: a stack of distinct objects
    of the heap is no longer than the heap. *)
Lemma read_fuel_enough h :
  closed h ->
  forall fuel stack v,
    valid h v -> NoDup stack -> (forall r, In r stack -> r < length h) ->
    length h < fuel + length stack ->
    read fuel stack h v <> Unmodelled.
Proof.
  intros Hc. induction fuel as [|fuel IH]; intros stack v Hv Hnd Hb Hlen;
    destruct v as [ | | b | f | s | r]; try (cbn [read]; discriminate);
    rewrite read_ref; destruct (existsb (Nat.eqb r) stack) eqn:Ex; try discriminate.
  - exfalso. cbn [Nat.add] in Hlen.
    assert (length stack <= length (seq 0 (length h))).
    { apply NoDup_incl_length; [exact Hnd|]. intros a Ha. apply in_seq. specialize (Hb a Ha). lia. }
    rewrite length_seq in H. lia.
  - cbn [valid] in Hv.
    assert (Hnew : ~ In r stack).
    { intros Hin. assert (existsb (Nat.eqb r) stack = true); [|congruence].
      apply existsb_exists. exists r. split; [exact Hin | apply Nat.eqb_refl]. }
    destruct (nth_error h r) as [o|] eqn:En.
    2:{ apply nth_error_None in En. lia. }
    pose proof (Hc o (nth_error_In _ _ En)) as Ho.
    assert (Hkids : forall x, In x (values_of o) -> read fuel (r :: stack) h x <> Unmodelled).
    { intros x Hx. apply IH.
      - apply Ho, Hx.
      - constructor; assumption.
      - intros a [<-|Ha]; auto.
      - cbn [length]. lia. }
    destruct o as [props|elems]; cbn [values_of] in Hkids.
    + destruct (map_each (read fuel (r :: stack) h) (map snd props)) as [xs| |] eqn:Em;
        cbn [and_then]; try discriminate.
      destruct (map_each_Unmodelled _ _ Em) as (x & Hx & E). exfalso. exact (Hkids x Hx E).
    + destruct (map_each (read fuel (r :: stack) h) elems) as [xs| |] eqn:Em;
        cbn [and_then]; try discriminate.
      destruct (map_each_Unmodelled _ _ Em) as (x & Hx & E). exfalso. exact (Hkids x Hx E).
Qed.

Lemma stringify_modelled h v : closed h -> valid h v -> stringify h v <> Unmodelled.
Proof.
  intros Hc Hv. unfold stringify. apply read_fuel_enough; auto.
  - constructor.
  - intros r [].
  - cbn [length]. lia.
Qed.


Lemma valid_app h e v : valid h v -> valid (h ++ e) v.
Proof. destruct v; cbn [valid]; auto. rewrite length_app. lia. Qed.

Lemma fresh_le n m v : m <= n -> fresh n v -> fresh m v.
Proof. destruct v; cbn [fresh]; auto. lia. Qed.

Lemma map_fst_combine_same {A B} (a : list A) : forall (b : list B),
  length b = length a -> map fst (combine a b) = a.
Proof.
  induction a as [|x a IH]; intros [|y b] H; try reflexivity; try discriminate.
  cbn. f_equal. apply IH. now injection H.
Qed.

Lemma map_snd_combine_same {A B} (a : list A) : forall (b : list B),
  length b = length a -> map snd (combine a b) = b.
Proof.
  induction a as [|x a IH]; intros [|y b] H; try reflexivity; try discriminate.
  cbn. f_equal. apply IH. now injection H.
Qed.

Lemma combine_fst_snd {A B} (l : list (A * B)) : combine (map fst l) (map snd l) = l.
Proof. induction l as [|[a b] l IH]; [reflexivity|]. cbn. now rewrite IH. Qed.

Lemma alloc_each_map {A} (f : jsval -> heap -> heap * value) (g : A -> jsval) l :
  forall h, alloc_each (fun x => f (g x)) l h = alloc_each f (map g l) h.
Proof.
  induction l as [|x r IH]; intros h; [reflexivity|]. cbn [alloc_each map].
  destruct (f (g x) h) as [h1 v]. now rewrite IH.
Qed.

(** What [alloc t h] gives: new objects [ext] after [h] and a value [v]
    that reads back as [t]; nothing in [ext] points below [length h]. *)
Definition allocated (t : jsval) (h ext : heap) (v : value) : Prop :=
  fresh (length h) v
  /\ valid (h ++ ext) v
  /\ (forall o, In o ext -> forall x, In x (values_of o) ->
                                   fresh (length h) x /\ valid (h ++ ext) x)
  /\ depth t <= length ext
  /\ (forall fuel stack,
         (forall r, In r stack -> r < length h \/ length (h ++ ext) <= r) ->
         depth t <= fuel ->
         read fuel stack (h ++ ext) v = Returns t).

Lemma alloc_each_spec l :
  Forall (fun t => forall h, exists ext v, alloc t h = (h ++ ext, v) /\ allocated t h ext v) l ->
  forall h, exists ext vs,
    alloc_each alloc l h = (h ++ ext, vs)
    /\ length vs = length l
    /\ Forall (fresh (length h)) vs
    /\ Forall (valid (h ++ ext)) vs
    /\ (forall o, In o ext -> forall x, In x (values_of o) ->
                                     fresh (length h) x /\ valid (h ++ ext) x)
    /\ Forall (fun t => depth t <= length ext) l
    /\ (forall fuel stack,
           (forall r, In r stack -> r < length h \/ length (h ++ ext) <= r) ->
           Forall (fun t => depth t <= fuel) l ->
           map_each (read fuel stack (h ++ ext)) vs = Returns l).
Proof.
  induction 1 as [|t l Ht _ IH]; intros h.
  - exists [], []. rewrite app_nil_r.
    split; [reflexivity|]. split; [reflexivity|]. split; [constructor|].
    split; [constructor|]. split; [intros o []|]. split; [constructor|].
    intros; reflexivity.
  - destruct (Ht h) as (e1 & v & Ea & Hf & Hv & Ho & Hd & Hr).
    destruct (IH (h ++ e1)) as (e2 & vs & Ee & Hlen & Hfs & Hvs & Hos & Hds & Hrs).
    exists (e1 ++ e2), (v :: vs). cbn [alloc_each]. rewrite Ea, Ee.
    rewrite <- !app_assoc in *.
    assert (Hl1 : length h <= length (h ++ e1)) by (rewrite length_app; lia).
    split; [reflexivity|]. split; [cbn [length]; congruence|].
    split.
    { constructor; [exact Hf|]. eapply Forall_impl; [|exact Hfs].
      intros x. apply fresh_le, Hl1. }
    split.
    { constructor; [|exact Hvs]. rewrite app_assoc. apply valid_app, Hv. }
    split.
    { intros o Hin x Hx. apply in_app_or in Hin as [Hin|Hin].
      - destruct (Ho o Hin x Hx) as [F V]. split; [exact F|].
        rewrite app_assoc. apply valid_app, V.
      - destruct (Hos o Hin x Hx) as [F V]. split; [|exact V].
        eapply fresh_le; [exact Hl1 | exact F]. }
    split.
    { constructor; [rewrite length_app; lia|]. eapply Forall_impl; [|exact Hds].
      intros x Hx. cbn beta in Hx. rewrite length_app. lia. }
    intros fuel stack Hst Hfu. inversion Hfu as [|? ? Hfu1 Hfu2]; subst.
    cbn [map_each].
    assert (E1 : read fuel stack (h ++ e1 ++ e2) v = Returns t).
    { rewrite app_assoc. apply read_extend. apply Hr; [|exact Hfu1].
      intros r Hr'. destruct (Hst r Hr') as [L|L]; [now left|right].
      rewrite !length_app in *. lia. }
    rewrite E1. cbn [and_then]. rewrite Hrs; [reflexivity| |exact Hfu2].
    intros r Hr'. destruct (Hst r Hr') as [L|L]; [left|now right].
    rewrite length_app. lia.
Qed.

Lemma stack_avoids (h ext : heap) (stack : list ref) :
  (forall r, In r stack -> r < length h \/ S (length (h ++ ext)) <= r) ->
  existsb (Nat.eqb (length (h ++ ext))) stack = false.
Proof.
  intros Hst. destruct (existsb (Nat.eqb (length (h ++ ext))) stack) eqn:E; [|reflexivity].
  apply existsb_exists in E as (r & Hr & Hq). apply Nat.eqb_eq in Hq. subst r.
  destruct (Hst _ Hr) as [L|L]; rewrite ?length_app in L; lia.
Qed.

Lemma alloc_spec :
  forall t h, exists ext v, alloc t h = (h ++ ext, v) /\ allocated t h ext v.
Proof.
  induction t as [ | | b | f | s | l IH | l IH] using jsval_induction; intros h;
    try (exists []; eexists; rewrite app_nil_r; split; [reflexivity|];
         split; [exact I|]; split; [exact I|]; split; [intros o []|];
         split; [cbn; lia|]; intros fuel stack _ _; destruct fuel; reflexivity).
  - destruct (alloc_each_spec l IH h) as (ext & vs & Ee & Hlen & Hfs & Hvs & Hos & Hds & Hrs).
    exists (ext ++ [OArray vs]), (VRef (length (h ++ ext))).
    cbn [alloc]. rewrite Ee. split; [now rewrite <- app_assoc|].
    unfold allocated. rewrite !(app_assoc h ext).
    assert (Hl : length ((h ++ ext) ++ [OArray vs]) = S (length (h ++ ext)))
      by (rewrite (length_app (h ++ ext)); cbn [length]; lia).
    split; [cbn [fresh]; rewrite length_app; lia|].
    split; [cbn [valid]; lia|].
    split.
    { intros o Hin x Hx. apply in_app_or in Hin as [Hin|[<-|[]]].
      - destruct (Hos o Hin x Hx) as [F V]. split; [exact F | apply valid_app, V].
      - cbn [values_of] in Hx. rewrite Forall_forall in Hfs, Hvs.
        split; [apply Hfs, Hx | apply valid_app, Hvs, Hx]. }
    split.
    { cbn [depth]. rewrite length_app. cbn [length].
      assert (list_max (map depth l) <= length ext); [|lia].
      apply list_max_le, Forall_map. exact Hds. }
    intros fuel stack Hst Hfu. cbn [depth] in Hfu.
    destruct fuel as [|fuel]; [lia|]. rewrite read_ref.
    rewrite stack_avoids by (intros r Hr; rewrite <- Hl; auto).
    rewrite nth_error_app2, Nat.sub_diag by lia. cbn [nth_error].
    match goal with
    | |- context [map_each ?g vs] =>
        rewrite (map_each_Returns (read fuel (length (h ++ ext) :: stack) (h ++ ext)) g vs
                   (fun x y _ => read_extend (h ++ ext) [OArray vs] fuel _ x y) l)
    end;
      [reflexivity|].
    apply Hrs.
    + intros r [<-|Hr]; [right; lia|]. destruct (Hst r Hr) as [L|L]; [now left | right; lia].
    + assert (Hm : list_max (map depth l) <= fuel) by lia.
      apply list_max_le, Forall_map in Hm. exact Hm.
  - destruct (alloc_each_spec (map snd l) IH h)
      as (ext & vs & Ee & Hlen & Hfs & Hvs & Hos & Hds & Hrs).
    rewrite length_map in Hlen.
    assert (Hlen' : length vs = length (map fst l)) by now rewrite length_map.
    exists (ext ++ [ORecord (combine (map fst l) vs)]), (VRef (length (h ++ ext))).
    cbn [alloc]. rewrite (alloc_each_map alloc snd l h), Ee.
    split; [now rewrite <- app_assoc|].
    unfold allocated. rewrite !(app_assoc h ext).
    assert (Hl : length ((h ++ ext) ++ [ORecord (combine (map fst l) vs)])
                 = S (length (h ++ ext)))
      by (rewrite (length_app (h ++ ext)); cbn [length]; lia).
    split; [cbn [fresh]; rewrite length_app; lia|].
    split; [cbn [valid]; lia|].
    split.
    { intros o Hin x Hx. apply in_app_or in Hin as [Hin|[<-|[]]].
      - destruct (Hos o Hin x Hx) as [F V]. split; [exact F | apply valid_app, V].
      - cbn [values_of] in Hx. rewrite (map_snd_combine_same _ _ Hlen') in Hx.
        rewrite Forall_forall in Hfs, Hvs.
        split; [apply Hfs, Hx | apply valid_app, Hvs, Hx]. }
    assert (Hdepth : forall n, list_max (map (fun kv => depth (snd kv)) l) <= n
                               <-> Forall (fun t => depth t <= n) (map snd l)).
    { intros n. rewrite <- (map_map snd depth l). rewrite list_max_le. apply Forall_map. }
    split.
    { cbn [depth]. rewrite length_app. cbn [length].
      assert (list_max (map (fun kv => depth (snd kv)) l) <= length ext); [|lia].
      apply Hdepth. exact Hds. }
    intros fuel stack Hst Hfu. cbn [depth] in Hfu.
    destruct fuel as [|fuel]; [lia|]. rewrite read_ref.
    rewrite stack_avoids by (intros r Hr; rewrite <- Hl; auto).
    rewrite nth_error_app2, Nat.sub_diag by lia. cbn [nth_error].
    rewrite (map_snd_combine_same _ _ Hlen'), (map_fst_combine_same _ _ Hlen').
    match goal with
    | |- context [map_each ?g vs] =>
        rewrite (map_each_Returns (read fuel (length (h ++ ext) :: stack) (h ++ ext)) g vs
                   (fun x y _ => read_extend (h ++ ext) _ fuel _ x y) (map snd l))
    end.
    { cbn [and_then]. now rewrite combine_fst_snd. }
    apply Hrs.
    + intros r [<-|Hr]; [right; lia|]. destruct (Hst r Hr) as [L|L]; [now left | right; lia].
    + apply Hdepth. lia.
Qed.

Lemma nth_error_write r o h a : a <> r -> nth_error (write r o h) a = nth_error h a.
Proof.
  revert r a. induction h as [|x h IH]; intros r a Hne; [destruct r; reflexivity|].
  destruct r as [|r]; cbn [write].
  - destruct a; [congruence | reflexivity].
  - destruct a; [reflexivity|]. cbn [nth_error]. apply IH. congruence.
Qed.

Lemma nth_error_mutate n (writes : list (ref * object)) :
  Forall (fun w : ref * object => n <= fst w) writes ->
  forall h a, a < n -> nth_error (mutate writes h) a = nth_error h a.
Proof.
  unfold mutate. induction 1 as [|w ws Hw _ IH]; intros h a Ha; [reflexivity|].
  cbn [fold_left]. rewrite IH by exact Ha. apply nth_error_write.
  cbn beta in Hw. unfold ref in *. lia.
Qed.


Lemma alloc_closed t h : closed h -> closed (fst (alloc t h)).
Proof.
  intros Hc. destruct (alloc_spec t h) as (ext & v & Ea & _ & _ & Ho & _).
  rewrite Ea. cbn [fst]. intros o Hin x Hx. apply in_app_or in Hin as [Hin|Hin].
  - apply valid_app, (Hc o Hin x Hx).
  - apply (Ho o Hin x Hx).
Qed.

Lemma get_same_below h h2 :
  (forall a, a < length h -> nth_error h2 a = nth_error h a) ->
  forall x k, valid h x -> get h2 x k = get h x k.
Proof.
  intros Hsame [ | | b | f | s | r] k Hx; try reflexivity.
  cbn [valid] in Hx. cbn [get]. now rewrite (Hsame r Hx).
Qed.

Lemma keys_same_below h h2 :
  (forall a, a < length h -> nth_error h2 a = nth_error h a) ->
  forall x, valid h x -> keys h2 x = keys h x.
Proof.
  intros Hsame [ | | b | f | s | r] Hx; try reflexivity.
  cbn [valid] in Hx. cbn [keys]. now rewrite (Hsame r Hx).
Qed.

(** C9, as amended.  For a node of the store whose record is a tree (what
    [JSON.stringify] writes for it is [t]), [getNodeFromId] returns; what it
    returns is made of new objects only, none of which points into the old
    heap, and reads as the JSON copy of [t], which is [t] itself when JSON
    text represents [t] exactly.  Whatever is then written to objects that
    did not exist before the call, every property, every list of keys and
    every read of what existed before (the store, the node record with its
    payload, ports and connection lists) is what it was before the call. *)
Theorem getNodeFromId_snapshot :
  forall h this id node t,
    closed h ->
    node_record h this id = Returns node ->
    node <> VUndefined ->
    stringify h node = Returns t ->
    exists copy v,
      getNodeFromId h this id = Returns (h ++ copy, v)
      /\ stringify (h ++ copy) v = Returns (json_clone t)
      /\ (json_exact t = true -> stringify (h ++ copy) v = Returns t)
      /\ fresh (length h) v
      /\ (forall o, In o copy -> Forall (fresh (length h)) (values_of o))
      /\ closed (h ++ copy)
      /\ forall writes : list (ref * object),
           Forall (fun w => length h <= fst w) writes ->
           forall x,
             valid h x ->
             (forall k, get (mutate writes (h ++ copy)) x k = get h x k)
             /\ keys (mutate writes (h ++ copy)) x = keys h x
             /\ forall fuel stack,
                  read fuel stack (mutate writes (h ++ copy)) x = read fuel stack h x.
Proof.
  intros h this id node t Hc Hrec Hnode Hs.
  destruct (alloc_spec (json_clone t) h) as (ext & v & Ea & Hf & Hv & Ho & Hd & Hr).
  assert (Hcopy : stringify (h ++ ext) v = Returns (json_clone t)).
  { unfold stringify. apply Hr; [intros r []|]. rewrite length_app. lia. }
  exists ext, v. split.
  { unfold getNodeFromId. rewrite Hrec. cbn [and_then].
    destruct node; try congruence; rewrite Hs; cbn [and_then]; now rewrite Ea. }
  split; [exact Hcopy|].
  split; [intros Hx; now rewrite (json_clone_exact _ Hx) in Hcopy|].
  split; [exact Hf|].
  split; [intros o Hin; apply Forall_forall; intros x Hx; apply (Ho o Hin x Hx)|].
  split.
  { intros o Hin x Hx. apply in_app_or in Hin as [Hin|Hin].
    - apply valid_app, (Hc o Hin x Hx).
    - apply (Ho o Hin x Hx). }
  intros writes Hw x Hx.
  assert (Hsame : forall a, a < length h ->
                            nth_error (mutate writes (h ++ ext)) a = nth_error h a).
  { intros a Ha. rewrite (nth_error_mutate (length h) writes Hw) by exact Ha.
    apply nth_error_app1, Ha. }
  split; [intros k; apply (get_same_below h _ Hsame), Hx|].
  split; [apply (keys_same_below h _ Hsame), Hx|].
  intros fuel stack. apply (read_same_below h _ Hc Hsame), Hx.
Qed.

Lemma connected_pair_heap_closed : closed (fst connected_pair_heap).
Proof. apply (alloc_closed (store_json (drawflow connected_pair_example)) []). intros o []. Qed.

Lemma getNodeFromId_snapshot_witness :
  exists copy v,
    getNodeFromId (fst connected_pair_heap) (snd connected_pair_heap) "1"
    = Returns (fst connected_pair_heap ++ copy, v)
    /\ stringify (fst connected_pair_heap ++ copy) v
       = stringify (fst connected_pair_heap) (VRef 8)
    /\ forall writes : list (ref * object),
         Forall (fun w => length (fst connected_pair_heap) <= fst w) writes ->
         forall fuel,
           read fuel [] (mutate writes (fst connected_pair_heap ++ copy))
                (snd connected_pair_heap)
           = read fuel [] (fst connected_pair_heap) (snd connected_pair_heap).
Proof.
  assert (Hs : exists t, stringify (fst connected_pair_heap) (VRef 8) = Returns t
                         /\ json_exact t = true).
  { eexists. split; vm_compute; reflexivity. }
  destruct Hs as (t & Hs & Hx).
  assert (Hrec : node_record (fst connected_pair_heap) (snd connected_pair_heap) "1"
                 = Returns (VRef 8)) by (vm_compute; reflexivity).
  assert (Hnode : VRef 8 <> VUndefined) by discriminate.
  destruct (getNodeFromId_snapshot (fst connected_pair_heap) (snd connected_pair_heap) "1"
              (VRef 8) t connected_pair_heap_closed Hrec Hnode Hs)
    as (copy & v & E & _ & Hcopy & _ & _ & _ & Hi).
  exists copy, v. split; [exact E|]. split; [rewrite Hs; exact (Hcopy Hx)|].
  intros writes Hw fuel.
  apply (Hi writes Hw (snd connected_pair_heap)). vm_compute. lia.
Defined.

(** A number that JSON text does not represent: the copy of the node with
    payload [{ratio: NaN}] has payload [{ratio: null}]. *)
Lemma getNodeFromId_nan_payload :
  exists h' v payload payload',
    getNodeFromId (fst nan_payload_heap) (snd nan_payload_heap) "1" = Returns (h', v)
    /\ get (fst nan_payload_heap) (VRef 3) "data" = Returns payload
    /\ get (fst nan_payload_heap) payload "ratio" = Returns (VNum PrimFloat.nan)
    /\ get h' v "data" = Returns payload'
    /\ get h' payload' "ratio" = Returns VNull
    /\ node_record (fst nan_payload_heap) (snd nan_payload_heap) "1" = Returns (VRef 3)
    /\ stringify h' v <> stringify (fst nan_payload_heap) (VRef 3).
Proof.
  eexists. eexists. eexists. eexists.
  split; [vm_compute; reflexivity|]. split; [vm_compute; reflexivity|].
  split; [vm_compute; reflexivity|]. split; [vm_compute; reflexivity|].
  split; [vm_compute; reflexivity|]. split; [vm_compute; reflexivity|].
  vm_compute. discriminate.
Qed.

(** The copy is what isolates: a write to the record itself shows in the
    store. *)
Lemma write_to_record_shows :
  node_record (fst connected_pair_heap) (snd connected_pair_heap) "1" = Returns (VRef 8)
  /\ stringify (write 8 (ORecord []) (fst connected_pair_heap)) (snd connected_pair_heap)
     <> stringify (fst connected_pair_heap) (snd connected_pair_heap).
Proof. split; [vm_compute; reflexivity|]. vm_compute. discriminate. Qed.

End HeapFacts.

(** ** The theorems at work on the examples *)

Lemma addConnection_twice_witness :
  (addConnection "1" "2" "output_1" "input_1" connected_pair_example
   = Normal connected_pair_example tt
   /\ exists outs1 ins1,
        output_connections (drawflow connected_pair_example) "Home" "1" "output_1" = Some outs1
        /\ input_connections (drawflow connected_pair_example) "Home" "2" "input_1" = Some ins1
        /\ count_out "2" "input_1" outs1 = 1
        /\ count_in "1" "output_1" ins1 = 1)
  /\ exists s1,
       addConnection "1" "2" "output_1" "input_1" other_pair_example = Normal s1 tt
       /\ addConnection "1" "2" "output_1" "input_1" s1 = Normal s1 tt.
Proof.
  split.
  - apply (addConnection_twice two_nodes_example "Home" "1" "2" "output_1" "input_1" [] []).
    + vm_compute. reflexivity.
    + vm_compute. reflexivity.
    + vm_compute. reflexivity.
    + vm_compute. reflexivity.
    + reflexivity.
    + vm_compute. lia.
    + vm_compute. reflexivity.
  - eexists. split; [vm_compute; reflexivity|].
    refine (proj1 (addConnection_twice other_pair_example "Other" "1" "2" "output_1" "input_1"
                     [] [] _ _ _ _ _ _ _ _)).
    + vm_compute. reflexivity.
    + vm_compute. reflexivity.
    + vm_compute. reflexivity.
    + vm_compute. reflexivity.
    + reflexivity.
    + vm_compute. lia.
    + vm_compute. reflexivity.
Defined.

Lemma import_export_exact_witness :
  (exists s1,
      export connected_pair_example = Normal s1 (drawflow connected_pair_example)
      /\ drawflow s1 = drawflow connected_pair_example
      /\ forall s2,
           final_state (import (drawflow connected_pair_example) false s1) = Some s2 ->
           drawflow s2 = drawflow connected_pair_example)
  /\ (exists s1 s2,
        export connected_pair_example = Normal s1 (drawflow connected_pair_example)
        /\ import (drawflow connected_pair_example) false s1 = Throw s2 ReferenceError
        /\ drawflow s2 = drawflow connected_pair_example)
  /\ (exists s1 s2,
        export inactive_module_example = Normal s1 (drawflow inactive_module_example)
        /\ import (drawflow inactive_module_example) false s1 = Normal s2 tt
        /\ drawflow s2 = drawflow inactive_module_example).
Proof.
  split; [|split].
  - apply (import_export_exact connected_pair_example false). vm_compute. reflexivity.
  - eexists. eexists. split; [vm_compute; reflexivity|].
    split; vm_compute; reflexivity.
  - eexists. eexists. split; [vm_compute; reflexivity|].
    split; vm_compute; reflexivity.
Defined.

(** A payload JSON text does not represent: after [import(export())] the
    node's payload [{ratio: NaN}] is [{ratio: null}]. *)
Lemma import_export_nan_payload :
  exists s1 copy s2,
    export nan_payload_example = Normal s1 copy
    /\ import copy false s1 = Normal s2 tt
    /\ option_map n_data (node_at (drawflow nan_payload_example) "Home" "1")
       = Some (JObj [("ratio", JNum PrimFloat.nan)])
    /\ option_map n_data (node_at (drawflow s2) "Home" "1")
       = Some (JObj [("ratio", JNull)])
    /\ drawflow s2 <> drawflow nan_payload_example.
Proof.
  eexists. eexists. eexists.
  split; [vm_compute; reflexivity|]. split; [vm_compute; reflexivity|].
  split; [vm_compute; reflexivity|]. split; [vm_compute; reflexivity|].
  vm_compute. discriminate.
Qed.

Lemma removeNodeId_unknown_witness :
  removeNodeId "node-9" connected_pair_example = Throw connected_pair_example TypeError.
Proof.
  apply (removeNodeId_unknown connected_pair_example "node-9").
  - vm_compute. reflexivity.
  - intros c [<-|[]]. split; vm_compute; reflexivity.
Defined.

(** With no node at all, [removeNodeId] throws. *)
Lemma removeNodeId_unknown_throws :
  getModuleFromNodeId (drawflow new_editor) "7" = None
  /\ removeNodeId "node-7" new_editor = Throw new_editor TypeError.
Proof. split; vm_compute; reflexivity. Qed.


(** ** Objects: a write to any key *)

Lemma obj_get_insert_index_same {A} i k (v : A) o :
  obj_get k o = None -> obj_get k (obj_insert_index i k v o) = Some v.
Proof.
  induction o as [|[k' v'] r IH]; cbn [obj_insert_index obj_get].
  - now rewrite String.eqb_refl.
  - destruct (k' =? k) eqn:E; [discriminate|]. intros H.
    destruct (array_index k') as [j|]; [destruct (j <? i)%N|];
      cbn [obj_get]; rewrite ?E, ?String.eqb_refl; auto.
Qed.

Lemma obj_get_insert_index_other {A} i k k' (v : A) o :
  k' <> k -> obj_get k' (obj_insert_index i k v o) = obj_get k' o.
Proof.
  intros Hk. apply String.eqb_neq in Hk. rewrite String.eqb_sym in Hk.
  induction o as [|[j w] r IH]; cbn [obj_insert_index obj_get].
  - now rewrite Hk.
  - destruct (array_index j) as [n|]; [destruct (n <? i)%N|]; cbn [obj_get]; rewrite ?Hk, ?IH;
      reflexivity.
Qed.

Lemma obj_get_app_None {A} k (o o' : obj A) :
  obj_get k o = None -> obj_get k (o ++ o') = obj_get k o'.
Proof.
  induction o as [|[j w] r IH]; cbn [obj_get app]; [reflexivity|].
  destruct (j =? k); [discriminate | exact IH].
Qed.

Lemma obj_get_app_Some {A} k (o o' : obj A) v :
  obj_get k o = Some v -> obj_get k (o ++ o') = Some v.
Proof.
  induction o as [|[j w] r IH]; cbn [obj_get app]; [discriminate|].
  destruct (j =? k); [auto | exact IH].
Qed.

Lemma obj_get_set_eq {A} k (v : A) o : obj_get k (obj_set k v o) = Some v.
Proof.
  unfold obj_set. destruct (obj_get k o) as [x|] eqn:E.
  - apply obj_get_replace_same. congruence.
  - destruct (array_index k); [apply obj_get_insert_index_same, E|].
    rewrite (obj_get_app_None _ _ _ E). cbn. now rewrite String.eqb_refl.
Qed.

Lemma obj_get_set_neq {A} k k' (v : A) o :
  k' <> k -> obj_get k' (obj_set k v o) = obj_get k' o.
Proof.
  intros Hk. unfold obj_set. destruct (obj_get k o) as [x|] eqn:E.
  - apply obj_get_replace_other, Hk.
  - destruct (array_index k); [apply obj_get_insert_index_other, Hk|].
    destruct (obj_get k' o) as [y|] eqn:E'.
    + apply (obj_get_app_Some _ _ _ _ E').
    + rewrite (obj_get_app_None _ _ _ E'). cbn.
      apply String.eqb_neq in Hk. rewrite String.eqb_sym in Hk. now rewrite Hk.
Qed.

(** ** The event bus *)

Section EventFacts.
Import Events.

(** Whether [on] can register for the event: the registry has an entry
    for it, or the name is not an inherited one. *)
Lemma on_registers e f events :
  obj_get e events <> None \/ inherited e = false ->
  on (Name e) (Function f) events
  = (obj_set e (listeners_of e events ++ [f])
       (match obj_get e events with Some _ => events | None => obj_set e [] events end),
     Undefined).
Proof.
  intros H. unfold on, listeners_of. destruct (obj_get e events) as [l|] eqn:E.
  - now rewrite E.
  - destruct H as [H|H]; [congruence|]. rewrite H. now rewrite obj_get_set_eq.
Qed.

Lemma on_inherited e f events :
  obj_get e events = None -> inherited e = true ->
  on (Name e) (Function f) events = (events, ThrowsTypeError).
Proof. intros E H. unfold on. now rewrite E, H, E. Qed.

Lemma listeners_of_on e f events :
  obj_get e events <> None \/ inherited e = false ->
  listeners_of e (fst (on (Name e) (Function f) events)) = listeners_of e events ++ [f].
Proof.
  intros H. rewrite (on_registers e f events H). cbn [fst].
  unfold listeners_of at 1. now rewrite obj_get_set_eq.
Qed.

Lemma obj_get_on_other e e' f events :
  e' <> e -> obj_get e' (fst (on (Name e) (Function f) events)) = obj_get e' events.
Proof.
  intros Hne. unfold on. destruct (obj_get e events) as [l|] eqn:E.
  - rewrite E. cbn [fst]. now apply obj_get_set_neq.
  - destruct (inherited e).
    + rewrite E. reflexivity.
    + rewrite obj_get_set_eq. cbn [fst]. rewrite !obj_get_set_neq by exact Hne. reflexivity.
Qed.

(** X5.  [on] registers when the callback is a function and the event
    name a string for which the registry has an entry or which is not a name
    every object inherits; it then returns nothing.  From then on every
    [dispatch] of that event calls the listeners registered before, in their
    order, and then the new one (once more if it was registered already);
    what is dispatched for any other event is what it was.  For an inherited
    name with no entry ([toString] and the like) [on] throws a [TypeError]
    and leaves the registry alone.  With a callback that is no function or a
    name that is no string, [on] returns [false] and leaves the registry
    alone. *)
Theorem on_then_dispatch :
  forall (A : Type) (events : registry) (event : event_name) (cb : callback),
    match event, cb with
    | Name e, Function f =>
        (obj_get e events <> None \/ inherited e = false ->
         snd (on event cb events) = Undefined
         /\ (forall d : A,
                dispatch e d (fst (on event cb events))
                = (fst (dispatch e d events) ++ [(f, d)], Undefined))
         /\ (forall e' (d : A),
                e' <> e ->
                dispatch e' d (fst (on event cb events)) = dispatch e' d events))
        /\ (obj_get e events = None -> inherited e = true ->
            on event cb events = (events, ThrowsTypeError))
    | _, _ => on event cb events = (events, False_)
    end.
Proof.
  intros A events [e|] [f|]; try reflexivity. split; [|apply on_inherited].
  intros Hreg. split; [|split].
  - now rewrite (on_registers e f events Hreg).
  - intros d. pose proof (listeners_of_on e f events Hreg) as H.
    unfold dispatch, listeners_of in *.
    destruct (obj_get e (fst (on (Name e) (Function f) events))) as [l'|] eqn:E'.
    + rewrite H. cbn [fst]. rewrite map_app. cbn [map].
      destruct (obj_get e events); [reflexivity|]. destruct (inherited e); reflexivity.
    + exfalso. exact (app_cons_not_nil _ _ _ H).
  - intros e' d Hne. unfold dispatch. now rewrite (obj_get_on_other e e' f events Hne).
Qed.

Lemma findIndex_first (f : listener) (l1 l2 : list listener) :
  ~ In f l1 -> findIndex (Nat.eqb f) (l1 ++ f :: l2) = Some (length l1).
Proof.
  induction l1 as [|x r IH]; intros Hn; cbn [app findIndex length].
  - now rewrite Nat.eqb_refl.
  - destruct (Nat.eqb_spec f x) as [->|_]; [exfalso; apply Hn; now left|].
    rewrite IH; [reflexivity|]. intros H. apply Hn. now right.
Qed.

Lemma findIndex_absent (f : listener) (l : list listener) : ~ In f l -> findIndex (Nat.eqb f) l = None.
Proof.
  induction l as [|x r IH]; intros Hn; cbn [findIndex]; [reflexivity|].
  destruct (Nat.eqb_spec f x) as [->|_]; [exfalso; apply Hn; now left|].
  rewrite IH; [reflexivity|]. intros H. apply Hn. now right.
Qed.

Lemma remove_nth_middle {A} (l1 l2 : list A) x :
  remove_nth (length l1) (l1 ++ x :: l2) = l1 ++ l2.
Proof. induction l1 as [|y r IH]; cbn; [reflexivity | now rewrite IH]. Qed.

(** The first registration goes. *)
Lemma removeListener_found events e f l1 l2 :
  obj_get e events = Some (l1 ++ f :: l2) -> ~ In f l1 ->
  removeListener e (Function f) events = (obj_set e (l1 ++ l2) events, Undefined).
Proof.
  intros H Hn. unfold removeListener, indexOf.
  now rewrite H, (findIndex_first f l1 l2 Hn), remove_nth_middle.
Qed.

(** X6.  [removeListener] takes away the first registration of the
    callback for the event and nothing else: the listeners before and after
    it keep their places, the other events their listeners.  Without a
    registration of the callback it changes nothing.  For an event that has
    no entry it returns [false], unless the name is one every object
    inherits ([toString] and the like): then it throws a [TypeError]. *)
Theorem removeListener_removes_first :
  forall (events : registry) (e : string) (f : listener),
    (obj_get e events = None ->
     removeListener e (Function f) events
     = (events, if inherited e then ThrowsTypeError else False_))
    /\ (forall l,
           obj_get e events = Some l -> ~ In f l ->
           removeListener e (Function f) events = (events, Undefined))
    /\ (forall l1 l2,
           obj_get e events = Some (l1 ++ f :: l2) -> ~ In f l1 ->
           snd (removeListener e (Function f) events) = Undefined
           /\ listeners_of e (fst (removeListener e (Function f) events)) = l1 ++ l2
           /\ forall e', e' <> e ->
                obj_get e' (fst (removeListener e (Function f) events)) = obj_get e' events).
Proof.
  intros events e f. split; [|split].
  - intros H. unfold removeListener. rewrite H. now destruct (inherited e).
  - intros l H Hn. unfold removeListener, indexOf. now rewrite H, (findIndex_absent f l Hn).
  - intros l1 l2 H Hn. rewrite (removeListener_found events e f l1 l2 H Hn).
    unfold listeners_of. cbn [fst snd].
    split; [reflexivity|]. split; [now rewrite obj_get_set_eq|].
    intros e' Hne. now apply obj_get_set_neq.
Qed.

(** X7.  [on] followed by [removeListener] of the same callback, for an
    event for which [on] registers (the registry has an entry for it, or
    the name is not an inherited one).  If the callback was not registered
    for the event, the listeners of the event are those from before; yet
    the event keeps its entry, so that a [dispatch] which returned [false]
    before now returns nothing.  If it was registered, it is the older
    registration that goes: the callback moves to the end of the
    listeners. *)
Theorem on_then_removeListener :
  forall (events : registry) (e : string) (f : listener),
    let events' := fst (removeListener e (Function f)
                          (fst (on (Name e) (Function f) events))) in
    (~ In f (listeners_of e events) ->
     obj_get e events <> None \/ inherited e = false ->
     listeners_of e events' = listeners_of e events
     /\ forall (A : Type) (d : A),
          dispatch e d events' = (fst (dispatch e d events), Undefined))
    /\ (forall l1 l2,
           listeners_of e events = l1 ++ f :: l2 -> ~ In f l1 ->
           listeners_of e events' = l1 ++ l2 ++ [f]).
Proof.
  intros events e f events'.
  assert (Hget : obj_get e events <> None \/ inherited e = false ->
                 obj_get e (fst (on (Name e) (Function f) events))
                 = Some (listeners_of e events ++ [f])).
  { intros Hreg. rewrite (on_registers e f events Hreg). cbn [fst]. apply obj_get_set_eq. }
  set (events1 := fst (on (Name e) (Function f) events)) in *.
  split.
  - intros Hn Hreg. specialize (Hget Hreg).
    pose proof (removeListener_found events1 e f (listeners_of e events) [] Hget Hn) as H.
    rewrite app_nil_r in H.
    assert (Hl : obj_get e events' = Some (listeners_of e events)).
    { unfold events'. rewrite H. cbn [fst]. apply obj_get_set_eq. }
    split; [unfold listeners_of at 1; now rewrite Hl|].
    intros A d. unfold dispatch. rewrite Hl.
    unfold listeners_of. destruct (obj_get e events); [reflexivity|].
    destruct (inherited e); reflexivity.
  - intros l1 l2 Hl Hn.
    assert (Hreg : obj_get e events <> None \/ inherited e = false).
    { left. unfold listeners_of in Hl. destruct (obj_get e events); [discriminate|].
      destruct l1; discriminate. }
    specialize (Hget Hreg). rewrite Hl, <- app_assoc in Hget. cbn [app] in Hget.
    pose proof (removeListener_found events1 e f l1 (l2 ++ [f]) Hget Hn) as H.
    unfold events'. rewrite H. cbn [fst]. unfold listeners_of at 1.
    now rewrite obj_get_set_eq.
Qed.

End EventFacts.


(** ** Identifiers *)

Definition hex_digit (k : nat) : ascii := nth k (list_ascii_of_string hexDigits) "0"%char.

Lemma substr1_hexDigits k : k < 16 -> substr1 k hexDigits = String (hex_digit k) "".
Proof.
  intros H. do 16 (destruct k as [|k]; [reflexivity|]). lia.
Qed.

Lemma hex_digit_In k : k < 16 -> In (hex_digit k) (list_ascii_of_string hexDigits).
Proof.
  intros H. unfold hex_digit. apply nth_In. exact H.
Qed.

Lemma variant_digit k :
  k < 16 ->
  substr1 (N.to_nat (N.lor (N.land (number_of_char (String (hex_digit k) "")) 3) 8)) hexDigits
  = String (if Nat.leb 10 k then "8"%char
            else nth (k mod 4) ["8"; "9"; "a"; "b"]%char "8"%char) "".
Proof.
  intros H. do 16 (destruct k as [|k]; [vm_compute; reflexivity|]). lia.
Qed.

(** X8.  [getUuid] gives 36 characters: a hyphen at the positions 8, 13,
    18 and 23, the digit 4 at position 14, one of 8, 9, a, b at position 19
    and a lower-case hexadecimal digit everywhere else.  The character at
    position 19 is made from the digit drawn there by [(x & 0x3) | 0x8], with
    the drawn character itself as [x]: it is 8 whenever a letter was
    drawn. *)
Theorem getUuid_format :
  forall draw : nat -> nat,
    (forall i, draw i < 16) ->
    String.length (getUuid draw) = 36
    /\ (forall i, In i [8; 13; 18; 23] -> String.get i (getUuid draw) = Some "-"%char)
    /\ String.get 14 (getUuid draw) = Some "4"%char
    /\ (exists c, String.get 19 (getUuid draw) = Some c /\ In c ["8"; "9"; "a"; "b"]%char)
    /\ (10 <= draw 19 -> String.get 19 (getUuid draw) = Some "8"%char)
    /\ (forall i, i < 36 -> ~ In i [8; 13; 14; 18; 19; 23] ->
                  exists c, String.get i (getUuid draw) = Some c
                            /\ In c (list_ascii_of_string hexDigits)).
Proof.
  intros draw H.
  assert (E : getUuid draw
              = string_of_list_ascii
                  (map (fun i =>
                          if existsb (Nat.eqb i) [8; 13; 18; 23] then "-"%char
                          else if Nat.eqb i 14 then "4"%char
                          else if Nat.eqb i 19
                               then (if Nat.leb 10 (draw 19) then "8"%char
                                     else nth (draw 19 mod 4) ["8"; "9"; "a"; "b"]%char "8"%char)
                               else hex_digit (draw i))
                       (seq 0 36))).
  { unfold getUuid. cbn [seq map replace_nth firstn skipn app nth].
    rewrite (substr1_hexDigits (draw 19) (H 19)).
    rewrite (variant_digit (draw 19) (H 19)).
    rewrite !substr1_hexDigits by apply H. reflexivity. }
  rewrite E. clear E.
  split; [reflexivity|].
  split; [intros i [<-|[<-|[<-|[<-|[]]]]]; reflexivity|].
  split; [reflexivity|].
  split.
  { eexists. split; [reflexivity|]. cbn [existsb Nat.eqb orb].
    destruct (Nat.leb 10 (draw 19)); [now left|].
    pose proof (Nat.mod_upper_bound (draw 19) 4 ltac:(lia)) as Hm.
    destruct (draw 19 mod 4) as [|[|[|[|k]]]]; cbn [nth]; [auto | auto | auto | auto | lia];
      cbn; auto. }
  split.
  { intros H10. apply Nat.leb_le in H10. rewrite H10. reflexivity. }
  intros i Hi Hn.
  do 36 (destruct i as [|i];
         [first [ solve [exfalso; apply Hn; cbn; tauto]
                | eexists; split; [reflexivity | apply hex_digit_In, H] ]|]).
  lia.
Qed.

Lemma getUuid_format_witness :
  (forall i, (fun i => i mod 16) i < 16)
  /\ String.length (getUuid (fun i => i mod 16)) = 36
  /\ getUuid (fun i => i mod 16) = "01234567-9abc-4f01-b456-89abcdef0123".
Proof.
  assert (H : forall i, (fun i => i mod 16) i < 16)
    by (intros i; apply Nat.mod_upper_bound; lia).
  split; [exact H|].
  split; [exact (proj1 (getUuid_format (fun i => i mod 16) H))|].
  vm_compute. reflexivity.
Defined.


(** ** Looking a node up *)

Lemma find_in_module id m (data : obj node) (acc : option string) :
  fold_left (fun (nm : option string) (kv : string * node) =>
               if fst kv =? id then Some m else nm) data acc
  = match obj_get id data with Some _ => Some m | None => acc end.
Proof.
  revert acc. induction data as [|[k n] r IH]; intros acc; cbn [fold_left obj_get fst];
    [reflexivity|].
  rewrite IH. destruct (k =? id); [destruct (obj_get id r)|]; reflexivity.
Qed.

Lemma getModuleFromNodeId_app df m data id :
  getModuleFromNodeId (df ++ [(m, data)]) id
  = match obj_get id data with
    | Some _ => Some m
    | None => getModuleFromNodeId df id
    end.
Proof.
  unfold getModuleFromNodeId. rewrite fold_left_app. cbn [fold_left fst snd].
  apply find_in_module.
Qed.

Lemma getModuleFromNodeId_last df id m :
  getModuleFromNodeId df id = Some m <->
  exists df1 data df2,
    df = df1 ++ (m, data) :: df2
    /\ obj_get id data <> None
    /\ forall m' d', In (m', d') df2 -> obj_get id d' = None.
Proof.
  induction df as [|[m0 d0] df IH] using rev_ind.
  - split; [discriminate|]. intros (df1 & data & df2 & H & _). now destruct df1.
  - rewrite getModuleFromNodeId_app. destruct (obj_get id d0) as [n|] eqn:E.
    + split.
      * intros [= <-]. exists df, d0, []. split; [reflexivity|].
        split; [congruence | intros ? ? []].
      * intros (df1 & data & df2 & H & Hd & Hl).
        destruct df2 as [|x df2 _] using rev_ind.
        -- apply app_inj_tail in H as [_ [= -> _]]. reflexivity.
        -- rewrite app_comm_cons, app_assoc in H. apply app_inj_tail in H as [_ <-].
           rewrite (Hl m0 d0) in E; [discriminate|]. apply in_or_app. right. now left.
    + rewrite IH. split.
      * intros (df1 & data & df2 & -> & Hd & Hl).
        exists df1, data, (df2 ++ [(m0, d0)]). rewrite <- app_assoc. split; [reflexivity|].
        split; [exact Hd|]. intros m' d' Hin. apply in_app_or in Hin as [Hin|[[= <- <-]|[]]];
          [eauto | exact E].
      * intros (df1 & data & df2 & H & Hd & Hl).
        destruct df2 as [|x df2 _] using rev_ind.
        -- apply app_inj_tail in H as [_ [= -> ->]]. congruence.
        -- rewrite app_comm_cons, app_assoc in H. apply app_inj_tail in H as [-> <-].
           exists df1, data, df2. split; [reflexivity|]. split; [exact Hd|].
           intros m' d' Hin. apply (Hl m' d'). apply in_or_app. now left.
Qed.

Lemma obj_get_NoDup_In {A} k (v : A) (o : obj A) :
  NoDup (obj_keys o) -> In (k, v) o -> obj_get k o = Some v.
Proof.
  induction o as [|[j w] r IH]; cbn [obj_keys map fst obj_get]; intros Hn Hin; [destruct Hin|].
  inversion Hn as [|? ? Hj Hr]; subst. destruct Hin as [[= -> ->]|Hin].
  - now rewrite String.eqb_refl.
  - destruct (String.eqb_spec j k) as [->|_]; [|exact (IH Hr Hin)].
    exfalso. apply Hj. change k with (fst (k, v)). apply in_map. exact Hin.
Qed.

Lemma NoDup_split_unique {A} (l1 l1' l2 l2' : obj A) k v v' :
  NoDup (obj_keys (l1 ++ (k, v) :: l2)) ->
  l1 ++ (k, v) :: l2 = l1' ++ (k, v') :: l2' ->
  l1 = l1' /\ v = v' /\ l2 = l2'.
Proof.
  revert l1'. induction l1 as [|x r IH]; intros [|y r'] Hnd H; cbn [app] in *.
  - injection H as H1 H2. subst. auto.
  - exfalso. injection H as H1 H2. subst. cbn [obj_keys map fst] in Hnd.
    inversion Hnd as [|? ? Hx _]. apply Hx. rewrite map_app. apply in_or_app.
    right. now left.
  - exfalso. injection H as H1 H2. subst. cbn [obj_keys map fst] in Hnd.
    inversion Hnd as [|? ? Hx _]. apply Hx. rewrite map_app. apply in_or_app.
    right. now left.
  - injection H as H1 H2. subst. cbn [obj_keys map] in Hnd. inversion Hnd as [|? ? _ Hr].
    destruct (IH r' Hr H2) as (-> & -> & ->). auto.
Qed.

(** X9.  Which node [getNodeFromId] gives.  If some module holds the id,
    the module found for it is the last one, in the order of the store, that
    holds it, and [getNodeFromId] returns the copy of that module's record,
    the editor unchanged.  If no module holds the id, [getNodeFromId] never
    returns: it throws a [TypeError], or a [SyntaxError] when the store has
    a module of the name [undefined]. *)
Theorem getNodeFromId_lookup :
  forall (s : editor) (id : string),
    NoDup (obj_keys (drawflow s)) ->
    ((exists m, node_at (drawflow s) m id <> None) ->
     exists m n,
       getModuleFromNodeId (drawflow s) id = Some m
       /\ node_at (drawflow s) m id = Some n
       /\ getNodeFromId id s = Normal s (clone_node n)
       /\ forall df1 data df2,
            drawflow s = df1 ++ (m, data) :: df2 ->
            forall m', In m' (obj_keys df2) -> node_at (drawflow s) m' id = None)
    /\ ((forall m, node_at (drawflow s) m id = None) ->
        getModuleFromNodeId (drawflow s) id = None
        /\ getNodeFromId id s
           = Throw s (match obj_get "undefined" (drawflow s) with
                      | Some _ => SyntaxError
                      | None => TypeError
                      end)).
Proof.
  intros s id Hnd.
  assert (Hat : forall m d, In (m, d) (drawflow s) -> node_at (drawflow s) m id = obj_get id d).
  { intros m d Hin. unfold node_at. now rewrite (obj_get_NoDup_In m d _ Hnd Hin). }
  split.
  - intros [m0 H0].
    destruct (getModuleFromNodeId (drawflow s) id) as [m|] eqn:Em.
    + pose proof (proj1 (getModuleFromNodeId_last _ _ _) Em) as (df1 & data & df2 & Hdf & Hd & Hl).
      assert (Hin : In (m, data) (drawflow s)).
      { rewrite Hdf. apply in_or_app. right. now left. }
      destruct (obj_get id data) as [n|] eqn:En; [|congruence].
      exists m, n. split; [reflexivity|].
      assert (Hn : node_at (drawflow s) m id = Some n) by (rewrite (Hat m data Hin); exact En).
      split; [exact Hn|]. split; [exact (getNodeFromId_found s id m n Em Hn)|].
      intros df1' data' df2' Hdf' m' Hin'.
      assert (E2 : df1 = df1' /\ data = data' /\ df2 = df2').
      { apply (NoDup_split_unique df1 df1' df2 df2' m data data').
        - rewrite <- Hdf. exact Hnd.
        - rewrite <- Hdf. exact Hdf'. }
      destruct E2 as (_ & _ & <-).
      apply in_map_iff in Hin' as ([k d'] & <- & Hin'). cbn [fst].
      rewrite (Hat k d'); [exact (Hl k d' Hin')|].
      rewrite Hdf. apply in_or_app. right. now right.
    + exfalso. apply H0. unfold node_at.
      destruct (obj_get m0 (drawflow s)) as [d|] eqn:Ed; [|reflexivity].
      exact (getModuleFromNodeId_None _ _ Em m0 d (obj_get_In _ _ _ _ Ed)).
  - intros Hnone.
    assert (Em : getModuleFromNodeId (drawflow s) id = None).
    { destruct (getModuleFromNodeId (drawflow s) id) as [m|] eqn:Em; [|reflexivity].
      exfalso.
      pose proof (proj1 (getModuleFromNodeId_last _ _ _) Em) as (df1 & data & df2 & Hdf & Hd & _).
      apply Hd. rewrite <- (Hat m data); [apply Hnone|].
      rewrite Hdf. apply in_or_app. right. now left. }
    split; [exact Em|].
    unfold getNodeFromId, bind, gets. rewrite Em. cbn [key_of].
    pose proof (Hnone "undefined") as Hu. unfold node_at in Hu.
    destruct (obj_get "undefined" (drawflow s)) as [d|]; cbn [defined ret throw];
      [rewrite Hu|]; reflexivity.
Qed.

Lemma getNodeFromId_lookup_witness :
  NoDup (obj_keys (drawflow inactive_module_example))
  /\ (exists m n,
         getModuleFromNodeId (drawflow inactive_module_example) "1" = Some m
         /\ node_at (drawflow inactive_module_example) m "1" = Some n
         /\ getNodeFromId "1" inactive_module_example
            = Normal inactive_module_example (clone_node n))
  /\ getNodeFromId "7" inactive_module_example = Throw inactive_module_example TypeError.
Proof.
  assert (Hnd : NoDup (obj_keys (drawflow inactive_module_example))).
  { vm_compute. repeat constructor; cbn; intuition discriminate. }
  split; [exact Hnd|].
  destruct (getNodeFromId_lookup inactive_module_example "1" Hnd) as [H1 _].
  destruct (getNodeFromId_lookup inactive_module_example "7" Hnd) as [_ H2].
  split.
  - destruct H1 as (m & n & Hm & Hn & Hg & _).
    + exists "Other". vm_compute. discriminate.
    + exists m, n. auto.
  - apply H2. intros m. unfold node_at.
    destruct (obj_get m (drawflow inactive_module_example)) as [d|] eqn:E; [|reflexivity].
    apply obj_get_In in E. vm_compute in E.
    repeat (destruct E as [[= <- <-]|E]; [reflexivity|]). destruct E.
Defined.


(** ** Port labels *)

Lemma to_uint_nonnil n : N.to_uint n <> Decimal.Nil.
Proof.
  destruct n as [|p]; [discriminate|]. apply DecimalPos.Unsigned.to_uint_nonnil.
Qed.

Lemma string_of_N_inj a b : string_of_N a = string_of_N b -> a = b.
Proof.
  unfold string_of_N. intros H.
  apply (f_equal NilZero.uint_of_string) in H.
  rewrite !NilZero.usu in H by apply to_uint_nonnil.
  injection H as H. apply (f_equal N.of_uint) in H.
  now rewrite !DecimalN.Unsigned.of_to in H.
Qed.

Lemma append_inj_l (p a b : string) : (p ++ a = p ++ b)%string -> a = b.
Proof. induction p as [|c p IH]; cbn; [auto|]. intros [= H]. auto. Qed.

Lemma port_label_inj prefix i j : port_label prefix i = port_label prefix j -> i = j.
Proof.
  unfold port_label. intros H. apply append_inj_l, string_of_N_inj in H. lia.
Qed.

Lemma obj_get_not_key {A} k (o : obj A) : ~ In k (obj_keys o) -> obj_get k o = None.
Proof.
  induction o as [|[j w] r IH]; cbn [obj_keys map fst obj_get]; intros H; [reflexivity|].
  destruct (String.eqb_spec j k) as [->|_]; [exfalso; apply H; now left|].
  apply IH. intros Hin. apply H. now right.
Qed.

Lemma obj_get_key {A} k (o : obj A) : In k (obj_keys o) -> obj_get k o <> None.
Proof.
  induction o as [|[j w] r IH]; cbn [obj_keys map fst obj_get]; intros H; [destruct H|].
  destruct (String.eqb_spec j k) as [->|Hne]; [discriminate|].
  destruct H as [H|H]; [congruence | exact (IH H)].
Qed.

Lemma obj_get_is_key {A} k (o : obj A) v : obj_get k o = Some v -> In k (obj_keys o).
Proof.
  intros H. apply obj_get_In in H. change k with (fst (k, v)). apply in_map, H.
Qed.

(** The loop that labels the ports anew, on labels that are no array
    indices: the ports get the labels 1, 2, ... in order. *)
Lemma relabel_from {A} (prefix : string) :
  (forall i, array_index (port_label prefix i) = None) ->
  forall (l : list A) (a : nat) (acc : obj A),
    (forall k, In k (obj_keys acc) -> exists i, i <= a /\ k = port_label prefix i) ->
    fold_left
      (fun o ix => obj_set (prefix ++ string_of_N (N.of_nat (fst ix) + 1)) (snd ix) o)
      (combine (seq a (length l)) l) acc
    = acc ++ combine (map (port_label prefix) (seq (S a) (length l))) l.
Proof.
  intros Hidx. induction l as [|x l IH]; intros a acc Hacc; cbn [length seq combine fold_left map].
  - now rewrite app_nil_r.
  - cbn [fst snd].
    assert (Hk : (prefix ++ string_of_N (N.of_nat a + 1))%string = port_label prefix (S a)).
    { unfold port_label. do 2 f_equal. lia. }
    rewrite Hk.
    assert (Hset : obj_set (port_label prefix (S a)) x acc = acc ++ [(port_label prefix (S a), x)]).
    { unfold obj_set. rewrite obj_get_not_key, Hidx; [reflexivity|].
      intros Hin. destruct (Hacc _ Hin) as (i & Hi & E). apply port_label_inj in E. lia. }
    rewrite Hset, IH.
    + now rewrite <- app_assoc.
    + intros k Hin. unfold obj_keys in Hin. rewrite map_app in Hin.
      apply in_app_or in Hin as [Hin|[<-|[]]].
      * destruct (Hacc _ Hin) as (i & Hi & E). exists i. split; [lia | exact E].
      * exists (S a). split; [lia | reflexivity].
Qed.

Lemma relabel_labels {A} (prefix : string) (l : list A) :
  (forall i, array_index (port_label prefix i) = None) ->
  relabel prefix l = combine (map (port_label prefix) (seq 1 (length l))) l.
Proof.
  intros Hidx. unfold relabel. rewrite (relabel_from prefix Hidx l 0 []); [reflexivity|].
  intros k [].
Qed.

Lemma input_label_no_index i : array_index (port_label "input_" i) = None.
Proof. reflexivity. Qed.

Lemma output_label_no_index i : array_index (port_label "output_" i) = None.
Proof. reflexivity. Qed.

Lemma obj_keys_combine {A} (ks : list string) (l : list A) :
  length ks = length l -> obj_keys (combine ks l) = ks.
Proof.
  revert l. induction ks as [|k ks IH]; intros [|x l] H; try discriminate; [reflexivity|].
  cbn. f_equal. apply IH. now injection H.
Qed.

Lemma obj_values_combine {A} (ks : list string) (l : list A) :
  length ks = length l -> obj_values (combine ks l) = l.
Proof.
  revert l. induction ks as [|k ks IH]; intros [|x l] H; try discriminate; [reflexivity|].
  cbn. f_equal. apply IH. now injection H.
Qed.

Lemma obj_ext {A} (o o0 : obj A) :
  NoDup (obj_keys o0) ->
  obj_keys o = obj_keys o0 ->
  (forall k, In k (obj_keys o0) -> obj_get k o = obj_get k o0) ->
  o = o0.
Proof.
  revert o. induction o0 as [|[j0 v0] r0 IH]; intros [|[j v] r] Hnd Hk Hg; try discriminate;
    [reflexivity|].
  cbn [obj_keys map fst] in Hk, Hnd, Hg. injection Hk as -> Hk.
  inversion Hnd as [|? ? Hj Hr]; subst.
  pose proof (Hg j0 (or_introl eq_refl)) as E. cbn [obj_get] in E.
  rewrite String.eqb_refl in E. injection E as ->. f_equal.
  apply IH; [exact Hr | exact Hk |].
  intros k Hin. specialize (Hg k (or_intror Hin)). cbn [obj_get] in Hg.
  destruct (String.eqb_spec j0 k) as [->|_]; [contradiction | exact Hg].
Qed.

(** Two objects with the same keys and, but for [k], the same values, are
    the same once [k] is deleted. *)
Lemma obj_delete_ext {A} k (o o0 : obj A) :
  NoDup (obj_keys o0) ->
  obj_keys o = obj_keys o0 ->
  (forall k', k' <> k -> obj_get k' o = obj_get k' o0) ->
  obj_delete k o = obj_delete k o0.
Proof.
  revert o. induction o0 as [|[j0 v0] r0 IH]; intros [|[j v] r] Hnd Hk Hg; try discriminate;
    [reflexivity|].
  cbn [obj_keys map fst] in Hk, Hnd. injection Hk as -> Hk.
  inversion Hnd as [|? ? Hj Hr]; subst.
  assert (Hrr : forall k', k' <> k -> k' <> j0 -> obj_get k' r = obj_get k' r0).
  { intros k' H1 H2. specialize (Hg k' H1). cbn [obj_get] in Hg.
    apply String.eqb_neq in H2. rewrite String.eqb_sym in H2. now rewrite H2 in Hg. }
  cbn [obj_delete]. destruct (String.eqb_spec j0 k) as [->|Hne].
  - apply obj_ext; [exact Hr | exact Hk |].
    intros k' Hin. apply Hrr; intros ->; contradiction.
  - pose proof (Hg j0 Hne) as E. cbn [obj_get] in E. rewrite String.eqb_refl in E.
    injection E as ->. f_equal. apply IH; [exact Hr | exact Hk |].
    intros k' H1. destruct (String.eqb_spec k' j0) as [->|H2]; [|auto].
    rewrite !obj_get_not_key; [reflexivity | exact Hj |].
    unfold obj_keys in *. rewrite Hk. exact Hj.
Qed.


(** ** Removing a port, in general *)

Lemma renumber_out_other id removed e : oc_node e <> id -> renumber_out id removed e = e.
Proof.
  intros H. unfold renumber_out. apply String.eqb_neq in H. now rewrite H.
Qed.

Lemma obj_get_clone_key {A} (f : A -> A) k (o : obj A) v :
  obj_get k (clone_obj f o) = Some v -> In k (obj_keys o).
Proof.
  rewrite obj_get_clone_obj. destruct (obj_get k o) as [w|] eqn:E; [|discriminate].
  intros _. exact (obj_get_is_key _ _ _ E).
Qed.

Lemma length_obj_delete {A} k (o : obj A) :
  In k (obj_keys o) -> length (obj_delete k o) = length o - 1.
Proof.
  induction o as [|[j w] r IH]; cbn [obj_keys map fst obj_delete length]; intros H;
    [destruct H|].
  destruct (String.eqb_spec j k) as [->|Hne]; [lia|].
  destruct H as [H|H]; [congruence|]. cbn [length]. rewrite (IH H).
  destruct r; [destruct H | cbn [length]; lia].
Qed.

(** X10.  Removing an input port, whatever the number of ports.  Let the
    node [id] of module [m] have the inputs [n_inputs n] (distinct labels).
    When [removeNodeInput id Q] returns, [Q] was one of the labels, and the
    node has one input less: the labels are [input_1], [input_2], ... with
    no gap, and the connection lists are those of the ports other than [Q],
    in their order.  No entry of an output port that names another node is
    lost. *)
Theorem removeNodeInput_relabels :
  forall (s : editor) (m id Q : string) (n : node),
    getModuleFromNodeId (drawflow s) id = Some m ->
    node_at (drawflow s) m id = Some n ->
    NoDup (obj_keys (n_inputs n)) ->
    forall s',
      removeNodeInput id Q s = Normal s' tt ->
      In Q (obj_keys (n_inputs n))
      /\ (exists n',
             node_at (drawflow s') m id = Some n'
             /\ obj_keys (n_inputs n')
                = map (port_label "input_") (seq 1 (length (n_inputs n) - 1))
             /\ obj_values (n_inputs n') = obj_values (obj_delete Q (n_inputs n)))
      /\ (forall b P l e,
             output_connections (drawflow s) m b P = Some l -> In e l -> oc_node e <> id ->
             exists l', output_connections (drawflow s') m b P = Some l' /\ In e l').
Proof.
  intros s m id Q n Hmod Hn Hnd s' Hrun.
  assert (H : wp (remove_input_port id Q)
                (fun _ s' =>
                   In Q (obj_keys (n_inputs n))
                   /\ (exists n',
                          node_at (drawflow s') m id = Some n'
                          /\ obj_keys (n_inputs n')
                             = map (port_label "input_") (seq 1 (length (n_inputs n) - 1))
                          /\ obj_values (n_inputs n') = obj_values (obj_delete Q (n_inputs n)))
                   /\ (forall b P l e,
                          output_connections (drawflow s) m b P = Some l -> In e l ->
                          oc_node e <> id ->
                          exists l', output_connections (drawflow s') m b P = Some l'
                                     /\ In e l')) s);
    [|exact (H s' tt (removeNodeInput_Normal _ _ _ _ Hrun))].
  clear s' Hrun.
  unfold remove_input_port. apply wp_bind, wp_gets. cbv zeta. rewrite Hmod. cbn [key_of].
  apply wp_bind. eapply wp_of_eq; [apply (getNodeFromId_found _ _ _ _ Hmod Hn)|].
  apply wp_bind, wp_gets.
  set (active := same_key (module s) (Some m)).
  set (df0 := drawflow s) in *.
  set (removed := slice 6 Q).
  match goal with |- wp (_ ;; ?rest) ?Q s =>
    assert (Hrest : forall s1, drawflow s1 = df0 -> wp rest Q s1)
  end.
  2:{ apply wp_bind, wp_when; intros _.
      - apply wp_bind, wp_gets, wp_bind, wp_defined. intros eles' _.
        apply wp_modify, Hrest. reflexivity.
      - apply Hrest. reflexivity. }
  intros s1 Hs1.
  apply wp_bind, wp_defined. intros removed_port Hport.
  assert (HQ : In Q (obj_keys (n_inputs n))).
  { cbn [clone_node n_inputs] in Hport. exact (obj_get_clone_key _ _ _ _ Hport). }
  apply wp_bind. eapply wp_mono.
  { apply (wp_forEach (fun s0 => disconnect_inv df0 m id Q (n_inputs n) (drawflow s0))).
    - rewrite Hs1. split; [reflexivity|]. split.
      + exists n. auto.
      + intros b P l0 e Hl0 He _. exists l0. auto.
    - intros x s0 _ H0. apply wp_bind.
      eapply wp_mono;
        [apply (removeSingleConnection_keeps df0 m id Q (n_inputs n) Hmod _ _ s0 H0)|].
      intros bres s3 H3. apply wp_ret, H3. }
  intros u s2 (Hk & (n1 & Hn1 & Hkeys & Hget) & Hout).
  assert (Hdel : obj_delete Q (n_inputs n1) = obj_delete Q (n_inputs n))
    by (apply obj_delete_ext; assumption).
  (* delete inputs[input_class] *)
  apply wp_bind, wp_gets, wp_bind, wp_defined. intros n0 Hn0.
  rewrite Hn1 in Hn0. injection Hn0 as <-.
  apply wp_bind. unfold set_drawflow at 1. apply wp_modify.
  apply wp_bind, wp_gets. cbn [drawflow with_drawflow].
  rewrite Hdel.
  set (rest := obj_delete Q (n_inputs n)).
  set (n2 := with_inputs n1 rest).
  set (df2 := set_node (drawflow s2) m id n2).
  assert (Hn2 : node_at df2 m id = Some n2) by apply (node_at_set_node_same _ _ _ _ _ Hn1).
  apply wp_bind, wp_defined. intros n0 Hn0.
  rewrite Hn2 in Hn0. injection Hn0 as <-.
  (* the inputs relabelled by position *)
  apply wp_bind. unfold set_drawflow at 1. apply wp_modify.
  cbn [n_inputs n2 with_inputs].
  rewrite (relabel_labels "input_" (obj_values rest) input_label_no_index).
  set (labelled := combine (map (port_label "input_") (seq 1 (length (obj_values rest))))
                     (obj_values rest)).
  set (n3 := with_inputs n2 labelled).
  set (df3 := set_node df2 m id n3).
  assert (Hn3 : node_at df3 m id = Some n3) by apply (node_at_set_node_same _ _ _ _ _ Hn2).
  assert (Hout3 : forall b P, output_connections df3 m b P
                              = output_connections (drawflow s2) m b P).
  { intros b P. unfold df3, n3. rewrite (output_set_node_inputs _ _ _ _ _ _ _ _ Hn2).
    unfold df2, n2. apply (output_set_node_inputs _ _ _ _ _ _ _ _ Hn1). }
  match goal with |- wp (_ ;; ?rest) ?Q _ =>
    assert (Hloop : forall s4, drawflow s4 = df3 -> wp rest Q s4)
  end.
  2:{ apply wp_bind, wp_when; intros _.
      - apply wp_bind, wp_gets.
        destruct (rename_port_eles true ("node-" ++ id) removed _) as [eles' ended].
        apply wp_bind, wp_modify.
        destruct ended; [apply wp_ret | apply wp_throw | apply wp_outside_model].
        apply Hloop. reflexivity.
      - apply Hloop. reflexivity. }
  (* the peers *)
  intros s4 Hs4 s' a Hrun. split; [exact HQ|]. split.
  - pose proof (peers_loop_inputs m active id removed _ (Some labelled)
                  m id s4 ltac:(rewrite Hs4, Hn3; reflexivity) s' a Hrun) as H.
    cbv beta in H. destruct (node_at (drawflow s') m id) as [n'|]; [|discriminate H].
    exists n'. split; [reflexivity|]. injection H as ->.
    assert (Hlen : length (map (port_label "input_") (seq 1 (length (obj_values rest))))
                   = length (obj_values rest)) by now rewrite length_map, length_seq.
    split.
    + unfold labelled. rewrite (obj_keys_combine _ _ Hlen).
      unfold obj_values. rewrite length_map. unfold rest.
      now rewrite (length_obj_delete _ _ HQ).
    + apply (obj_values_combine _ _ Hlen).
  - intros b P l e Hl He Hne.
    destruct (Hout _ _ _ _ Hl He) as (l2 & Hl2 & He2).
    { apply String.eqb_neq in Hne. now rewrite Hne. }
    refine (peers_loop_keeps m active id removed _ _ _ _ s4
              (renumber_out_other id removed e Hne) _ s' a Hrun).
    exists l2. rewrite Hs4, Hout3. auto.
Qed.


Lemma renumber_in_other id removed e : ic_node e <> id -> renumber_in id removed e = e.
Proof.
  intros H. unfold renumber_in. apply String.eqb_neq in H. now rewrite H.
Qed.

(** X11.  Removing an output port, whatever the number of ports.  Let the
    node [id] of module [m] have the outputs [n_outputs n] (distinct
    labels), and let every connection of the port [P] have its entry in the
    input port of its peer.  When [removeNodeOutput id P] finishes (it
    returns, or its last statement throws), [P] was one of the labels, and
    the node has one output less: the labels are [output_1], [output_2],
    ... with no gap, and the connection lists are those of the ports other
    than [P], in their order.  No entry of an input port that names another
    node is lost. *)
Theorem removeNodeOutput_relabels :
  forall (s : editor) (m id P : string) (n : node),
    getModuleFromNodeId (drawflow s) id = Some m ->
    node_at (drawflow s) m id = Some n ->
    NoDup (obj_keys (n_outputs n)) ->
    (forall c b Q,
        obj_get P (n_outputs n) = Some c -> 0 < count_out b Q c ->
        exists ins, input_connections (drawflow s) m b Q = Some ins
                    /\ count_out b Q c <= count_in id P ins) ->
    forall s',
      finishes (removeNodeOutput id P) s s' ->
      In P (obj_keys (n_outputs n))
      /\ (exists n',
             node_at (drawflow s') m id = Some n'
             /\ obj_keys (n_outputs n')
                = map (port_label "output_") (seq 1 (length (n_outputs n) - 1))
             /\ obj_values (n_outputs n') = obj_values (obj_delete P (n_outputs n)))
      /\ (forall b Q l e,
             input_connections (drawflow s) m b Q = Some l -> In e l -> ic_node e <> id ->
             exists l', input_connections (drawflow s') m b Q = Some l' /\ In e l').
Proof.
  intros s m id P n Hmod Hn Hnd Hmirror s' Hrun.
  assert (H : wp (remove_output_port id P)
                (fun _ s' =>
                   In P (obj_keys (n_outputs n))
                   /\ (exists n',
                          node_at (drawflow s') m id = Some n'
                          /\ obj_keys (n_outputs n')
                             = map (port_label "output_") (seq 1 (length (n_outputs n) - 1))
                          /\ obj_values (n_outputs n') = obj_values (obj_delete P (n_outputs n)))
                   /\ (forall b Q l e,
                          input_connections (drawflow s) m b Q = Some l -> In e l ->
                          ic_node e <> id ->
                          exists l', input_connections (drawflow s') m b Q = Some l'
                                     /\ In e l')) s);
    [|exact (H s' tt (removeNodeOutput_finishes _ _ _ _ Hrun))].
  clear s' Hrun.
  unfold remove_output_port. apply wp_bind, wp_gets. cbv zeta. rewrite Hmod. cbn [key_of].
  apply wp_bind. eapply wp_of_eq; [apply (getNodeFromId_found _ _ _ _ Hmod Hn)|].
  apply wp_bind, wp_gets.
  set (active := same_key (module s) (Some m)).
  set (df0 := drawflow s) in *.
  set (removed := slice 7 P).
  match goal with |- wp (_ ;; ?rest) ?Q s =>
    assert (Hrest : forall s1, drawflow s1 = df0 -> wp rest Q s1)
  end.
  2:{ apply wp_bind, wp_when; intros _.
      - apply wp_bind, wp_gets, wp_bind, wp_defined. intros eles' _.
        apply wp_modify, Hrest. reflexivity.
      - apply Hrest. reflexivity. }
  intros s1 Hs1.
  apply wp_bind, wp_defined. intros removed_port Hport.
  assert (HP : In P (obj_keys (n_outputs n))).
  { cbn [clone_node n_outputs] in Hport. exact (obj_get_clone_key _ _ _ _ Hport). }
  cbn [clone_node n_outputs] in Hport. rewrite obj_get_clone_obj in Hport.
  destruct (obj_get P (n_outputs n)) as [c2|] eqn:Ec2; [|discriminate].
  cbn [option_map] in Hport. injection Hport as <-.
  apply wp_bind. eapply wp_mono.
  { apply (wp_forEach_remaining
             (fun rem s0 => disconnect_out_inv df0 m id P (n_outputs n) rem (drawflow s0))).
    - intros x r s0 H0. apply wp_bind.
      eapply wp_mono;
        [apply (removeSingleConnection_keeps_out df0 m id P (n_outputs n) Hmod _ _ s0 H0)|].
      intros bres s3 H3. apply wp_ret, H3.
    - rewrite Hs1. split; [reflexivity|]. split; [|split].
      + exists n. auto.
      + intros b Q l0 e Hl0 He _. exists l0. auto.
      + intros b Q. rewrite count_out_clone. apply Hmirror. reflexivity. }
  intros u s2 (Hk & (n1 & Hn1 & Hkeys & Hget) & Hinp & _).
  assert (Hdel : obj_delete P (n_outputs n1) = obj_delete P (n_outputs n))
    by (apply obj_delete_ext; assumption).
  (* delete outputs[output_class] *)
  apply wp_bind, wp_gets, wp_bind, wp_defined. intros n0 Hn0.
  rewrite Hn1 in Hn0. injection Hn0 as <-.
  apply wp_bind. unfold set_drawflow at 1. apply wp_modify.
  apply wp_bind, wp_gets. cbn [drawflow with_drawflow].
  rewrite Hdel.
  set (rest := obj_delete P (n_outputs n)).
  set (n2 := with_outputs n1 rest).
  set (df2 := set_node (drawflow s2) m id n2).
  assert (Hn2 : node_at df2 m id = Some n2) by apply (node_at_set_node_same _ _ _ _ _ Hn1).
  apply wp_bind, wp_defined. intros n0 Hn0.
  rewrite Hn2 in Hn0. injection Hn0 as <-.
  (* the outputs relabelled by position *)
  apply wp_bind. unfold set_drawflow at 1. apply wp_modify.
  cbn [n_outputs n2 with_outputs].
  rewrite (relabel_labels "output_" (obj_values rest) output_label_no_index).
  set (labelled := combine (map (port_label "output_") (seq 1 (length (obj_values rest))))
                     (obj_values rest)).
  set (n3 := with_outputs n2 labelled).
  set (df3 := set_node df2 m id n3).
  assert (Hn3 : node_at df3 m id = Some n3) by apply (node_at_set_node_same _ _ _ _ _ Hn2).
  assert (Hinp3 : forall b Q, input_connections df3 m b Q
                              = input_connections (drawflow s2) m b Q).
  { intros b Q. unfold df3, n3. rewrite (input_set_node_outputs _ _ _ _ _ _ _ _ Hn2).
    unfold df2, n2. apply (input_set_node_outputs _ _ _ _ _ _ _ _ Hn1). }
  match goal with |- wp (_ ;; ?rest) ?Q _ =>
    assert (Hloop : forall s4, drawflow s4 = df3 -> wp rest Q s4)
  end.
  2:{ apply wp_bind, wp_when; intros _.
      - apply wp_bind, wp_gets.
        destruct (rename_port_eles false ("node-" ++ id) removed _) as [eles' ended].
        apply wp_bind, wp_modify.
        destruct ended; [apply wp_ret | apply wp_throw | apply wp_outside_model].
        apply Hloop. reflexivity.
      - apply Hloop. reflexivity. }
  (* the peers *)
  intros s4 Hs4 s' a Hrun. split; [exact HP|]. split.
  - pose proof (peers_in_loop_outputs m active id removed _ (Some labelled)
                  m id s4 ltac:(rewrite Hs4, Hn3; reflexivity) s' a Hrun) as H.
    cbv beta in H. destruct (node_at (drawflow s') m id) as [n'|]; [|discriminate H].
    exists n'. split; [reflexivity|]. injection H as ->.
    assert (Hlen : length (map (port_label "output_") (seq 1 (length (obj_values rest))))
                   = length (obj_values rest)) by now rewrite length_map, length_seq.
    split.
    + unfold labelled. rewrite (obj_keys_combine _ _ Hlen).
      unfold obj_values. rewrite length_map. unfold rest.
      now rewrite (length_obj_delete _ _ HP).
    + apply (obj_values_combine _ _ Hlen).
  - intros b Q l e Hl He Hne.
    destruct (Hinp _ _ _ _ Hl He) as (l2 & Hl2 & He2).
    { apply String.eqb_neq in Hne. now rewrite Hne. }
    refine (peers_in_loop_keeps m active id removed _ _ _ _ s4
              (renumber_in_other id removed e Hne) _ s' a Hrun).
    exists l2. rewrite Hs4, Hinp3. auto.
Qed.


Lemma removeNodeInput_relabels_witness :
  exists n',
    node_at (drawflow input_1_removed) "Home" "1" = Some n'
    /\ obj_keys (n_inputs n') = ["input_1"; "input_2"]
    /\ obj_values (n_inputs n')
       = [[{| ic_node := "2"; ic_input := "output_2"; ic_points := None |}];
          [{| ic_node := "2"; ic_input := "output_1"; ic_points := None |};
           {| ic_node := "3"; ic_input := "output_1"; ic_points := None |}]].
Proof.
  assert (Hnd : NoDup ["input_1"; "input_2"; "input_3"]).
  { repeat constructor; cbn; intuition discriminate. }
  assert (Hrun : removeNodeInput "1" "input_1" renumbering_example = Normal input_1_removed tt).
  { vm_compute. reflexivity. }
  destruct (removeNodeInput_relabels renumbering_example "Home" "1" "input_1" _
              eq_refl eq_refl Hnd input_1_removed Hrun) as (_ & (n' & Hn' & Hk & Hv) & _).
  exists n'. split; [exact Hn'|]. split; [exact Hk | exact Hv].
Defined.

Lemma removeNodeOutput_relabels_witness :
  (removeNodeOutput "2" "output_1" renumbering_example = Throw output_1_removed ReferenceError
   /\ exists n',
        node_at (drawflow output_1_removed) "Home" "2" = Some n'
        /\ obj_keys (n_outputs n') = ["output_1"; "output_2"]
        /\ obj_values (n_outputs n')
           = [[{| oc_node := "1"; oc_output := "input_2"; oc_points := None |};
               {| oc_node := "3"; oc_output := "input_1"; oc_points := None |}];
              [{| oc_node := "3"; oc_output := "input_1"; oc_points := None |};
               {| oc_node := "1"; oc_output := "input_1"; oc_points := None |}]])
  /\ exists s' n',
       removeNodeOutput "2" "output_1" renumbering_inactive_example = Normal s' tt
       /\ node_at (drawflow s') "Other" "2" = Some n'
       /\ obj_keys (n_outputs n') = ["output_1"; "output_2"].
Proof.
  assert (Hnd : NoDup ["output_1"; "output_2"; "output_3"]).
  { repeat constructor; cbn; intuition discriminate. }
  split.
  - assert (Hrun : removeNodeOutput "2" "output_1" renumbering_example
                   = Throw output_1_removed ReferenceError).
    { vm_compute. reflexivity. }
    split; [exact Hrun|].
    destruct (removeNodeOutput_relabels renumbering_example "Home" "2" "output_1" _
                eq_refl eq_refl Hnd) with (s' := output_1_removed)
      as (_ & (n' & Hn' & Hk & Hv) & _).
    + intros c b Q [= <-]. apply mirror_entries_check. vm_compute. reflexivity.
    + right. exact Hrun.
    + exists n'. split; [exact Hn'|]. split; [exact Hk | exact Hv].
  - set (s' := state_after (removeNodeOutput "2" "output_1" renumbering_inactive_example)).
    assert (Hrun : removeNodeOutput "2" "output_1" renumbering_inactive_example
                   = Normal s' tt).
    { vm_compute. reflexivity. }
    destruct (removeNodeOutput_relabels renumbering_inactive_example "Other" "2" "output_1" _
                eq_refl eq_refl Hnd) with (s' := s')
      as (_ & (n' & Hn' & Hk & _) & _).
    + intros c b Q [= <-]. apply mirror_entries_check. vm_compute. reflexivity.
    + left. exists tt. exact Hrun.
    + exists s', n'. split; [exact Hrun|]. split; [exact Hn' | exact Hk].
Defined.


(** ** Numerals: what [parseInt] reads of a number written out *)

Lemma digits_prefix_acc (d : Decimal.uint) (acc : positive) :
  digits_prefix 10 (Some (Z.pos acc)) (NilEmpty.string_of_uint d)
  = Some (Z.pos (Pos.of_uint_acc d acc)).
Proof.
  revert acc. induction d; intros acc; cbn [NilEmpty.string_of_uint Pos.of_uint_acc];
    [reflexivity|..];
    cbn [digits_prefix]; 
    match goal with
    | |- context [hex_value ?c] =>
        let v := eval vm_compute in (hex_value c) in change (hex_value c) with v
    end; cbv iota beta;
    match goal with
    | |- context [Z.ltb ?a 10] => change (Z.ltb a 10) with true
    end; cbv iota beta;
    match goal with
    | |- digits_prefix 10 (Some ?z) _ = Some (Z.pos (Pos.of_uint_acc _ ?p)) =>
        replace z with (Z.pos p) by lia
    end; apply IHd.
Qed.

Lemma digits_prefix_zero (d : Decimal.uint) :
  digits_prefix 10 (Some 0%Z) (NilEmpty.string_of_uint d) = Some (Z.of_N (Pos.of_uint d)).
Proof.
  induction d; cbn [NilEmpty.string_of_uint Pos.of_uint]; [reflexivity|..];
    cbn [digits_prefix];
    match goal with
    | |- context [hex_value ?c] =>
        let v := eval vm_compute in (hex_value c) in change (hex_value c) with v
    end; cbv iota beta;
    match goal with
    | |- context [Z.ltb ?a 10] => change (Z.ltb a 10) with true
    end; cbv iota beta;
    [exact IHd | apply (digits_prefix_acc d _)..].
Qed.

Lemma digits_prefix_none (d : Decimal.uint) :
  d <> Decimal.Nil ->
  digits_prefix 10 None (NilEmpty.string_of_uint d) = Some (Z.of_N (Pos.of_uint d)).
Proof.
  intros Hd. destruct d; [congruence|..]; cbn [NilEmpty.string_of_uint Pos.of_uint];
    cbn [digits_prefix];
    match goal with
    | |- context [hex_value ?c] =>
        let v := eval vm_compute in (hex_value c) in change (hex_value c) with v
    end; cbv iota beta;
    match goal with
    | |- context [Z.ltb ?a 10] => change (Z.ltb a 10) with true
    end; cbv iota beta;
    [apply digits_prefix_zero | apply (digits_prefix_acc d _)..].
Qed.

Lemma parseInt_uint (d : Decimal.uint) :
  d <> Decimal.Nil ->
  parseInt (NilEmpty.string_of_uint d) = Some (Z.of_N (Pos.of_uint d)).
Proof.
  intros Hd. pose proof (digits_prefix_none d Hd) as H.
  unfold parseInt.
  destruct d as [|d|d|d|d|d|d|d|d|d|d]; [congruence|..];
    cbn [NilEmpty.string_of_uint] in *;
    cbn [skip_white_space];
    match goal with
    | |- context [is_white_space ?c] => change (is_white_space c) with false
    end; cbv iota beta.
  2-10: (rewrite H; f_equal; apply Z.mul_1_l).
  destruct d; cbn [NilEmpty.string_of_uint] in *; cbv iota beta;
    rewrite H; f_equal; apply Z.mul_1_l.
Qed.

Lemma parseInt_string_of_N n : parseInt (string_of_N n) = Some (Z.of_N n).
Proof.
  unfold string_of_N.
  assert (E : NilZero.string_of_uint (N.to_uint n) = NilEmpty.string_of_uint (N.to_uint n)).
  { pose proof (to_uint_nonnil n). unfold NilZero.string_of_uint.
    destruct (N.to_uint n); [congruence | reflexivity..]. }
  rewrite E, parseInt_uint by apply to_uint_nonnil.
  change (Pos.of_uint (N.to_uint n)) with (N.of_uint (N.to_uint n)).
  now rewrite DecimalN.Unsigned.of_to.
Qed.


(** ** The counter after [load] *)

Lemma scan_ids_module (data : obj node) : forall number : Z,
  let r := fold_left
             (fun number (kv : string * node) =>
                if js_ge (parseInt (fst kv)) (Some number)
                then match parseInt (fst kv) with Some i => (i + 1)%Z | None => number end
                else number) data number in
  (number <= r)%Z
  /\ forall k i, In k (obj_keys data) -> parseInt k = Some i -> (i < r)%Z.
Proof.
  induction data as [|[k0 n0] data IH]; intros number; cbn [fold_left obj_keys map fst].
  - split; [lia | intros ? ? []].
  - match goal with |- context [fold_left _ data ?acc] => set (a := acc) end.
    destruct (IH a) as [Hle Hlt]. cbv zeta in *.
    assert (Ha : (number <= a)%Z /\ forall i, parseInt k0 = Some i -> (i < a)%Z).
    { unfold a. destruct (parseInt k0) as [i|]; cbn [js_ge].
      - destruct (Z.leb_spec number i); split; try lia; intros j [= <-]; lia.
      - split; [lia | discriminate]. }
    destruct Ha as [Ha1 Ha2]. split; [lia|].
    intros k i [<-|Hin] Hp; [specialize (Ha2 i Hp); lia | eauto].
Qed.

Lemma scan_ids (df : store) : forall number : Z,
  let r := fold_left
             (fun number (m : string * obj node) =>
                fold_left
                  (fun number (kv : string * node) =>
                     if js_ge (parseInt (fst kv)) (Some number)
                     then match parseInt (fst kv) with Some i => (i + 1)%Z | None => number end
                     else number) (snd m) number) df number in
  (number <= r)%Z
  /\ forall m nodes k i,
       In (m, nodes) df -> In k (obj_keys nodes) -> parseInt k = Some i -> (i < r)%Z.
Proof.
  induction df as [|[m0 d0] df IH]; intros number; cbn [fold_left snd].
  - split; [lia | intros ? ? ? ? []].
  - match goal with |- context [fold_left _ df ?acc] => set (a := acc) end.
    destruct (IH a) as [Hle Hlt]. cbv zeta in *.
    destruct (scan_ids_module d0 number) as [Ha1 Ha2]. cbv zeta in *. fold a in Ha1, Ha2.
    split; [lia|].
    intros m nodes k i [[= <- <-]|Hin] Hk Hp; [specialize (Ha2 k i Hk Hp); lia | eauto].
Qed.

Lemma next_node_id_above (df : store) :
  (1 <= next_node_id df)%Z
  /\ forall m nodes k i,
       In (m, nodes) df -> In k (obj_keys nodes) -> parseInt k = Some i ->
       (i < next_node_id df)%Z.
Proof. exact (scan_ids df 1%Z). Qed.

Lemma load_counter s s' :
  load s = Normal s' tt ->
  drawflow s' = drawflow s /\ module s' = module s
  /\ nodeId s' = Z.to_N (next_node_id (drawflow s))
  /\ obj_get (module s) (drawflow s) <> None.
Proof.
  intros H.
  assert (Hf : final_state (load s) = Some s') by now rewrite H.
  split; [exact (keeps_load drawflow (fun _ _ => eq_refl) (fun _ _ => eq_refl)
                   (fun _ _ => eq_refl) s s' Hf)|].
  split; [exact (keeps_load module (fun _ _ => eq_refl) (fun _ _ => eq_refl)
                   (fun _ _ => eq_refl) s s' Hf)|].
  assert (W : wp load (fun _ s1 => nodeId s1 = Z.to_N (next_node_id (drawflow s))
                                   /\ obj_get (module s) (drawflow s) <> None) s);
    [|exact (W s' tt H)].
  unfold load. apply wp_bind, wp_gets, wp_bind, wp_gets, wp_bind, wp_defined.
  intros nodes Hn. apply wp_bind. intros s1 [] _. apply wp_bind. intros s2 [] _.
  destruct (exact_ids (drawflow s)); [|apply wp_outside_model].
  apply wp_modify. cbn [nodeId with_nodeId]. split; [reflexivity | congruence].
Qed.

Lemma node_at_obj_set_other df m k json nodes m' id :
  obj_get m df = Some nodes ->
  (m' <> m \/ id <> k) ->
  node_at (obj_set m (obj_set k json nodes) df) m' id = node_at df m' id.
Proof.
  intros Hm Hne. unfold node_at.
  destruct (String.eqb_spec m' m) as [->|Hmm].
  - rewrite obj_get_set_eq, Hm. destruct Hne as [Hne|Hne]; [congruence|].
    now apply obj_get_set_neq.
  - now rewrite obj_get_set_neq.
Qed.

(** [addNode] of a node with no class and an empty payload, whose content
    is its [html]: the rendering has nothing to do. *)
Lemma addNode_plain name num_in num_out ele_pos_x ele_pos_y html :
  addNode name num_in num_out ele_pos_x ele_pos_y (JStr "") (JObj []) html (JBool false)
  = (newNodeId <- gets nodeId ;;
     modify (fun s =>
               with_node_eles s
                 (node_eles s ++
                    [{| ele_id := "node-" ++ string_of_N newNodeId;
                        ele_inputs := port_eles "input" "input_" num_in;
                        ele_outputs := port_eles "output" "output_" num_out |}])) ;;
     let json :=
       {| n_id := IdNum newNodeId; n_name := name; n_data := JObj [];
          n_class := JStr ""; n_html := html; n_typenode := JBool false;
          n_inputs := empty_ports "input_" num_in;
          n_outputs := empty_ports "output_" num_out;
          n_pos_x := ele_pos_x; n_pos_y := ele_pos_y |} in
     df <- gets drawflow ;;
     m <- gets module ;;
     nodes <- defined (obj_get m df) ;;
     set_drawflow (obj_set m (obj_set (string_of_N newNodeId) json nodes) df) ;;
     dispatch (nodeCreated newNodeId) ;;
     modify (fun s => with_nodeId s (nodeId s + 1)) ;;
     ret newNodeId).
Proof. reflexivity. Qed.

(** X12.  The counter after an import.  When [import] returns (which,
    with a connection in the active module, it does not: see X22), the ids
    being integers that a double holds exactly, the store is the copy of
    the data and the counter [nodeId] is above every node id that
    [parseInt] reads as a number, in all modules; so the id of the next
    [addNode] is new in every module.  The [addNode] that follows (of a node with no class and an
    empty payload, for which the rendering has nothing to do) returns that
    id, stores the node under it in the active module and leaves every
    imported node as it is. *)
Theorem import_then_addNode :
  forall (data : store) (notifi : bool) (s s1 : editor),
    import data notifi s = Normal s1 tt ->
    drawflow s1 = clone_store data
    /\ (forall m nodes k i,
           In (m, nodes) (drawflow s1) -> In k (obj_keys nodes) -> parseInt k = Some i ->
           (i < Z.of_N (nodeId s1))%Z)
    /\ (forall m nodes,
           In (m, nodes) (drawflow s1) -> obj_get (string_of_N (nodeId s1)) nodes = None)
    /\ forall name num_in num_out ele_pos_x ele_pos_y html,
         exists s2 json,
           addNode name num_in num_out ele_pos_x ele_pos_y (JStr "") (JObj []) html
             (JBool false) s1 = Normal s2 (nodeId s1)
           /\ node_at (drawflow s2) (module s1) (string_of_N (nodeId s1)) = Some json
           /\ n_id json = IdNum (nodeId s1)
           /\ forall m id n,
                node_at (drawflow s1) m id = Some n -> node_at (drawflow s2) m id = Some n.
Proof.
  intros data notifi s s1 Hrun.
  rewrite import_unfold in Hrun.
  match type of Hrun with bind _ _ ?s0 = _ => set (s0' := s0) in Hrun end.
  unfold bind in Hrun. destruct (load s0') as [s' []| |] eqn:Hl; try discriminate.
  destruct (load_counter _ _ Hl) as (Hd & Hm & Hn & Hmod).
  assert (Hs1 : drawflow s1 = drawflow s' /\ module s1 = module s' /\ nodeId s1 = nodeId s').
  { destruct notifi; cbn [when] in Hrun; unfold dispatch, modify, ret in Hrun;
      injection Hrun as <-; auto. }
  destruct Hs1 as (Hd1 & Hm1 & Hn1).
  assert (Hdf : drawflow s1 = clone_store data) by (rewrite Hd1, Hd; reflexivity).
  destruct (next_node_id_above (drawflow s1)) as [Hpos Habove].
  assert (Hid : Z.of_N (nodeId s1) = next_node_id (drawflow s1)).
  { rewrite Hn1, Hn, Hd1, Hd, Z2N.id; [reflexivity|]. rewrite <- Hd, <- Hd1. lia. }
  assert (Hfresh : forall m nodes,
             In (m, nodes) (drawflow s1) -> obj_get (string_of_N (nodeId s1)) nodes = None).
  { intros m nodes Hin. apply obj_get_not_key. intros Hk.
    pose proof (Habove m nodes _ _ Hin Hk (parseInt_string_of_N (nodeId s1))). lia. }
  split; [exact Hdf|]. split; [intros m nodes k i; rewrite Hid; apply Habove|].
  split; [exact Hfresh|].
  intros name num_in num_out x y html.
  assert (Hact : exists nodes, obj_get (module s1) (drawflow s1) = Some nodes).
  { destruct (obj_get (module s0') (drawflow s0')) as [nodes|] eqn:E; [|congruence].
    exists nodes. rewrite Hd1, Hm1, Hd, Hm. exact E. }
  destruct Hact as (nodes & Hnodes).
  rewrite addNode_plain. unfold bind, gets, modify, dispatch, set_drawflow, ret.
  cbn [drawflow module nodeId with_node_eles with_drawflow with_dispatched with_nodeId].
  rewrite Hnodes. cbn [defined ret].
  cbn [drawflow module nodeId with_node_eles with_drawflow with_dispatched with_nodeId].
  eexists. eexists. split; [reflexivity|].
  cbn [drawflow module nodeId with_node_eles with_drawflow with_dispatched with_nodeId].
  split; [unfold node_at; rewrite obj_get_set_eq; apply obj_get_set_eq|].
  split; [reflexivity|].
  intros m id n Hat. rewrite node_at_obj_set_other; [exact Hat | exact Hnodes |].
  destruct (String.eqb_spec id (string_of_N (nodeId s1))) as [->|Hne]; [|now right].
  exfalso. unfold node_at in Hat.
  destruct (obj_get m (drawflow s1)) as [d|] eqn:Ed; [|discriminate].
  rewrite (Hfresh m d (obj_get_In _ _ _ _ Ed)) in Hat. discriminate.
Qed.

Lemma import_then_addNode_witness :
  exists s1,
    import (drawflow inactive_module_example) true single_node_example = Normal s1 tt
    /\ nodeId s1 = 4%N
    /\ forall m nodes,
         In (m, nodes) (drawflow s1) -> obj_get (string_of_N (nodeId s1)) nodes = None.
Proof.
  eexists. split; [vm_compute; reflexivity|]. split; [reflexivity|].
  refine (proj1 (proj2 (proj2 (import_then_addNode (drawflow inactive_module_example) true
                                 single_node_example _ _)))).
  vm_compute. reflexivity.
Defined.


(** ** Adding a port *)
















(** ** Removing the selected connection *)

Lemma count_out_findIndex b Q l :
  0 < count_out b Q l ->
  exists j, findIndex (fun c => (oc_node c =? b) && (oc_output c =? Q)) l = Some j.
Proof.
  unfold count_out. induction l as [|x r IH]; simpl; [lia|].
  destruct ((oc_node x =? b) && (oc_output x =? Q)) eqn:E; simpl.
  - intros _. exists 0. auto.
  - intros H. destruct (IH H) as (j & Hj). exists (S j). now rewrite Hj.
Qed.




(** ** The payload of a node *)

(** X17.  [updateNodeDataFromId(id, data)] writes the store before it
    touches the view.  For an id that no module holds it throws a
    [TypeError] and changes nothing.  For a node of a module that is not
    the active one it returns, whatever [data] is.  For a node of the
    active module and [data] that is [null] or [undefined] it throws a
    [TypeError], and the payload is replaced all the same; for [data] with
    no entry it returns.  Where the store is written, the payload of that
    node becomes [data], and nothing else changes: the other fields of
    the node, the other nodes, the view; no event is dispatched. *)
Theorem updateNodeDataFromId_writes :
  forall (s : editor) (id : string) (data : jsval),
    (getModuleFromNodeId (drawflow s) id = None ->
     updateNodeDataFromId id data s = Throw s TypeError)
    /\ (forall m n,
           getModuleFromNodeId (drawflow s) id = Some m ->
           node_at (drawflow s) m id = Some n ->
           let s1 := with_drawflow s (set_node (drawflow s) m id (with_data n data)) in
           node_at (drawflow s1) m id = Some (with_data n data)
           /\ (forall m' id', m' <> m \/ id' <> id ->
                              node_at (drawflow s1) m' id' = node_at (drawflow s) m' id')
           /\ (module s <> m -> updateNodeDataFromId id data s = Normal s1 tt)
           /\ (module s = m -> has_entries data = None ->
               updateNodeDataFromId id data s = Throw s1 TypeError)
           /\ (module s = m -> has_entries data = Some false ->
               updateNodeDataFromId id data s = Normal s1 tt)).
Proof.
  intros s id data. split.
  - intros Hm. unfold updateNodeDataFromId, bind, gets. rewrite Hm. cbn [key_of].
    assert (Hu : node_at (drawflow s) "undefined" id = None).
    { unfold node_at. destruct (obj_get "undefined" (drawflow s)) as [d|] eqn:E; [|reflexivity].
      exact (getModuleFromNodeId_None _ _ Hm _ _ (obj_get_In _ _ _ _ E)). }
    rewrite Hu. reflexivity.
  - intros m n Hm Hn s1.
    split; [apply (node_at_set_node_same _ _ _ _ _ Hn)|].
    split; [intros m' id' Hne; apply (node_at_set_node_other _ _ _ _ _ Hn _ _ Hne)|].
    assert (Hrun : updateNodeDataFromId id data s
                   = when (module s =? m)
                       (match has_entries data with
                        | None => throw TypeError
                        | Some false => ret tt
                        | Some true => outside_model
                        end) s1).
    { unfold updateNodeDataFromId, bind, gets. rewrite Hm. cbn [key_of same_key].
      rewrite Hn. cbn [defined ret]. unfold set_drawflow, modify.
      cbn [module with_drawflow]. reflexivity. }
    rewrite Hrun. split; [|split].
    + intros Hne. apply String.eqb_neq in Hne. now rewrite Hne.
    + intros He Hd. apply String.eqb_eq in He. now rewrite He, Hd.
    + intros He Hd. apply String.eqb_eq in He. now rewrite He, Hd.
Qed.

(** ** Clearing *)

(** X18.  [clear()] empties the store down to an empty "Home" and leaves
    the active module as it is.  So after [clear()] in a module other than
    "Home", [addNode] (here of a node with no class and an empty payload)
    throws a [TypeError]: the element of the node is in the view by then,
    no record is stored, the counter stays and no event is dispatched.
    After [clearModuleSelected()], which makes the active module anew,
    [addNode] returns and stores the node there. *)
Theorem clear_then_addNode :
  forall (s : editor) name num_in num_out ele_pos_x ele_pos_y html,
    module s <> "Home" ->
    let add := addNode name num_in num_out ele_pos_x ele_pos_y (JStr "") (JObj []) html
                 (JBool false) in
    (exists s1,
        (clear ;; add) s = Throw s1 TypeError
        /\ drawflow s1 = [("Home", [])]
        /\ map ele_id (node_eles s1) = [("node-" ++ string_of_N (nodeId s))%string]
        /\ nodeId s1 = nodeId s
        /\ dispatched s1 = dispatched s)
    /\ (exists s2 json,
           (clear ;; clearModuleSelected ;; add) s = Normal s2 (nodeId s)
           /\ node_at (drawflow s2) (module s) (string_of_N (nodeId s)) = Some json
           /\ n_id json = IdNum (nodeId s)
           /\ nodeId s2 = (nodeId s + 1)%N
           /\ dispatched s2 = dispatched s ++ [nodeCreated (nodeId s)]).
Proof.
  intros s name num_in num_out x y html Hm add.
  assert (Hb : ("Home" =? module s) = false) by (apply String.eqb_neq; congruence).
  split.
  - unfold add. rewrite addNode_plain. unfold clear, clear_view, bind, gets, set_drawflow, modify.
    cbn [drawflow module nodeId node_eles with_drawflow with_node_eles
           with_connection_eles obj_get].
    rewrite Hb. cbn [defined throw].
    eexists. split; [reflexivity|].
    cbn [drawflow module nodeId node_eles dispatched with_drawflow with_node_eles
           with_connection_eles app map ele_id].
    auto.
  - unfold add. rewrite addNode_plain. unfold clear, clearModuleSelected, clear_view, bind, gets,
      set_drawflow, dispatch, modify, ret.
    cbn [drawflow module nodeId node_eles with_drawflow with_node_eles
           with_connection_eles].
    rewrite obj_get_set_eq. cbn [defined ret].
    cbn [drawflow module nodeId node_eles dispatched with_drawflow with_node_eles
           with_connection_eles with_dispatched with_nodeId].
    eexists. eexists. split; [reflexivity|].
    cbn [drawflow module nodeId node_eles dispatched with_drawflow with_node_eles
           with_connection_eles with_dispatched with_nodeId].
    split; [unfold node_at; rewrite obj_get_set_eq; apply obj_get_set_eq|].
    split; [reflexivity|]. auto.
Qed.

Lemma clear_then_addNode_witness :
  exists s1,
    (clear ;; add_plain_node 1 1) other_module_example = Throw s1 TypeError
    /\ drawflow s1 = [("Home", [])]
    /\ map ele_id (node_eles s1) = ["node-2"].
Proof.
  destruct (clear_then_addNode other_module_example (JStr "node") 1 1 (JNum 0) (JNum 0)
              (JStr "")) as [(s1 & Hr & Hd & He & _) _].
  - discriminate.
  - exists s1. split; [exact Hr|]. split; [exact Hd | exact He].
Defined.


(** ** Ids that are numbers *)

Lemma getModuleFromNodeId_holder df m data id :
  In (m, data) df -> obj_get id data <> None -> getModuleFromNodeId df id <> None.
Proof.
  intros Hin Hd Hnone. apply Hd. exact (getModuleFromNodeId_None _ _ Hnone _ _ Hin).
Qed.

(** X19.  The id [addNode] returns is a number, and [getNodeFromId] finds
    no node for a number: handed the id as returned, it throws a
    [TypeError] (the store having no module of the name [undefined]).
    Handed the id written out as a string, it returns the copy of the node
    just added, whose field [id] is the number -- the counter being new, as
    it is after [import] and in a new editor.  (The node added has no class
    and an empty payload.) *)
Theorem addNode_returns_a_number :
  forall (s s' : editor) (id : N) name num_in num_out ele_pos_x ele_pos_y html,
    NoDup (obj_keys (drawflow s)) ->
    obj_get "undefined" (drawflow s) = None ->
    (forall m nodes, In (m, nodes) (drawflow s) ->
                     obj_get (string_of_N (nodeId s)) nodes = None) ->
    addNode name num_in num_out ele_pos_x ele_pos_y (JStr "") (JObj []) html (JBool false) s
    = Normal s' id ->
    AnyId.getNodeFromId (IdNum id) s' = Throw s' TypeError
    /\ exists n,
         AnyId.getNodeFromId (IdStr (string_of_N id)) s' = Normal s' (clone_node n)
         /\ getNodeFromId (string_of_N id) s' = Normal s' (clone_node n)
         /\ n_id n = IdNum id /\ n_name n = name.
Proof.
  intros s s' id name num_in num_out x y html Hnd Hu Hfresh Hrun.
  rewrite addNode_plain in Hrun. unfold bind, gets, modify, set_drawflow, dispatch, ret in Hrun.
  cbn [drawflow module nodeId with_node_eles] in Hrun.
  destruct (obj_get (module s) (drawflow s)) as [nodes|] eqn:Hm; [|discriminate].
  cbn [defined ret] in Hrun. injection Hrun as <- <-.
  cbn [drawflow module nodeId with_node_eles with_drawflow with_dispatched with_nodeId].
  set (k := string_of_N (nodeId s)).
  set (json := {| n_id := IdNum (nodeId s); n_name := name; n_data := JObj [];
                  n_class := JStr ""; n_html := html; n_typenode := JBool false;
                  n_inputs := empty_ports "input_" num_in;
                  n_outputs := empty_ports "output_" num_out;
                  n_pos_x := x; n_pos_y := y |}).
  set (df' := obj_set (module s) (obj_set k json nodes) (drawflow s)).
  match goal with |- AnyId.getNodeFromId _ ?st = _ /\ _ => set (s1 := st) end.
  assert (Hd1 : drawflow s1 = df') by reflexivity.
  assert (Hne : "undefined" <> module s) by (intros E; rewrite <- E in Hm; congruence).
  assert (Hu' : obj_get "undefined" df' = None).
  { unfold df'. now rewrite obj_get_set_neq. }
  split.
  - unfold AnyId.getNodeFromId, bind, gets. cbn [AnyId.getModuleFromNodeId key_of].
    rewrite Hd1, Hu'. reflexivity.
  - exists json.
    assert (Hat : node_at df' (module s) k = Some json).
    { unfold node_at, df'. rewrite obj_get_set_eq. apply obj_get_set_eq. }
    assert (Hmod : getModuleFromNodeId df' k = Some (module s)).
    { destruct (getModuleFromNodeId df' k) as [m|] eqn:E.
      - f_equal. destruct (String.eqb_spec m (module s)) as [->|Hmm]; [reflexivity|].
        exfalso.
        apply getModuleFromNodeId_last in E as (df1 & d & df2 & Hdf & Hd & _).
        assert (Hin : In (m, d) df') by (rewrite Hdf; apply in_or_app; right; now left).
        assert (Hget : obj_get m df' = Some d).
        { apply obj_get_NoDup_In; [|exact Hin].
          unfold df'. rewrite obj_keys_set by congruence. exact Hnd. }
        unfold df' in Hget. rewrite obj_get_set_neq in Hget by exact Hmm.
        apply Hd. apply (Hfresh m d). exact (obj_get_In _ _ _ _ Hget).
      - exfalso. unfold node_at in Hat.
        destruct (obj_get (module s) df') as [d|] eqn:Ed; [|discriminate].
        rewrite (getModuleFromNodeId_None _ _ E _ _ (obj_get_In _ _ _ _ Ed)) in Hat.
        discriminate. }
    assert (Hget : getNodeFromId k s1 = Normal s1 (clone_node json)).
    { apply (getNodeFromId_found s1 k (module s) json); rewrite Hd1; assumption. }
    split; [|split; [exact Hget | auto]].
    unfold AnyId.getNodeFromId. cbn [AnyId.getModuleFromNodeId id_string]. exact Hget.
Qed.

Lemma addNode_returns_a_number_witness :
  exists s',
    add_plain_node 1 1 new_editor = Normal s' 1%N
    /\ AnyId.getNodeFromId (IdNum 1) s' = Throw s' TypeError
    /\ exists n, getNodeFromId "1" s' = Normal s' (clone_node n) /\ n_id n = IdNum 1.
Proof.
  eexists. split; [vm_compute; reflexivity|].
  match goal with |- AnyId.getNodeFromId _ ?st = _ /\ _ => set (s' := st) end.
  destruct (addNode_returns_a_number new_editor s' 1 (JStr "node") 1 1 (JNum 0) (JNum 0)
              (JStr "")) as (H1 & n & _ & H2 & H3 & _).
  - repeat constructor. cbn. tauto.
  - reflexivity.
  - intros m nodes [[= <- <-]|[]]. reflexivity.
  - vm_compute. reflexivity.
  - split; [exact H1|]. exists n. split; [exact H2 | exact H3].
Defined.


(** ** The view and the store together *)

Lemma unplug_output_first df m a P b Q outs ins j k :
  output_connections df m a P = Some outs ->
  findIndex (fun item => (oc_node item =? b) && (oc_output item =? Q)) outs = Some j ->
  input_connections df m b Q = Some ins ->
  findIndex (fun item => (ic_node item =? a) && (ic_input item =? P)) ins = Some k ->
  unplugged df m a P b Q
    (set_input_connections (set_output_connections df m a P (remove_nth j outs))
       m b Q (remove_nth k ins)).
Proof.
  intros Ho Hj Hi Hk.
  set (df1 := set_output_connections df m a P (remove_nth j outs)).
  assert (Hi1 : input_connections df1 m b Q = Some ins).
  { unfold df1. now rewrite (input_set_output _ _ _ _ _ _ Ho). }
  split; [|split].
  - rewrite (store_keys_set_input _ _ _ _ _ _ Hi1). unfold df1.
    apply (store_keys_set_output _ _ _ _ _ _ Ho).
  - intros m' x P' y Q'.
    rewrite (out_count_set_input _ _ _ _ _ _ _ _ _ _ _ Hi1). unfold df1.
    rewrite (out_count_set_output _ _ _ _ _ _ _ _ _ _ _ Ho). unfold one_less.
    pose proof (count_out_remove_found _ _ _ _ Hj y Q') as Hrem.
    destruct (String.eqb_spec m' m) as [->|Hm]; cbn [andb]; [|lia].
    destruct (String.eqb_spec x a) as [->|Hx]; cbn [andb]; [|lia].
    destruct (String.eqb_spec P' P) as [->|HP]; cbn [andb]; [|lia].
    unfold out_count at 1. rewrite Ho.
    rewrite (String.eqb_sym y b), (String.eqb_sym Q' Q). exact Hrem.
  - intros m' x P' y Q'.
    rewrite (in_count_set_input _ _ _ _ _ _ _ _ _ _ _ Hi1). unfold df1.
    rewrite (in_count_set_output _ _ _ _ _ _ _ _ _ _ _ Ho). unfold one_less.
    pose proof (count_in_remove_found _ _ _ _ Hk x P') as Hrem.
    destruct (String.eqb_spec m' m) as [->|Hm]; cbn [andb];
      [|rewrite ?andb_false_r; cbn [andb]; lia].
    destruct (String.eqb_spec y b) as [->|Hy]; cbn [andb];
      [|rewrite ?andb_false_r; cbn [andb]; lia].
    destruct (String.eqb_spec Q' Q) as [->|HQ]; cbn [andb];
      [|rewrite ?andb_false_r; cbn [andb]; lia].
    unfold in_count at 1. rewrite Hi. rewrite !andb_true_r.
    rewrite (String.eqb_sym x a), (String.eqb_sym P' P). exact Hrem.
Qed.


Lemma unplugged_Balanced df m a P b Q df' :
  unplugged df m a P b Q df' -> Balanced df -> Balanced df'.
Proof.
  intros (_ & Ho & Hi) HB m' x P' y Q'.
  specialize (Ho m' x P' y Q'). specialize (Hi m' x P' y Q'). specialize (HB m' x P' y Q').
  lia.
Qed.



Lemma same_classes_eq x y : same_classes x y = true <-> x = y.
Proof. unfold same_classes. destruct (list_eq_dec string_dec x y); split; congruence. Qed.

Lemma connection_ele_inj a P b Q a' P' b' Q' :
  connection_ele a P b Q = connection_ele a' P' b' Q' -> a = a' /\ P = P' /\ b = b' /\ Q = Q'.
Proof.
  unfold connection_ele. intros [= -> -> -> ->]. auto.
Qed.

Lemma same_classes_connection_ele a P b Q a' P' b' Q' :
  same_classes (connection_ele a' P' b' Q') (connection_ele a P b Q)
  = (a' =? a) && (P' =? P) && (b' =? b) && (Q' =? Q).
Proof.
  destruct (same_classes _ _) eqn:E.
  - apply same_classes_eq, connection_ele_inj in E as (-> & -> & -> & ->).
    now rewrite !String.eqb_refl.
  - symmetry. apply not_true_iff_false. intros H.
    apply andb_prop in H as [H HQ]. apply andb_prop in H as [H Hb].
    apply andb_prop in H as [Ha HP]. apply String.eqb_eq in Ha, HP, Hb, HQ. subst.
    assert (T : same_classes (connection_ele a P b Q) (connection_ele a P b Q) = true)
      by now apply same_classes_eq.
    congruence.
Qed.

Lemma elem_count_app a P b Q l l' :
  elem_count a P b Q (l ++ l') = elem_count a P b Q l + elem_count a P b Q l'.
Proof. unfold elem_count. now rewrite filter_app, length_app. Qed.








Lemma elem_count_pos a P b Q l : In (connection_ele a P b Q) l -> 0 < elem_count a P b Q l.
Proof.
  intros H. unfold elem_count.
  assert (Hin : In (connection_ele a P b Q)
                  (filter (same_classes (connection_ele a P b Q)) l)).
  { apply filter_In. split; [exact H | now apply same_classes_eq]. }
  destruct (filter _ l); [destruct Hin | cbn; lia].
Qed.

Lemma elem_count_zero a P b Q l :
  ~ In (connection_ele a P b Q) l -> elem_count a P b Q l = 0.
Proof.
  intros H. unfold elem_count.
  destruct (filter (same_classes (connection_ele a P b Q)) l) as [|c r] eqn:E; [reflexivity|].
  exfalso. assert (Hin : In c (filter (same_classes (connection_ele a P b Q)) l))
    by (rewrite E; now left).
  apply filter_In in Hin as [Hin Hc]. apply same_classes_eq in Hc. subst c. exact (H Hin).
Qed.


Section DetachLoop.
Variables (m : string) (N0 : list node_ele) (K0 : list (string * list string)).
Variables (sel : list string) (input_first : bool).



End DetachLoop.



Lemma elem_count_In a P b Q l : 0 < elem_count a P b Q l -> In (connection_ele a P b Q) l.
Proof.
  intros H. destruct (in_dec (list_eq_dec string_dec) (connection_ele a P b Q) l) as [Hin|Hn];
    [exact Hin|].
  rewrite (elem_count_zero _ _ _ _ _ Hn) in H. lia.
Qed.


(** The nodes a module has are told by the ids of the store. *)
Lemma obj_get_store_keys (df df' : store) m :
  store_keys df = store_keys df' ->
  option_map (@obj_keys node) (obj_get m df) = option_map (@obj_keys node) (obj_get m df').
Proof.
  revert df'. induction df as [|[k d] r IH]; intros [|[k' d'] r'] H; try discriminate;
    [reflexivity|].
  cbn [store_keys map fst snd] in H. injection H as -> Hd Hr. cbn [obj_get].
  destruct (k' =? m); [cbn [option_map]; now rewrite Hd | exact (IH r' Hr)].
Qed.


Lemma obj_get_delete_other {A} k k' (o : obj A) :
  k' <> k -> obj_get k' (obj_delete k o) = obj_get k' o.
Proof.
  intros Hne. induction o as [|[j v] r IH]; cbn [obj_delete]; [reflexivity|].
  destruct (String.eqb_spec j k) as [->|Hj]; cbn [obj_get].
  - apply String.eqb_neq in Hne. rewrite String.eqb_sym in Hne. now rewrite Hne.
  - now rewrite IH.
Qed.




Lemma node_at_None_store_keys df df' m x :
  store_keys df = store_keys df' -> (node_at df m x = None <-> node_at df' m x = None).
Proof.
  intros H. pose proof (obj_get_store_keys df df' m H) as E. unfold node_at.
  destruct (obj_get m df) as [d|], (obj_get m df') as [d'|]; cbn [option_map] in E;
    try discriminate; [|tauto].
  injection E as E.
  split; intros Hn.
  - apply obj_get_not_key. rewrite <- E. intros Hin. exact (obj_get_key _ _ Hin Hn).
  - apply obj_get_not_key. rewrite E. intros Hin. exact (obj_get_key _ _ Hin Hn).
Qed.





Lemma prefix_slice p s :
  String.prefix p s = true -> s = (p ++ slice (String.length p) s)%string.
Proof.
  revert s. induction p as [|c p IH]; intros s H; [reflexivity|].
  destruct s as [|c' s]; cbn [String.prefix] in H; [discriminate|].
  destruct (Ascii.ascii_dec c c') as [->|]; [|discriminate].
  cbn [String.append String.length slice]. f_equal. exact (IH s H).
Qed.

Lemma drawn_Drawn s : drawn s = true -> Drawn s.
Proof.
  unfold drawn. intros H. apply andb_prop in H as [He Hs].
  rewrite forallb_forall in He.
  assert (Hshape : forall c, In c (connection_eles s) ->
             exists a P b Q,
               c = connection_ele a P b Q /\ output_label P /\ input_label Q
               /\ elem_count a P b Q (connection_eles s)
                  = out_count (drawflow s) (module s) a P b Q).
  { intros c Hc. specialize (He c Hc).
    destruct c as [|c0 [|c1 [|c2 [|P [|Q [|]]]]]]; try discriminate He.
    apply andb_prop in He as [He Hn]. apply andb_prop in He as [He HQ].
    apply andb_prop in He as [He HP]. apply andb_prop in He as [He H2].
    apply andb_prop in He as [H0 H1]. apply String.eqb_eq in H0. apply Nat.eqb_eq in Hn.
    apply prefix_slice in H1, H2, HP, HQ. cbn [String.length] in H1, H2, HP, HQ.
    exists (slice 14 c2), P, (slice 13 c1), Q.
    split; [unfold connection_ele; congruence|].
    split; [now exists (slice 7 P)|]. split; [now exists (slice 6 Q) | exact Hn]. }
  split.
  - intros c Hc. destruct (Hshape c Hc) as (a & P & b & Q & E & HP & HQ & _). eauto 8.
  - intros a P b Q.
    destruct (Nat.eq_dec (elem_count a P b Q (connection_eles s)) 0) as [E|E].
    + rewrite E. symmetry.
      destruct (Nat.eq_dec (out_count (drawflow s) (module s) a P b Q) 0) as [Eo|Eo];
        [exact Eo|]. exfalso.
      unfold out_count, output_connections, node_at in Eo.
      destruct (obj_get (module s) (drawflow s)) as [data|] eqn:Hd; [|congruence].
      destruct (obj_get a data) as [n|] eqn:Hn; [|congruence].
      destruct (obj_get P (n_outputs n)) as [l|] eqn:Hl; [|congruence].
      destruct (count_out_pos_In b Q l ltac:(lia)) as (c & Hc & <- & <-).
      rewrite forallb_forall in Hs. specialize (Hs _ (obj_get_In _ _ _ _ Hn)).
      rewrite forallb_forall in Hs. specialize (Hs _ (obj_get_In _ _ _ _ Hl)).
      rewrite forallb_forall in Hs. specialize (Hs c Hc). cbn [fst snd] in Hs.
      apply Nat.eqb_eq in Hs. rewrite E in Hs.
      unfold out_count, output_connections, node_at in Hs. rewrite Hd, Hn, Hl in Hs.
      congruence.
    + destruct (Hshape (connection_ele a P b Q)) as (a' & P' & b' & Q' & Ec & _ & _ & Hn).
      { apply elem_count_In. lia. }
      apply connection_ele_inj in Ec as (-> & -> & -> & ->). exact Hn.
Qed.



Lemma connection_classes_ele a P b Q :
  output_label P -> input_label Q ->
  connection_classes b a P Q = connection_ele a P b Q.
Proof. intros (k & ->) (k' & ->). reflexivity. Qed.

Lemma out_count_push df m a P b Q l l' m' x P' y Q' :
  output_connections df m a P = Some l ->
  input_connections df m b Q = Some l' ->
  out_count
    (set_input_connections
       (set_output_connections df m a P
          (l ++ [{| oc_node := b; oc_output := Q; oc_points := None |}]))
       m b Q (l' ++ [{| ic_node := a; ic_input := P; ic_points := None |}]))
    m' x P' y Q'
  = out_count df m' x P' y Q' + one_less m a P b Q m' x P' y Q'.
Proof.
  intros Ho Hi.
  set (df1 := set_output_connections df m a P _).
  assert (Hi1 : input_connections df1 m b Q = Some l').
  { unfold df1. now rewrite (input_set_output _ _ _ _ _ _ Ho). }
  rewrite (out_count_set_input _ _ _ _ _ _ _ _ _ _ _ Hi1). unfold df1.
  rewrite (out_count_set_output _ _ _ _ _ _ _ _ _ _ _ Ho).
  rewrite count_out_app. cbn [oc_node oc_output]. unfold one_less.
  destruct (String.eqb_spec m' m) as [->|Hm]; cbn [andb]; [|lia].
  destruct (String.eqb_spec x a) as [->|Hx]; cbn [andb]; [|lia].
  destruct (String.eqb_spec P' P) as [->|HP]; cbn [andb]; [|lia].
  unfold out_count. rewrite Ho.
  rewrite (String.eqb_sym y b), (String.eqb_sym Q' Q). reflexivity.
Qed.

(** X21.  [addConnection] keeps the view in step with the store: from a
    state in which the view shows the active module, every call that
    finishes (it returns, or [updateConnectionNodes] throws), for an output
    label and an input label, ends in such a state, with the same active
    module.  Either it has added one element, the one of the connection,
    between nodes of the active module, and one entry for that connection,
    and no other, to the outputs of the active module; or the elements and
    the output entries of the active module are as they were (so it is for
    nodes of another module). *)
Theorem addConnection_keeps_drawn :
  forall (s s' : editor) (a b P Q : string),
    Drawn s ->
    output_label P ->
    input_label Q ->
    finishes (addConnection a b P Q) s s' ->
    Drawn s'
    /\ module s' = module s
    /\ ((connection_eles s' = connection_eles s ++ [connection_ele a P b Q]
         /\ getModuleFromNodeId (drawflow s) a = Some (module s)
         /\ forall x P' y Q',
             out_count (drawflow s') (module s) x P' y Q'
             = out_count (drawflow s) (module s) x P' y Q'
               + one_less (module s) a P b Q (module s) x P' y Q')
        \/ (connection_eles s' = connection_eles s
            /\ forall x P' y Q',
                out_count (drawflow s') (module s) x P' y Q'
                = out_count (drawflow s) (module s) x P' y Q')).
Proof.
  intros s s' a b P Q HD HP HQ Hrun.
  set (R := fun s1 : editor =>
              Drawn s1
              /\ module s1 = module s
              /\ ((connection_eles s1 = connection_eles s ++ [connection_ele a P b Q]
                   /\ getModuleFromNodeId (drawflow s) a = Some (module s)
                   /\ forall x P' y Q',
                       out_count (drawflow s1) (module s) x P' y Q'
                       = out_count (drawflow s) (module s) x P' y Q'
                         + one_less (module s) a P b Q (module s) x P' y Q')
                  \/ (connection_eles s1 = connection_eles s
                      /\ forall x P' y Q',
                          out_count (drawflow s1) (module s) x P' y Q'
                          = out_count (drawflow s) (module s) x P' y Q'))).
  change (R s').
  refine (wpx_finishes (addConnection a b P Q) R s s' _ Hrun). clear s' Hrun.
  assert (Hsame : R s).
  { split; [exact HD|]. split; [reflexivity|]. right. split; reflexivity. }
  unfold addConnection. apply wpx_bind, wpx_gets. cbv zeta.
  apply wpx_when; [intros _ | intros _; exact Hsame].
  apply wpx_bind, wpx_of_wp; [apply nre_getNodeFromId|].
  unfold getNodeFromId. apply wp_bind, wp_gets, wp_bind, wp_defined.
  intros data _. destruct (obj_get a data) as [n|]; [apply wp_ret | apply wp_throw].
  apply wpx_bind, wpx_defined. intros connections _.
  apply wpx_when; [intros _ | intros _; exact Hsame].
  set (m := key_of (getModuleFromNodeId (drawflow s) a)).
  apply wpx_bind. unfold push_output. apply wpx_bind, wpx_gets, wpx_bind, wpx_defined.
  intros l Hl. unfold set_drawflow at 1. apply wpx_modify.
  apply wpx_bind. unfold push_input. apply wpx_bind, wpx_gets, wpx_bind, wpx_defined.
  cbn [drawflow with_drawflow]. intros l' Hl'. unfold set_drawflow at 1. apply wpx_modify.
  apply wpx_bind, wpx_gets.
  rewrite (input_set_output _ _ _ _ _ _ Hl) in Hl'.
  cbn [module with_drawflow].
  destruct HD as (Hwf & Hcnt).
  destruct (getModuleFromNodeId (drawflow s) a) as [ma|] eqn:Ema; cbn [same_key key_of] in *.
  2:{ exfalso.
      assert (Ha : node_at (drawflow s) m a <> None).
      { unfold output_connections in Hl. destruct (node_at (drawflow s) m a); congruence. }
      unfold node_at in Ha. destruct (obj_get m (drawflow s)) as [d|] eqn:Ed; [|congruence].
      apply Ha. exact (getModuleFromNodeId_None _ _ Ema _ _ (obj_get_In _ _ _ _ Ed)). }
  subst m.
  set (df1 := set_input_connections
                (set_output_connections (drawflow s) ma a P
                   (l ++ [{| oc_node := b; oc_output := Q; oc_points := None |}]))
                ma b Q (l' ++ [{| ic_node := a; ic_input := P; ic_points := None |}])).
  assert (Hdis : forall s1, R s1 ->
                   wpx (dispatch (connectionCreated a b P Q)) (fun _ => R) R s1).
  { intros s1 (H1 & H2 & H3). unfold dispatch. apply wpx_modify.
    split; [|split; [exact H2 | exact H3]].
    destruct H1 as (Hw1 & Hc1). split; [exact Hw1 | exact Hc1]. }
  destruct (String.eqb_spec (module s) ma) as [Eact|Eact]; cbn [when].
  - assert (Hend : R (with_connection_eles (with_drawflow s df1)
                        (connection_eles (with_drawflow s df1)
                           ++ [connection_classes b a P Q]))).
    { rewrite (connection_classes_ele a P b Q HP HQ).
      assert (Hout : forall x P' y Q',
                 out_count df1 (module s) x P' y Q'
                 = out_count (drawflow s) (module s) x P' y Q'
                   + one_less (module s) a P b Q (module s) x P' y Q').
      { intros x P' y Q'. unfold df1. rewrite <- Eact in Hl, Hl' |- *.
        apply (out_count_push _ _ _ _ _ _ _ _ _ _ _ _ _ Hl Hl'). }
      split; [split|].
      - cbn [connection_eles with_connection_eles with_drawflow].
        intros c Hc. apply in_app_or in Hc as [Hc|[<-|[]]]; [exact (Hwf c Hc)|].
        exists a, P, b, Q. auto.
      - intros x P' y Q'.
        cbn [connection_eles drawflow module with_connection_eles with_drawflow].
        rewrite elem_count_app, Hout, <- Hcnt. f_equal.
        unfold elem_count. cbn [filter]. rewrite same_classes_connection_ele.
        unfold one_less. rewrite String.eqb_refl. cbn [andb].
        destruct ((x =? a) && (P' =? P) && (y =? b) && (Q' =? Q)); reflexivity.
      - split; [reflexivity|]. left.
        cbn [connection_eles drawflow with_connection_eles with_drawflow].
        split; [reflexivity|]. split; [congruence | exact Hout]. }
    apply wpx_bind. apply wpx_bind. unfold append_connection_ele. apply wpx_modify.
    apply wpx_bind, wpx_updateConnectionNodes; [|exact Hend].
    apply wpx_updateConnectionNodes; [|exact Hend].
    apply Hdis, Hend.
  - apply wpx_bind, wpx_ret. apply Hdis.
    assert (Hout : forall x P' y Q',
               out_count df1 (module s) x P' y Q'
               = out_count (drawflow s) (module s) x P' y Q').
    { intros x P' y Q'. unfold df1.
      rewrite (out_count_push _ _ _ _ _ _ _ _ _ _ _ _ _ Hl Hl'). unfold one_less.
      apply String.eqb_neq in Eact. rewrite Eact. cbn [andb]. lia. }
    split; [split|].
    + exact Hwf.
    + intros x P' y Q'. cbn [connection_eles drawflow module with_drawflow].
      rewrite Hout. apply Hcnt.
    + split; [reflexivity|]. right. split; [reflexivity | exact Hout].
Qed.

Lemma addConnection_keeps_drawn_witness :
  (Drawn connected_pair_example
   /\ connection_eles connected_pair_example = [connection_ele "1" "output_1" "2" "input_1"])
  /\ exists s',
      addConnection "1" "2" "output_1" "input_1" other_pair_example = Normal s' tt
      /\ connection_eles s' = []
      /\ Drawn s'.
Proof.
  split.
  - split; [|reflexivity].
    refine (proj1 (addConnection_keeps_drawn two_nodes_example connected_pair_example
                     "1" "2" "output_1" "input_1" _ _ _ _)).
    + apply drawn_Drawn. vm_compute. reflexivity.
    + now exists "1".
    + now exists "1".
    + right. vm_compute. reflexivity.
  - eexists. split; [vm_compute; reflexivity|]. split; [reflexivity|].
    refine (proj1 (addConnection_keeps_drawn other_pair_example _
                     "1" "2" "output_1" "input_1" _ _ _ _)).
    + apply drawn_Drawn. vm_compute. reflexivity.
    + now exists "1".
    + now exists "1".
    + left. exists tt. vm_compute. reflexivity.
Defined.


(** ** What [load] draws *)

Lemma no_duplicate_NoDup l : no_duplicate l = true -> NoDup l.
Proof.
  induction l as [|x r IH]; cbn [no_duplicate]; intros H; constructor.
  - apply andb_prop in H as [H _]. intros Hin. apply negb_true_iff in H.
    assert (E : existsb (String.eqb x) r = true).
    { apply existsb_exists. exists x. split; [exact Hin | apply String.eqb_refl]. }
    congruence.
  - apply andb_prop in H as [_ H]. exact (IH H).
Qed.

Lemma well_labelled_checked nodes : well_labelled_check nodes = true -> well_labelled nodes.
Proof.
  unfold well_labelled_check. intros H. apply andb_prop in H as [Hnd H].
  split; [exact (no_duplicate_NoDup _ Hnd)|].
  intros k n Hin. rewrite forallb_forall in H. specialize (H _ Hin). cbn [fst snd] in H.
  apply andb_prop in H as [H Hl]. apply andb_prop in H as [Hid Hn].
  apply String.eqb_eq in Hid.
  split; [exact Hid|].
  split; [exact (no_duplicate_NoDup _ Hn)|].
  intros Q l HQ. rewrite forallb_forall in Hl. specialize (Hl _ HQ). cbn [fst snd] in Hl.
  apply andb_prop in Hl as [H1 H2]. split.
  - exists (slice 6 Q). exact (prefix_slice "input_" Q H1).
  - intros c Hc. rewrite forallb_forall in H2. specialize (H2 c Hc).
    exists (slice 7 (ic_input c)). exact (prefix_slice "output_" _ H2).
Qed.

Lemma elem_count_port idn Q' l a P b Q :
  input_label Q' -> (forall c, In c l -> output_label (ic_input c)) ->
  elem_count a P b Q
    (map (fun c => connection_classes idn (ic_node c) (ic_input c) Q') l)
  = if (idn =? b) && (Q' =? Q) then count_in a P l else 0.
Proof.
  intros HQ' Hl. unfold elem_count, count_in.
  induction l as [|c l IH]; cbn [map filter length].
  - destruct ((idn =? b) && (Q' =? Q)); reflexivity.
  - rewrite (connection_classes_ele (ic_node c) (ic_input c) idn Q' (Hl c (or_introl eq_refl)) HQ').
    rewrite same_classes_connection_ele.
    assert (IH' := IH (fun c' Hc' => Hl c' (or_intror Hc'))). clear IH.
    rewrite (String.eqb_sym a), (String.eqb_sym P), (String.eqb_sym b), (String.eqb_sym Q).
    destruct (String.eqb_spec idn b) as [->|Hb]; cbn [andb].
    + destruct (String.eqb_spec Q' Q) as [->|HQn]; cbn [andb].
      * rewrite !andb_true_r.
        destruct ((ic_node c =? a) && (ic_input c =? P)); cbn [length]; now rewrite IH'.
      * rewrite !andb_false_r. exact IH'.
    + rewrite !andb_false_r. cbn [andb]. exact IH'.
Qed.

Lemma elem_count_flat_map {A} (f : A -> list classList) a P b Q (l : list A) :
  elem_count a P b Q (flat_map f l)
  = fold_right (fun x acc => elem_count a P b Q (f x) + acc) 0 l.
Proof.
  induction l as [|x l IH]; cbn [flat_map fold_right]; [reflexivity|].
  now rewrite elem_count_app, IH.
Qed.

Lemma elem_count_node n a P b Q :
  NoDup (obj_keys (n_inputs n)) ->
  (forall Q' l, In (Q', l) (n_inputs n) ->
                input_label Q' /\ forall c, In c l -> output_label (ic_input c)) ->
  elem_count a P b Q (import_connection_eles n)
  = if id_string (n_id n) =? b
    then match obj_get Q (n_inputs n) with Some l => count_in a P l | None => 0 end
    else 0.
Proof.
  unfold import_connection_eles. rewrite elem_count_flat_map.
  generalize (n_inputs n) as ins. intros ins.
  induction ins as [|[Q' l] ins IH]; cbn [obj_keys map fst fold_right obj_get]; intros Hnd Hw.
  - destruct (_ =? b); reflexivity.
  - inversion Hnd as [|? ? HQ' Hnd']; subst.
    destruct (Hw Q' l (or_introl eq_refl)) as [HQl Hl].
    rewrite (elem_count_port _ _ _ _ _ _ _ HQl Hl). cbn [fst snd].
    rewrite (IH Hnd' (fun Q0 l0 H0 => Hw Q0 l0 (or_intror H0))).
    destruct (String.eqb_spec (id_string (n_id n)) b) as [Eb|Eb]; cbn [andb]; [|reflexivity].
    destruct (String.eqb_spec Q' Q) as [->|HQn]; [|reflexivity].
    rewrite (obj_get_not_key Q ins HQ'). lia.
Qed.

Lemma elem_count_nodes (nodes : obj node) a P b Q :
  well_labelled nodes ->
  elem_count a P b Q (flat_map import_connection_eles (obj_values nodes))
  = match obj_get b nodes with
    | Some n => match obj_get Q (n_inputs n) with Some l => count_in a P l | None => 0 end
    | None => 0
    end.
Proof.
  intros (Hnd & Hw). rewrite elem_count_flat_map. unfold obj_values.
  induction nodes as [|[k n] nodes IH]; cbn [map snd fold_right obj_get]; [reflexivity|].
  cbn [obj_keys map fst] in Hnd. inversion Hnd as [|? ? Hk Hnd']; subst.
  destruct (Hw k n (or_introl eq_refl)) as (Hid & Hni & Hl).
  rewrite (elem_count_node n a P b Q Hni Hl), Hid.
  rewrite (IH Hnd' (fun k0 n0 H0 => Hw k0 n0 (or_intror H0))).
  destruct (String.eqb_spec k b) as [->|Hkb]; [|reflexivity].
  rewrite (obj_get_not_key b nodes Hk). lia.
Qed.

Lemma finishes_final_state {A} (c : M A) s s' :
  finishes c s s' -> final_state (c s) = Some s'.
Proof. intros [(a & ->)| ->]; reflexivity. Qed.

Lemma nre_add_classes c : no_reference_error (add_classes c).
Proof.
  destruct c as [ | | b | x | s | l | l]; cbn [add_classes];
    try (apply nre_throw; discriminate); try apply nre_outside_model.
  - destruct b; [apply nre_throw; discriminate | apply nre_ret].
  - destruct (PrimFloat.is_zero x); [apply nre_ret | apply nre_throw; discriminate].
  - destruct (s =? ""); [apply nre_ret|].
    destruct (forallb _ _); [apply nre_ret | apply nre_throw; discriminate].
Qed.

Lemma nre_render_content t : no_reference_error (render_content t).
Proof.
  destruct t as [ | | b | x | s | l | l]; cbn [render_content];
    try apply nre_outside_model.
  destruct b; [apply nre_outside_model | apply nre_ret].
Qed.

Lemma nre_render_data d : no_reference_error (render_data d).
Proof.
  destruct d as [ | | b | x | s | l | l]; cbn [render_data];
    try (apply nre_throw; discriminate);
    match goal with |- no_reference_error (if ?c then _ else _) =>
      destruct c; [apply nre_ret | apply nre_outside_model]
    end.
Qed.

Lemma nre_addNodeImport dataNode : no_reference_error (addNodeImport dataNode).
Proof.
  unfold addNodeImport.
  apply nre_bind; [apply nre_add_classes | intros _].
  apply nre_bind; [apply nre_modify | intros _].
  apply nre_bind; [apply nre_render_content | intros _].
  apply nre_bind; [apply nre_render_data | intros _].
  apply nre_modify.
Qed.

(** What [addNodeImport] draws when it returns: the connections of the
    inputs of the node. *)
Lemma addNodeImport_eles x s s' :
  addNodeImport x s = Normal s' tt ->
  connection_eles s' = connection_eles s ++ import_connection_eles x.
Proof.
  unfold addNodeImport. unfold bind at 1.
  destruct (add_classes (n_class x) s) as [s1 []|s1 e|] eqn:E1; try discriminate.
  assert (Hs1 : s1 = s)
    by (apply (keeps_add_classes (fun s => s) (n_class x) s s1); now rewrite E1).
  subst s1. unfold bind at 1. unfold modify at 1.
  set (s2 := with_connection_eles s _).
  unfold bind at 1.
  destruct (render_content (n_typenode x) s2) as [s3 []|s3 e|] eqn:E2; try discriminate.
  assert (Hs3 : s3 = s2)
    by (apply (keeps_render_content (fun s => s) (n_typenode x) s2 s3); now rewrite E2).
  subst s3. unfold bind at 1.
  destruct (render_data (n_data x) s2) as [s4 []|s4 e|] eqn:E3; try discriminate.
  assert (Hs4 : s4 = s2)
    by (apply (keeps_render_data (fun s => s) (n_data x) s2 s4); now rewrite E3).
  subst s4. unfold modify. intros [= <-]. reflexivity.
Qed.

Lemma load_loop_eles (l : list node) : forall s s',
  forEach l addNodeImport s = Normal s' tt ->
  connection_eles s' = connection_eles s ++ flat_map import_connection_eles l.
Proof.
  induction l as [|x r IH]; intros s s'; cbn [forEach flat_map].
  - intros [= <-]. now rewrite app_nil_r.
  - unfold bind at 1.
    destruct (addNodeImport x s) as [s1 []|s1 e|] eqn:E; try discriminate.
    intros H. rewrite (IH _ _ H), (addNodeImport_eles _ _ _ E). now rewrite app_assoc.
Qed.

(** When [load] finishes, every node of the module has been gone through:
    the elements of all the connections are in the view. *)
Lemma load_eles s s1 nodes :
  obj_get (module s) (drawflow s) = Some nodes ->
  finishes load s s1 ->
  connection_eles s1
  = connection_eles s ++ flat_map import_connection_eles (obj_values nodes).
Proof.
  intros Hnodes Hf.
  set (rest :=
         forEach (obj_keys nodes) (fun key => updateConnectionNodes ("node-" ++ key)) ;;
         if exact_ids (drawflow s)
         then modify (fun s0 => with_nodeId s0 (Z.to_N (next_node_id (drawflow s))))
         else outside_model).
  assert (Hrest : keeps connection_eles rest).
  { apply keeps_bind;
      [apply keeps_forEach; intros x; apply keeps_updateConnectionNodes | intros _].
    destruct (exact_ids (drawflow s)); [|apply keeps_outside_model].
    apply keeps_modify. reflexivity. }
  assert (E : load s
              = match forEach (obj_values nodes) addNodeImport s with
                | Normal s2 _ => rest s2
                | Throw s2 e => Throw s2 e
                | OutsideModel => OutsideModel
                end).
  { unfold load, rest, bind, gets. rewrite Hnodes. reflexivity. }
  pose proof (finishes_final_state _ _ _ Hf) as Hfin.
  unfold finishes in Hf. rewrite E in Hf, Hfin.
  destruct (forEach (obj_values nodes) addNodeImport s) as [s2 []|s2 e|] eqn:Hloop.
  - rewrite <- (load_loop_eles _ _ _ Hloop). exact (Hrest s2 s1 Hfin).
  - destruct Hf as [(a & Hf)|Hf]; [discriminate|]. injection Hf as -> ->.
    destruct (nre_forEach (obj_values nodes) addNodeImport nre_addNodeImport _ _ Hloop).
  - discriminate.
Qed.




Lemma elem_count_remove_nth a P b Q c l : forall i,
  nth_error l i = Some c ->
  elem_count a P b Q (remove_nth i l)
  + (if same_classes (connection_ele a P b Q) c then 1 else 0)
  = elem_count a P b Q l.
Proof.
  unfold elem_count. induction l as [|x l IH]; intros [|i]; cbn [nth_error]; try discriminate.
  - intros [= ->]. cbn [remove_nth filter].
    destruct (same_classes (connection_ele a P b Q) c); cbn [length]; lia.
  - intros H. cbn [remove_nth filter]. specialize (IH i H).
    destruct (same_classes (connection_ele a P b Q) x); cbn [length]; lia.
Qed.

(** X16.  [removeConnection()] with any connection element of the view
    selected, when the view shows the store and the store is balanced: the
    element is that of a connection from an output [P] of a node [a] to an
    input [Q] of a node [b]; the call returns and clears the selection; the
    element is gone from the view; one entry for the connection is gone
    from each side and every other count is as it was; the store is
    balanced still, and the view shows it; and [connectionRemoved] is
    dispatched with the four names. *)
Theorem removeConnection_selected :
  forall (s : editor) (i : nat) (c : classList),
    nth_error (connection_eles s) i = Some c ->
    Drawn s ->
    Balanced (drawflow s) ->
    exists a P b Q s',
      c = connection_ele a P b Q
      /\ removeConnection (Some i) s = Normal s' None
      /\ connection_eles s' = remove_nth i (connection_eles s)
      /\ unplugged (drawflow s) (module s) a P b Q (drawflow s')
      /\ Balanced (drawflow s')
      /\ Drawn s'
      /\ dispatched s' = dispatched s ++ [connectionRemoved a b P Q].
Proof.
  intros s i c Hele (Hwf & Hcnt) HB.
  destruct (Hwf c (nth_error_In _ _ Hele)) as (a & P & b & Q & -> & HP & HQ).
  exists a, P, b, Q.
  assert (Hpos : 0 < out_count (drawflow s) (module s) a P b Q).
  { rewrite <- Hcnt. apply elem_count_pos. exact (nth_error_In _ _ Hele). }
  set (m := module s) in *.
  destruct (output_connections (drawflow s) m a P) as [outs|] eqn:Ho.
  2:{ unfold out_count in Hpos. rewrite Ho in Hpos. lia. }
  assert (Hc : 0 < count_out b Q outs) by (unfold out_count in Hpos; now rewrite Ho in Hpos).
  destruct (count_out_findIndex _ _ _ Hc) as (j & Hj).
  destruct (input_connections (drawflow s) m b Q) as [ins|] eqn:Hi.
  2:{ pose proof (HB m a P b Q) as H. unfold out_count, in_count in H.
      rewrite Ho, Hi in H. lia. }
  assert (Hci : 0 < count_in a P ins).
  { pose proof (HB m a P b Q) as H. unfold out_count, in_count in H.
    rewrite Ho, Hi in H. lia. }
  destruct (count_in_findIndex _ _ _ Hci) as (k & Hk & _).
  set (df1 := set_output_connections (drawflow s) m a P (remove_nth j outs)).
  set (df2 := set_input_connections df1 m b Q (remove_nth k ins)).
  assert (Hi1 : input_connections df1 m b Q = Some ins).
  { unfold df1. now rewrite (input_set_output _ _ _ _ _ _ Ho). }
  assert (Hun : unplugged (drawflow s) m a P b Q df2)
    by apply (unplug_output_first _ _ _ _ _ _ _ _ _ _ Ho Hj Hi Hk).
  assert (Hrun : removeConnection (Some i) s
                 = Normal (with_dispatched
                             (with_drawflow
                                (with_connection_eles s (remove_nth i (connection_eles s))) df2)
                             (dispatched s ++ [connectionRemoved a b P Q])) None).
  { unfold removeConnection. unfold bind at 1. unfold gets at 1. rewrite Hele.
    unfold bind at 1. unfold modify at 1.
    cbn [connection_ele item nth_error defined]. unfold bind at 1. unfold ret at 1.
    unfold bind at 1. unfold ret at 1. cbv zeta.
    change (slice 13 ("node_in_node-" ++ b)) with b.
    change (slice 14 ("node_out_node-" ++ a)) with a.
    cbn [key_of same_key].
    unfold bind at 1. unfold gets at 1. unfold bind at 1. unfold gets at 1.
    cbn [drawflow module with_connection_eles]. fold m. rewrite Ho. cbn [defined].
    unfold bind at 1. unfold ret at 1. unfold bind at 1. unfold set_drawflow at 1.
    unfold modify at 1. unfold bind at 1. unfold gets at 1.
    cbn [drawflow with_drawflow].
    rewrite Hj. cbn [splice1]. fold df1. rewrite Hi1. cbn [defined].
    unfold bind at 1. unfold ret at 1. unfold bind at 1. unfold set_drawflow at 1.
    unfold modify at 1. unfold bind at 1. unfold dispatch, modify, ret.
    rewrite Hk. cbn [splice1]. reflexivity. }
  eexists. split; [reflexivity|]. split; [exact Hrun|].
  cbn [connection_eles drawflow module dispatched with_dispatched with_drawflow
         with_connection_eles].
  split; [reflexivity|]. split; [exact Hun|].
  split; [exact (unplugged_Balanced _ _ _ _ _ _ _ Hun HB)|].
  split; [|reflexivity].
  split.
  - intros c0 Hc0. exact (Hwf c0 (In_remove_nth_In _ _ _ Hc0)).
  - intros a' P' b' Q'. fold m.
    pose proof (elem_count_remove_nth a' P' b' Q' _ _ _ Hele) as He.
    rewrite same_classes_connection_ele in He.
    destruct Hun as (_ & Ho2 & _). specialize (Ho2 m a' P' b' Q').
    unfold one_less in Ho2. rewrite String.eqb_refl in Ho2. cbn [andb] in Ho2.
    specialize (Hcnt a' P' b' Q').
    cbn [connection_eles drawflow module with_dispatched with_drawflow with_connection_eles].
    fold m. lia.
Qed.

Lemma removeConnection_selected_witness :
  exists s',
    removeConnection (Some 0) connected_pair_example = Normal s' None
    /\ connection_eles s' = []
    /\ Balanced (drawflow s')
    /\ Drawn s'
    /\ dispatched s'
       = dispatched connected_pair_example
           ++ [connectionRemoved "1" "2" "output_1" "input_1"].
Proof.
  destruct (removeConnection_selected connected_pair_example 0 _ eq_refl)
    as (a & P & b & Q & s' & Hc & Hr & He & _ & Hb & Hd & Hev).
  - apply drawn_Drawn. vm_compute. reflexivity.
  - apply balanced_Balanced. vm_compute. reflexivity.
  - apply (connection_ele_inj "1" "output_1" "2" "input_1") in Hc as (<- & <- & <- & <-).
    exists s'. split; [exact Hr|]. split; [exact He|]. split; [exact Hb|].
    split; [exact Hd | exact Hev].
Defined.


(** The selector of [removeSingleConnection] finds the elements of the
    connection, and no other. *)
Lemma matches_connection a P b Q a' P' b' Q' :
  output_label P -> input_label Q -> output_label P' -> input_label Q' ->
  matches ["connection"; ("node_in_node-" ++ b)%string; ("node_out_node-" ++ a)%string; P; Q]
    (connection_ele a' P' b' Q')
  = (a' =? a) && (P' =? P) && (b' =? b) && (Q' =? Q).
Proof.
  intros (k & ->) (k' & ->) (k2 & ->) (k3 & ->).
  unfold matches, has_class, connection_ele. cbn.
  rewrite !orb_false_r, andb_true_r.
  rewrite (String.eqb_sym b b'), (String.eqb_sym a a'), (String.eqb_sym k k2),
    (String.eqb_sym k' k3).
  destruct (a' =? a), (k2 =? k), (b' =? b), (k3 =? k'); reflexivity.
Qed.

Lemma findIndex_connection a P b Q (eles : list classList) :
  output_label P -> input_label Q ->
  (forall c, In c eles ->
             exists a' P' b' Q', c = connection_ele a' P' b' Q'
                                 /\ output_label P' /\ input_label Q') ->
  forall i,
    findIndex
      (matches ["connection"; ("node_in_node-" ++ b)%string; ("node_out_node-" ++ a)%string;
                P; Q]) eles = Some i ->
    nth_error eles i = Some (connection_ele a P b Q).
Proof.
  intros HP HQ. induction eles as [|c r IH]; intros Hwf i; cbn [findIndex]; [discriminate|].
  destruct (Hwf c (or_introl eq_refl)) as (a' & P' & b' & Q' & -> & HP' & HQ').
  rewrite (matches_connection a P b Q a' P' b' Q' HP HQ HP' HQ').
  destruct ((a' =? a) && (P' =? P) && (b' =? b) && (Q' =? Q)) eqn:E.
  - intros [= <-]. cbn [nth_error].
    apply andb_prop in E as [E EQ]. apply andb_prop in E as [E Eb].
    apply andb_prop in E as [Ea EP]. apply String.eqb_eq in Ea, EP, Eb, EQ. now subst.
  - destruct (findIndex _ r) as [k|] eqn:Ek; cbn [option_map]; [|discriminate].
    intros [= <-]. cbn [nth_error]. apply IH; [|reflexivity].
    intros c0 Hc0. apply Hwf. now right.
Qed.

(** X2.  [removeSingleConnection] keeps the balance too: it removes one
    entry on each side, or none.  From a balanced store, a call that
    returns ends in a balanced store.  When it returns [false], the state
    is as it was.  When it returns [true], the two nodes are in one module,
    and there the output port has one entry for the connection less, the
    input port has one entry for it less, and every other count of entries
    in the store is as it was, as are the modules and their nodes. *)
Theorem removeSingleConnection_keeps_balance :
  forall (s s' : editor) (r : bool) (a b P Q : string),
    Balanced (drawflow s) ->
    removeSingleConnection a b P Q s = Normal s' r ->
    Balanced (drawflow s')
    /\ ((r = false /\ s' = s)
        \/ (r = true
            /\ exists m,
                getModuleFromNodeId (drawflow s) a = Some m
                /\ getModuleFromNodeId (drawflow s) b = Some m
                /\ unplugged (drawflow s) m a P b Q (drawflow s'))).
Proof.
  intros s s' r a b P Q HB Hrun.
  set (R := fun (r : bool) (s1 : editor) =>
              Balanced (drawflow s1)
              /\ ((r = false /\ s1 = s)
                  \/ (r = true
                      /\ exists m,
                          getModuleFromNodeId (drawflow s) a = Some m
                          /\ getModuleFromNodeId (drawflow s) b = Some m
                          /\ unplugged (drawflow s) m a P b Q (drawflow s1)))).
  assert (H : wp (removeSingleConnection a b P Q) R s);
    [|exact (H s' r Hrun)]. clear s' r Hrun.
  assert (Hsame : R false s) by (split; [exact HB | left; auto]).
  unfold removeSingleConnection. apply wp_bind, wp_gets. cbv zeta.
  destruct (option_string_eqb _ _) eqn:Hmods; [|apply wp_ret; exact Hsame].
  apply option_string_eqb_eq in Hmods.
  set (m := key_of (getModuleFromNodeId (drawflow s) a)).
  apply wp_bind, wp_defined. intros outs Ho.
  destruct (findIndex _ outs) as [j|] eqn:Hj; [|apply wp_ret; exact Hsame].
  assert (Hma : getModuleFromNodeId (drawflow s) a = Some m).
  { destruct (getModuleFromNodeId (drawflow s) a) as [ma|] eqn:Ema; [reflexivity|].
    exfalso.
    assert (Ha : node_at (drawflow s) m a <> None).
    { unfold output_connections in Ho. destruct (node_at (drawflow s) m a); congruence. }
    unfold node_at in Ha. destruct (obj_get m (drawflow s)) as [d|] eqn:Ed; [|congruence].
    apply Ha. exact (getModuleFromNodeId_None _ _ Ema _ _ (obj_get_In _ _ _ _ Ed)). }
  assert (Hmb : getModuleFromNodeId (drawflow s) b = Some m) by congruence.
  destruct (input_connections (drawflow s) m b Q) as [ins|] eqn:Hi.
  2:{ exfalso. pose proof (HB m a P b Q) as H. unfold out_count, in_count in H.
      rewrite Ho, Hi in H. pose proof (count_out_remove_found _ _ _ _ Hj b Q) as Hc.
      rewrite !String.eqb_refl in Hc. cbn [andb] in Hc. lia. }
  assert (Hci : 0 < count_in a P ins).
  { pose proof (HB m a P b Q) as H. unfold out_count, in_count in H.
    rewrite Ho, Hi in H. pose proof (count_out_remove_found _ _ _ _ Hj b Q) as Hc.
    rewrite !String.eqb_refl in Hc. cbn [andb] in Hc. lia. }
  destruct (count_in_findIndex _ _ _ Hci) as (k & Hk & _).
  set (df1 := set_output_connections (drawflow s) m a P (remove_nth j outs)).
  set (df2 := set_input_connections df1 m b Q (remove_nth k ins)).
  assert (Hi1 : input_connections df1 m b Q = Some ins).
  { unfold df1. now rewrite (input_set_output _ _ _ _ _ _ Ho). }
  assert (Hun : unplugged (drawflow s) m a P b Q df2)
    by apply (unplug_output_first _ _ _ _ _ _ _ _ _ _ Ho Hj Hi Hk).
  assert (Hrest : forall s1,
             drawflow s1 = drawflow s ->
     wp (df <- gets drawflow ;;
         outs <- defined (output_connections df m a P) ;;
         set_drawflow
           (set_output_connections df m a P
              (splice1 (findIndex (fun item => (oc_node item =? b) && (oc_output item =? Q))
                                  outs) outs)) ;;
         df <- gets drawflow ;;
         ins <- defined (input_connections df m b Q) ;;
         set_drawflow
           (set_input_connections df m b Q
              (splice1 (findIndex (fun item => (ic_node item =? a) && (ic_input item =? P))
                                  ins) ins)) ;;
         dispatch (connectionRemoved a b P Q) ;;
         ret true)
        R s1).
  { intros s1 Ed. apply wp_bind, wp_gets. rewrite Ed, Ho.
    apply wp_bind, wp_defined. intros outs' Eo. injection Eo as <-.
    apply wp_bind. unfold set_drawflow at 1. apply wp_modify.
    apply wp_bind, wp_gets. cbn [drawflow with_drawflow]. rewrite Hj. cbn [splice1].
    fold df1. rewrite Hi1.
    apply wp_bind, wp_defined. intros ins' Ei. injection Ei as <-.
    apply wp_bind. unfold set_drawflow at 1. apply wp_modify.
    apply wp_bind. unfold dispatch. apply wp_modify. apply wp_ret.
    cbn [drawflow with_drawflow with_dispatched]. rewrite Hk. cbn [splice1]. fold df2.
    split; [exact (unplugged_Balanced _ _ _ _ _ _ _ Hun HB)|].
    right. split; [reflexivity|]. exists m. auto. }
  apply wp_bind, wp_gets.
  apply wp_bind, wp_when; intros _.
  - apply wp_remove_connection_ele. intros s1 E. apply Hrest, E.
  - apply Hrest. reflexivity.
Qed.

Lemma removeSingleConnection_keeps_balance_witness :
  exists s',
    removeSingleConnection "1" "2" "output_1" "input_1" connected_pair_example
    = Normal s' true
    /\ Balanced (drawflow s')
    /\ out_count (drawflow s') "Home" "1" "output_1" "2" "input_1" = 0
    /\ in_count (drawflow s') "Home" "2" "input_1" "1" "output_1" = 0.
Proof.
  set (s' := state_after (removeSingleConnection "1" "2" "output_1" "input_1"
                            connected_pair_example)).
  exists s'. split; [vm_compute; reflexivity|].
  split; [|split; reflexivity].
  apply (removeSingleConnection_keeps_balance connected_pair_example s' true
           "1" "2" "output_1" "input_1").
  - apply balanced_Balanced. vm_compute. reflexivity.
  - vm_compute. reflexivity.
Defined.

(** X23.  [removeSingleConnection] keeps the view in step with the store:
    from a state in which the view shows the active module and the store is
    balanced, every call that returns, for an output label and an input
    label, ends in such a state, with the same active module.  When it
    returns [false], the state is as it was.  When it returns [true], the
    two nodes are in one module, and there one entry of the connection is
    gone on each side, and no other entry of the store; in the active
    module one element of the connection is gone as well, and no other;
    in another module the elements are as they were. *)
Theorem removeSingleConnection_keeps_drawn :
  forall (s s' : editor) (r : bool) (a b P Q : string),
    Drawn s ->
    Balanced (drawflow s) ->
    output_label P ->
    input_label Q ->
    removeSingleConnection a b P Q s = Normal s' r ->
    Drawn s'
    /\ Balanced (drawflow s')
    /\ module s' = module s
    /\ ((r = false /\ s' = s)
        \/ (r = true
            /\ exists m,
                getModuleFromNodeId (drawflow s) a = Some m
                /\ getModuleFromNodeId (drawflow s) b = Some m
                /\ unplugged (drawflow s) m a P b Q (drawflow s')
                /\ (forall x P' y Q',
                       elem_count x P' y Q' (connection_eles s')
                       + one_less m a P b Q (module s) x P' y Q'
                       = elem_count x P' y Q' (connection_eles s))
                /\ (module s <> m -> connection_eles s' = connection_eles s))).
Proof.
  intros s s' r a b P Q HD HB HP HQ Hrun.
  set (R := fun (r : bool) (s1 : editor) =>
              Drawn s1
              /\ Balanced (drawflow s1)
              /\ module s1 = module s
              /\ ((r = false /\ s1 = s)
                  \/ (r = true
                      /\ exists m,
                          getModuleFromNodeId (drawflow s) a = Some m
                          /\ getModuleFromNodeId (drawflow s) b = Some m
                          /\ unplugged (drawflow s) m a P b Q (drawflow s1)
                          /\ (forall x P' y Q',
                                 elem_count x P' y Q' (connection_eles s1)
                                 + one_less m a P b Q (module s) x P' y Q'
                                 = elem_count x P' y Q' (connection_eles s))
                          /\ (module s <> m -> connection_eles s1 = connection_eles s)))).
  assert (H : wp (removeSingleConnection a b P Q) R s);
    [|exact (H s' r Hrun)]. clear s' r Hrun.
  assert (Hsame : R false s).
  { split; [exact HD|]. split; [exact HB|]. split; [reflexivity|]. left. auto. }
  unfold removeSingleConnection. apply wp_bind, wp_gets. cbv zeta.
  destruct (option_string_eqb _ _) eqn:Hmods; [|apply wp_ret; exact Hsame].
  apply option_string_eqb_eq in Hmods.
  set (m := key_of (getModuleFromNodeId (drawflow s) a)).
  apply wp_bind, wp_defined. intros outs Ho.
  destruct (findIndex _ outs) as [j|] eqn:Hj; [|apply wp_ret; exact Hsame].
  assert (Hma : getModuleFromNodeId (drawflow s) a = Some m).
  { destruct (getModuleFromNodeId (drawflow s) a) as [ma|] eqn:Ema; [reflexivity|].
    exfalso.
    assert (Ha : node_at (drawflow s) m a <> None).
    { unfold output_connections in Ho. destruct (node_at (drawflow s) m a); congruence. }
    unfold node_at in Ha. destruct (obj_get m (drawflow s)) as [d|] eqn:Ed; [|congruence].
    apply Ha. exact (getModuleFromNodeId_None _ _ Ema _ _ (obj_get_In _ _ _ _ Ed)). }
  assert (Hmb : getModuleFromNodeId (drawflow s) b = Some m) by congruence.
  destruct (input_connections (drawflow s) m b Q) as [ins|] eqn:Hi.
  2:{ exfalso. pose proof (HB m a P b Q) as H. unfold out_count, in_count in H.
      rewrite Ho, Hi in H. pose proof (count_out_remove_found _ _ _ _ Hj b Q) as Hc.
      rewrite !String.eqb_refl in Hc. cbn [andb] in Hc. lia. }
  assert (Hci : 0 < count_in a P ins).
  { pose proof (HB m a P b Q) as H. unfold out_count, in_count in H.
    rewrite Ho, Hi in H. pose proof (count_out_remove_found _ _ _ _ Hj b Q) as Hc.
    rewrite !String.eqb_refl in Hc. cbn [andb] in Hc. lia. }
  destruct (count_in_findIndex _ _ _ Hci) as (k & Hk & _).
  set (df1 := set_output_connections (drawflow s) m a P (remove_nth j outs)).
  set (df2 := set_input_connections df1 m b Q (remove_nth k ins)).
  assert (Hi1 : input_connections df1 m b Q = Some ins).
  { unfold df1. now rewrite (input_set_output _ _ _ _ _ _ Ho). }
  assert (Hun : unplugged (drawflow s) m a P b Q df2)
    by apply (unplug_output_first _ _ _ _ _ _ _ _ _ _ Ho Hj Hi Hk).
  assert (Hrest : forall s1,
             drawflow s1 = drawflow s -> module s1 = module s ->
             (forall x P' y Q',
                 elem_count x P' y Q' (connection_eles s1)
                 + one_less m a P b Q (module s) x P' y Q'
                 = elem_count x P' y Q' (connection_eles s)) ->
             (forall c, In c (connection_eles s1) -> In c (connection_eles s)) ->
             (module s <> m -> connection_eles s1 = connection_eles s) ->
     wp (df <- gets drawflow ;;
         outs <- defined (output_connections df m a P) ;;
         set_drawflow
           (set_output_connections df m a P
              (splice1 (findIndex (fun item => (oc_node item =? b) && (oc_output item =? Q))
                                  outs) outs)) ;;
         df <- gets drawflow ;;
         ins <- defined (input_connections df m b Q) ;;
         set_drawflow
           (set_input_connections df m b Q
              (splice1 (findIndex (fun item => (ic_node item =? a) && (ic_input item =? P))
                                  ins) ins)) ;;
         dispatch (connectionRemoved a b P Q) ;;
         ret true)
        R s1).
  { intros s1 Ed Em Hcount Hsub Hother. apply wp_bind, wp_gets. rewrite Ed, Ho.
    apply wp_bind, wp_defined. intros outs' Eo. injection Eo as <-.
    apply wp_bind. unfold set_drawflow at 1. apply wp_modify.
    apply wp_bind, wp_gets. cbn [drawflow with_drawflow]. rewrite Hj. cbn [splice1].
    fold df1. rewrite Hi1.
    apply wp_bind, wp_defined. intros ins' Ei. injection Ei as <-.
    apply wp_bind. unfold set_drawflow at 1. apply wp_modify.
    apply wp_bind. unfold dispatch. apply wp_modify. apply wp_ret.
    cbn [drawflow with_drawflow with_dispatched]. rewrite Hk. cbn [splice1]. fold df2.
    split; [|split; [exact (unplugged_Balanced _ _ _ _ _ _ _ Hun HB)|]].
    { destruct HD as (Hwf & Hcnt). split.
      - cbn [connection_eles with_drawflow with_dispatched]. intros c Hc.
        exact (Hwf c (Hsub c Hc)).
      - intros x P' y Q'.
        cbn [connection_eles drawflow module with_drawflow with_dispatched]. rewrite Em.
        destruct Hun as (_ & Ho2 & _). specialize (Ho2 (module s) x P' y Q').
        specialize (Hcount x P' y Q'). specialize (Hcnt x P' y Q'). lia. }
    split; [exact Em|]. right. split; [reflexivity|]. exists m.
    split; [exact Hma|]. split; [exact Hmb|]. split; [exact Hun|].
    split; [exact Hcount | exact Hother]. }
  apply wp_bind, wp_gets. rewrite Hma. cbn [same_key].
  destruct (String.eqb_spec (module s) m) as [Eact|Eact]; cbn [when].
  - apply wp_bind. unfold remove_connection_ele.
    apply wp_bind, wp_gets, wp_bind, wp_defined. intros i Hfound.
    apply wp_modify. destruct HD as (Hwf & Hcnt).
    pose proof (findIndex_connection a P b Q _ HP HQ Hwf i Hfound) as Hnth.
    apply Hrest; try reflexivity.
    + intros x P' y Q'. cbn [connection_eles with_connection_eles].
      pose proof (elem_count_remove_nth x P' y Q' _ _ _ Hnth) as He.
      rewrite same_classes_connection_ele in He.
      unfold one_less. rewrite Eact, String.eqb_refl. cbn [andb]. exact He.
    + cbn [connection_eles with_connection_eles]. intros c Hc.
      exact (In_remove_nth_In _ _ _ Hc).
    + intros Hne. congruence.
  - apply wp_bind, wp_ret. apply Hrest; auto.
    intros x P' y Q'. unfold one_less. apply String.eqb_neq in Eact. rewrite Eact.
    cbn [andb]. lia.
Qed.

Lemma removeSingleConnection_keeps_drawn_witness :
  exists s',
    removeSingleConnection "1" "2" "output_1" "input_1" connected_pair_example
    = Normal s' true
    /\ connection_eles s' = []
    /\ Drawn s'
    /\ unplugged (drawflow connected_pair_example) "Home" "1" "output_1" "2" "input_1"
         (drawflow s').
Proof.
  set (s' := state_after (removeSingleConnection "1" "2" "output_1" "input_1"
                            connected_pair_example)).
  exists s'. split; [vm_compute; reflexivity|]. split; [reflexivity|].
  destruct (removeSingleConnection_keeps_drawn connected_pair_example s' true
              "1" "2" "output_1" "input_1")
    as (HD & _ & _ & [(Hr & _)|(_ & m & Hm & _ & Hun & _)]).
  - apply drawn_Drawn. vm_compute. reflexivity.
  - apply balanced_Balanced. vm_compute. reflexivity.
  - now exists "1".
  - now exists "1".
  - vm_compute. reflexivity.
  - discriminate Hr.
  - split; [exact HD|]. injection Hm as <-. exact Hun.
Defined.


(** [load] on an empty view. *)
Lemma load_draws s s1 nodes :
  connection_eles s = [] ->
  obj_get (module s) (drawflow s) = Some nodes ->
  well_labelled nodes ->
  Balanced (drawflow s) ->
  finishes load s s1 ->
  drawflow s1 = drawflow s /\ module s1 = module s /\ dispatched s1 = dispatched s
  /\ zoom s1 = zoom s
  /\ Drawn s1.
Proof.
  intros Hempty Hnodes Hw HB Hl.
  pose proof (finishes_final_state _ _ _ Hl) as Hfin.
  assert (Hd1 : drawflow s1 = drawflow s) by (apply (keeps_load drawflow); auto).
  assert (Hm1 : module s1 = module s) by (apply (keeps_load module); auto).
  assert (Hev1 : dispatched s1 = dispatched s) by (apply (keeps_load dispatched); auto).
  assert (Hz1 : zoom s1 = zoom s) by (apply (keeps_load zoom); auto).
  pose proof (load_eles _ _ _ Hnodes Hl) as He1. rewrite Hempty in He1. cbn [app] in He1.
  split; [exact Hd1|]. split; [exact Hm1|]. split; [exact Hev1|]. split; [exact Hz1|].
  unfold Drawn. rewrite Hd1, Hm1, He1. split.
  - intros c Hc. apply in_flat_map in Hc as (n & Hn & Hc).
    apply in_map_iff in Hn as ([k n'] & <- & Hkn). cbn [snd] in Hc.
    destruct Hw as (_ & Hw). destruct (Hw k n' Hkn) as (_ & _ & Hlab).
    unfold import_connection_eles in Hc. apply in_flat_map in Hc as ([Q l] & HQ & Hc).
    apply in_map_iff in Hc as (e & <- & He). cbn [fst snd] in He |- *.
    destruct (Hlab Q l HQ) as (HQl & Hl').
    exists (ic_node e), (ic_input e), (id_string (n_id n')), Q.
    split; [apply connection_classes_ele; auto | auto].
  - intros a P b Q. rewrite (elem_count_nodes nodes a P b Q Hw).
    rewrite (HB (module s) a P b Q). unfold in_count, input_connections, node_at.
    rewrite Hnodes. destruct (obj_get b nodes) as [n|]; reflexivity.
Qed.

Lemma finishes_bind_last {A} (c : M A) (k : M unit) s s' :
  no_reference_error k ->
  finishes (c ;; k) s s' ->
  exists s1, finishes c s s1
             /\ (k s1 = Normal s' tt \/ (s' = s1 /\ c s = Throw s1 ReferenceError)).
Proof.
  intros Hk [([] & H)|H]; unfold bind in H;
    destruct (c s) as [s1 a|s1 e|] eqn:E; try discriminate.
  - exists s1. split; [left; now exists a | left; exact H].
  - destruct (Hk _ _ H).
  - injection H as -> ->. exists s'. split; [now right | right; auto].
Qed.

(** X22.  What [import] draws.  When [import] of [data] finishes (it
    returns, or, the active module holding a connection, its
    [updateConnectionNodes] throws) -- [data] being exact as JSON,
    balanced, and the nodes of the active module labelled as the editor
    labels them -- the store is [data] and the view shows it: one
    connection element for each entry, and no other.  So the conditions
    under which a node is removed with all its connections hold after an
    import. *)
Theorem import_draws :
  forall (data : store) (notifi : bool) (s s' : editor) (nodes : obj node),
    exact_store data = true ->
    Balanced data ->
    obj_get (module s) data = Some nodes ->
    well_labelled nodes ->
    finishes (import data notifi) s s' ->
    drawflow s' = data /\ module s' = module s /\ Drawn s'.
Proof.
  intros data notifi s s' nodes Hx HB Hnodes Hw Hrun.
  unfold finishes in Hrun. rewrite import_unfold, (clone_store_exact _ Hx) in Hrun.
  match type of Hrun with context [bind _ _ ?s0] => set (s0' := s0) in Hrun end.
  destruct (finishes_bind_last load (when notifi (dispatch imported)) s0' s')
    as (s1 & Hl & Hend).
  { apply nre_when. unfold dispatch. apply nre_modify. }
  { exact Hrun. }
  destruct (load_draws s0' s1 nodes eq_refl Hnodes Hw HB Hl) as (Hd1 & Hm1 & _ & _ & HD1).
  assert (H2 : drawflow s' = drawflow s1 /\ module s' = module s1
               /\ connection_eles s' = connection_eles s1).
  { destruct Hend as [Hend|(-> & _)]; [|auto].
    destruct notifi; cbn [when] in Hend; unfold dispatch, modify, ret in Hend;
      injection Hend as <-; auto. }
  destruct H2 as (Hd2 & Hm2 & He2).
  split; [rewrite Hd2, Hd1; reflexivity|]. split; [rewrite Hm2, Hm1; reflexivity|].
  unfold Drawn. rewrite Hd2, Hm2, He2. exact HD1.
Qed.

Lemma import_draws_witness :
  (exists s',
      import (drawflow renumbering_example) false new_editor = Throw s' ReferenceError
      /\ drawflow s' = drawflow renumbering_example
      /\ Drawn s')
  /\ exists s',
      import (drawflow inactive_module_example) true new_editor = Normal s' tt
      /\ Drawn s'.
Proof.
  split.
  - eexists. split; [vm_compute; reflexivity|].
    refine ((fun H => conj (proj1 H) (proj2 (proj2 H)))
              (import_draws (drawflow renumbering_example) false new_editor _
                 (match obj_get "Home" (drawflow renumbering_example) with
                  | Some d => d
                  | None => []
                  end) _ _ _ _ _)).
    + vm_compute. reflexivity.
    + apply balanced_Balanced. vm_compute. reflexivity.
    + reflexivity.
    + apply well_labelled_checked. vm_compute. reflexivity.
    + right. vm_compute. reflexivity.
  - eexists. split; [vm_compute; reflexivity|].
    refine (proj2 (proj2 (import_draws (drawflow inactive_module_example) true new_editor _
                            (match obj_get "Home" (drawflow inactive_module_example) with
                             | Some d => d
                             | None => []
                             end) _ _ _ _ _))).
    + vm_compute. reflexivity.
    + apply balanced_Balanced. vm_compute. reflexivity.
    + reflexivity.
    + apply well_labelled_checked. vm_compute. reflexivity.
    + left. exists tt. vm_compute. reflexivity.
Defined.

(** X24.  Changing the module.  When [changeModule(name)] finishes (it
    returns, or, the module holding a connection, the
    [updateConnectionNodes] of its [load] throws), in a store that is
    exact as JSON and balanced, for a module whose nodes are labelled as
    the editor labels them: [name] is the active module, the store is as
    it was, the view shows the module (one connection element for each of
    its entries, and no other), the zoom is back to 1, and [moduleChanged]
    is the one event dispatched. *)
Theorem changeModule_draws :
  forall (name : string) (s s' : editor) (nodes : obj node),
    exact_store (drawflow s) = true ->
    Balanced (drawflow s) ->
    obj_get name (drawflow s) = Some nodes ->
    well_labelled nodes ->
    finishes (changeModule name) s s' ->
    module s' = name
    /\ drawflow s' = drawflow s
    /\ Drawn s'
    /\ zoom s' = 1%float
    /\ dispatched s' = dispatched s ++ [moduleChanged name].
Proof.
  intros name s s' nodes Hx HB Hnodes Hw Hrun.
  set (s0 := with_drawflow
               (with_drawflow
                  (with_connection_eles
                     (with_node_eles
                        (with_zoom
                           (with_connection_eles
                              (with_node_eles
                                 (with_module (with_dispatched s
                                    (dispatched s ++ [moduleChanged name])) name) []) [])
                           1 1 0 0) []) []) [("Home", [])])
               (drawflow s)).
  assert (E : changeModule name s = load s0).
  { unfold changeModule. unfold bind at 1. unfold gets at 1. rewrite Hnodes.
    unfold bind at 1. unfold dispatch at 1. unfold modify at 1.
    unfold bind at 1. unfold modify at 1.
    unfold bind at 1. unfold clear_view at 1. unfold modify at 1.
    unfold bind at 1. unfold modify at 1.
    unfold bind at 1. unfold gets at 1.
    cbn [drawflow with_zoom with_connection_eles with_node_eles with_module with_dispatched].
    rewrite import_unfold, (clone_store_exact _ Hx). cbn [when].
    unfold bind. fold s0. destruct (load s0) as [s1 []|s1 e|]; reflexivity. }
  assert (Hl : finishes load s0 s').
  { unfold finishes in *. rewrite <- E. exact Hrun. }
  destruct (load_draws s0 s' nodes eq_refl Hnodes Hw HB Hl) as (Hd1 & Hm1 & Hev1 & Hz1 & HD1).
  split; [exact Hm1|]. split; [exact Hd1|]. split; [exact HD1|].
  split; [exact Hz1 | exact Hev1].
Qed.

Lemma changeModule_draws_witness :
  (exists s',
      changeModule "Other" two_modules_example = Throw s' ReferenceError
      /\ module s' = "Other"
      /\ connection_eles s' = [connection_ele "3" "output_1" "4" "input_1"]
      /\ Drawn s')
  /\ exists s',
      changeModule "Other" other_pair_example = Normal s' tt
      /\ module s' = "Other"
      /\ connection_eles s' = []
      /\ Drawn s'.
Proof.
  split.
  - eexists. split; [vm_compute; reflexivity|]. split; [reflexivity|]. split; [reflexivity|].
    refine (proj1 (proj2 (proj2 (changeModule_draws "Other" two_modules_example _
                                   (match obj_get "Other" (drawflow two_modules_example) with
                                    | Some d => d
                                    | None => []
                                    end) _ _ _ _ _)))).
    + vm_compute. reflexivity.
    + apply balanced_Balanced. vm_compute. reflexivity.
    + reflexivity.
    + apply well_labelled_checked. vm_compute. reflexivity.
    + right. vm_compute. reflexivity.
  - eexists. split; [vm_compute; reflexivity|]. split; [reflexivity|]. split; [reflexivity|].
    refine (proj1 (proj2 (proj2 (changeModule_draws "Other" other_pair_example _
                                   (match obj_get "Other" (drawflow other_pair_example) with
                                    | Some d => d
                                    | None => []
                                    end) _ _ _ _ _)))).
    + vm_compute. reflexivity.
    + apply balanced_Balanced. vm_compute. reflexivity.
    + reflexivity.
    + apply well_labelled_checked. vm_compute. reflexivity.
    + left. exists tt. vm_compute. reflexivity.
Defined.


(** ** The ports of a new node *)









(** ** Port labels as numerals *)

Lemma digits_string_of_uint d :
  forallb is_digit (list_ascii_of_string (NilEmpty.string_of_uint d)) = true.
Proof. induction d; cbn; auto. Qed.

Lemma string_of_uint_nonempty d :
  d <> Decimal.Nil -> NilEmpty.string_of_uint d <> "".
Proof. destruct d; cbn; congruence. Qed.

Lemma decimal_string_of_N n : decimal (string_of_N n) = Some n.
Proof.
  unfold string_of_N.
  assert (E : NilZero.string_of_uint (N.to_uint n) = NilEmpty.string_of_uint (N.to_uint n)).
  { pose proof (to_uint_nonnil n). unfold NilZero.string_of_uint.
    destruct (N.to_uint n); [congruence | reflexivity..]. }
  rewrite E.
  pose proof (string_of_uint_nonempty _ (to_uint_nonnil n)) as Hne.
  pose proof (digits_string_of_uint (N.to_uint n)) as Hd.
  assert (Hu : NilZero.uint_of_string (NilEmpty.string_of_uint (N.to_uint n))
               = Some (N.to_uint n)).
  { rewrite <- E. apply NilZero.usu, to_uint_nonnil. }
  unfold decimal.
  destruct (NilEmpty.string_of_uint (N.to_uint n)) as [|c r]; [congruence|].
  rewrite Hd, Hu. cbn [option_map]. now rewrite DecimalN.Unsigned.of_to.
Qed.

Lemma string_of_Z_pred (j : N) : (1 <= j)%N -> string_of_Z (Z.of_N j - 1) = string_of_N (j - 1).
Proof.
  intros H. unfold string_of_Z, string_of_N.
  replace (Z.of_N j - 1)%Z with (Z.of_N (j - 1)) by lia.
  destruct (j - 1)%N as [|p]; reflexivity.
Qed.

Lemma slice_input_label j : slice 6 (port_label "input_" j) = string_of_N (N.of_nat j).
Proof. reflexivity. Qed.

Lemma slice_output_label j : slice 7 (port_label "output_" j) = string_of_N (N.of_nat j).
Proof. reflexivity. Qed.

(** What the renumbering does to an entry for the node, by the number of
    its label. *)
Lemma renumber_out_label id q j pts :
  1 <= j ->
  renumber_out id (string_of_N (N.of_nat q))
    {| oc_node := id; oc_output := port_label "input_" j; oc_points := pts |}
  = {| oc_node := id; oc_output := port_label "input_" (unshift q j); oc_points := pts |}.
Proof.
  intros Hj. unfold renumber_out, unshift. cbn [oc_node oc_output oc_points].
  rewrite String.eqb_refl, slice_input_label, !parseInt_string_of_N. cbn [andb js_lt].
  destruct (Nat.ltb_spec q j) as [Hlt|Hge].
  - replace (Z.of_N (N.of_nat q) <? Z.of_N (N.of_nat j))%Z with true
      by (symmetry; apply Z.ltb_lt; lia).
    rewrite decimal_string_of_N, string_of_Z_pred by lia.
    unfold port_label. do 3 f_equal. lia.
  - replace (Z.of_N (N.of_nat q) <? Z.of_N (N.of_nat j))%Z with false
      by (symmetry; apply Z.ltb_ge; lia).
    reflexivity.
Qed.

Lemma renumber_in_label id q j pts :
  1 <= j ->
  renumber_in id (string_of_N (N.of_nat q))
    {| ic_node := id; ic_input := port_label "output_" j; ic_points := pts |}
  = {| ic_node := id; ic_input := port_label "output_" (unshift q j); ic_points := pts |}.
Proof.
  intros Hj. unfold renumber_in, unshift. cbn [ic_node ic_input ic_points].
  rewrite String.eqb_refl, slice_output_label, !parseInt_string_of_N. cbn [andb js_lt].
  destruct (Nat.ltb_spec q j) as [Hlt|Hge].
  - replace (Z.of_N (N.of_nat q) <? Z.of_N (N.of_nat j))%Z with true
      by (symmetry; apply Z.ltb_lt; lia).
    rewrite decimal_string_of_N, string_of_Z_pred by lia.
    unfold port_label. do 3 f_equal. lia.
  - replace (Z.of_N (N.of_nat q) <? Z.of_N (N.of_nat j))%Z with false
      by (symmetry; apply Z.ltb_ge; lia).
    reflexivity.
Qed.

Lemma unshift_shift q j' j :
  1 <= q -> j <> q -> (unshift q j = j' <-> j = shift q j').
Proof.
  unfold unshift, shift. intros Hq Hne.
  destruct (Nat.ltb_spec q j), (Nat.ltb_spec j' q); lia.
Qed.


(** ** Removing a port keeps the balance *)

(** [removeSingleConnection] on a connection that a balanced store holds:
    one entry less on each side. *)
Lemma removeSingleConnection_unplugs a b P Q m s :
  Balanced (drawflow s) ->
  getModuleFromNodeId (drawflow s) a = Some m ->
  getModuleFromNodeId (drawflow s) b = Some m ->
  0 < out_count (drawflow s) m a P b Q ->
  wp (removeSingleConnection a b P Q)
     (fun _ s' => unplugged (drawflow s) m a P b Q (drawflow s')) s.
Proof.
  intros HB Ha Hb Hpos.
  unfold removeSingleConnection. apply wp_bind, wp_gets. cbv zeta.
  rewrite Ha, Hb. cbn [option_string_eqb key_of]. rewrite String.eqb_refl.
  apply wp_bind, wp_defined. intros outs Ho.
  assert (Hc : 0 < count_out b Q outs) by (unfold out_count in Hpos; now rewrite Ho in Hpos).
  destruct (count_out_findIndex _ _ _ Hc) as (j & Hj). rewrite Hj.
  destruct (input_connections (drawflow s) m b Q) as [ins|] eqn:Hi.
  2:{ exfalso. pose proof (HB m a P b Q) as H. unfold out_count, in_count in H.
      rewrite Ho, Hi in H. lia. }
  assert (Hci : 0 < count_in a P ins).
  { pose proof (HB m a P b Q) as H. unfold out_count, in_count in H.
    rewrite Ho, Hi in H. lia. }
  destruct (count_in_findIndex _ _ _ Hci) as (k & Hk & _).
  set (df1 := set_output_connections (drawflow s) m a P (remove_nth j outs)).
  assert (Hi1 : input_connections df1 m b Q = Some ins).
  { unfold df1. now rewrite (input_set_output _ _ _ _ _ _ Ho). }
  assert (Hrest : forall s1, drawflow s1 = drawflow s ->
     wp (df <- gets drawflow ;;
         outs <- defined (output_connections df m a P) ;;
         set_drawflow
           (set_output_connections df m a P
              (splice1 (findIndex (fun item => (oc_node item =? b) && (oc_output item =? Q))
                                  outs) outs)) ;;
         df <- gets drawflow ;;
         ins <- defined (input_connections df m b Q) ;;
         set_drawflow
           (set_input_connections df m b Q
              (splice1 (findIndex (fun item => (ic_node item =? a) && (ic_input item =? P))
                                  ins) ins)) ;;
         dispatch (connectionRemoved a b P Q) ;;
         ret true)
        (fun _ s2 => unplugged (drawflow s) m a P b Q (drawflow s2)) s1).
  { intros s1 Ed. apply wp_bind, wp_gets. rewrite Ed, Ho.
    apply wp_bind, wp_defined. intros outs' Eo. injection Eo as <-.
    apply wp_bind. unfold set_drawflow at 1. apply wp_modify.
    apply wp_bind, wp_gets. cbn [drawflow with_drawflow]. rewrite Hj. cbn [splice1].
    fold df1. rewrite Hi1.
    apply wp_bind, wp_defined. intros ins' Ei. injection Ei as <-.
    apply wp_bind. unfold set_drawflow at 1. apply wp_modify.
    apply wp_bind. unfold dispatch. apply wp_modify. apply wp_ret.
    cbn [drawflow with_drawflow with_dispatched]. rewrite Hk. cbn [splice1].
    apply (unplug_output_first _ _ _ _ _ _ _ _ _ _ Ho Hj Hi Hk). }
  apply wp_bind, wp_gets.
  apply wp_bind, wp_when; intros _.
  - apply wp_remove_connection_ele. intros s1 E. apply Hrest, E.
  - apply Hrest. reflexivity.
Qed.

Lemma out_count_node df m a P b Q :
  0 < out_count df m a P b Q -> node_at df m a <> None.
Proof.
  unfold out_count, output_connections. destruct (node_at df m a); [discriminate | lia].
Qed.

Section DisconnectCounts.
Variables (df0 : store) (m id Q : string).
Hypothesis Hmod : getModuleFromNodeId df0 id = Some m.
Hypothesis Hhome :
  forall b, node_at df0 m b <> None -> getModuleFromNodeId df0 b = Some m.

(** The counts while the loop that disconnects the input [Q] of [id] runs,
    [rem] being the entries of the port still to go: the store is
    balanced, the port holds what is still to go, and every count that is
    not one of the port is as at the start. *)
Definition disconnect_counts (rem : list in_conn) (df : store) : Prop :=
  store_keys df = store_keys df0
  /\ Balanced df
  /\ (forall b P, in_count df m id Q b P = count_in b P rem)
  /\ (forall m' x P' y Q',
         (m' =? m) && (y =? id) && (Q' =? Q) = false ->
         out_count df m' x P' y Q' = out_count df0 m' x P' y Q').

Lemma removeSingleConnection_counts c rem s :
  disconnect_counts (c :: rem) (drawflow s) ->
  wp (removeSingleConnection (ic_node c) id (ic_input c) Q ;; ret tt)
     (fun _ s' => disconnect_counts rem (drawflow s')) s.
Proof.
  intros (Hk & HB & Hin & Hout).
  assert (Hpos : 0 < out_count (drawflow s) m (ic_node c) (ic_input c) id Q).
  { rewrite (HB m (ic_node c) (ic_input c) id Q), Hin. unfold count_in. cbn [filter].
    rewrite !String.eqb_refl. cbn [andb length]. lia. }
  assert (Ha : getModuleFromNodeId (drawflow s) (ic_node c) = Some m).
  { rewrite (getModuleFromNodeId_keys _ _ _ Hk). apply Hhome.
    intros Hn. apply (out_count_node _ _ _ _ _ _ Hpos).
    apply (node_at_None_store_keys _ _ m (ic_node c) Hk). exact Hn. }
  assert (Hb : getModuleFromNodeId (drawflow s) id = Some m)
    by (rewrite (getModuleFromNodeId_keys _ _ _ Hk); exact Hmod).
  apply wp_bind. eapply wp_mono;
    [apply (removeSingleConnection_unplugs _ _ _ _ m s HB Ha Hb Hpos)|].
  intros r s' (Hk' & Ho' & Hi'). apply wp_ret.
  split; [congruence|].
  split; [exact (unplugged_Balanced _ _ _ _ _ _ _ (conj Hk' (conj Ho' Hi')) HB)|].
  split.
  - intros b P.
    pose proof (Hi' m b P id Q) as E. rewrite Hin in E.
    unfold one_less in E. rewrite !String.eqb_refl in E. cbn [andb] in E.
    rewrite !andb_true_r in E.
    unfold count_in in E |- *. cbn [filter] in E.
    rewrite (String.eqb_sym b), (String.eqb_sym P) in E.
    destruct ((ic_node c =? b) && (ic_input c =? P)); cbn [length] in E; lia.
  - intros m' x P' y Q' Hne. rewrite <- (Hout m' x P' y Q' Hne).
    pose proof (Ho' m' x P' y Q') as E. unfold one_less in E.
    assert (Ez : (m' =? m) && (x =? ic_node c) && (P' =? ic_input c) && (y =? id) && (Q' =? Q)
                 = false).
    { destruct (m' =? m), (y =? id), (Q' =? Q); cbn [andb] in Hne |- *;
        rewrite ?andb_false_r; try reflexivity; discriminate. }
    rewrite Ez in E. lia.
Qed.

Lemma disconnect_loop_counts (removed : list in_conn) s :
  disconnect_counts removed (drawflow s) ->
  wp (forEach removed
        (fun c => removeSingleConnection (ic_node c) id (ic_input c) Q ;; ret tt))
     (fun _ s' => disconnect_counts [] (drawflow s')) s.
Proof.
  intros H.
  apply (wp_forEach_remaining (fun rem s0 => disconnect_counts rem (drawflow s0))); [|exact H].
  intros x r s0 H0. apply removeSingleConnection_counts, H0.
Qed.

End DisconnectCounts.


Lemma count_in_clone a P l : count_in a P (map clone_in_conn l) = count_in a P l.
Proof.
  unfold count_in. induction l as [|c l IH]; [reflexivity|].
  cbn [map filter clone_in_conn ic_node ic_input].
  destruct ((ic_node c =? a) && (ic_input c =? P)); cbn [length]; rewrite IH; reflexivity.
Qed.

(** *** Ports labelled 1, 2, ... *)

Lemma nth_error_remove_nth {A} (l : list A) : forall i n,
  nth_error (remove_nth i l) n = nth_error l (if Nat.ltb n i then n else S n).
Proof.
  induction l as [|x l IH]; intros i n.
  - replace (remove_nth i (@nil A)) with (@nil A) by (now destruct i).
    destruct (Nat.ltb n i); now destruct n.
  - destruct i as [|i]; [reflexivity|]. destruct n as [|n]; [reflexivity|].
    cbn [remove_nth nth_error]. rewrite IH.
    change (Nat.ltb (S n) (S i)) with (Nat.ltb n i). destruct (Nat.ltb n i); reflexivity.
Qed.

Lemma obj_values_delete {A} k (o : obj A) : forall i,
  NoDup (obj_keys o) -> nth_error (obj_keys o) i = Some k ->
  obj_values (obj_delete k o) = remove_nth i (obj_values o).
Proof.
  induction o as [|[j v] r IH]; intros i Hnd Hi; [destruct i; discriminate|].
  cbn [obj_keys map fst] in Hnd, Hi. inversion Hnd as [|? ? Hj Hr]; subst.
  cbn [obj_delete obj_values map snd].
  destruct i as [|i]; cbn [nth_error] in Hi.
  - injection Hi as ->. rewrite String.eqb_refl. reflexivity.
  - destruct (String.eqb_spec j k) as [->|Hne].
    + exfalso. apply Hj. exact (nth_error_In _ _ Hi).
    + cbn [map snd remove_nth]. f_equal. apply (IH i Hr Hi).
Qed.

Lemma obj_get_labelled {A} prefix (vals : list A) : forall a j,
  obj_get (port_label prefix j) (combine (map (port_label prefix) (seq a (length vals))) vals)
  = if Nat.leb a j then nth_error vals (j - a) else None.
Proof.
  induction vals as [|v vals IH]; intros a j; cbn [length seq map combine obj_get].
  - destruct (Nat.leb a j); [|reflexivity]. now destruct (j - a).
  - destruct (String.eqb_spec (port_label prefix a) (port_label prefix j)) as [E|Hne].
    + apply port_label_inj in E. subst a. rewrite Nat.leb_refl, Nat.sub_diag. reflexivity.
    + rewrite IH. assert (a <> j) by congruence.
      destruct (Nat.leb_spec (S a) j), (Nat.leb_spec a j); try lia; [|reflexivity].
      replace (j - a) with (S (j - S a)) by lia. reflexivity.
Qed.

Lemma NoDup_port_labels prefix a k : NoDup (map (port_label prefix) (seq a k)).
Proof.
  revert a. induction k as [|k IH]; intros a; cbn [seq map]; constructor; [|apply IH].
  intros Hin. apply in_map_iff in Hin as (j & E & Hj). apply port_label_inj in E.
  apply in_seq in Hj. lia.
Qed.

(** The ports after one is deleted and the others are labelled anew: port
    [j'] holds what port [shift q j'] held. *)
Lemma obj_get_relabelled {A} prefix (o : obj A) k q j' :
  obj_keys o = map (port_label prefix) (seq 1 k) ->
  1 <= q <= k ->
  obj_get (port_label prefix j')
    (combine (map (port_label prefix)
                (seq 1 (length (obj_values (obj_delete (port_label prefix q) o)))))
       (obj_values (obj_delete (port_label prefix q) o)))
  = obj_get (port_label prefix (shift q j')) o.
Proof.
  intros Hk Hq.
  assert (Hnd : NoDup (obj_keys o)) by (rewrite Hk; apply NoDup_port_labels).
  assert (Hi : nth_error (obj_keys o) (q - 1) = Some (port_label prefix q)).
  { rewrite Hk, nth_error_map, nth_error_seq.
    destruct (Nat.ltb_spec (q - 1) k); [|lia]. cbn. do 2 f_equal. lia. }
  rewrite obj_get_labelled, (obj_values_delete _ _ _ Hnd Hi), nth_error_remove_nth.
  assert (Ho : o = combine (map (port_label prefix) (seq 1 (length (obj_values o))))
                     (obj_values o)).
  { unfold obj_values at 1. rewrite length_map.
    replace (length o) with k
      by (rewrite <- (length_map fst o); fold (obj_keys o); rewrite Hk;
          now rewrite length_map, length_seq).
    rewrite <- Hk. unfold obj_keys, obj_values. symmetry. apply combine_fst_snd. }
  rewrite Ho at 2. rewrite obj_get_labelled. unfold shift.
  destruct j' as [|j'].
  - destruct (Nat.ltb_spec 0 q); [|lia]. reflexivity.
  - cbn [Nat.leb]. replace (S j' - 1) with j' by lia.
    destruct (Nat.ltb_spec j' (q - 1)), (Nat.ltb_spec (S j') q); try lia.
    + cbn [Nat.leb]. now replace (S j' - 1) with j' by lia.
    + cbn [Nat.leb]. now replace (S (S j') - 1) with (S j') by lia.
Qed.

Lemma obj_keys_relabelled {A} prefix (o : obj A) k Q :
  obj_keys o = map (port_label prefix) (seq 1 k) ->
  In Q (obj_keys o) ->
  obj_keys (combine (map (port_label prefix) (seq 1 (length (obj_values (obj_delete Q o)))))
              (obj_values (obj_delete Q o)))
  = map (port_label prefix) (seq 1 (k - 1)).
Proof.
  intros Hk HQ. rewrite obj_keys_combine by now rewrite length_map, length_seq.
  unfold obj_values. rewrite length_map, (length_obj_delete _ _ HQ).
  replace (length o) with k; [reflexivity|].
  rewrite <- (length_map fst o). fold (obj_keys o). rewrite Hk.
  now rewrite length_map, length_seq.
Qed.

(** *** The peers to renumber, each once *)

Lemma dedup_ports_from (l : list in_conn) : forall seen,
  (forall c, In c l -> ic_points c = None) ->
  (forall u, In u seen -> ic_points u = None) ->
  NoDup (map port_of seen) ->
  NoDup (map port_of
           (fold_left
              (fun seen e => if existsb (in_conn_eqb (clone_in_conn e)) seen
                             then seen else seen ++ [clone_in_conn e])
              l seen)).
Proof.
  induction l as [|x r IH]; intros seen Hl Hs Hnd; [exact Hnd|].
  cbn [fold_left]. destruct (existsb _ seen) eqn:E.
  - apply IH; [intros c Hc; apply Hl; now right | exact Hs | exact Hnd].
  - assert (Hx : ic_points (clone_in_conn x) = None)
      by (cbn; rewrite (Hl x (or_introl eq_refl)); reflexivity).
    apply IH; [intros c Hc; apply Hl; now right | |].
    + intros u Hu. apply in_app_or in Hu as [Hu|[<-|[]]]; [apply Hs, Hu | exact Hx].
    + rewrite map_app. apply NoDup_app; [exact Hnd | repeat constructor; intros [] |].
      intros p Hp [<-|[]]. apply in_map_iff in Hp as (u & Eu & Hu).
      assert (Hf : existsb (in_conn_eqb (clone_in_conn x)) seen = true).
      { apply existsb_exists. exists u. split; [exact Hu|].
        unfold in_conn_eqb. rewrite Hx, (Hs u Hu). unfold port_of in Eu.
        injection Eu as -> ->. rewrite !String.eqb_refl. reflexivity. }
      congruence.
Qed.

Lemma dedup_ports (l : list in_conn) :
  (forall c, In c l -> ic_points c = None) ->
  NoDup (map port_of (dedup in_conn_eqb clone_in_conn l)).
Proof.
  intros Hl. apply dedup_ports_from; [exact Hl | intros u [] | constructor].
Qed.

(** *** The peers' output ports after the loop that renumbers them *)

Section PeersOutputs.
Variables (m : string) (active : bool) (id removed : string) (df3 : store).

Definition peers_renumbered (done : list in_conn) (df : store) : Prop :=
  (forall m' b P, m' <> m \/ ~ In (b, P) (map port_of done) ->
                  output_connections df m' b P = output_connections df3 m' b P)
  /\ (forall b P, In (b, P) (map port_of done) ->
                  output_connections df m b P
                  = option_map (map (renumber_out id removed)) (output_connections df3 m b P))
  /\ (forall m' b, option_map n_inputs (node_at df m' b)
                   = option_map n_inputs (node_at df3 m' b))
  /\ store_keys df = store_keys df3.

Lemma peers_loop_outputs (U : list in_conn) s :
  drawflow s = df3 ->
  NoDup (map port_of U) ->
  wp (forEach U (renumber_peer_output m active id removed))
     (fun _ s' => peers_renumbered U (drawflow s')) s.
Proof.
  intros Hs Hnd.
  eapply wp_mono.
  - apply (wp_forEach_remaining
             (fun rem s0 => exists done, U = done ++ rem /\ peers_renumbered done (drawflow s0))).
    + intros x rem s0 (done & HU & H1 & H2 & H3 & H4).
      eapply wp_mono; [apply renumber_peer_output_spec|].
      intros u s' (l & Hl & Hnew & Hother & Hin & Hk).
      assert (Hx : ~ In (port_of x) (map port_of done)).
      { rewrite HU, map_app in Hnd. cbn [map] in Hnd.
        apply NoDup_remove_2 in Hnd. intros Hi. apply Hnd, in_or_app. now left. }
      exists (done ++ [x]). split; [now rewrite <- app_assoc|].
      assert (Hdec : forall b P, {(b, P) = port_of x} + {(b, P) <> port_of x}).
      { intros b P. unfold port_of.
        destruct (string_dec b (ic_node x)) as [->|Hb];
          [destruct (string_dec P (ic_input x)) as [->|HP]|];
          [left; reflexivity | right; congruence | right; congruence]. }
      assert (Hne : forall b P, (b, P) <> port_of x -> b <> ic_node x \/ P <> ic_input x).
      { intros b P Hn. unfold port_of in Hn.
        destruct (string_dec b (ic_node x)) as [->|Hb]; [right | left; exact Hb].
        intros ->. now apply Hn. }
      split; [|split; [|split]].
      * intros m' b P Hc. rewrite map_app, in_app_iff in Hc. cbn [map In] in Hc.
        rewrite Hother; [apply H1; tauto|].
        destruct Hc as [Hc|Hc]; [now left|]. right.
        apply Hne. intros E. apply Hc. right. left. now symmetry.
      * intros b P Hc. rewrite map_app, in_app_iff in Hc. cbn [map In] in Hc.
        destruct (Hdec b P) as [E|Hd].
        -- unfold port_of in E. injection E as -> ->. rewrite Hnew.
           rewrite <- (H1 m (ic_node x) (ic_input x) (or_intror Hx)), Hl. reflexivity.
        -- rewrite Hother by (right; apply Hne, Hd). apply H2.
           destruct Hc as [Hc|[Hc|[]]]; [exact Hc | congruence].
      * intros m' b. rewrite Hin. apply H3.
      * congruence.
    + exists []. split; [reflexivity|]. rewrite Hs.
      split; [reflexivity|]. split; [intros b P []|]. split; reflexivity.
  - intros u s' (done & HU & H). rewrite app_nil_r in HU. subst done. exact H.
Qed.

End PeersOutputs.

(** *** Counting the entries of a renumbered port *)

Section CountRenumbered.
Variables (id : string) (q k : nat).
Hypothesis Hq : 1 <= q <= k.

Let f := renumber_out id (string_of_N (N.of_nat q)).
Let lab := port_label "input_".

(** The entries for the node are on ports other than the removed one. *)
Definition on_other_ports (l : list out_conn) : Prop :=
  forall e, In e l -> oc_node e = id ->
            exists j, 1 <= j <= k /\ j <> q /\ oc_output e = lab j.

Lemma on_other_ports_tail e l : on_other_ports (e :: l) -> on_other_ports l.
Proof. intros H x Hx. apply H. now right. Qed.

Lemma renumber_out_entry e j :
  oc_node e = id -> oc_output e = lab j -> 1 <= j ->
  oc_node (f e) = id /\ oc_output (f e) = lab (unshift q j).
Proof.
  intros Hn Ho Hj. destruct e as [b L pts]. cbn [oc_node oc_output] in Hn, Ho. subst b L.
  unfold f, lab. rewrite (renumber_out_label id q j pts Hj). split; reflexivity.
Qed.

Lemma count_out_renumbered_other b L l :
  b <> id -> count_out b L (map f l) = count_out b L l.
Proof.
  intros Hb. unfold count_out. induction l as [|e l IH]; [reflexivity|].
  cbn [map filter].
  destruct (String.eqb_spec (oc_node e) id) as [E|Hne].
  - assert (E' : oc_node (f e) = id).
    { unfold f, renumber_out. destruct (_ && _); [|exact E].
      destruct (decimal _); exact E. }
    rewrite E, E'. apply String.eqb_neq in Hb. rewrite String.eqb_sym in Hb.
    rewrite Hb. cbn [andb]. exact IH.
  - replace (f e) with e by (symmetry; apply renumber_out_other, Hne).
    destruct (_ && _); cbn [length]; now rewrite IH.
Qed.

Lemma count_out_renumbered j' l :
  on_other_ports l ->
  count_out id (lab j') (map f l) = count_out id (lab (shift q j')) l.
Proof.
  intros Hl. unfold count_out. induction l as [|e l IH]; [reflexivity|].
  cbn [map filter]. specialize (IH (on_other_ports_tail _ _ Hl)).
  destruct (String.eqb_spec (oc_node e) id) as [E|Hne].
  - destruct (Hl e (or_introl eq_refl) E) as (j & Hj & Hjq & Ho).
    destruct (renumber_out_entry e j E Ho (proj1 Hj)) as (E1 & E2).
    rewrite E1, E2, Ho, String.eqb_refl. cbn [andb].
    destruct (String.eqb_spec (lab (unshift q j)) (lab j')) as [Eu|Hu];
      destruct (String.eqb_spec (lab j) (lab (shift q j'))) as [Es|Hs];
      cbn [length]; try (now rewrite IH); exfalso.
    + apply port_label_inj in Eu. apply Hs. f_equal. apply unshift_shift; [lia | lia | assumption].
    + apply port_label_inj in Es. apply Hu. f_equal. apply unshift_shift; [lia | lia | assumption].
  - replace (f e) with e by (symmetry; apply renumber_out_other, Hne).
    apply String.eqb_neq in Hne. rewrite Hne. cbn [andb]. exact IH.
Qed.

Lemma count_out_renumbered_none L l :
  on_other_ports l ->
  ~ In L (map lab (seq 1 (k - 1))) ->
  count_out id L (map f l) = 0.
Proof.
  intros Hl HL. unfold count_out. induction l as [|e l IH]; [reflexivity|].
  cbn [map filter]. specialize (IH (on_other_ports_tail _ _ Hl)).
  destruct (String.eqb_spec (oc_node e) id) as [E|Hne].
  - destruct (Hl e (or_introl eq_refl) E) as (j & Hj & Hjq & Ho).
    destruct (renumber_out_entry e j E Ho (proj1 Hj)) as (E1 & E2).
    rewrite E1, E2. destruct (String.eqb_spec (lab (unshift q j)) L) as [<-|_];
      [|rewrite andb_false_r; exact IH].
    exfalso. apply HL, in_map, in_seq. unfold unshift.
    destruct (Nat.ltb_spec q j); lia.
  - replace (f e) with e by (symmetry; apply renumber_out_other, Hne).
    apply String.eqb_neq in Hne. rewrite Hne. cbn [andb]. exact IH.
Qed.

End CountRenumbered.


Lemma in_count_inputs df m b L a P :
  in_count df m b L a P
  = count_in a P
      (match option_map n_inputs (node_at df m b) with
       | Some o => match obj_get L o with Some l => l | None => [] end
       | None => []
       end).
Proof.
  unfold in_count, input_connections. destruct (node_at df m b) as [n|]; [|reflexivity].
  cbn [option_map]. destruct (obj_get L (n_inputs n)); reflexivity.
Qed.

Lemma in_count_same_inputs df df' m b L a P :
  option_map n_inputs (node_at df' m b) = option_map n_inputs (node_at df m b) ->
  in_count df' m b L a P = in_count df m b L a P.
Proof. intros E. now rewrite !in_count_inputs, E. Qed.

Lemma out_count_same_output df df' m a P b L :
  output_connections df' m a P = output_connections df m a P ->
  out_count df' m a P b L = out_count df m a P b L.
Proof. intros E. unfold out_count. now rewrite E. Qed.

(** *** The store after an input port is removed *)

Section RemovedInputBalance.
Variables (df2 df' : store) (m id : string) (q k : nat).
Variables (inputs labelled : obj (list in_conn)) (U : list in_conn).

Let lab := port_label "input_".
Let f := renumber_out id (string_of_N (N.of_nat q)).

Hypothesis Hq : 1 <= q <= k.
Hypothesis HB2 : Balanced df2.
Hypothesis Hn1 : option_map n_inputs (node_at df2 m id) = Some inputs.
Hypothesis Hkeys : obj_keys inputs = map lab (seq 1 k).
Hypothesis Hzero : forall b P, in_count df2 m id (lab q) b P = 0.
Hypothesis Hlab : forall j', obj_get (lab j') labelled = obj_get (lab (shift q j')) inputs.
Hypothesis Hlabk : obj_keys labelled = map lab (seq 1 (k - 1)).
Hypothesis Hcov :
  forall L l c, L <> lab q -> obj_get L inputs = Some l -> In c l ->
                In (port_of c) (map port_of U).
Hypothesis Hin_id : option_map n_inputs (node_at df' m id) = Some labelled.
Hypothesis Hin_other :
  forall m' b, m' <> m \/ b <> id ->
               option_map n_inputs (node_at df' m' b) = option_map n_inputs (node_at df2 m' b).
Hypothesis Hout1 :
  forall m' b P, m' <> m \/ ~ In (b, P) (map port_of U) ->
                 output_connections df' m' b P = output_connections df2 m' b P.
Hypothesis Hout2 :
  forall b P, In (b, P) (map port_of U) ->
              output_connections df' m b P
              = option_map (map f) (output_connections df2 m b P).

Lemma removed_input_in_count j' a P :
  in_count df' m id (lab j') a P = in_count df2 m id (lab (shift q j')) a P.
Proof. now rewrite !in_count_inputs, Hin_id, Hn1, Hlab. Qed.

Lemma removed_input_no_port L a P :
  ~ In L (map lab (seq 1 (k - 1))) -> in_count df' m id L a P = 0.
Proof.
  intros HL. rewrite in_count_inputs, Hin_id, obj_get_not_key; [reflexivity|].
  now rewrite Hlabk.
Qed.

Lemma removed_input_on_other_ports a P l :
  output_connections df2 m a P = Some l -> on_other_ports id q k l.
Proof.
  intros Hl e He Hn.
  assert (Hpos : 0 < in_count df2 m id (oc_output e) a P).
  { rewrite <- HB2. unfold out_count. rewrite Hl. exact (count_out_In _ _ _ _ He Hn eq_refl). }
  assert (Hk : In (oc_output e) (obj_keys inputs)).
  { rewrite in_count_inputs, Hn1 in Hpos.
    destruct (obj_get (oc_output e) inputs) as [l'|] eqn:E; [|cbn in Hpos; lia].
    exact (obj_get_is_key _ _ _ E). }
  rewrite Hkeys in Hk. apply in_map_iff in Hk as (j & Ej & Hj). apply in_seq in Hj.
  exists j. split; [lia|]. split; [|now symmetry].
  intros ->. fold lab in Ej. rewrite <- Ej, Hzero in Hpos. lia.
Qed.

Lemma removed_input_uncovered a P L :
  ~ In (a, P) (map port_of U) -> out_count df2 m a P id L = 0.
Proof.
  intros Hnot. destruct (Nat.eq_dec (out_count df2 m a P id L) 0) as [E|Hne]; [exact E|].
  exfalso. rewrite HB2 in Hne.
  assert (HL : L <> lab q) by (intros ->; rewrite Hzero in Hne; lia).
  rewrite in_count_inputs, Hn1 in Hne.
  destruct (obj_get L inputs) as [l|] eqn:El; [|cbn in Hne; lia].
  destruct (count_in_pos_In a P l ltac:(lia)) as (c & Hc & <- & <-).
  exact (Hnot (Hcov L l c HL El Hc)).
Qed.

Lemma removed_input_Balanced : Balanced df'.
Proof.
  intros m' a P b L.
  assert (Hdec : {In (a, P) (map port_of U)} + {~ In (a, P) (map port_of U)}).
  { apply in_dec. intros [x1 x2] [y1 y2].
    destruct (string_dec x1 y1) as [->|]; [destruct (string_dec x2 y2) as [->|]|];
      [left; reflexivity | right; congruence | right; congruence]. }
  destruct (String.eqb_spec m' m) as [->|Hm].
  2:{ rewrite (out_count_same_output df2) by (apply Hout1; now left).
      rewrite (in_count_same_inputs df2) by (apply Hin_other; now left). apply HB2. }
  destruct (String.eqb_spec b id) as [->|Hb].
  2:{ rewrite (in_count_same_inputs df2) by (apply Hin_other; now right).
      rewrite <- HB2. destruct Hdec as [Hi|Hn].
      - unfold out_count. rewrite (Hout2 _ _ Hi).
        destruct (output_connections df2 m a P) as [l|]; [|reflexivity].
        cbn [option_map]. unfold f.
        apply (count_out_renumbered_other id q b L l Hb).
      - apply out_count_same_output, Hout1. now right. }
  destruct (in_dec string_dec L (map lab (seq 1 (k - 1)))) as [HL|HL].
  - apply in_map_iff in HL as (j' & <- & _).
    rewrite removed_input_in_count, <- HB2. destruct Hdec as [Hi|Hn].
    + unfold out_count. rewrite (Hout2 _ _ Hi).
      destruct (output_connections df2 m a P) as [l|] eqn:El; [|reflexivity].
      cbn [option_map]. unfold f, lab.
      apply (count_out_renumbered id q k Hq j' l), (removed_input_on_other_ports a P l El).
    + rewrite (out_count_same_output df2) by (apply Hout1; now right).
      now rewrite !removed_input_uncovered.
  - rewrite (removed_input_no_port L a P HL). destruct Hdec as [Hi|Hn].
    + unfold out_count. rewrite (Hout2 _ _ Hi).
      destruct (output_connections df2 m a P) as [l|] eqn:El; [|reflexivity].
      cbn [option_map]. unfold f.
      apply (count_out_renumbered_none id q k Hq L l (removed_input_on_other_ports a P l El) HL).
    + rewrite (out_count_same_output df2) by (apply Hout1; now right).
      now apply removed_input_uncovered.
Qed.

End RemovedInputBalance.


Lemma In_obj_values_concat {A} k (l : list A) c (o : obj (list A)) :
  obj_get k o = Some l -> In c l -> In c (concat (obj_values o)).
Proof.
  intros Hg Hc. apply in_concat. exists l. split; [|exact Hc].
  apply obj_get_In in Hg. unfold obj_values. change l with (snd (k, l)).
  apply in_map, Hg.
Qed.

Lemma In_obj_delete {A} k (kv : string * A) (o : obj A) :
  In kv (obj_delete k o) -> In kv o.
Proof.
  induction o as [|[j v] r IH]; cbn [obj_delete]; [tauto|].
  destruct (j =? k); [now right|]. intros [H|H]; [now left | right; apply IH, H].
Qed.

(** X26.  Removing an input port keeps the store balanced.  Let the store
    be balanced, let the node [id] of module [m] have the inputs [input_1]
    to [input_k], none of whose entries has reroute points, and let no id
    of module [m] be used in a later module.  When
    [removeNodeInput id input_q] returns, [q] was one of 1..k, the store is
    balanced again, and every output port holds for the input that is now
    number [j'] of the node as many entries as it held for the input that
    was number [shift q j']: [j'] below [q], [j' + 1] from [q] on. *)
Theorem removeNodeInput_keeps_balance :
  forall (s : editor) (m id : string) (n : node) (k q : nat),
    Balanced (drawflow s) ->
    getModuleFromNodeId (drawflow s) id = Some m ->
    node_at (drawflow s) m id = Some n ->
    (forall b, node_at (drawflow s) m b <> None ->
               getModuleFromNodeId (drawflow s) b = Some m) ->
    obj_keys (n_inputs n) = map (port_label "input_") (seq 1 k) ->
    (forall L l c, obj_get L (n_inputs n) = Some l -> In c l -> ic_points c = None) ->
    forall s',
      removeNodeInput id (port_label "input_" q) s = Normal s' tt ->
      1 <= q <= k
      /\ Balanced (drawflow s')
      /\ forall a P j',
           out_count (drawflow s') m a P id (port_label "input_" j')
           = out_count (drawflow s) m a P id (port_label "input_" (shift q j')).
Proof.
  intros s m id n k q HB Hmod Hn Hhome Hdense Hpts s' Hrun.
  set (Q := port_label "input_" q) in *.
  assert (Hnd : NoDup (obj_keys (n_inputs n))) by (rewrite Hdense; apply NoDup_port_labels).
  assert (H : wp (remove_input_port id Q)
                (fun _ s' =>
                   1 <= q <= k
                   /\ Balanced (drawflow s')
                   /\ forall a P j',
                        out_count (drawflow s') m a P id (port_label "input_" j')
                        = out_count (drawflow s) m a P id (port_label "input_" (shift q j'))) s);
    [|exact (H s' tt (removeNodeInput_Normal _ _ _ _ Hrun))].
  clear s' Hrun.
  unfold remove_input_port. apply wp_bind, wp_gets. cbv zeta. rewrite Hmod. cbn [key_of].
  apply wp_bind. eapply wp_of_eq; [apply (getNodeFromId_found _ _ _ _ Hmod Hn)|].
  apply wp_bind, wp_gets.
  set (active := same_key (module s) (Some m)).
  set (df0 := drawflow s) in *.
  set (removed := slice 6 Q).
  match goal with |- wp (_ ;; ?rest) ?Q s =>
    assert (Hrest : forall s1, drawflow s1 = df0 -> wp rest Q s1)
  end.
  2:{ apply wp_bind, wp_when; intros _.
      - apply wp_bind, wp_gets, wp_bind, wp_defined. intros eles' _.
        apply wp_modify, Hrest. reflexivity.
      - apply Hrest. reflexivity. }
  intros s1 Hs1.
  apply wp_bind, wp_defined. intros removed_port Hport.
  cbn [clone_node n_inputs] in Hport. rewrite obj_get_clone_obj in Hport.
  destruct (obj_get Q (n_inputs n)) as [port0|] eqn:HQ0; [|discriminate].
  cbn [option_map] in Hport. injection Hport as <-.
  assert (HQ : In Q (obj_keys (n_inputs n))) by exact (obj_get_is_key _ _ _ HQ0).
  assert (Hq : 1 <= q <= k).
  { rewrite Hdense in HQ. apply in_map_iff in HQ as (j & Ej & Hj).
    apply port_label_inj in Ej. subst j. apply in_seq in Hj. lia. }
  (* the connections of the port go *)
  apply wp_bind. eapply wp_mono.
  { apply wp_conj.
    - apply (wp_forEach (fun s0 => disconnect_inv df0 m id Q (n_inputs n) (drawflow s0))).
      + rewrite Hs1. split; [reflexivity|]. split.
        * exists n. auto.
        * intros b P l0 e Hl0 He _. exists l0. auto.
      + intros x s0 _ H0. apply wp_bind.
        eapply wp_mono;
          [apply (removeSingleConnection_keeps df0 m id Q (n_inputs n) Hmod _ _ s0 H0)|].
        intros bres s3 H3. apply wp_ret, H3.
    - apply (disconnect_loop_counts df0 m id Q Hmod Hhome).
      rewrite Hs1. split; [reflexivity|]. split; [exact HB|]. split.
      + intros b P. rewrite count_in_clone. unfold in_count, input_connections.
        fold df0. rewrite Hn, HQ0. reflexivity.
      + reflexivity. }
  intros u s2 ((Hk & (n1 & Hn1 & Hkeys & Hget) & _) & (_ & HB2 & Hzero & Hsame)).
  cbv beta in Hzero.
  assert (Hdel : obj_delete Q (n_inputs n1) = obj_delete Q (n_inputs n))
    by (apply obj_delete_ext; assumption).
  (* delete inputs[input_class] *)
  apply wp_bind, wp_gets, wp_bind, wp_defined. intros n0 Hn0.
  rewrite Hn1 in Hn0. injection Hn0 as <-.
  apply wp_bind. unfold set_drawflow at 1. apply wp_modify.
  apply wp_bind, wp_gets. cbn [drawflow with_drawflow].
  rewrite Hdel.
  set (rest := obj_delete Q (n_inputs n)).
  set (n2 := with_inputs n1 rest).
  set (df2 := set_node (drawflow s2) m id n2).
  assert (Hn2 : node_at df2 m id = Some n2) by apply (node_at_set_node_same _ _ _ _ _ Hn1).
  apply wp_bind, wp_defined. intros n0 Hn0.
  rewrite Hn2 in Hn0. injection Hn0 as <-.
  (* the inputs relabelled by position *)
  apply wp_bind. unfold set_drawflow at 1. apply wp_modify.
  cbn [n_inputs n2 with_inputs].
  rewrite (relabel_labels "input_" (obj_values rest) input_label_no_index).
  set (labelled := combine (map (port_label "input_") (seq 1 (length (obj_values rest))))
                     (obj_values rest)).
  set (n3 := with_inputs n2 labelled).
  set (df3 := set_node df2 m id n3).
  set (U := dedup in_conn_eqb clone_in_conn (concat (obj_values rest))).
  assert (Hn3 : node_at df3 m id = Some n3) by apply (node_at_set_node_same _ _ _ _ _ Hn2).
  assert (Hout3 : forall m' b P, output_connections df3 m' b P
                                 = output_connections (drawflow s2) m' b P).
  { intros m' b P. unfold df3, n3. rewrite (output_set_node_inputs _ _ _ _ _ _ _ _ Hn2).
    unfold df2, n2. apply (output_set_node_inputs _ _ _ _ _ _ _ _ Hn1). }
  assert (Hin3 : forall m' b, m' <> m \/ b <> id ->
                              node_at df3 m' b = node_at (drawflow s2) m' b).
  { intros m' b Hne. unfold df3. rewrite (node_at_set_node_other _ _ _ _ _ Hn2) by exact Hne.
    unfold df2. apply (node_at_set_node_other _ _ _ _ _ Hn1), Hne. }
  assert (HU : NoDup (map port_of U)).
  { apply dedup_ports. intros c Hc. apply in_concat in Hc as (l & Hl & Hc).
    unfold obj_values in Hl. apply in_map_iff in Hl as ([L l'] & El & Hl).
    cbn [snd] in El. subst l'. apply In_obj_delete in Hl.
    apply (Hpts L l c); [apply obj_get_NoDup_In; assumption | exact Hc]. }
  match goal with |- wp (_ ;; ?rest) ?Q _ =>
    assert (Hloop : forall s4, drawflow s4 = df3 -> wp rest Q s4)
  end.
  2:{ apply wp_bind, wp_when; intros _.
      - apply wp_bind, wp_gets.
        destruct (rename_port_eles true ("node-" ++ id) removed _) as [eles' ended].
        apply wp_bind, wp_modify.
        destruct ended; [apply wp_ret | apply wp_throw | apply wp_outside_model].
        apply Hloop. reflexivity.
      - apply Hloop. reflexivity. }
  (* the peers *)
  intros s4 Hs4. eapply wp_mono.
  { apply (peers_loop_outputs m active id removed df3 U s4 Hs4 HU). }
  intros u' s' (Ho1 & Ho2 & Hi & Hk').
  assert (Hrem : removed = string_of_N (N.of_nat q)) by apply slice_input_label.
  assert (Hlab : forall j', obj_get (port_label "input_" j') labelled
                            = obj_get (port_label "input_" (shift q j')) (n_inputs n)).
  { intros j'. apply (obj_get_relabelled "input_" (n_inputs n) k q j' Hdense Hq). }
  assert (Hshift : forall j', port_label "input_" (shift q j') <> Q).
  { intros j' E. apply port_label_inj in E. unfold shift in E.
    destruct (Nat.ltb_spec j' q); lia. }
  assert (HB' : Balanced (drawflow s')).
  { refine (removed_input_Balanced (drawflow s2) (drawflow s') m id q k (n_inputs n1)
              labelled U Hq HB2 _ _ _ _ _ _ _ _ _ _).
    - now rewrite Hn1.
    - now rewrite Hkeys.
    - intros b P. apply Hzero.
    - intros j'. rewrite Hlab. symmetry. apply Hget, Hshift.
    - apply (obj_keys_relabelled "input_" (n_inputs n) k Q Hdense HQ).
    - intros L l c HL Hl Hc. rewrite (Hget L HL) in Hl.
      destruct (dedup_in_conn_covers (concat (obj_values rest)) c) as (x & Hx & E1 & E2).
      { apply (In_obj_values_concat L l c rest); [|exact Hc].
        unfold rest. now rewrite obj_get_delete_other. }
      unfold port_of at 1. rewrite <- E1, <- E2. apply (in_map port_of), Hx.
    - rewrite Hi, Hn3. reflexivity.
    - intros m' b Hne. now rewrite Hi, (Hin3 m' b Hne).
    - intros m' b P Hne. rewrite (Ho1 m' b P Hne). apply Hout3.
    - intros b P Hin. rewrite (Ho2 b P Hin), Hout3, Hrem. reflexivity. }
  split; [exact Hq|]. split; [exact HB'|].
  intros a P j'. rewrite HB', HB.
  rewrite !in_count_inputs, Hi, Hn3. fold df0. rewrite Hn.
  cbn [option_map n_inputs n3 with_inputs]. now rewrite Hlab.
Qed.

Lemma single_module_home m (data : obj node) b :
  node_at [(m, data)] m b <> None -> getModuleFromNodeId [(m, data)] b = Some m.
Proof.
  intros Hb. apply getModuleFromNodeId_last. exists [], data, [].
  split; [reflexivity|]. split; [|intros m' d' []].
  unfold node_at in Hb. cbn [obj_get] in Hb. now rewrite String.eqb_refl in Hb.
Qed.

Lemma removeNodeInput_keeps_balance_witness :
  1 <= 1 <= 3
  /\ Balanced (drawflow input_1_removed)
  /\ forall a P j',
       out_count (drawflow input_1_removed) "Home" a P "1" (port_label "input_" j')
       = out_count (drawflow renumbering_example) "Home" a P "1"
           (port_label "input_" (shift 1 j')).
Proof.
  assert (Hrun : removeNodeInput "1" "input_1" renumbering_example = Normal input_1_removed tt).
  { vm_compute. reflexivity. }
  refine (removeNodeInput_keeps_balance renumbering_example "Home" "1" _ 3 1
            _ eq_refl eq_refl _ _ _ input_1_removed Hrun).
  - apply balanced_Balanced. vm_compute. reflexivity.
  - intros b. apply (single_module_home "Home").
  - vm_compute. reflexivity.
  - intros L l c Hg Hc. apply obj_get_In in Hg. vm_compute in Hg.
    repeat (destruct Hg as [Hg|Hg]; [injection Hg as <- <-|]); [| | |destruct Hg];
      vm_compute in Hc;
      repeat (destruct Hc as [Hc|Hc]; [subst c; reflexivity|]); destruct Hc.
Defined.
